(** * bharat-courts: the retrieval protocol, the transport and the parsers

    A shallow embedding of the Python package [bharat_courts]:
    - [http.py]               the rate-limited transport ([RateLimitedClient]),
    - [hcservices/parser.py]  the JSON-envelope and HTML-table parsers,
    - [judgments/parser.py]   the judgment-search parser,
    - [hcservices/client.py], [judgments/client.py]  the session protocols,
    - [models.py]             the records the parsers build.

    Conventions of the embedding.
    - A Python [str] is the list of its code points ([Py.str]).  White
      space ([\s], [strip], [split]) and word characters ([\w], [\b]) are
      those of CPython 3.11 (Unicode 14.0.0) on every code point, and
      IGNORECASE is given for the ASCII letters of the package's patterns,
      with the characters Unicode folds to them.  Digits ([\d], [int]) and
      [str.lower] are given for ASCII: any other code point is taken as no
      digit and as its own lower case.
    - A Python [int] is a [Z]; a [float] is the rational it denotes.
    - A function that may raise returns an [outcome]; code that talks to
      the network runs in the monad [io], whose state is the trace of the
      events so far and whose environment answers each request.
    - [BeautifulSoup(html, 'lxml')] and Python's [repr] are libraries
      outside the package: they are parameters ([libs]). *)

From Stdlib Require Import String Ascii List Bool ZArith NArith QArith Qround Lia.
From Stdlib Require DecimalString.
Import ListNotations.
Local Close Scope Q_scope.
Local Open Scope N_scope.

Set Implicit Arguments.
Set Warnings "-register-all".

(* ================================================================== *)
(** ** Python's built-in strings *)
(* ================================================================== *)

Module Py.

(** A [str]: the sequence of its code points. *)
Definition str := list N.

(** A literal, written in ASCII. *)
Definition lit (s : string) : str := map N_of_ascii (list_ascii_of_string s).

(** The code point of the double quote, and a literal in which every
    apostrophe stands for a double quote (JSON bodies are written so). *)
Definition dquote : N := 34.
Definition q (s : string) : str :=
  map (fun c => if c =? 39 then dquote else c) (lit s).

(** U+FEFF, the byte-order mark. *)
Definition BOM : N := 0xFEFF.

Definition eqb (a b : str) : bool :=
  if list_eq_dec N.eq_dec a b then true else false.

(** [str.isspace] on one code point (the white-space code points of
    CPython's [_PyUnicode_IsWhitespace]). *)
Definition isspace (c : N) : bool :=
  ((9 <=? c) && (c <=? 13)) || ((28 <=? c) && (c <=? 32))
  || (c =? 0x85) || (c =? 0xA0) || (c =? 0x1680)
  || ((0x2000 <=? c) && (c <=? 0x200A))
  || (c =? 0x2028) || (c =? 0x2029) || (c =? 0x202F) || (c =? 0x205F)
  || (c =? 0x3000).

Definition isdigit (c : N) : bool := (48 <=? c) && (c <=? 57).
Definition isupper (c : N) : bool := (65 <=? c) && (c <=? 90).
Definition islower (c : N) : bool := (97 <=? c) && (c <=? 122).

(** Membership in a table of ranges of code points, in increasing order. *)
Fixpoint in_ranges (c : N) (table : list (N * N)) : bool :=
  match table with
  | [] => false
  | (lo, hi) :: rest =>
      if c <? lo then false else if c <=? hi then true else in_ranges c rest
  end.

(** The code points [c] on which [chr(c).isalnum()] holds: the letters and
    the numbers of the Unicode database (version 14.0.0, that of CPython
    3.11), as ranges. *)
Definition ALNUM : list (N * N) :=
  [(0x30, 0x39); (0x41, 0x5A); (0x61, 0x7A); (0xAA, 0xAA); (0xB2, 0xB3); (0xB5, 0xB5);
   (0xB9, 0xBA); (0xBC, 0xBE); (0xC0, 0xD6); (0xD8, 0xF6); (0xF8, 0x2C1);
   (0x2C6, 0x2D1); (0x2E0, 0x2E4); (0x2EC, 0x2EC); (0x2EE, 0x2EE); (0x370, 0x374);
   (0x376, 0x377); (0x37A, 0x37D); (0x37F, 0x37F); (0x386, 0x386); (0x388, 0x38A);
   (0x38C, 0x38C); (0x38E, 0x3A1); (0x3A3, 0x3F5); (0x3F7, 0x481); (0x48A, 0x52F);
   (0x531, 0x556); (0x559, 0x559); (0x560, 0x588); (0x5D0, 0x5EA); (0x5EF, 0x5F2);
   (0x620, 0x64A); (0x660, 0x669); (0x66E, 0x66F); (0x671, 0x6D3); (0x6D5, 0x6D5);
   (0x6E5, 0x6E6); (0x6EE, 0x6FC); (0x6FF, 0x6FF); (0x710, 0x710); (0x712, 0x72F);
   (0x74D, 0x7A5); (0x7B1, 0x7B1); (0x7C0, 0x7EA); (0x7F4, 0x7F5); (0x7FA, 0x7FA);
   (0x800, 0x815); (0x81A, 0x81A); (0x824, 0x824); (0x828, 0x828); (0x840, 0x858);
   (0x860, 0x86A); (0x870, 0x887); (0x889, 0x88E); (0x8A0, 0x8C9); (0x904, 0x939);
   (0x93D, 0x93D); (0x950, 0x950); (0x958, 0x961); (0x966, 0x96F); (0x971, 0x980);
   (0x985, 0x98C); (0x98F, 0x990); (0x993, 0x9A8); (0x9AA, 0x9B0); (0x9B2, 0x9B2);
   (0x9B6, 0x9B9); (0x9BD, 0x9BD); (0x9CE, 0x9CE); (0x9DC, 0x9DD); (0x9DF, 0x9E1);
   (0x9E6, 0x9F1); (0x9F4, 0x9F9); (0x9FC, 0x9FC); (0xA05, 0xA0A); (0xA0F, 0xA10);
   (0xA13, 0xA28); (0xA2A, 0xA30); (0xA32, 0xA33); (0xA35, 0xA36); (0xA38, 0xA39);
   (0xA59, 0xA5C); (0xA5E, 0xA5E); (0xA66, 0xA6F); (0xA72, 0xA74); (0xA85, 0xA8D);
   (0xA8F, 0xA91); (0xA93, 0xAA8); (0xAAA, 0xAB0); (0xAB2, 0xAB3); (0xAB5, 0xAB9);
   (0xABD, 0xABD); (0xAD0, 0xAD0); (0xAE0, 0xAE1); (0xAE6, 0xAEF); (0xAF9, 0xAF9);
   (0xB05, 0xB0C); (0xB0F, 0xB10); (0xB13, 0xB28); (0xB2A, 0xB30); (0xB32, 0xB33);
   (0xB35, 0xB39); (0xB3D, 0xB3D); (0xB5C, 0xB5D); (0xB5F, 0xB61); (0xB66, 0xB6F);
   (0xB71, 0xB77); (0xB83, 0xB83); (0xB85, 0xB8A); (0xB8E, 0xB90); (0xB92, 0xB95);
   (0xB99, 0xB9A); (0xB9C, 0xB9C); (0xB9E, 0xB9F); (0xBA3, 0xBA4); (0xBA8, 0xBAA);
   (0xBAE, 0xBB9); (0xBD0, 0xBD0); (0xBE6, 0xBF2); (0xC05, 0xC0C); (0xC0E, 0xC10);
   (0xC12, 0xC28); (0xC2A, 0xC39); (0xC3D, 0xC3D); (0xC58, 0xC5A); (0xC5D, 0xC5D);
   (0xC60, 0xC61); (0xC66, 0xC6F); (0xC78, 0xC7E); (0xC80, 0xC80); (0xC85, 0xC8C);
   (0xC8E, 0xC90); (0xC92, 0xCA8); (0xCAA, 0xCB3); (0xCB5, 0xCB9); (0xCBD, 0xCBD);
   (0xCDD, 0xCDE); (0xCE0, 0xCE1); (0xCE6, 0xCEF); (0xCF1, 0xCF2); (0xD04, 0xD0C);
   (0xD0E, 0xD10); (0xD12, 0xD3A); (0xD3D, 0xD3D); (0xD4E, 0xD4E); (0xD54, 0xD56);
   (0xD58, 0xD61); (0xD66, 0xD78); (0xD7A, 0xD7F); (0xD85, 0xD96); (0xD9A, 0xDB1);
   (0xDB3, 0xDBB); (0xDBD, 0xDBD); (0xDC0, 0xDC6); (0xDE6, 0xDEF); (0xE01, 0xE30);
   (0xE32, 0xE33); (0xE40, 0xE46); (0xE50, 0xE59); (0xE81, 0xE82); (0xE84, 0xE84);
   (0xE86, 0xE8A); (0xE8C, 0xEA3); (0xEA5, 0xEA5); (0xEA7, 0xEB0); (0xEB2, 0xEB3);
   (0xEBD, 0xEBD); (0xEC0, 0xEC4); (0xEC6, 0xEC6); (0xED0, 0xED9); (0xEDC, 0xEDF);
   (0xF00, 0xF00); (0xF20, 0xF33); (0xF40, 0xF47); (0xF49, 0xF6C); (0xF88, 0xF8C);
   (0x1000, 0x102A); (0x103F, 0x1049); (0x1050, 0x1055); (0x105A, 0x105D);
   (0x1061, 0x1061); (0x1065, 0x1066); (0x106E, 0x1070); (0x1075, 0x1081);
   (0x108E, 0x108E); (0x1090, 0x1099); (0x10A0, 0x10C5); (0x10C7, 0x10C7);
   (0x10CD, 0x10CD); (0x10D0, 0x10FA); (0x10FC, 0x1248); (0x124A, 0x124D);
   (0x1250, 0x1256); (0x1258, 0x1258); (0x125A, 0x125D); (0x1260, 0x1288);
   (0x128A, 0x128D); (0x1290, 0x12B0); (0x12B2, 0x12B5); (0x12B8, 0x12BE);
   (0x12C0, 0x12C0); (0x12C2, 0x12C5); (0x12C8, 0x12D6); (0x12D8, 0x1310);
   (0x1312, 0x1315); (0x1318, 0x135A); (0x1369, 0x137C); (0x1380, 0x138F);
   (0x13A0, 0x13F5); (0x13F8, 0x13FD); (0x1401, 0x166C); (0x166F, 0x167F);
   (0x1681, 0x169A); (0x16A0, 0x16EA); (0x16EE, 0x16F8); (0x1700, 0x1711);
   (0x171F, 0x1731); (0x1740, 0x1751); (0x1760, 0x176C); (0x176E, 0x1770);
   (0x1780, 0x17B3); (0x17D7, 0x17D7); (0x17DC, 0x17DC); (0x17E0, 0x17E9);
   (0x17F0, 0x17F9); (0x1810, 0x1819); (0x1820, 0x1878); (0x1880, 0x1884);
   (0x1887, 0x18A8); (0x18AA, 0x18AA); (0x18B0, 0x18F5); (0x1900, 0x191E);
   (0x1946, 0x196D); (0x1970, 0x1974); (0x1980, 0x19AB); (0x19B0, 0x19C9);
   (0x19D0, 0x19DA); (0x1A00, 0x1A16); (0x1A20, 0x1A54); (0x1A80, 0x1A89);
   (0x1A90, 0x1A99); (0x1AA7, 0x1AA7); (0x1B05, 0x1B33); (0x1B45, 0x1B4C);
   (0x1B50, 0x1B59); (0x1B83, 0x1BA0); (0x1BAE, 0x1BE5); (0x1C00, 0x1C23);
   (0x1C40, 0x1C49); (0x1C4D, 0x1C7D); (0x1C80, 0x1C88); (0x1C90, 0x1CBA);
   (0x1CBD, 0x1CBF); (0x1CE9, 0x1CEC); (0x1CEE, 0x1CF3); (0x1CF5, 0x1CF6);
   (0x1CFA, 0x1CFA); (0x1D00, 0x1DBF); (0x1E00, 0x1F15); (0x1F18, 0x1F1D);
   (0x1F20, 0x1F45); (0x1F48, 0x1F4D); (0x1F50, 0x1F57); (0x1F59, 0x1F59);
   (0x1F5B, 0x1F5B); (0x1F5D, 0x1F5D); (0x1F5F, 0x1F7D); (0x1F80, 0x1FB4);
   (0x1FB6, 0x1FBC); (0x1FBE, 0x1FBE); (0x1FC2, 0x1FC4); (0x1FC6, 0x1FCC);
   (0x1FD0, 0x1FD3); (0x1FD6, 0x1FDB); (0x1FE0, 0x1FEC); (0x1FF2, 0x1FF4);
   (0x1FF6, 0x1FFC); (0x2070, 0x2071); (0x2074, 0x2079); (0x207F, 0x2089);
   (0x2090, 0x209C); (0x2102, 0x2102); (0x2107, 0x2107); (0x210A, 0x2113);
   (0x2115, 0x2115); (0x2119, 0x211D); (0x2124, 0x2124); (0x2126, 0x2126);
   (0x2128, 0x2128); (0x212A, 0x212D); (0x212F, 0x2139); (0x213C, 0x213F);
   (0x2145, 0x2149); (0x214E, 0x214E); (0x2150, 0x2189); (0x2460, 0x249B);
   (0x24EA, 0x24FF); (0x2776, 0x2793); (0x2C00, 0x2CE4); (0x2CEB, 0x2CEE);
   (0x2CF2, 0x2CF3); (0x2CFD, 0x2CFD); (0x2D00, 0x2D25); (0x2D27, 0x2D27);
   (0x2D2D, 0x2D2D); (0x2D30, 0x2D67); (0x2D6F, 0x2D6F); (0x2D80, 0x2D96);
   (0x2DA0, 0x2DA6); (0x2DA8, 0x2DAE); (0x2DB0, 0x2DB6); (0x2DB8, 0x2DBE);
   (0x2DC0, 0x2DC6); (0x2DC8, 0x2DCE); (0x2DD0, 0x2DD6); (0x2DD8, 0x2DDE);
   (0x2E2F, 0x2E2F); (0x3005, 0x3007); (0x3021, 0x3029); (0x3031, 0x3035);
   (0x3038, 0x303C); (0x3041, 0x3096); (0x309D, 0x309F); (0x30A1, 0x30FA);
   (0x30FC, 0x30FF); (0x3105, 0x312F); (0x3131, 0x318E); (0x3192, 0x3195);
   (0x31A0, 0x31BF); (0x31F0, 0x31FF); (0x3220, 0x3229); (0x3248, 0x324F);
   (0x3251, 0x325F); (0x3280, 0x3289); (0x32B1, 0x32BF); (0x3400, 0x4DBF);
   (0x4E00, 0xA48C); (0xA4D0, 0xA4FD); (0xA500, 0xA60C); (0xA610, 0xA62B);
   (0xA640, 0xA66E); (0xA67F, 0xA69D); (0xA6A0, 0xA6EF); (0xA717, 0xA71F);
   (0xA722, 0xA788); (0xA78B, 0xA7CA); (0xA7D0, 0xA7D1); (0xA7D3, 0xA7D3);
   (0xA7D5, 0xA7D9); (0xA7F2, 0xA801); (0xA803, 0xA805); (0xA807, 0xA80A);
   (0xA80C, 0xA822); (0xA830, 0xA835); (0xA840, 0xA873); (0xA882, 0xA8B3);
   (0xA8D0, 0xA8D9); (0xA8F2, 0xA8F7); (0xA8FB, 0xA8FB); (0xA8FD, 0xA8FE);
   (0xA900, 0xA925); (0xA930, 0xA946); (0xA960, 0xA97C); (0xA984, 0xA9B2);
   (0xA9CF, 0xA9D9); (0xA9E0, 0xA9E4); (0xA9E6, 0xA9FE); (0xAA00, 0xAA28);
   (0xAA40, 0xAA42); (0xAA44, 0xAA4B); (0xAA50, 0xAA59); (0xAA60, 0xAA76);
   (0xAA7A, 0xAA7A); (0xAA7E, 0xAAAF); (0xAAB1, 0xAAB1); (0xAAB5, 0xAAB6);
   (0xAAB9, 0xAABD); (0xAAC0, 0xAAC0); (0xAAC2, 0xAAC2); (0xAADB, 0xAADD);
   (0xAAE0, 0xAAEA); (0xAAF2, 0xAAF4); (0xAB01, 0xAB06); (0xAB09, 0xAB0E);
   (0xAB11, 0xAB16); (0xAB20, 0xAB26); (0xAB28, 0xAB2E); (0xAB30, 0xAB5A);
   (0xAB5C, 0xAB69); (0xAB70, 0xABE2); (0xABF0, 0xABF9); (0xAC00, 0xD7A3);
   (0xD7B0, 0xD7C6); (0xD7CB, 0xD7FB); (0xF900, 0xFA6D); (0xFA70, 0xFAD9);
   (0xFB00, 0xFB06); (0xFB13, 0xFB17); (0xFB1D, 0xFB1D); (0xFB1F, 0xFB28);
   (0xFB2A, 0xFB36); (0xFB38, 0xFB3C); (0xFB3E, 0xFB3E); (0xFB40, 0xFB41);
   (0xFB43, 0xFB44); (0xFB46, 0xFBB1); (0xFBD3, 0xFD3D); (0xFD50, 0xFD8F);
   (0xFD92, 0xFDC7); (0xFDF0, 0xFDFB); (0xFE70, 0xFE74); (0xFE76, 0xFEFC);
   (0xFF10, 0xFF19); (0xFF21, 0xFF3A); (0xFF41, 0xFF5A); (0xFF66, 0xFFBE);
   (0xFFC2, 0xFFC7); (0xFFCA, 0xFFCF); (0xFFD2, 0xFFD7); (0xFFDA, 0xFFDC);
   (0x10000, 0x1000B); (0x1000D, 0x10026); (0x10028, 0x1003A); (0x1003C, 0x1003D);
   (0x1003F, 0x1004D); (0x10050, 0x1005D); (0x10080, 0x100FA); (0x10107, 0x10133);
   (0x10140, 0x10178); (0x1018A, 0x1018B); (0x10280, 0x1029C); (0x102A0, 0x102D0);
   (0x102E1, 0x102FB); (0x10300, 0x10323); (0x1032D, 0x1034A); (0x10350, 0x10375);
   (0x10380, 0x1039D); (0x103A0, 0x103C3); (0x103C8, 0x103CF); (0x103D1, 0x103D5);
   (0x10400, 0x1049D); (0x104A0, 0x104A9); (0x104B0, 0x104D3); (0x104D8, 0x104FB);
   (0x10500, 0x10527); (0x10530, 0x10563); (0x10570, 0x1057A); (0x1057C, 0x1058A);
   (0x1058C, 0x10592); (0x10594, 0x10595); (0x10597, 0x105A1); (0x105A3, 0x105B1);
   (0x105B3, 0x105B9); (0x105BB, 0x105BC); (0x10600, 0x10736); (0x10740, 0x10755);
   (0x10760, 0x10767); (0x10780, 0x10785); (0x10787, 0x107B0); (0x107B2, 0x107BA);
   (0x10800, 0x10805); (0x10808, 0x10808); (0x1080A, 0x10835); (0x10837, 0x10838);
   (0x1083C, 0x1083C); (0x1083F, 0x10855); (0x10858, 0x10876); (0x10879, 0x1089E);
   (0x108A7, 0x108AF); (0x108E0, 0x108F2); (0x108F4, 0x108F5); (0x108FB, 0x1091B);
   (0x10920, 0x10939); (0x10980, 0x109B7); (0x109BC, 0x109CF); (0x109D2, 0x10A00);
   (0x10A10, 0x10A13); (0x10A15, 0x10A17); (0x10A19, 0x10A35); (0x10A40, 0x10A48);
   (0x10A60, 0x10A7E); (0x10A80, 0x10A9F); (0x10AC0, 0x10AC7); (0x10AC9, 0x10AE4);
   (0x10AEB, 0x10AEF); (0x10B00, 0x10B35); (0x10B40, 0x10B55); (0x10B58, 0x10B72);
   (0x10B78, 0x10B91); (0x10BA9, 0x10BAF); (0x10C00, 0x10C48); (0x10C80, 0x10CB2);
   (0x10CC0, 0x10CF2); (0x10CFA, 0x10D23); (0x10D30, 0x10D39); (0x10E60, 0x10E7E);
   (0x10E80, 0x10EA9); (0x10EB0, 0x10EB1); (0x10F00, 0x10F27); (0x10F30, 0x10F45);
   (0x10F51, 0x10F54); (0x10F70, 0x10F81); (0x10FB0, 0x10FCB); (0x10FE0, 0x10FF6);
   (0x11003, 0x11037); (0x11052, 0x1106F); (0x11071, 0x11072); (0x11075, 0x11075);
   (0x11083, 0x110AF); (0x110D0, 0x110E8); (0x110F0, 0x110F9); (0x11103, 0x11126);
   (0x11136, 0x1113F); (0x11144, 0x11144); (0x11147, 0x11147); (0x11150, 0x11172);
   (0x11176, 0x11176); (0x11183, 0x111B2); (0x111C1, 0x111C4); (0x111D0, 0x111DA);
   (0x111DC, 0x111DC); (0x111E1, 0x111F4); (0x11200, 0x11211); (0x11213, 0x1122B);
   (0x11280, 0x11286); (0x11288, 0x11288); (0x1128A, 0x1128D); (0x1128F, 0x1129D);
   (0x1129F, 0x112A8); (0x112B0, 0x112DE); (0x112F0, 0x112F9); (0x11305, 0x1130C);
   (0x1130F, 0x11310); (0x11313, 0x11328); (0x1132A, 0x11330); (0x11332, 0x11333);
   (0x11335, 0x11339); (0x1133D, 0x1133D); (0x11350, 0x11350); (0x1135D, 0x11361);
   (0x11400, 0x11434); (0x11447, 0x1144A); (0x11450, 0x11459); (0x1145F, 0x11461);
   (0x11480, 0x114AF); (0x114C4, 0x114C5); (0x114C7, 0x114C7); (0x114D0, 0x114D9);
   (0x11580, 0x115AE); (0x115D8, 0x115DB); (0x11600, 0x1162F); (0x11644, 0x11644);
   (0x11650, 0x11659); (0x11680, 0x116AA); (0x116B8, 0x116B8); (0x116C0, 0x116C9);
   (0x11700, 0x1171A); (0x11730, 0x1173B); (0x11740, 0x11746); (0x11800, 0x1182B);
   (0x118A0, 0x118F2); (0x118FF, 0x11906); (0x11909, 0x11909); (0x1190C, 0x11913);
   (0x11915, 0x11916); (0x11918, 0x1192F); (0x1193F, 0x1193F); (0x11941, 0x11941);
   (0x11950, 0x11959); (0x119A0, 0x119A7); (0x119AA, 0x119D0); (0x119E1, 0x119E1);
   (0x119E3, 0x119E3); (0x11A00, 0x11A00); (0x11A0B, 0x11A32); (0x11A3A, 0x11A3A);
   (0x11A50, 0x11A50); (0x11A5C, 0x11A89); (0x11A9D, 0x11A9D); (0x11AB0, 0x11AF8);
   (0x11C00, 0x11C08); (0x11C0A, 0x11C2E); (0x11C40, 0x11C40); (0x11C50, 0x11C6C);
   (0x11C72, 0x11C8F); (0x11D00, 0x11D06); (0x11D08, 0x11D09); (0x11D0B, 0x11D30);
   (0x11D46, 0x11D46); (0x11D50, 0x11D59); (0x11D60, 0x11D65); (0x11D67, 0x11D68);
   (0x11D6A, 0x11D89); (0x11D98, 0x11D98); (0x11DA0, 0x11DA9); (0x11EE0, 0x11EF2);
   (0x11FB0, 0x11FB0); (0x11FC0, 0x11FD4); (0x12000, 0x12399); (0x12400, 0x1246E);
   (0x12480, 0x12543); (0x12F90, 0x12FF0); (0x13000, 0x1342E); (0x14400, 0x14646);
   (0x16800, 0x16A38); (0x16A40, 0x16A5E); (0x16A60, 0x16A69); (0x16A70, 0x16ABE);
   (0x16AC0, 0x16AC9); (0x16AD0, 0x16AED); (0x16B00, 0x16B2F); (0x16B40, 0x16B43);
   (0x16B50, 0x16B59); (0x16B5B, 0x16B61); (0x16B63, 0x16B77); (0x16B7D, 0x16B8F);
   (0x16E40, 0x16E96); (0x16F00, 0x16F4A); (0x16F50, 0x16F50); (0x16F93, 0x16F9F);
   (0x16FE0, 0x16FE1); (0x16FE3, 0x16FE3); (0x17000, 0x187F7); (0x18800, 0x18CD5);
   (0x18D00, 0x18D08); (0x1AFF0, 0x1AFF3); (0x1AFF5, 0x1AFFB); (0x1AFFD, 0x1AFFE);
   (0x1B000, 0x1B122); (0x1B150, 0x1B152); (0x1B164, 0x1B167); (0x1B170, 0x1B2FB);
   (0x1BC00, 0x1BC6A); (0x1BC70, 0x1BC7C); (0x1BC80, 0x1BC88); (0x1BC90, 0x1BC99);
   (0x1D2E0, 0x1D2F3); (0x1D360, 0x1D378); (0x1D400, 0x1D454); (0x1D456, 0x1D49C);
   (0x1D49E, 0x1D49F); (0x1D4A2, 0x1D4A2); (0x1D4A5, 0x1D4A6); (0x1D4A9, 0x1D4AC);
   (0x1D4AE, 0x1D4B9); (0x1D4BB, 0x1D4BB); (0x1D4BD, 0x1D4C3); (0x1D4C5, 0x1D505);
   (0x1D507, 0x1D50A); (0x1D50D, 0x1D514); (0x1D516, 0x1D51C); (0x1D51E, 0x1D539);
   (0x1D53B, 0x1D53E); (0x1D540, 0x1D544); (0x1D546, 0x1D546); (0x1D54A, 0x1D550);
   (0x1D552, 0x1D6A5); (0x1D6A8, 0x1D6C0); (0x1D6C2, 0x1D6DA); (0x1D6DC, 0x1D6FA);
   (0x1D6FC, 0x1D714); (0x1D716, 0x1D734); (0x1D736, 0x1D74E); (0x1D750, 0x1D76E);
   (0x1D770, 0x1D788); (0x1D78A, 0x1D7A8); (0x1D7AA, 0x1D7C2); (0x1D7C4, 0x1D7CB);
   (0x1D7CE, 0x1D7FF); (0x1DF00, 0x1DF1E); (0x1E100, 0x1E12C); (0x1E137, 0x1E13D);
   (0x1E140, 0x1E149); (0x1E14E, 0x1E14E); (0x1E290, 0x1E2AD); (0x1E2C0, 0x1E2EB);
   (0x1E2F0, 0x1E2F9); (0x1E7E0, 0x1E7E6); (0x1E7E8, 0x1E7EB); (0x1E7ED, 0x1E7EE);
   (0x1E7F0, 0x1E7FE); (0x1E800, 0x1E8C4); (0x1E8C7, 0x1E8CF); (0x1E900, 0x1E943);
   (0x1E94B, 0x1E94B); (0x1E950, 0x1E959); (0x1EC71, 0x1ECAB); (0x1ECAD, 0x1ECAF);
   (0x1ECB1, 0x1ECB4); (0x1ED01, 0x1ED2D); (0x1ED2F, 0x1ED3D); (0x1EE00, 0x1EE03);
   (0x1EE05, 0x1EE1F); (0x1EE21, 0x1EE22); (0x1EE24, 0x1EE24); (0x1EE27, 0x1EE27);
   (0x1EE29, 0x1EE32); (0x1EE34, 0x1EE37); (0x1EE39, 0x1EE39); (0x1EE3B, 0x1EE3B);
   (0x1EE42, 0x1EE42); (0x1EE47, 0x1EE47); (0x1EE49, 0x1EE49); (0x1EE4B, 0x1EE4B);
   (0x1EE4D, 0x1EE4F); (0x1EE51, 0x1EE52); (0x1EE54, 0x1EE54); (0x1EE57, 0x1EE57);
   (0x1EE59, 0x1EE59); (0x1EE5B, 0x1EE5B); (0x1EE5D, 0x1EE5D); (0x1EE5F, 0x1EE5F);
   (0x1EE61, 0x1EE62); (0x1EE64, 0x1EE64); (0x1EE67, 0x1EE6A); (0x1EE6C, 0x1EE72);
   (0x1EE74, 0x1EE77); (0x1EE79, 0x1EE7C); (0x1EE7E, 0x1EE7E); (0x1EE80, 0x1EE89);
   (0x1EE8B, 0x1EE9B); (0x1EEA1, 0x1EEA3); (0x1EEA5, 0x1EEA9); (0x1EEAB, 0x1EEBB);
   (0x1F100, 0x1F10C); (0x1FBF0, 0x1FBF9); (0x20000, 0x2A6DF); (0x2A700, 0x2B738);
   (0x2B740, 0x2B81D); (0x2B820, 0x2CEA1); (0x2CEB0, 0x2EBE0); (0x2F800, 0x2FA1D);
   (0x30000, 0x3134A)].

(** [str.isalnum] on one code point. *)
Definition isalnum (c : N) : bool := in_ranges c ALNUM.

Definition lower_char (c : N) : N := if isupper c then c + 32 else c.

(** [s.lower()] *)
Definition lower (s : str) : str := map lower_char s.

Fixpoint lstrip_with (p : N -> bool) (s : str) : str :=
  match s with
  | c :: s' => if p c then lstrip_with p s' else s
  | [] => []
  end.

Definition rstrip_with (p : N -> bool) (s : str) : str :=
  rev (lstrip_with p (rev s)).

Definition mem (c : N) (chars : str) : bool := existsb (N.eqb c) chars.

(** [s.strip()], [s.strip(chars)], [s.lstrip(chars)] *)
Definition strip (s : str) : str := rstrip_with isspace (lstrip_with isspace s).
Definition strip_chars (chars s : str) : str :=
  rstrip_with (fun c => mem c chars) (lstrip_with (fun c => mem c chars) s).
Definition lstrip_chars (chars s : str) : str :=
  lstrip_with (fun c => mem c chars) s.

(** [s.startswith(prefix)] *)
Fixpoint startswith (prefix s : str) : bool :=
  match prefix, s with
  | [], _ => true
  | p :: prefix', c :: s' => (p =? c) && startswith prefix' s'
  | _ :: _, [] => false
  end.

(** [sub in s] *)
Fixpoint contains (sub s : str) : bool :=
  startswith sub s ||
  match s with
  | [] => false
  | _ :: s' => contains sub s'
  end.

(** [s.split(sep)] and [s.split(sep, maxsplit)] for a non-empty [sep]:
    [skip] counts the characters of a separator still to pass over,
    [cur] is the piece under construction (reversed), [left] the number of
    splits still allowed ([None]: no bound). *)
Fixpoint split_go (sep : str) (left : option nat) (skip : nat) (cur s : str)
  : list str :=
  match s with
  | [] => [rev cur]
  | c :: s' =>
      match skip with
      | S k => split_go sep left k cur s'
      | O =>
          match left with
          | Some O => split_go sep left O (c :: cur) s'
          | _ =>
              if startswith sep s
              then rev cur :: split_go sep (option_map Nat.pred left)
                                       (Nat.pred (length sep)) [] s'
              else split_go sep left O (c :: cur) s'
          end
      end
  end.

Definition split (sep s : str) : list str := split_go sep None 0 [] s.
Definition split_max (sep : str) (maxsplit : nat) (s : str) : list str :=
  split_go sep (Some maxsplit) 0 [] s.

(** [s.replace(old, new)] *)
Fixpoint replace_go (old new : str) (skip : nat) (s : str) : str :=
  match s with
  | [] => []
  | c :: s' =>
      match skip with
      | S k => replace_go old new k s'
      | O =>
          match old with
          | [] => c :: replace_go old new O s'
          | _ :: _ =>
              if startswith old s
              then new ++ replace_go old new (Nat.pred (length old)) s'
              else c :: replace_go old new O s'
          end
      end
  end.

(** With an empty [old] Python inserts [new] around every character; the
    package only ever replaces by the empty string, for which that is the
    identity, as here. *)
Definition replace (old new s : str) : str := replace_go old new 0 s.

(** [sep.join(parts)] *)
Fixpoint join (sep : str) (parts : list str) : str :=
  match parts with
  | [] => []
  | [p] => p
  | p :: rest => p ++ sep ++ join sep rest
  end.

(** [str(n)] for an [int]. *)
Definition str_of_int (z : Z) : str :=
  lit (DecimalString.NilZero.string_of_int (Z.to_int z)).

(** The value of a run of ASCII digits. *)
Definition digits_value (ds : str) : Z :=
  fold_left (fun acc d => (10 * acc + (Z.of_N d - 48))%Z) ds 0%Z.

(** *** Objects

    The values [json.loads] builds, which is also what the fields of a
    record filled from a decoded response may hold. *)
Inductive obj : Type :=
| None_
| Bool (b : bool)
| Int (z : Z)
| Float (x : Q)
| NaN
| Inf (negative : bool)
| Str (s : str)
| List_ (items : list obj)
| Dict (members : list (str * obj)).

(** A [dict]: its items in insertion order, every key once. *)
Definition dict := list (str * obj).

(** [d.get(key)] / [d.get(key, default)] *)
Fixpoint dict_get (d : dict) (key : str) : option obj :=
  match d with
  | [] => None
  | (k, v) :: d' => if eqb k key then Some v else dict_get d' key
  end.

Definition get (d : dict) (key : str) (default : obj) : obj :=
  match dict_get d key with Some v => v | None => default end.

(** [d[key] = v]: a key already there keeps its place. *)
Fixpoint dict_set (d : dict) (key : str) (v : obj) : dict :=
  match d with
  | [] => [(key, v)]
  | (k, v') :: d' =>
      if eqb k key then (k, v) :: d' else (k, v') :: dict_set d' key v
  end.

(** [dict(pairs)] *)
Definition dict_of_pairs (pairs : list (str * obj)) : dict :=
  fold_left (fun d kv => dict_set d (fst kv) (snd kv)) pairs [].

(** Truth value of an object ([if x], [x or y]). *)
Definition truthy (o : obj) : bool :=
  match o with
  | None_ => false
  | Bool b => b
  | Int z => negb (z =? 0)%Z
  | Float x => negb (Qnum x =? 0)%Z
  | NaN => true
  | Inf _ => true
  | Str s => match s with [] => false | _ => true end
  | List_ l => match l with [] => false | _ => true end
  | Dict d => match d with [] => false | _ => true end
  end.

(** [o != s] for a string [s]. *)
Definition ne_str (o : obj) (s : str) : bool :=
  match o with
  | Str t => negb (eqb t s)
  | _ => true
  end.

(** [isinstance(o, str)], [isinstance(o, list)], [isinstance(o, dict)] *)
Definition is_str (o : obj) : bool := match o with Str _ => true | _ => false end.
Definition is_list (o : obj) : bool := match o with List_ _ => true | _ => false end.
Definition is_dict (o : obj) : bool := match o with Dict _ => true | _ => false end.

(** [a or b] *)
Definition or_ (a b : obj) : obj := if truthy a then a else b.

(** *** Exceptions and outcomes *)

(** An HTTP response, as far as the package reads it: the status, the
    decoded text, the raw content, and what [response.json()] gives
    ([None] when it raises). *)
Record Response : Type := mkResponse {
  status_code : Z;
  text : str;
  content : str;
  json_body : option obj
}.

Inductive exn : Type :=
| ValueError
| TypeError
| AttributeError
| OverflowError
| JSONDecodeError
| CaptchaError (arg : str)
| ServerError (arg : obj)
| HTTPStatusError (response : Response)
| ConnectError
| ReadTimeout
| OtherError (name : str)         (* any other exception, by class name *)
| RuntimeError (msg : str) (cause : option exn).   (* raise ... from cause *)

(** What a call does: it returns a value or raises. *)
Inductive outcome (A : Type) : Type :=
| Return (a : A)
| Raise (e : exn).
Arguments Return {A} a.
Arguments Raise {A} e.

Definition bind {A B} (x : outcome A) (f : A -> outcome B) : outcome B :=
  match x with
  | Return a => f a
  | Raise e => Raise e
  end.

(** [int(o)] *)
Fixpoint int_digits (seen_digit : bool) (s : str) (acc : Z) : option Z :=
  match s with
  | [] => if seen_digit then Some acc else None
  | c :: s' =>
      if isdigit c then int_digits true s' (10 * acc + (Z.of_N c - 48))%Z
      else if (c =? 95) && seen_digit
           then match s' with
                | d :: _ => if isdigit d then int_digits false s' acc else None
                | [] => None
                end
           else None
  end.

Definition int_of_str (s : str) : outcome Z :=
  let t := strip s in
  let '(neg, ds) :=
    match t with
    | 45 :: ds => (true, ds)
    | 43 :: ds => (false, ds)
    | _ => (false, t)
    end in
  match int_digits false ds 0%Z with
  | Some z => Return (if neg then (- z)%Z else z)
  | None => Raise ValueError
  end.

Definition int (o : obj) : outcome Z :=
  match o with
  | Int z => Return z
  | Bool b => Return (if b then 1 else 0)%Z
  | Float x => Return (Z.quot (Qnum x) (Zpos (Qden x)))
  | NaN => Raise ValueError
  | Inf _ => Raise OverflowError
  | Str s => int_of_str s
  | None_ | List_ _ | Dict _ => Raise TypeError
  end.

End Py.

(* ================================================================== *)
(** ** Regular expressions (Python's [re], the fragment the package uses) *)
(* ================================================================== *)

Module re.
Import Py.

(** The syntax of the patterns.  A repetition is always over a character
    class in the package's patterns ([\s+], [\s*], [\d+]). *)
Inductive regex : Type :=
| Eps
| Chr (c : N)                  (* a literal character *)
| Cls (p : N -> bool)          (* a class: \s, \d, [1-9] *)
| Boundary                     (* \b *)
| Cat (r1 r2 : regex)
| Alt (r1 r2 : regex)          (* r1|r2, r1 tried first *)
| Opt (r : regex)              (* r?, greedy *)
| Star (p : N -> bool)         (* [class]*, greedy *)
| Plus (p : N -> bool)         (* [class]+, greedy *)
| Group (r : regex).           (* ( r ), capturing *)

(** [\w] in a pattern over [str]: a letter or a number of Unicode, or
    the underscore. *)
Definition isword (c : N) : bool := isalnum c || (c =? 95).
Definition isword_at (c : option N) : bool :=
  match c with Some x => isword x | None => false end.

(** The pattern of a literal text. *)
Fixpoint Lit (s : str) : regex :=
  match s with
  | [] => Eps
  | [c] => Chr c
  | c :: s' => Cat (Chr c) (Lit s')
  end.

(** The characters that IGNORECASE takes for the lower-case ASCII letter
    [c] besides its two cases: U+0130 and U+0131 for i, U+212A (the Kelvin
    sign) for k, U+017F (the long s) for s. *)
Definition folds (c : N) : list N :=
  if c =? 105 then [0x130; 0x131]
  else if c =? 107 then [0x212A]
  else if c =? 115 then [0x17F]
  else [].

(** A literal character of a pattern against an input character, under
    IGNORECASE or not.  The literal characters of the package's patterns
    are ASCII. *)
Definition chr_eq (ignorecase : bool) (c x : N) : bool :=
  if ignorecase
  then (lower_char c =? lower_char x) || mem x (folds (lower_char c))
  else c =? x.

Section Matcher.
Variable A : Type.
Variable ignorecase : bool.

(** The longest run of class [p] first, then shorter ones. *)
Fixpoint star (p : N -> bool) (prev : option N) (s : str)
    (k : option N -> str -> option A) : option A :=
  match s with
  | x :: s' =>
      if p x
      then match star p (Some x) s' k with
           | Some a => Some a
           | None => k prev s
           end
      else k prev s
  | [] => k prev s
  end.

(** A backtracking matcher in continuation-passing style: [prev] is the
    character before the current position, [s] the input from it on,
    [caps] the texts of the groups closed so far. *)
Fixpoint run (r : regex) (prev : option N) (s : str) (caps : list str)
    (k : option N -> str -> list str -> option A) : option A :=
  match r with
  | Eps => k prev s caps
  | Chr c =>
      match s with
      | x :: s' => if chr_eq ignorecase c x then k (Some x) s' caps else None
      | [] => None
      end
  | Cls p =>
      match s with
      | x :: s' => if p x then k (Some x) s' caps else None
      | [] => None
      end
  | Boundary =>
      if xorb (isword_at prev) (isword_at (hd_error s))
      then k prev s caps else None
  | Cat r1 r2 =>
      run r1 prev s caps (fun prev' s' caps' => run r2 prev' s' caps' k)
  | Alt r1 r2 =>
      match run r1 prev s caps k with
      | Some a => Some a
      | None => run r2 prev s caps k
      end
  | Opt r1 =>
      match run r1 prev s caps k with
      | Some a => Some a
      | None => k prev s caps
      end
  | Star p => star p prev s (fun prev' s' => k prev' s' caps)
  | Plus p =>
      match s with
      | x :: s' =>
          if p x then star p (Some x) s' (fun prev' s' => k prev' s' caps)
          else None
      | [] => None
      end
  | Group r1 =>
      run r1 prev s caps
          (fun prev' s' caps' =>
             k prev' s' (caps' ++ [firstn (length s - length s') s]))
  end.

End Matcher.

(** A match object: the text before the match, the match, the text after
    it, and the groups. *)
Record Match : Type := mkMatch {
  m_pre : str;
  m_text : str;
  m_post : str;
  m_groups : list str
}.

(** A match that starts at the current position. *)
Definition match_here (ignorecase : bool) (r : regex) (prev : option N)
    (pre s : str) : option Match :=
  run ignorecase r prev s []
      (fun _ s' caps =>
         Some (mkMatch pre (firstn (length s - length s') s) s' caps)).

(** [pattern.search(s)]: the leftmost match. *)
Fixpoint search_go (ignorecase : bool) (r : regex) (prev : option N)
    (pre_rev s : str) : option Match :=
  match match_here ignorecase r prev (rev pre_rev) s with
  | Some m => Some m
  | None =>
      match s with
      | [] => None
      | x :: s' => search_go ignorecase r (Some x) (x :: pre_rev) s'
      end
  end.

Definition search (ignorecase : bool) (r : regex) (s : str) : option Match :=
  search_go ignorecase r None [] s.

(** [pattern.fullmatch]-like use in [_strptime]: a match at the start that
    leaves nothing unconverted. *)
Definition match_all (ignorecase : bool) (r : regex) (s : str)
  : option (list str) :=
  match match_here ignorecase r None [] s with
  | Some m => match m_post m with [] => Some (m_groups m) | _ => None end
  | None => None
  end.

(** [re.split(pattern, s, maxsplit=1)] for a pattern without groups. *)
Definition split1 (ignorecase : bool) (r : regex) (s : str) : list str :=
  match search ignorecase r s with
  | Some m => [m_pre m; m_post m]
  | None => [s]
  end.

(** The pieces between the successive matches ([re.split]) and the text
    with every match replaced ([re.sub]), for patterns whose matches are
    never empty.  [fuel] bounds the number of matches by the length of the
    input. *)
Fixpoint pieces (fuel : nat) (ignorecase : bool) (r : regex)
    (prev : option N) (s : str) : list str * str :=
  match fuel with
  | O => ([], s)
  | S fuel' =>
      match search_go ignorecase r prev [] s with
      | Some m =>
          match m_text m with
          | [] => ([], s)
          | _ :: _ =>
              let '(ps, last) :=
                pieces fuel' ignorecase r (hd_error (rev (m_text m))) (m_post m) in
              (m_pre m :: ps, last)
          end
      | None => ([], s)
      end
  end.

Definition split (ignorecase : bool) (r : regex) (s : str) : list str :=
  let '(ps, last) := pieces (length s) ignorecase r None s in ps ++ [last].

Definition sub (ignorecase : bool) (r : regex) (repl s : str) : str :=
  let '(ps, last) := pieces (length s) ignorecase r None s in
  concat (map (fun p => p ++ repl) ps) ++ last.

(** The patterns of the package. *)

(** [\s+] *)
Definition WHITESPACE_RUN : regex := Plus isspace.
(** [\bvs?\b] *)
Definition VS : regex :=
  Cat Boundary (Cat (Chr 118) (Cat (Opt (Chr 115)) Boundary)).
(** [of\s+(\d+)] *)
Definition OF_N : regex :=
  Cat (Lit (lit "of")) (Cat (Plus isspace) (Group (Plus isdigit))).
(** [of \d+] *)
Definition OF_SPACE_N : regex := Cat (Lit (lit "of ")) (Plus isdigit).
(** [Next] *)
Definition NEXT : regex := Lit (lit "Next").
(** [Hon'?ble\s+] *)
Definition HONBLE : regex :=
  Cat (Lit (lit "Hon")) (Cat (Opt (Chr 39)) (Cat (Lit (lit "ble")) (Plus isspace))).
(** [,\s*|\s+and\s+] *)
Definition COMMA_OR_AND : regex :=
  Alt (Cat (Chr 44) (Star isspace))
      (Cat (Plus isspace) (Cat (Lit (lit "and")) (Plus isspace))).

End re.

(* ================================================================== *)
(** ** [json.loads] *)
(* ================================================================== *)

Module json.
Import Py.

(** JSON white space: space, tab, line feed, carriage return. *)
Definition isws (c : N) : bool :=
  (c =? 32) || (c =? 9) || (c =? 10) || (c =? 13).

Definition skip_ws (s : str) : str := lstrip_with isws s.

Definition hexval (c : N) : option N :=
  if isdigit c then Some (c - 48)
  else if (97 <=? c) && (c <=? 102) then Some (c - 87)
  else if (65 <=? c) && (c <=? 70) then Some (c - 55)
  else None.

Definition hex4 (a b c d : N) : option N :=
  match hexval a, hexval b, hexval c, hexval d with
  | Some x, Some y, Some z, Some w => Some (((x * 16 + y) * 16 + z) * 16 + w)
  | _, _, _, _ => None
  end.

Definition escape (c : N) : option N :=
  if c =? 34 then Some 34          (* quote *)
  else if c =? 92 then Some 92     (* backslash *)
  else if c =? 47 then Some 47     (* slash *)
  else if c =? 98 then Some 8      (* b *)
  else if c =? 102 then Some 12    (* f *)
  else if c =? 110 then Some 10    (* n *)
  else if c =? 114 then Some 13    (* r *)
  else if c =? 116 then Some 9     (* t *)
  else None.

(** [scanstring]: the text of a string literal whose opening quote has
    been read, and the input after its closing quote.  A control character
    inside the literal is an error when [strict]. *)
Fixpoint scanstring (strict : bool) (s acc : str) : option (str * str) :=
  match s with
  | [] => None
  | c :: rest =>
      if c =? 34 then Some (rev acc, rest)
      else if c =? 92 then
        match rest with
        | [] => None
        | e :: rest1 =>
            if e =? 117 then
              match rest1 with
              | a :: b :: c1 :: d :: rest2 =>
                  match hex4 a b c1 d with
                  | None => None
                  | Some u =>
                      if (0xD800 <=? u) && (u <=? 0xDBFF) then
                        match rest2 with
                        | 92 :: 117 :: a2 :: b2 :: c2 :: d2 :: rest3 =>
                            match hex4 a2 b2 c2 d2 with
                            | None => None
                            | Some u2 =>
                                if (0xDC00 <=? u2) && (u2 <=? 0xDFFF)
                                then scanstring strict rest3
                                       (0x10000 + (((u - 0xD800) * 1024) + (u2 - 0xDC00))
                                        :: acc)
                                else scanstring strict rest2 (u :: acc)
                            end
                        | _ => scanstring strict rest2 (u :: acc)
                        end
                      else scanstring strict rest2 (u :: acc)
                  end
              | _ => None
              end
            else
              match escape e with
              | Some x => scanstring strict rest1 (x :: acc)
              | None => None
              end
        end
      else if strict && (c <? 32) then None
      else scanstring strict rest (c :: acc)
  end.

(** The longest prefix of digits, and the rest. *)
Fixpoint span_digits (s : str) : str * str :=
  match s with
  | c :: s' =>
      if isdigit c then let '(ds, r) := span_digits s' in (c :: ds, r)
      else ([], s)
  | [] => ([], [])
  end.

(** A number at the start of [s], as [json.scanner.NUMBER_RE] reads it: an
    optional minus, then 0 or a run of digits that starts with 1..9; an
    optional fraction (a dot and digits); an optional exponent (e or E, an
    optional sign, digits).  It is an [int] when there is neither a
    fraction nor an exponent, else a [float]. *)
Definition match_number (s : str) : option (obj * str) :=
  let '(neg, s1) := match s with 45 :: t => (true, t) | _ => (false, s) end in
  let int_part :=
    match s1 with
    | 48 :: t => Some ([48], t)
    | c :: _ =>
        if isdigit c then Some (span_digits s1) else None
    | [] => None
    end in
  match int_part with
  | None => None
  | Some (ds, s2) =>
      let '(frac, s3) :=
        match s2 with
        | 46 :: t =>
            match span_digits t with
            | ([], _) => (None, s2)
            | (fs, r) => (Some fs, r)
            end
        | _ => (None, s2)
        end in
      let '(exp, s4) :=
        match s3 with
        | e :: t =>
            if (e =? 101) || (e =? 69) then
              let '(eneg, t1) :=
                match t with
                | 45 :: u => (true, u)
                | 43 :: u => (false, u)
                | _ => (false, t)
                end in
              match span_digits t1 with
              | ([], _) => (None, s3)
              | (es, r) =>
                  (Some (if eneg then (- digits_value es)%Z else digits_value es), r)
              end
            else (None, s3)
        | [] => (None, s3)
        end in
      let sign (z : Z) := if neg then (- z)%Z else z in
      match frac, exp with
      | None, None => Some (Int (sign (digits_value ds)), s4)
      | _, _ =>
          let fs := match frac with Some fs => fs | None => [] end in
          let e := match exp with Some e => e | None => 0%Z end in
          let mant := sign (digits_value (ds ++ fs)) in
          let e10 := (e - Z.of_nat (length fs))%Z in
          let x :=
            if (0 <=? e10)%Z then Qmake (mant * 10 ^ e10) 1
            else Qmake mant (Z.to_pos (10 ^ (- e10))) in
          Some (Float x, s4)
      end
  end.

(** [scan_once], [JSONObject] and [JSONArray] of [json.decoder].  Every
    call is given one unit of [fuel] less; a value and a member each take
    at least one character, so twice the length of the input is enough. *)
Fixpoint scan_once (fuel : nat) (strict : bool) (s : str) : option (obj * str) :=
  match fuel with
  | O => None
  | S fuel' =>
      match s with
      | [] => None
      | c :: rest =>
          if c =? 34 then
            match scanstring strict rest [] with
            | Some (t, r) => Some (Str t, r)
            | None => None
            end
          else if c =? 123 then
            match skip_ws rest with
            | 125 :: r => Some (Dict [], r)
            | 34 :: r => JSONObject fuel' strict r []
            | _ => None
            end
          else if c =? 91 then
            match skip_ws rest with
            | 93 :: r => Some (List_ [], r)
            | r => JSONArray fuel' strict r []
            end
          else if startswith (lit "null") s then Some (None_, skipn 4 s)
          else if startswith (lit "true") s then Some (Bool true, skipn 4 s)
          else if startswith (lit "false") s then Some (Bool false, skipn 5 s)
          else
            match match_number s with
            | Some r => Some r
            | None =>
                if startswith (lit "NaN") s then Some (NaN, skipn 3 s)
                else if startswith (lit "Infinity") s then Some (Inf false, skipn 8 s)
                else if startswith (lit "-Infinity") s then Some (Inf true, skipn 9 s)
                else None
            end
      end
  end

(** The members of an object, from just after the opening quote of a key. *)
with JSONObject (fuel : nat) (strict : bool) (s : str) (pairs : list (str * obj))
  : option (obj * str) :=
  match fuel with
  | O => None
  | S fuel' =>
      match scanstring strict s [] with
      | None => None
      | Some (key, r) =>
          match skip_ws r with
          | 58 :: r1 =>
              match scan_once fuel' strict (skip_ws r1) with
              | None => None
              | Some (v, r2) =>
                  let pairs' := pairs ++ [(key, v)] in
                  match skip_ws r2 with
                  | 125 :: r3 => Some (Dict (dict_of_pairs pairs'), r3)
                  | 44 :: r3 =>
                      match skip_ws r3 with
                      | 34 :: r4 => JSONObject fuel' strict r4 pairs'
                      | _ => None
                      end
                  | _ => None
                  end
              end
          | _ => None
          end
      end
  end

(** The items of an array, from the first character of an item. *)
with JSONArray (fuel : nat) (strict : bool) (s : str) (items : list obj)
  : option (obj * str) :=
  match fuel with
  | O => None
  | S fuel' =>
      match scan_once fuel' strict s with
      | None => None
      | Some (v, r) =>
          let items' := items ++ [v] in
          match skip_ws r with
          | 93 :: r1 => Some (List_ items', r1)
          | 44 :: r1 => JSONArray fuel' strict (skip_ws r1) items'
          | _ => None
          end
      end
  end.

(** [json.loads(s, strict=...)]: no byte-order mark at the start, one
    value, white space around it, and nothing else; [JSONDecodeError]
    otherwise. *)
Definition loads (strict : bool) (s : str) : outcome obj :=
  if startswith [BOM] s then Raise JSONDecodeError else
  match scan_once (2 * length s + 2) strict (skip_ws s) with
  | Some (v, r) =>
      match skip_ws r with
      | [] => Return v
      | _ :: _ => Raise JSONDecodeError
      end
  | None => Raise JSONDecodeError
  end.

End json.

(* ================================================================== *)
(** ** The parsed document ([bs4]) *)
(* ================================================================== *)

Module bs4.
Import Py.

(** A node of the tree [BeautifulSoup] builds.  [Comment] stands for the
    string classes that [get_text] leaves out (comments, declarations).
    An attribute holds the text the page gives it; [class] is split on
    white space when it is matched, as bs4 does. *)
Inductive Node : Type :=
| NavigableString (s : str)
| Comment (s : str)
| Tag (name : str) (attrs : list (str * str)) (contents : list Node).

(** [tag.descendants], in document order. *)
Fixpoint descendants (n : Node) : list Node :=
  match n with
  | Tag _ _ cs => flat_map (fun c => c :: descendants c) cs
  | _ => []
  end.

(** [tag.get_text()] *)
Definition own_text (n : Node) : str :=
  match n with
  | NavigableString s => s
  | _ => []
  end.

Definition get_text (n : Node) : str := concat (map own_text (descendants n)).

(** [tag.string] *)
Fixpoint string_ (n : Node) : option str :=
  match n with
  | NavigableString s => Some s
  | Comment s => Some s
  | Tag _ _ [c] => string_ c
  | Tag _ _ _ => None
  end.

(** [tag.get(key)] *)
Fixpoint lookup (attrs : list (str * str)) (key : str) : option str :=
  match attrs with
  | [] => None
  | (k, v) :: rest => if eqb k key then Some v else lookup rest key
  end.

Definition get (n : Node) (key : str) : option str :=
  match n with
  | Tag _ attrs _ => lookup attrs key
  | _ => None
  end.

(** The white-space separated tokens of an attribute value. *)
Fixpoint tokens_go (cur s : str) : list str :=
  match s with
  | [] => match cur with [] => [] | _ => [rev cur] end
  | c :: s' =>
      if isspace c
      then match cur with
           | [] => tokens_go [] s'
           | _ => rev cur :: tokens_go [] s'
           end
      else tokens_go (c :: cur) s'
  end.

Definition tokens (s : str) : list str := tokens_go [] s.

(** The filters [find] is called with. *)
Definition has_name (name : str) (n : Node) : bool :=
  match n with
  | Tag nm _ _ => eqb nm name
  | _ => false
  end.

(** [id=value] *)
Definition has_id (value : str) (n : Node) : bool :=
  match get n (lit "id") with
  | Some v => eqb v value
  | None => false
  end.

(** [class_=value]: one of the classes is [value], or all of them joined
    by single spaces are. *)
Definition has_class (value : str) (n : Node) : bool :=
  match get n (lit "class") with
  | Some v =>
      existsb (fun t => eqb t value) (tokens v)
      || eqb (join (lit " ") (tokens v)) value
  | None => false
  end.

(** [string=pattern]: the tag's [.string] exists and the pattern is found
    in it. *)
Definition string_matches (ignorecase : bool) (r : re.regex) (n : Node) : bool :=
  match string_ n with
  | Some s => match re.search ignorecase r s with Some _ => true | None => false end
  | None => false
  end.

(** [tag.find_all(name, ...)] and [tag.find(name, ...)] *)
Definition find_all (name : str) (extra : Node -> bool) (n : Node) : list Node :=
  filter (fun d => has_name name d && extra d) (descendants n).

Definition find (name : str) (extra : Node -> bool) (n : Node) : option Node :=
  hd_error (find_all name extra n).

Definition any (n : Node) : bool := true.

(** [a or b] on the results of [find]: a tag is always true, [None] false. *)
Definition or_else (a b : option Node) : option Node :=
  match a with Some _ => a | None => b end.

(** [cols[i]], for an index the caller has checked to be in range. *)
Definition item (cols : list Node) (i : nat) : Node := nth i cols (Tag [] [] []).

End bs4.

(** The libraries outside the package, as far as the parsers call them:
    the HTML parser behind [BeautifulSoup(html, 'lxml')], and [repr], which
    [str] falls back on for a float, a list or a dict. *)
Record libs : Type := mkLibs {
  BeautifulSoup : Py.str -> bs4.Node;
  repr : Py.obj -> Py.str
}.

(* ================================================================== *)
(** ** Dates ([datetime]) *)
(* ================================================================== *)

Module datetime.
Import Py re.

Record date : Type := mkDate { year : Z; month : Z; day : Z }.

Definition is_leap (y : Z) : bool :=
  ((y mod 4 =? 0) && (negb (y mod 100 =? 0) || (y mod 400 =? 0)))%Z.

Definition days_in_month (y m : Z) : Z :=
  (if m =? 2 then (if is_leap y then 29 else 28)
   else if (m =? 4) || (m =? 6) || (m =? 9) || (m =? 11) then 30
   else 31)%Z.

(** [date(y, m, d)]: [ValueError] unless it is a day of the calendar. *)
Definition make_date (y m d : Z) : outcome date :=
  if ((1 <=? y) && (y <=? 9999) && (1 <=? m) && (m <=? 12)
      && (1 <=? d) && (d <=? days_in_month y m))%Z
  then Return (mkDate y m d)
  else Raise ValueError.

Definition range (lo hi : N) (c : N) : bool := (lo <=? c) && (c <=? hi).

(** The pattern [_strptime] builds for the directive d: 3[0-1], [1-2]\d,
    0[1-9], [1-9], or a space and [1-9], tried in this order. *)
Definition DIRECTIVE_d : regex :=
  Group (Alt (Cat (Chr 51) (Cls (range 48 49)))
        (Alt (Cat (Cls (range 49 50)) (Cls isdigit))
        (Alt (Cat (Chr 48) (Cls (range 49 57)))
        (Alt (Cls (range 49 57))
             (Cat (Chr 32) (Cls (range 49 57))))))).

(** For m: 1[0-2], 0[1-9] or [1-9]. *)
Definition DIRECTIVE_m : regex :=
  Group (Alt (Cat (Chr 49) (Cls (range 48 50)))
        (Alt (Cat (Chr 48) (Cls (range 49 57)))
             (Cls (range 49 57)))).

(** For Y: four digits. *)
Definition DIRECTIVE_Y : regex :=
  Group (Cat (Cls isdigit) (Cat (Cls isdigit) (Cat (Cls isdigit) (Cls isdigit)))).

(** The format [%d-%m-%Y] as a pattern. *)
Definition DMY : regex :=
  Cat DIRECTIVE_d (Cat (Chr 45) (Cat DIRECTIVE_m (Cat (Chr 45) DIRECTIVE_Y))).

(** [datetime.strptime(text, '%d-%m-%Y').date()]: the pattern must match
    at the start and leave nothing unconverted, and the numbers must name
    a day of the calendar. *)
Definition strptime_dmy (text : str) : outcome date :=
  match match_all true DMY text with
  | Some [d; m; y] =>
      make_date (digits_value y) (digits_value m) (digits_value (strip d))
  | _ => Raise ValueError
  end.

(** [d.isoformat()] *)
Definition pad (width : nat) (s : str) : str :=
  repeat 48 (width - length s) ++ s.

Definition isoformat (d : date) : str :=
  pad 4 (str_of_int (year d)) ++ lit "-" ++ pad 2 (str_of_int (month d))
  ++ lit "-" ++ pad 2 (str_of_int (day d)).

End datetime.

(* ================================================================== *)
(** ** [models.py] *)
(* ================================================================== *)

Module models.
Import Py.

Inductive CourtType : Type := SUPREME_COURT | HIGH_COURT | DISTRICT_COURT | TRIBUNAL.

Module Court.
Record t : Type := mk {
  name : str;
  code : str;
  state_code : str;
  court_type : CourtType;
  bench : option str
}.
End Court.

(** The fields a parser fills from a decoded JSON record hold whatever
    object the record has there. *)
Module CaseInfo.
Record t : Type := mk {
  case_number : str;
  case_type : str;
  cnr_number : obj;
  filing_number : obj;
  registration_number : str;
  registration_date : option datetime.date;
  petitioner : obj;
  respondent : obj;
  status : obj;
  court_name : str;
  judges : list str;
  next_hearing_date : option datetime.date
}.

Definition set_court_name (r : t) (v : str) : t :=
  mk (case_number r) (case_type r) (cnr_number r) (filing_number r)
     (registration_number r) (registration_date r) (petitioner r)
     (respondent r) (status r) v (judges r) (next_hearing_date r).
End CaseInfo.

Module CaseOrder.
Record t : Type := mk {
  order_date : datetime.date;
  order_type : str;
  judge : str;
  pdf_url : str;
  pdf_bytes : option str;
  order_text : str
}.
End CaseOrder.

Module JudgmentResult.
Record t : Type := mk {
  title : str;
  court_name : str;
  case_number : str;
  judgment_date : option datetime.date;
  judges : list str;
  pdf_url : str;
  pdf_bytes : option str;
  citation : str;
  bench_type : str;
  source_url : str;
  source_id : str;
  metadata : dict
}.
End JudgmentResult.

Module CauseListEntry.
Record t : Type := mk {
  serial_number : Z;
  case_number : str;
  case_type : str;
  petitioner : str;
  respondent : str;
  advocate_petitioner : str;
  advocate_respondent : str;
  court_number : str;
  judge : str;
  listing_date : option datetime.date;
  item_number : str
}.
End CauseListEntry.

Module CauseListPDF.
Record t : Type := mk {
  serial_number : Z;
  bench : str;
  cause_list_type : str;
  pdf_url : str;
  pdf_bytes : option str
}.
End CauseListPDF.

Module SearchResult.
(** [items: list[CaseInfo | JudgmentResult | CauseListEntry]] *)
Inductive item : Type :=
| Case (c : CaseInfo.t)
| Judgment (j : JudgmentResult.t)
| CauseList (e : CauseListEntry.t).

Record t : Type := mk {
  items : list item;
  total_count : Z;
  page : Z;
  page_size : Z;
  has_next : bool
}.

(** [SearchResult()] *)
Definition default : t := mk [] 0 1 10 false.

(** The property [total_pages]; [//] is floor division. *)
Definition total_pages (self : t) : Z :=
  (if page_size self =? 0 then 0
   else (total_count self + page_size self - 1) / page_size self)%Z.
End SearchResult.

End models.

(* ================================================================== *)
(** ** [hcservices/parser.py] *)
(* ================================================================== *)

Module hcservices_parser.
Import Py models.

(** [_parse_date]: a DD-MM-YYYY text, or [None]. *)
Definition _parse_date (text : str) : option datetime.date :=
  let text := strip text in
  match text with
  | [] => None
  | _ :: _ =>
      match datetime.strptime_dmy text with
      | Return d => Some d
      | Raise _ => None
      end
  end.

(** [_clean_text] *)
Definition _clean_text (text : str) : str :=
  match text with
  | [] => []
  | _ :: _ => re.sub false re.WHITESPACE_RUN (lit " ") (strip text)
  end.

(** [x[0] if len(x) == n ...]: the length of a list as an [int]. *)
Definition len {A} (l : list A) : Z := Z.of_nat (length l).

Section WithLibraries.
Variable L : libs.

(** [str(o)] *)
Definition str_ (o : obj) : str :=
  match o with
  | Str s => s
  | Int z => str_of_int z
  | None_ => lit "None"
  | Bool true => lit "True"
  | Bool false => lit "False"
  | _ => repr L o
  end.

(** [_parse_json_envelope]: the records and the total count. *)
Definition _parse_json_envelope (raw : str) : outcome (list obj * Z) :=
  let text := lstrip_chars [BOM] (strip raw) in
  if startswith (lit "{") text then
    bind (match json.loads true text with
          | Raise JSONDecodeError => json.loads false text
          | r => r
          end)
      (fun data =>
         match data with
         | Dict data =>
             let con := get data (lit "con") None_ in
             if is_str con && contains (lit "captcha")
                                (match con with Str c => lower c | _ => [] end)
             then Raise (CaptchaError (match con with Str c => c | _ => [] end))
             else
               let err := get data (lit "Error") (Str []) in
               if truthy err && ne_str err [] then Raise (ServerError err)
               else
                 bind (int (get data (lit "totRecords") (Int 0)))
                   (fun total =>
                      match con with
                      | List_ (inner :: _) =>
                          match inner with
                          | Str inner_text =>
                              match json.loads false inner_text with
                              | Raise JSONDecodeError => Return ([], total)
                              | Raise e => Raise e
                              | Return (List_ records) => Return (records, total)
                              | Return _ => Return ([], total)
                              end
                          | Dict _ => Return ([inner], total)
                          | _ => Return ([], total)
                          end
                      | _ => Return ([], total)
                      end)
         | _ => Raise AttributeError
         end)
  else Return ([], 0%Z).

(** [_extract_parties] *)
Definition _extract_parties (cell : bs4.Node) : str * str :=
  let strongs := bs4.find_all (lit "strong") bs4.any cell in
  if (len strongs >=? 2)%Z
  then (_clean_text (bs4.get_text (bs4.item strongs 0)),
        _clean_text (bs4.get_text (bs4.item strongs 1)))
  else
    let text := _clean_text (bs4.get_text cell) in
    match re.split1 true re.VS text with
    | [a; b] => (strip a, strip b)
    | _ => (text, [])
    end.

(** The body of the loop of [_parse_case_status_html]. *)
Definition case_status_row (results : list CaseInfo.t) (row : bs4.Node)
  : list CaseInfo.t :=
  let cols := bs4.find_all (lit "td") bs4.any row in
  if (len cols <? 4)%Z then results
  else
    let case_number := _clean_text (bs4.get_text (bs4.item cols 1)) in
    let '(petitioner, respondent) := _extract_parties (bs4.item cols 2) in
    let filing_date :=
      if (len cols >? 4)%Z then _parse_date (bs4.get_text (bs4.item cols 4))
      else None in
    let reg_date :=
      if (len cols >? 5)%Z then _parse_date (bs4.get_text (bs4.item cols 5))
      else None in
    let status :=
      if (len cols >? 6)%Z then _clean_text (bs4.get_text (bs4.item cols 6))
      else [] in
    results ++
    [CaseInfo.mk case_number
       (if contains (lit "/") case_number
        then hd [] (split (lit "/") case_number) else [])
       (Str [])
       (Str (match filing_date with
             | Some d => datetime.isoformat d
             | None => []
             end))
       [] reg_date (Str petitioner) (Str respondent) (Str status) [] [] None].

(** [_parse_case_status_html] *)
Definition _parse_case_status_html (html : str) : list CaseInfo.t :=
  let soup := BeautifulSoup L html in
  match bs4.find (lit "table") bs4.any soup with
  | None => []
  | Some table =>
      let rows := tl (bs4.find_all (lit "tr") bs4.any table) in
      fold_left case_status_row rows []
  end.

(** The body of the loop of [parse_case_status]. *)
Definition case_status_record (rec : obj) : outcome CaseInfo.t :=
  match rec with
  | Dict rec =>
      let case_type_code := str_ (get rec (lit "case_type") (Str [])) in
      let case_no := str_ (get rec (lit "case_no2") (Str [])) in
      let case_year := str_ (get rec (lit "case_year") (Str [])) in
      let case_number_display :=
        match case_no, case_year with
        | _ :: _, _ :: _ => case_no ++ lit "/" ++ case_year
        | _, _ => []
        end in
      bind (match get rec (lit "reg_date") (Str []) with
            | Str t => Return (_parse_date t)
            | _ => Raise AttributeError
            end)
        (fun registration_date =>
           Return (CaseInfo.mk case_number_display case_type_code
                     (get rec (lit "cino") (Str []))
                     (get rec (lit "case_no") (Str []))
                     [] registration_date
                     (or_ (get rec (lit "pet_name") None_) (Str []))
                     (or_ (get rec (lit "res_name") None_) (Str []))
                     (or_ (get rec (lit "status_name") None_)
                          (or_ (get rec (lit "status") None_) (Str [])))
                     [] [] None))
  | _ => Raise AttributeError
  end.

Fixpoint case_status_records (records : list obj) (results : list CaseInfo.t)
  : outcome (list CaseInfo.t) :=
  match records with
  | [] => Return results
  | rec :: rest =>
      bind (case_status_record rec)
        (fun c => case_status_records rest (results ++ [c]))
  end.

(** [parse_case_status] *)
Definition parse_case_status (raw : str) : outcome (list CaseInfo.t) :=
  if contains (lit "<table") (lower raw)
  then Return (_parse_case_status_html raw)
  else
    bind (_parse_json_envelope raw)
      (fun '(records, total) => case_status_records records []).

(** The link in a cell of [parse_orders]: the [href] of the first anchor,
    made absolute when it starts with a slash. *)
Definition order_pdf_url (base_url : str) (cell : bs4.Node) : str :=
  match bs4.find (lit "a") bs4.any cell with
  | Some link =>
      match bs4.get link (lit "href") with
      | Some (c :: href') =>
          let href := c :: href' in
          if startswith (lit "/") href then base_url ++ href else href
      | _ => []
      end
  | None => []
  end.

(** The body of the loop of [parse_orders]. *)
Definition orders_row (base_url : str) (results : list CaseOrder.t)
    (row : bs4.Node) : list CaseOrder.t :=
  let cols := bs4.find_all (lit "td") bs4.any row in
  if (len cols <? 5)%Z then results
  else
    match _parse_date (bs4.get_text (bs4.item cols 1)) with
    | None => results
    | Some order_date =>
        let order_type := _clean_text (bs4.get_text (bs4.item cols 2)) in
        let judge := _clean_text (bs4.get_text (bs4.item cols 3)) in
        let pdf_url := order_pdf_url base_url (bs4.item cols 4) in
        results ++ [CaseOrder.mk order_date order_type judge pdf_url None []]
    end.

(** [parse_orders] *)
Definition parse_orders (html base_url : str) : list CaseOrder.t :=
  let soup := BeautifulSoup L html in
  match bs4.or_else (bs4.find (lit "table") (bs4.has_id (lit "orderTable")) soup)
                    (bs4.find (lit "table") bs4.any soup) with
  | None => []
  | Some table =>
      let rows := tl (bs4.find_all (lit "tr") bs4.any table) in
      fold_left (orders_row base_url) rows []
  end.

(** The body of the loop of [parse_cause_list]. *)
Definition cause_list_row (base_url : str) (results : list CauseListPDF.t)
    (row : bs4.Node) : list CauseListPDF.t :=
  let cols := bs4.find_all (lit "td") bs4.any row in
  if (len cols <? 4)%Z then results
  else
    let serial := _clean_text (bs4.get_text (bs4.item cols 0)) in
    let bench := _clean_text (bs4.get_text (bs4.item cols 1)) in
    let cause_list_type := _clean_text (bs4.get_text (bs4.item cols 2)) in
    let pdf_url :=
      match bs4.find (lit "a") bs4.any (bs4.item cols 3) with
      | Some link =>
          match bs4.get link (lit "href") with
          | Some (c :: raw_href) =>
              let href := strip (c :: raw_href) in
              if startswith (lit "http") href then href
              else match base_url with
                   | _ :: _ => base_url ++ lit "/cases_qry/" ++ href
                   | [] => href
                   end
          | _ => []
          end
      | None => []
      end in
    let serial_num :=
      match int_of_str serial with
      | Return n => n
      | Raise _ => 0%Z
      end in
    results ++ [CauseListPDF.mk serial_num bench cause_list_type pdf_url None].

(** [parse_cause_list] *)
Definition parse_cause_list (html base_url : str) : list CauseListPDF.t :=
  let soup := BeautifulSoup L html in
  match bs4.or_else (bs4.find (lit "table") (bs4.has_class (lit "causelistTbl")) soup)
                    (bs4.find (lit "table") bs4.any soup) with
  | None => []
  | Some table =>
      let rows := tl (bs4.find_all (lit "tr") bs4.any table) in
      fold_left (cause_list_row base_url) rows []
  end.

End WithLibraries.
End hcservices_parser.

(* ================================================================== *)
(** ** [judgments/parser.py] *)
(* ================================================================== *)

Module judgments_parser.
Import Py models.

(** [_parse_date] and [_clean_text] are the same two functions as in
    [hcservices/parser.py]. *)
Definition _parse_date (text : str) : option datetime.date :=
  let text := strip text in
  match text with
  | [] => None
  | _ :: _ =>
      match datetime.strptime_dmy text with
      | Return d => Some d
      | Raise _ => None
      end
  end.

Definition _clean_text (text : str) : str :=
  match text with
  | [] => []
  | _ :: _ => re.sub false re.WHITESPACE_RUN (lit " ") (strip text)
  end.

Definition len {A} (l : list A) : Z := Z.of_nat (length l).

Definition nonempty (s : str) : bool :=
  match s with [] => false | _ :: _ => true end.

(** [_parse_judges] *)
Definition _parse_judges (text : str) : list str :=
  let text := _clean_text text in
  let text := re.sub true re.HONBLE [] text in
  let parts := re.split true re.COMMA_OR_AND text in
  map strip (filter (fun p => nonempty (strip p)) parts).

(** [_extract_title_and_case] *)
Definition _extract_title_and_case (cell : bs4.Node) : str * str :=
  let title :=
    match bs4.find (lit "strong") bs4.any cell with
    | Some strong => _clean_text (bs4.get_text strong)
    | None => []
    end in
  let full_text := _clean_text (bs4.get_text cell) in
  (title, strip (replace title [] full_text)).

(** [soup.find('div', class_='pagination') or soup.find('span',
    string=re.compile('of \d+'))] *)
Definition pagination (soup : bs4.Node) : option bs4.Node :=
  bs4.or_else
    (bs4.find (lit "div") (bs4.has_class (lit "pagination")) soup)
    (bs4.find (lit "span") (bs4.string_matches false re.OF_SPACE_N) soup).

(** [_parse_total_count] *)
Definition _parse_total_count (soup : bs4.Node) : Z :=
  match pagination soup with
  | None => 0%Z
  | Some p =>
      match re.search false re.OF_N (bs4.get_text p) with
      | Some m => digits_value (hd [] (re.m_groups m))
      | None => 0%Z
      end
  end.

(** [_has_next_page] *)
Definition _has_next_page (soup : bs4.Node) : bool :=
  match bs4.or_else
          (bs4.find (lit "a") (bs4.has_class (lit "next")) soup)
          (bs4.find (lit "a") (bs4.string_matches true re.NEXT) soup) with
  | Some _ => true
  | None => false
  end.

(** The body of the loop of [parse_judgment_search]. *)
Definition judgment_row (base_url : str) (judgments : list JudgmentResult.t)
    (row : bs4.Node) : list JudgmentResult.t :=
  let cols := bs4.find_all (lit "td") bs4.any row in
  if (len cols <? 7)%Z then judgments
  else
    let '(title, case_number) := _extract_title_and_case (bs4.item cols 2) in
    let court_name := _clean_text (bs4.get_text (bs4.item cols 3)) in
    let judges := _parse_judges (bs4.get_text (bs4.item cols 4)) in
    let judgment_date := _parse_date (bs4.get_text (bs4.item cols 5)) in
    let pdf_url :=
      match bs4.find (lit "a") bs4.any (bs4.item cols 6) with
      | Some link =>
          match bs4.get link (lit "href") with
          | Some (c :: href') =>
              let href := c :: href' in
              if startswith (lit "/") href then base_url ++ href else href
          | _ => []
          end
      | None => []
      end in
    let bench_type :=
      if (len judges >=? 3)%Z then lit "Full Bench"
      else if (len judges =? 2)%Z then lit "Division Bench"
      else if (len judges =? 1)%Z then lit "Single Bench"
      else [] in
    judgments ++
    [JudgmentResult.mk title court_name case_number judgment_date judges
       pdf_url None [] bench_type pdf_url [] []].

Section WithLibraries.
Variable L : libs.

(** The table the rows are read from. *)
Definition result_table (soup : bs4.Node) : option bs4.Node :=
  bs4.or_else (bs4.find (lit "table") (bs4.has_id (lit "resultTable")) soup)
              (bs4.find (lit "table") bs4.any soup).

(** [parse_judgment_search] *)
Definition parse_judgment_search (html base_url : str) (page : Z)
  : SearchResult.t :=
  let soup := BeautifulSoup L html in
  match result_table soup with
  | None => SearchResult.default
  | Some table =>
      let rows := tl (bs4.find_all (lit "tr") bs4.any table) in
      let judgments := fold_left (judgment_row base_url) rows [] in
      let total_count := _parse_total_count soup in
      let has_next := _has_next_page soup in
      SearchResult.mk (map SearchResult.Judgment judgments)
        (if (total_count =? 0)%Z then len judgments else total_count)
        page (len judgments) has_next
  end.

End WithLibraries.
End judgments_parser.

(* ================================================================== *)
(** ** [config.py] *)
(* ================================================================== *)

Module config.
Import Py.

Record BharatCourtsConfig : Type := mk {
  request_delay : Q;          (* seconds between requests *)
  user_agent : str;
  timeout : Z;
  max_retries : Z;
  log_level : str
}.

Definition default : BharatCourtsConfig :=
  mk (Qmake 1 1)
     (lit "Mozilla/5.0 (Macintosh; Intel Mac OS X 10_15_7) AppleWebKit/537.36 (KHTML, like Gecko) Chrome/131.0.0.0 Safari/537.36")
     30 3 (lit "INFO").

End config.

(* ================================================================== *)
(** ** [http.py]: the rate-limited transport *)
(* ================================================================== *)

Module http.
Import Py.

Inductive Method : Type := GET | POST.

(** The keyword arguments the package passes to a request. *)
Record kwargs : Type := mkKwargs {
  headers : list (str * str);
  data : option (list (str * str));     (* a form *)
  body : option str;                    (* content=... *)
  params : option dict
}.

Definition no_kwargs : kwargs := mkKwargs [] None None None.

(** What can be observed of a run, in the order it happens: a sleep, a
    request with what came back, a challenge given to the solver with what
    it answered. *)
Inductive event : Type :=
| Slept (seconds : obj)
| Requested (method : Method) (url : str) (kw : kwargs) (answer : outcome Response)
| Solved (image : str) (answer : outcome str).

Definition trace := list event.

(** The world outside the package: what [httpx.AsyncClient.request]
    returns or raises for a request, what the [CaptchaSolver] answers, and
    the calendar day; each may depend on everything that happened before. *)
Record env : Type := mkEnv {
  send : trace -> Method -> str -> kwargs -> outcome Response;
  solve : trace -> str -> outcome str;
  today : trace -> datetime.date
}.

(** Code that runs against the world: from the trace so far to the trace
    after it and what it returned or raised. *)
Definition io (A : Type) : Type := trace -> trace * outcome A.

Definition ret {A} (a : A) : io A := fun h => (h, Return a).
Definition raise {A} (e : exn) : io A := fun h => (h, Raise e).
Definition io_bind {A B} (m : io A) (k : A -> io B) : io B :=
  fun h =>
    match m h with
    | (h', Return a) => k a h'
    | (h', Raise e) => (h', Raise e)
    end.
Definition lift {A} (x : outcome A) : io A := fun h => (h, x).

(** [try: body  except ...: handler]; the handler raises again what it
    does not catch. *)
Definition try_except {A} (body : io A) (handler : exn -> io A) : io A :=
  fun h =>
    match body h with
    | (h', Raise e) => handler e h'
    | r => r
    end.

Notation "x <- m ;; k" := (io_bind m (fun x => k))
  (at level 61, m at next level, right associativity).
Notation "m ;;; k" := (io_bind m (fun _ => k))
  (at level 61, right associativity).

(** [response.raise_for_status()]: an error unless the status is 2xx. *)
Definition is_success (r : Response) : bool :=
  ((200 <=? status_code r) && (status_code r <=? 299))%Z.

Definition raise_for_status (r : Response) : outcome Response :=
  if is_success r then Return r else Raise (HTTPStatusError r).

(** The classes the [except] clause of [_request] names. *)
Definition caught (e : exn) : bool :=
  match e with
  | HTTPStatusError _ | ConnectError | ReadTimeout => true
  | _ => false
  end.

Section Transport.
Variable E : env.
Variable cfg : config.BharatCourtsConfig.

(** [await asyncio.sleep(seconds)] *)
Definition sleep (seconds : obj) : io unit :=
  fun h => (h ++ [Slept seconds], Return tt).

(** [await client.request(method, url, **kwargs)] *)
Definition request (method : Method) (url : str) (kw : kwargs) : io Response :=
  fun h =>
    let answer := send E h method url kw in
    (h ++ [Requested method url kw answer], answer).

(** The loop of [_request]: [todo] iterations are left, [attempt] is the
    loop variable. *)
Fixpoint _request_loop (todo : nat) (attempt : Z) (last_error : option exn)
    (method : Method) (url : str) (kw : kwargs) : io Response :=
  match todo with
  | O =>
      raise (RuntimeError
               (lit "Request failed after " ++ str_of_int (config.max_retries cfg)
                ++ lit " retries")
               last_error)
  | S todo' =>
      try_except
        (resp <- request method url kw ;; lift (raise_for_status resp))
        (fun e =>
           if caught e then
             if (attempt =? config.max_retries cfg - 1)%Z then raise e
             else
               let wait := ((attempt + 1) * 2)%Z in
               sleep (Int wait) ;;;
               _request_loop todo' (attempt + 1) (Some e) method url kw
           else raise e)
  end.

(** [_request] *)
Definition _request (method : Method) (url : str) (kw : kwargs) : io Response :=
  sleep (Float (config.request_delay cfg)) ;;;
  _request_loop (Z.to_nat (config.max_retries cfg)) 0 None method url kw.

Definition get (url : str) (kw : kwargs) : io Response := _request GET url kw.
Definition post (url : str) (kw : kwargs) : io Response := _request POST url kw.

Definition get_bytes (url : str) (kw : kwargs) : io str :=
  resp <- get url kw ;; ret (content resp).

Definition get_text (url : str) (kw : kwargs) : io str :=
  resp <- get url kw ;; ret (text resp).

(** [await captcha_solver.solve(image_bytes)] *)
Definition solve_captcha (image : str) : io str :=
  fun h =>
    let answer := solve E h image in
    (h ++ [Solved image answer], answer).

(** [date.today()] *)
Definition date_today : io datetime.date := fun h => (h, Return (today E h)).

End Transport.
End http.

(* ================================================================== *)
(** ** [hcservices/endpoints.py] *)
(* ================================================================== *)

Module hcservices_endpoints.
Import Py.

Definition BASE_URL : str := lit "https://hcservices.ecourts.gov.in/hcservices".
Definition MAIN_PAGE_URL : str := BASE_URL ++ lit "/main.php".
Definition CAPTCHA_IMAGE_URL : str := BASE_URL ++ lit "/securimage/securimage_show.php".
Definition INDEX_QRY_URL : str := BASE_URL ++ lit "/cases_qry/index_qry.php".
Definition SHOW_RECORDS_URL : str := INDEX_QRY_URL ++ lit "?action_code=showRecords".
Definition FILL_CASE_TYPE_URL : str := INDEX_QRY_URL ++ lit "?action_code=fillCaseType".

Definition form := list (str * str).

Definition fill_bench_form (state_code : str) : form :=
  [(lit "action_code", lit "fillHCBench");
   (lit "state_code", state_code);
   (lit "appFlag", lit "web")].

Definition fill_case_type_form (state_code court_code : str) : form :=
  [(lit "court_code", court_code); (lit "state_code", state_code)].

Definition case_status_form (state_code court_code case_type case_number year
                             captcha : str) : form :=
  [(lit "court_code", court_code);
   (lit "state_code", state_code);
   (lit "court_complex_code", court_code);
   (lit "caseStatusSearchType", lit "CScaseNumber");
   (lit "captcha", captcha);
   (lit "case_type", case_type);
   (lit "case_no", case_number);
   (lit "rgyear", year);
   (lit "caseNoType", lit "new");
   (lit "displayOldCaseNo", lit "NO")].

Definition case_status_by_party_form (state_code court_code petres_name rgyear
                                      captcha status_filter : str) : form :=
  [(lit "court_code", court_code);
   (lit "state_code", state_code);
   (lit "court_complex_code", court_code);
   (lit "caseStatusSearchType", lit "CSpartyName");
   (lit "captcha", captcha);
   (lit "f", status_filter);
   (lit "petres_name", petres_name);
   (lit "rgyear", rgyear)].

Definition court_orders_form (state_code court_code case_type case_number year
                              captcha : str) : form :=
  [(lit "court_code", court_code);
   (lit "state_code", state_code);
   (lit "court_complex_code", court_code);
   (lit "caseStatusSearchType", lit "COCaseNumber");
   (lit "captcha", captcha);
   (lit "case_type", case_type);
   (lit "case_no", case_number);
   (lit "rgyear", year);
   (lit "caseNoType", lit "new");
   (lit "displayOldCaseNo", lit "NO")].

(** [d.strftime('%d-%m-%Y')] *)
Definition strftime_dmy (d : datetime.date) : str :=
  datetime.pad 2 (str_of_int (datetime.day d)) ++ lit "-"
  ++ datetime.pad 2 (str_of_int (datetime.month d)) ++ lit "-"
  ++ str_of_int (datetime.year d).

(** [cause_list_form]; [today] is [date.today()], read when no date is
    given. *)
Definition cause_list_form (today : datetime.date)
    (state_code court_code captcha causelist_date flag selprevdays : str) : form :=
  let causelist_date :=
    match causelist_date with
    | [] => strftime_dmy today
    | _ :: _ => causelist_date
    end in
  [(lit "action_code", lit "showCauseList");
   (lit "flag", flag);
   (lit "selprevdays", selprevdays);
   (lit "captcha", captcha);
   (lit "state_code", state_code);
   (lit "court_code", court_code);
   (lit "caseStatusSearchType", lit "CLcauselist");
   (lit "appFlag", []);
   (lit "causelist_date", causelist_date)].

End hcservices_endpoints.

(* ================================================================== *)
(** ** [hcservices/client.py] *)
(* ================================================================== *)

Module hcservices_client.
Import Py models http hcservices_endpoints.

(** The quick check of [_post_with_captcha_retry] for a rejected
    challenge. *)
Definition rejected (response_text : str) : bool :=
  let text := lstrip_chars [BOM] (strip response_text) in
  contains (q "'Invalid Captcha'") text
  || contains (q "'con':'Invalid Captcha'") text.

(** The loop of [list_benches] over the entries of the listing. *)
Definition bench_entry (benches : dict) (entry : str) : outcome dict :=
  let entry := strip entry in
  if contains (lit "~") entry then
    match split_max (lit "~") 1 entry with
    | [code; name] =>
        let code := strip_chars [BOM] (strip code) in
        let name := strip_chars [BOM] (strip name) in
        if truthy (Str code) && negb (eqb code (lit "0")) && truthy (Str name)
           && negb (contains (lit "select") (lower name))
        then Return (dict_set benches code (Str name))
        else Return benches
    | _ => Raise ValueError
    end
  else Return benches.

(** The loop of [list_case_types]. *)
Definition case_type_entry (case_types : dict) (entry : str) : outcome dict :=
  let entry := strip_chars [BOM] (strip entry) in
  if contains (lit "~") entry then
    match split_max (lit "~") 1 entry with
    | [code; name] =>
        let code := strip code in
        let name := strip name in
        if truthy (Str code) && negb (eqb code (lit "0")) && truthy (Str name)
           && negb (contains (lit "select") (lower name))
        then Return (dict_set case_types code (Str name))
        else Return case_types
    | _ => Raise ValueError
    end
  else Return case_types.

(** [for x in xs: acc = body(acc, x)], stopping at the first exception. *)
Fixpoint for_each {A B} (body : B -> A -> outcome B) (xs : list A) (acc : B)
  : outcome B :=
  match xs with
  | [] => Return acc
  | x :: rest => bind (body acc x) (for_each body rest)
  end.

Section Client.
Variable L : libs.
Variable E : env.
Variable cfg : config.BharatCourtsConfig.

Definition referer (url : str) : kwargs :=
  mkKwargs [(lit "Referer", url)] None None None.

(** [_init_session] *)
Definition _init_session : io unit :=
  resp <- get E cfg MAIN_PAGE_URL (referer (BASE_URL ++ lit "/")) ;; ret tt.

(** [_solve_captcha] *)
Definition _solve_captcha : io str :=
  resp <- get E cfg CAPTCHA_IMAGE_URL (referer MAIN_PAGE_URL) ;;
  solve_captcha E (content resp).

(** The loop of [_post_with_captcha_retry], with [todo] iterations left.
    [form_builder] is a callable of the caller: it may read the calendar. *)
Fixpoint _post_with_captcha_retry_loop (todo : nat) (url : str)
    (form_builder : str -> io form) (max_retries : Z) : io Response :=
  match todo with
  | O =>
      raise (CaptchaError (lit "CAPTCHA failed after " ++ str_of_int max_retries
                           ++ lit " attempts"))
  | S todo' =>
      _init_session ;;;
      captcha <- _solve_captcha ;;
      form <- form_builder captcha ;;
      resp <- post E cfg url
                (mkKwargs [(lit "Referer", MAIN_PAGE_URL)] (Some form) None None) ;;
      if rejected (text resp)
      then _post_with_captcha_retry_loop todo' url form_builder max_retries
      else ret resp
  end.

(** [_post_with_captcha_retry] *)
Definition _post_with_captcha_retry (url : str) (form_builder : str -> io form)
    (max_retries : Z) : io Response :=
  _post_with_captcha_retry_loop (Z.to_nat max_retries) url form_builder max_retries.

(** [case_status] *)
Definition case_status (court : Court.t)
    (case_type case_number year bench_code : str) : io (list CaseInfo.t) :=
  let build_form captcha :=
    ret (case_status_form (Court.state_code court) bench_code case_type
                          case_number year captcha) in
  resp <- _post_with_captcha_retry SHOW_RECORDS_URL build_form 3 ;;
  results <- lift (hcservices_parser.parse_case_status L (text resp)) ;;
  ret (map (fun r => CaseInfo.set_court_name r (Court.name court)) results).

(** [case_status_by_party] *)
Definition case_status_by_party (court : Court.t)
    (party_name year bench_code status_filter : str) : io (list CaseInfo.t) :=
  let build_form captcha :=
    ret (case_status_by_party_form (Court.state_code court) bench_code
                                   party_name year captcha status_filter) in
  resp <- _post_with_captcha_retry SHOW_RECORDS_URL build_form 3 ;;
  results <- lift (hcservices_parser.parse_case_status L (text resp)) ;;
  ret (map (fun r => CaseInfo.set_court_name r (Court.name court)) results).

(** [court_orders] *)
Definition court_orders (court : Court.t)
    (case_type case_number year bench_code : str) : io (list CaseOrder.t) :=
  let build_form captcha :=
    ret (court_orders_form (Court.state_code court) bench_code case_type
                           case_number year captcha) in
  resp <- _post_with_captcha_retry SHOW_RECORDS_URL build_form 3 ;;
  ret (hcservices_parser.parse_orders L (text resp) BASE_URL).

Definition date_lt (a b : datetime.date) : bool :=
  ((datetime.year a <? datetime.year b)
   || ((datetime.year a =? datetime.year b)
       && ((datetime.month a <? datetime.month b)
           || ((datetime.month a =? datetime.month b)
               && (datetime.day a <? datetime.day b)))))%Z.

(** [cause_list]; [cause_list_form] reads the calendar, each time it is
    called, when no date was given. *)
Definition cause_list (court : Court.t) (civil : bool)
    (bench_code causelist_date : str) : io (list CauseListPDF.t) :=
  selprevdays <-
    match causelist_date with
    | [] => ret (lit "0")
    | _ :: _ =>
        match datetime.strptime_dmy causelist_date with
        | Return sel =>
            now <- date_today E ;;
            ret (if date_lt sel now then lit "1" else lit "0")
        | Raise _ => ret (lit "0")
        end
    end ;;
  let build_form captcha :=
    now <- date_today E ;;
    ret (cause_list_form now (Court.state_code court) bench_code captcha
                         causelist_date (if civil then lit "civ_t" else lit "cri_t")
                         selprevdays) in
  resp <- _post_with_captcha_retry INDEX_QRY_URL build_form 3 ;;
  ret (hcservices_parser.parse_cause_list L (text resp) BASE_URL).

(** [list_benches] *)
Definition list_benches (court : Court.t) : io dict :=
  _init_session ;;;
  let form := fill_bench_form (Court.state_code court) in
  resp <- post E cfg INDEX_QRY_URL (mkKwargs [] (Some form) None None) ;;
  lift (for_each bench_entry (split (lit "#") (text resp)) []).

(** [list_case_types] *)
Definition list_case_types (court : Court.t) (bench_code : str) : io dict :=
  _init_session ;;;
  let form := fill_case_type_form (Court.state_code court) bench_code in
  resp <- post E cfg FILL_CASE_TYPE_URL (mkKwargs [] (Some form) None None) ;;
  lift (for_each case_type_entry (split (lit "#") (text resp)) []).

(** [download_order_pdf] *)
Definition download_order_pdf (pdf_url : str) : io str :=
  get_bytes E cfg pdf_url no_kwargs.

End Client.
End hcservices_client.

(* ================================================================== *)
(** ** [judgments/endpoints.py] and [judgments/client.py] *)
(* ================================================================== *)

Module judgments_endpoints.
Import Py.

Definition BASE_URL : str := lit "https://judgments.ecourts.gov.in/pdfsearch".
Definition MAIN_PAGE_URL : str := BASE_URL ++ lit "/".
Definition CAPTCHA_IMAGE_URL : str :=
  BASE_URL ++ lit "/vendor/securimage/securimage_show.php".
Definition CHECK_CAPTCHA_URL : str := BASE_URL ++ lit "/?p=pdf_search/checkCaptcha".
Definition SEARCH_RESULTS_URL : str := BASE_URL ++ lit "/".

Definition check_captcha_form (captcha search_text search_opt : str) : str :=
  lit "captcha=" ++ captcha
  ++ lit "&search_text=" ++ search_text
  ++ lit "&search_opt=" ++ search_opt
  ++ lit "&escr_flag=" ++ lit "&proximity=" ++ lit "&sel_lang="
  ++ lit "&ajax_req=true" ++ lit "&app_token=".

(** The token is whatever object the portal sent. *)
Definition search_results_params (search_text captcha search_opt court_type : str)
    (app_token : obj) (escr_flag : str) : list (str * obj) :=
  [(lit "p", Str (lit "pdf_search/home"));
   (lit "text", Str search_text);
   (lit "captcha", Str captcha);
   (lit "search_opt", Str search_opt);
   (lit "fcourt_type", Str court_type);
   (lit "escr_flag", Str escr_flag);
   (lit "proximity", Str []);
   (lit "sel_lang", Str []);
   (lit "app_token", app_token)].

End judgments_endpoints.

Module judgments_client.
Import Py models http judgments_endpoints.

Section Client.
Variable L : libs.
Variable E : env.
Variable cfg : config.BharatCourtsConfig.

(** [_init_session] *)
Definition _init_session : io unit :=
  resp <- get E cfg MAIN_PAGE_URL no_kwargs ;; ret tt.

(** [_solve_captcha] *)
Definition _solve_captcha : io str :=
  resp <- get E cfg CAPTCHA_IMAGE_URL no_kwargs ;;
  solve_captcha E (content resp).

(** [_validate_captcha].  The client keeps the token of the last check in
    [self._app_token]: the function takes its value and returns the new
    one beside its result. *)
Definition _validate_captcha (app_token : obj) (captcha search_text : str)
  : io (bool * obj) :=
  let form_body := check_captcha_form captcha search_text (lit "PHRASE") in
  resp <- post E cfg CHECK_CAPTCHA_URL
            (mkKwargs [(lit "Content-Type", lit "application/x-www-form-urlencoded");
                       (lit "X-Requested-With", lit "XMLHttpRequest")]
                      None (Some form_body) None) ;;
  match json_body resp with
  | None => ret (false, app_token)
  | Some (Dict data) =>
      let app_token := Py.get data (lit "app_token") (Str []) in
      if negb (ne_str (Py.get data (lit "captcha_status") None_) (lit "Y"))
      then ret (true, app_token)
      else ret (false, app_token)
  | Some _ => raise AttributeError
  end.

(** The CAPTCHA loop of [search], with [todo] iterations left: the text
    that was accepted when the loop ends by [break], [None] when it runs
    to its end. *)
Fixpoint captcha_loop (todo : nat) (app_token : obj) (search_text : str)
  : io (option str * obj) :=
  match todo with
  | O => ret (None, app_token)
  | S todo' =>
      captcha_text <- _solve_captcha ;;
      match captcha_text with
      | [] => captcha_loop todo' app_token search_text
      | _ :: _ =>
          r <- _validate_captcha app_token captcha_text search_text ;;
          let '(valid, app_token) := r in
          if valid then ret (Some captcha_text, app_token)
          else captcha_loop todo' app_token search_text
      end
  end.

(** [search]; the second component is [self._app_token] afterwards. *)
Definition search (app_token : obj) (search_text search_opt court_type : str)
    (max_captcha_attempts : Z) : io (SearchResult.t * obj) :=
  _init_session ;;;
  r <- captcha_loop (Z.to_nat max_captcha_attempts) app_token search_text ;;
  let '(accepted, app_token) := r in
  match accepted with
  | None => ret (SearchResult.default, app_token)
  | Some captcha_text =>
      let params :=
        search_results_params search_text captcha_text search_opt court_type
                              app_token [] in
      resp <- get E cfg SEARCH_RESULTS_URL (mkKwargs [] None None (Some params)) ;;
      ret (judgments_parser.parse_judgment_search L (text resp) BASE_URL 1,
           app_token)
  end.

End Client.
End judgments_client.

(* ================================================================== *)
(** * The vocabulary of the properties *)
(* ================================================================== *)

(** ** Runs of the transport *)

Module run.
Import Py http.

(** What an attempt fails with: the exception of the request itself, or
    the one [raise_for_status] makes of the response. *)
Definition failure (answer : outcome Response) : option exn :=
  match bind answer raise_for_status with
  | Raise e => Some e
  | Return _ => None
  end.

(** A transient failure: one the [except] clause of [_request] catches
    (an HTTP error status, a connection error, a read timeout). *)
Definition transient (answer : outcome Response) : Prop :=
  exists e, failure answer = Some e /\ caught e = true.

(** An attempt that succeeds. *)
Definition succeeds (answer : outcome Response) : Prop :=
  exists r, answer = Return r /\ is_success r = true.

(** The answers to the requests of a trace, in order, and the requests
    themselves as (method, url). *)
Definition answers (t : trace) : list (outcome Response) :=
  flat_map (fun ev => match ev with Requested _ _ _ a => [a] | _ => [] end) t.

Definition request_log (t : trace) : list (Method * str) :=
  flat_map (fun ev => match ev with Requested m u _ _ => [(m, u)] | _ => [] end) t.

(** The last element of a list. *)
Definition last_of {A} (l : list A) : option A := hd_error (rev l).

(** An exception that wraps [cause]: raised [from] it. *)
Definition wraps (e cause : exn) : Prop :=
  exists msg, e = RuntimeError msg (Some cause).

End run.

(** ** Portals that reject *)

Module portal.
Import Py http run.

(** The portal answers every request with a 2xx response, and the solver
    answers every challenge. *)
Definition responsive (E : env) : Prop :=
  forall h m u kw, succeeds (send E h m u kw).

Definition solver_answers (E : env) : Prop :=
  forall h image, exists s, solve E h image = Return s.

(** A callable that builds a form: it returns one and sends nothing. *)
Definition builds (form_builder : str -> io hcservices_endpoints.form) : Prop :=
  forall captcha h, exists f, form_builder captcha h = (h, Return f).

(** HC Services: the answer to every submitted form carries the rejection
    marker. *)
Definition rejects_every_submission (E : env) : Prop :=
  forall h u kw r,
    send E h POST u kw = Return r -> hcservices_client.rejected (text r) = true.

(** Judgment search: the answer to a check is not JSON, or is an object
    whose [captcha_status] is not Y. *)
Definition check_fails (r : Response) : Prop :=
  match json_body r with
  | None => True
  | Some (Dict d) => ne_str (Py.get d (lit "captcha_status") None_) (lit "Y") = true
  | Some _ => False
  end.

Definition fails_every_check (E : env) : Prop :=
  forall h u kw r, send E h POST u kw = Return r -> check_fails r.

(** The message of the [CaptchaError] of [_post_with_captcha_retry]. *)
Definition failed_after (n : Z) : str :=
  lit "CAPTCHA failed after " ++ str_of_int n ++ lit " attempts".

(** One round of the HC Services protocol: a new session, a new challenge,
    a submission. *)
Definition round (url : str) : list (Method * str) :=
  [(GET, hcservices_endpoints.MAIN_PAGE_URL);
   (GET, hcservices_endpoints.CAPTCHA_IMAGE_URL);
   (POST, url)].

(** A run that gives up after [n] rounds: it raises [CaptchaError], having
    made the requests of [n] rounds and no other. *)
Definition gives_up {A} (result : trace * outcome A) (h : trace) (url : str) (n : Z)
  : Prop :=
  exists evs,
    result = (h ++ evs, Raise (CaptchaError (failed_after n)))
    /\ request_log evs = concat (repeat (round url) (Z.to_nat n)).

(** The number of GET requests for [url] in a log. *)
Definition fetches (url : str) (log : list (Method * str)) : nat :=
  length (filter (fun x => match fst x with
                           | GET => eqb (snd x) url
                           | POST => false
                           end) log).

(** Judgment search: the requests made inside one session, a fetch of the
    challenge image or a check of its solution. *)
Definition in_session (x : Method * str) : Prop :=
  x = (GET, judgments_endpoints.CAPTCHA_IMAGE_URL)
  \/ x = (POST, judgments_endpoints.CHECK_CAPTCHA_URL).

End portal.

(** ** Response bodies *)

Module body.
Import Py.

(** The text [_parse_json_envelope] decodes. *)
Definition envelope_text (raw : str) : str := lstrip_chars [BOM] (strip raw).

(** [text] decodes to [v]: at once, or at the second, lenient try. *)
Definition decodes_to (text : str) (v : obj) : Prop :=
  json.loads true text = Return v
  \/ (json.loads true text = Raise JSONDecodeError /\ json.loads false text = Return v).

(** The [con] field is not a string that mentions a captcha. *)
Definition not_a_rejection (data : dict) : Prop :=
  forall c, get data (lit "con") None_ = Str c ->
            contains (lit "captcha") (lower c) = false.

(** The page has no table at all. *)
Definition no_table (soup : bs4.Node) : Prop :=
  bs4.find (lit "table") bs4.any soup = None.

(** The rows [parse_orders] reads: those of the orders table, the header
    row apart. *)
Definition order_rows (soup : bs4.Node) : list bs4.Node :=
  match bs4.or_else (bs4.find (lit "table") (bs4.has_id (lit "orderTable")) soup)
                    (bs4.find (lit "table") bs4.any soup) with
  | None => []
  | Some table => tl (bs4.find_all (lit "tr") bs4.any table)
  end.

(** The date of a row: the second of its cells, parsed, when the row has
    its five cells. *)
Definition row_date (row : bs4.Node) : option datetime.date :=
  let cols := bs4.find_all (lit "td") bs4.any row in
  if (hcservices_parser.len cols <? 5)%Z then None
  else hcservices_parser._parse_date (bs4.get_text (bs4.item cols 1)).

(** The pagination region gives no total: there is none, or its text has
    no match for the pattern of the total. *)
Definition no_total (soup : bs4.Node) : Prop :=
  match judgments_parser.pagination soup with
  | None => True
  | Some p => re.search false re.OF_N (bs4.get_text p) = None
  end.

End body.

(** ** Listings *)

Module listing.
Import Py.

(** No key of the mapping is the zero sentinel, and no value mentions
    select, however it is capitalised. *)
Definition excludes_placeholders (d : dict) : Prop :=
  forall key value,
    dict_get d key = Some value ->
    key <> lit "0"
    /\ exists name, value = Str name /\ contains (lit "select") (lower name) = false.

End listing.

(** ** Parties *)

Module parties.
Import Py.

(** The letters v and s as IGNORECASE reads them: in either case, and for
    s the long s (U+017F) as well. *)
Definition is_v (c : N) : bool := (c =? 118) || (c =? 86).
Definition is_s (c : N) : bool := (c =? 115) || (c =? 83) || (c =? 0x17F).

(** The separator: the word v or the word vs, however capitalised. *)
Definition vs_word (sep : str) : Prop :=
  exists v, is_v v = true
            /\ (sep = [v] \/ exists s, is_s s = true /\ sep = [v; s]).

(** [sep] stands in [pre ++ sep ++ post] as a word of its own: no word
    character (a letter or a number of Unicode, or an underscore) just
    before it and none just after it. *)
Definition standalone (pre sep post : str) : Prop :=
  re.isword_at (run.last_of pre) = false
  /\ re.isword_at (hd_error post) = false.

(** [text] splits into [pre], a separator and [post]. *)
Definition splits_at (text pre sep post : str) : Prop :=
  text = pre ++ sep ++ post /\ vs_word sep /\ standalone pre sep post.

(** ... and no separator stands further to the left. *)
Definition first_split (text pre sep post : str) : Prop :=
  splits_at text pre sep post
  /\ forall pre' sep' post',
       splits_at text pre' sep' post' -> (length pre <= length pre')%nat.

(** What the pattern of the separator matches at a position, given the
    character before it: the separator and the text after it. *)
Definition vs_here (prev : option N) (s : str) : option (str * str) :=
  match s with
  | x :: s1 =>
      if is_v x && negb (re.isword_at prev) then
        match s1 with
        | y :: s2 =>
            if is_s y then
              if negb (re.isword_at (hd_error s2)) then Some ([x; y], s2) else None
            else if negb (re.isword y) then Some ([x], s1) else None
        | [] => Some ([x], [])
        end
      else None
  | [] => None
  end.

(** The text of a cell, as [_extract_parties] reads it. *)
Definition cell_text (cell : bs4.Node) : str :=
  hcservices_parser._clean_text (bs4.get_text cell).

End parties.

(** ** Scenarios *)

Module scenario.
Import Py http.

(** [BharatCourtsConfig(request_delay=0, timeout=5, max_retries=n)] *)
Definition fast_config (n : Z) : config.BharatCourtsConfig :=
  config.mk (Qmake 0 1) (config.user_agent config.default) 5 n (lit "INFO").

Definition a_day : datetime.date := datetime.mkDate 2024 2 15.

(** [AutoCaptchaSolver]: every challenge is read as test123. *)
Definition auto_solver (h : trace) (image : str) : outcome str :=
  Return (lit "test123").

(** An endpoint that always answers 500. *)
Definition response_500 : Response := mkResponse 500 [] [] None.
Definition always_500 : env :=
  mkEnv (fun _ _ _ _ => Return response_500) auto_solver (fun _ => a_day).

Definition some_url : str := lit "https://example.com/down".

(** A document without any element, and a [repr] that is never called. *)
Definition empty_document : bs4.Node := bs4.Tag (lit "[document]") [] [].
Definition plain_libs : libs := mkLibs (fun _ => empty_document) (fun _ => []).

(** A portal that accepts no challenge: every answer is a 200 whose text
    is the rejection envelope of HC Services and whose JSON is the failed
    check of the judgment search. *)
Definition rejection : Response :=
  mkResponse 200 (q "{'con':'Invalid Captcha'}") []
    (Some (Dict [(lit "captcha_status", Str (lit "N"));
                 (lit "errormsg", Str (lit "Invalid Captcha"))])).

Definition rejecting_portal : env :=
  mkEnv (fun _ _ _ _ => Return rejection) auto_solver (fun _ => a_day).

Definition delhi : models.Court.t :=
  models.Court.mk (lit "Delhi High Court") (lit "delhi") (lit "26")
                  models.HIGH_COURT None.

Definition td (cell_text : string) : bs4.Node :=
  bs4.Tag (lit "td") [] [bs4.NavigableString (lit cell_text)].

(** Party cells without emphasised spans. *)
Definition cell_v : bs4.Node := td "Ram v Shyam".
Definition cell_vs : bs4.Node := td "ABC Industries Ltd vs Union of India".
Definition cell_vs_dot : bs4.Node := td "State of Delhi Vs. XYZ Enterprises".

(** Party cells with characters beyond ASCII: a v between two accented
    letters (U+00E9), and a v followed by a long s (U+017F). *)
Definition cell_accents : bs4.Node :=
  bs4.Tag (lit "td") []
    [bs4.NavigableString (lit "N" ++ [0xE9] ++ lit "v" ++ [0xE9] ++ lit " Corp")].
Definition cell_long_s : bs4.Node :=
  bs4.Tag (lit "td") [] [bs4.NavigableString (lit "A v" ++ [0x17F] ++ lit " B")].

Definition tag (name : string) (contents : list bs4.Node) : bs4.Node :=
  bs4.Tag (lit name) [] contents.

Definition document (contents : list bs4.Node) : bs4.Node :=
  bs4.Tag (lit "[document]") [] contents.

(** Libraries whose HTML parser yields the given document. *)
Definition page_libs (page : bs4.Node) : libs := mkLibs (fun _ => page) (fun _ => []).

(** An orders table: a header, an order of 15-02-2024, a row whose date
    is not a date, a row that is too short. *)
Definition orders_page : bs4.Node :=
  document
    [bs4.Tag (lit "table") [(lit "id", lit "orderTable")]
       [tag "tr" [tag "th" []];
        tag "tr" [td "1"; td "15-02-2024"; td "Judgment"; td "Division Bench";
                  tag "td" [bs4.Tag (lit "a") [(lit "href", lit "/orders/order_123.pdf")]
                              [bs4.NavigableString (lit "View")]]];
        tag "tr" [td "2"; td "not available"; td "Order"; td "Single Bench"; td ""];
        tag "tr" [td "3"; td "16-02-2024"; td "Order"]]].


(** The answer to a bench listing: a placeholder, two benches (the second
    after a byte-order mark), and an entry that mentions select. *)
Definition benches_text : str :=
  lit "0~Select Bench#1~Principal Bench at Delhi#" ++ [BOM]
  ++ lit "2~Lucknow Bench#3~-- select --".

Definition listing_portal : env :=
  mkEnv (fun _ _ _ _ => Return (mkResponse 200 benches_text [] None))
        auto_solver (fun _ => a_day).

(** An endpoint that answers 500 once and then 200. *)
Definition recovered : Response := mkResponse 200 (lit "recovered") [] None.
Definition flaky : env :=
  mkEnv (fun h _ _ _ =>
           match run.answers h with
           | [] => Return response_500
           | _ :: _ => Return recovered
           end)
        auto_solver (fun _ => a_day).

(** The envelope of two records of the test suite, as far as the tests
    read it. *)
Definition two_records : str :=
  q ("{'con':['[{\'cino\':\'DLHC010582482024\',\'case_no\':\'200300000032024\',"
     ++ "\'case_no2\':3,\'case_year\':2024,\'case_type\':3,"
     ++ "\'pet_name\':\'ABC INDUSTRIES LTD\',"
     ++ "\'res_name\':\'STATE POLLUTION CONTROL BOARD & ORS.\',"
     ++ "\'status_name\':\'Pending\'},"
     ++ "{\'cino\':\'DLHC010400092024\',\'case_no\':\'200300000172024\',"
     ++ "\'case_no2\':17,\'case_year\':2024,\'case_type\':3,"
     ++ "\'pet_name\':\'XYZ ENTERPRISES PVT LTD\',\'res_name\':\'UNION OF INDIA\',"
     ++ "\'status_name\':\'Disposed\'}]'],'totRecords':2,'Error':''}")%string.

(** A portal that rejects the first submission and accepts the second. *)
Definition second_time_lucky : env :=
  mkEnv (fun h m _ _ =>
           match m with
           | GET => Return (mkResponse 200 [] (lit "fake_captcha_image") None)
           | POST =>
               if existsb (fun x => match fst x with POST => true | GET => false end)
                          (run.request_log h)
               then Return (mkResponse 200 two_records [] None)
               else Return rejection
           end)
        auto_solver (fun _ => a_day).

End scenario.

(** ** Tactics *)

(** Case analysis on the comparisons of code points in the goal. *)
Ltac decide_code_points :=
  repeat match goal with
         | |- context [N.leb ?a ?b] => destruct (N.leb_spec a b)
         | |- context [N.eqb ?a ?b] => destruct (N.eqb_spec a b)
         end;
  cbn [andb orb negb]; try reflexivity; try lia.


(* ================================================================== *)
(** * The rest of the package *)
(* ================================================================== *)

(** ** A [dict] whose values are of any one type *)

Module mapping.
Import Py.

Section Values.
Variable V : Type.

(** The items in insertion order, every key once. *)
Definition t : Type := list (str * V).

(** [d.get(key)] *)
Fixpoint get (d : t) (key : str) : option V :=
  match d with
  | [] => None
  | (k, v) :: d' => if eqb k key then Some v else get d' key
  end.

(** [d[key] = v]: a key already there keeps its place. *)
Fixpoint set (d : t) (key : str) (v : V) : t :=
  match d with
  | [] => [(key, v)]
  | (k, v') :: d' =>
      if eqb k key then (k, v) :: d' else (k, v') :: set d' key v
  end.

End Values.

(** [{key(x): value(x) for x in xs}] *)
Definition comprehension {A V} (key : A -> str) (value : A -> V) (xs : list A)
  : t V :=
  fold_left (fun d x => set d (key x) (value x)) xs [].

End mapping.

(* ================================================================== *)
(** ** [courts.py]: the registry of courts *)
(* ================================================================== *)

Module courts.
Import Py models.

(** [Court(name=..., code=..., state_code=..., court_type=CourtType.HIGH_COURT)],
    without and with a [bench]. *)
Definition high_court (name code state_code : string) : Court.t :=
  Court.mk (lit name) (lit code) (lit state_code) HIGH_COURT None.

Definition high_court_bench (name code state_code bench : string) : Court.t :=
  Court.mk (lit name) (lit code) (lit state_code) HIGH_COURT (Some (lit bench)).

Definition HIGH_COURTS : list Court.t :=
  [high_court "Allahabad High Court" "allahabad" "13";
   high_court_bench "Allahabad High Court, Lucknow Bench" "allahabad-lucknow" "13"
                    "Lucknow";
   high_court "Andhra Pradesh High Court" "andhra" "2";
   high_court "Bombay High Court" "bombay" "1";
   high_court_bench "Bombay High Court, Nagpur Bench" "bombay-nagpur" "1" "Nagpur";
   high_court_bench "Bombay High Court, Aurangabad Bench" "bombay-aurangabad" "1"
                    "Aurangabad";
   high_court_bench "Bombay High Court, Goa Bench" "bombay-goa" "1" "Goa";
   high_court "Calcutta High Court" "calcutta" "16";
   high_court "Chhattisgarh High Court" "chhattisgarh" "18";
   high_court "Delhi High Court" "delhi" "26";
   high_court "Gauhati High Court" "gauhati" "6";
   high_court "Gujarat High Court" "gujarat" "17";
   high_court "Himachal Pradesh High Court" "himachal" "5";
   high_court "Jammu & Kashmir High Court" "jammu" "12";
   high_court "Jharkhand High Court" "jharkhand" "7";
   high_court "Karnataka High Court" "karnataka" "3";
   high_court "Kerala High Court" "kerala" "4";
   high_court "Madhya Pradesh High Court" "mp" "23";
   high_court "Madras High Court" "madras" "10";
   high_court "Manipur High Court" "manipur" "25";
   high_court "Meghalaya High Court" "meghalaya" "21";
   high_court "Orissa High Court" "orissa" "11";
   high_court "Patna High Court" "patna" "8";
   high_court "Punjab and Haryana High Court" "punjab" "22";
   high_court "Rajasthan High Court" "rajasthan" "9";
   high_court "Sikkim High Court" "sikkim" "24";
   high_court "Telangana High Court" "telangana" "29";
   high_court "Tripura High Court" "tripura" "20";
   high_court "Uttarakhand High Court" "uttarakhand" "15"].

Definition SUPREME_COURT : Court.t :=
  Court.mk (lit "Supreme Court of India") (lit "sci") (lit "0")
           models.SUPREME_COURT None.

Definition ALL_COURTS : list Court.t := SUPREME_COURT :: HIGH_COURTS.

(** The lookup maps. *)
Definition _BY_CODE : mapping.t Court.t :=
  mapping.comprehension Court.code (fun c => c) ALL_COURTS.

Definition _BY_NAME : mapping.t Court.t :=
  mapping.comprehension (fun c => lower (Court.name c)) (fun c => c) ALL_COURTS.

(** [get_court] *)
Definition get_court (code : str) : option Court.t :=
  mapping.get _BY_CODE (lower code).

(** [get_court_by_name] *)
Definition get_court_by_name (name : str) : option Court.t :=
  mapping.get _BY_NAME (lower name).

(** [list_high_courts] and [list_all_courts]: copies of the lists. *)
Definition list_high_courts : list Court.t := HIGH_COURTS.
Definition list_all_courts : list Court.t := ALL_COURTS.

End courts.

(* ================================================================== *)
(** ** [models.py]: the methods of the records *)
(* ================================================================== *)

Module serializable.
Import Py models.

(** [CourtType.value] *)
Definition CourtType_value (e : CourtType) : str :=
  match e with
  | models.SUPREME_COURT => lit "supreme_court"
  | HIGH_COURT => lit "high_court"
  | DISTRICT_COURT => lit "district_court"
  | TRIBUNAL => lit "tribunal"
  end.

(** The property [Court.slug] *)
Definition slug (self : Court.t) : str :=
  replace (lit " ") (lit "-") (lower (Court.code self)).

(** What a field of a record may hold: an object as [json.loads] builds
    them, a [date], a member of an [Enum], [bytes], and lists and dicts of
    these (the keys of a dict are strings). *)
Inductive value : Type :=
| VNone
| VBool (b : bool)
| VInt (z : Z)
| VFloat (x : Q)
| VNaN
| VInf (negative : bool)
| VStr (s : str)
| VDate (d : datetime.date)
| VEnum (e : CourtType)
| VBytes (b : str)
| VList (items : list value)
| VDict (members : list (str * value)).

(** An object as a value. *)
Fixpoint of_obj (o : obj) : value :=
  match o with
  | None_ => VNone
  | Bool b => VBool b
  | Int z => VInt z
  | Float x => VFloat x
  | NaN => VNaN
  | Inf n => VInf n
  | Str s => VStr s
  | List_ items => VList (map of_obj items)
  | Dict members => VDict (map (fun kv => (fst kv, of_obj (snd kv))) members)
  end.

(** [_serialize_value] *)
Fixpoint _serialize_value (v : value) : value :=
  match v with
  | VDate d => VStr (datetime.isoformat d)
  | VEnum e => VStr (CourtType_value e)
  | VBytes _ => VNone
  | VList items => VList (map _serialize_value items)
  | VDict members =>
      VDict (map (fun kv => (fst kv, _serialize_value (snd kv))) members)
  | _ => v
  end.

Definition is_None (v : value) : bool :=
  match v with VNone => true | _ => false end.

(** [fields(self)] with [getattr(self, f.name)]: the fields of a record in
    the order of their declaration, each with its value. *)
Definition opt_str (o : option str) : value :=
  match o with Some s => VStr s | None => VNone end.
Definition opt_date (o : option datetime.date) : value :=
  match o with Some d => VDate d | None => VNone end.
Definition opt_bytes (o : option str) : value :=
  match o with Some b => VBytes b | None => VNone end.
Definition str_list (l : list str) : value := VList (map VStr l).

Definition Court_fields (self : Court.t) : list (str * value) :=
  [(lit "name", VStr (Court.name self));
   (lit "code", VStr (Court.code self));
   (lit "state_code", VStr (Court.state_code self));
   (lit "court_type", VEnum (Court.court_type self));
   (lit "bench", opt_str (Court.bench self))].

Definition CaseInfo_fields (self : CaseInfo.t) : list (str * value) :=
  [(lit "case_number", VStr (CaseInfo.case_number self));
   (lit "case_type", VStr (CaseInfo.case_type self));
   (lit "cnr_number", of_obj (CaseInfo.cnr_number self));
   (lit "filing_number", of_obj (CaseInfo.filing_number self));
   (lit "registration_number", VStr (CaseInfo.registration_number self));
   (lit "registration_date", opt_date (CaseInfo.registration_date self));
   (lit "petitioner", of_obj (CaseInfo.petitioner self));
   (lit "respondent", of_obj (CaseInfo.respondent self));
   (lit "status", of_obj (CaseInfo.status self));
   (lit "court_name", VStr (CaseInfo.court_name self));
   (lit "judges", str_list (CaseInfo.judges self));
   (lit "next_hearing_date", opt_date (CaseInfo.next_hearing_date self))].

Definition CaseOrder_fields (self : CaseOrder.t) : list (str * value) :=
  [(lit "order_date", VDate (CaseOrder.order_date self));
   (lit "order_type", VStr (CaseOrder.order_type self));
   (lit "judge", VStr (CaseOrder.judge self));
   (lit "pdf_url", VStr (CaseOrder.pdf_url self));
   (lit "pdf_bytes", opt_bytes (CaseOrder.pdf_bytes self));
   (lit "order_text", VStr (CaseOrder.order_text self))].

Definition JudgmentResult_fields (self : JudgmentResult.t) : list (str * value) :=
  [(lit "title", VStr (JudgmentResult.title self));
   (lit "court_name", VStr (JudgmentResult.court_name self));
   (lit "case_number", VStr (JudgmentResult.case_number self));
   (lit "judgment_date", opt_date (JudgmentResult.judgment_date self));
   (lit "judges", str_list (JudgmentResult.judges self));
   (lit "pdf_url", VStr (JudgmentResult.pdf_url self));
   (lit "pdf_bytes", opt_bytes (JudgmentResult.pdf_bytes self));
   (lit "citation", VStr (JudgmentResult.citation self));
   (lit "bench_type", VStr (JudgmentResult.bench_type self));
   (lit "source_url", VStr (JudgmentResult.source_url self));
   (lit "source_id", VStr (JudgmentResult.source_id self));
   (lit "metadata", of_obj (Dict (JudgmentResult.metadata self)))].

Definition CauseListEntry_fields (self : CauseListEntry.t) : list (str * value) :=
  [(lit "serial_number", VInt (CauseListEntry.serial_number self));
   (lit "case_number", VStr (CauseListEntry.case_number self));
   (lit "case_type", VStr (CauseListEntry.case_type self));
   (lit "petitioner", VStr (CauseListEntry.petitioner self));
   (lit "respondent", VStr (CauseListEntry.respondent self));
   (lit "advocate_petitioner", VStr (CauseListEntry.advocate_petitioner self));
   (lit "advocate_respondent", VStr (CauseListEntry.advocate_respondent self));
   (lit "court_number", VStr (CauseListEntry.court_number self));
   (lit "judge", VStr (CauseListEntry.judge self));
   (lit "listing_date", opt_date (CauseListEntry.listing_date self));
   (lit "item_number", VStr (CauseListEntry.item_number self))].

Definition CauseListPDF_fields (self : CauseListPDF.t) : list (str * value) :=
  [(lit "serial_number", VInt (CauseListPDF.serial_number self));
   (lit "bench", VStr (CauseListPDF.bench self));
   (lit "cause_list_type", VStr (CauseListPDF.cause_list_type self));
   (lit "pdf_url", VStr (CauseListPDF.pdf_url self));
   (lit "pdf_bytes", opt_bytes (CauseListPDF.pdf_bytes self))].

(** [_Serializable.to_dict], on the fields of [self]. *)
Definition to_dict (exclude_none : bool) (fields : list (str * value))
  : mapping.t value :=
  fold_left
    (fun result f =>
       let serialized := _serialize_value (snd f) in
       if exclude_none && is_None serialized then result
       else mapping.set result (fst f) serialized)
    fields [].

(** [item.to_dict(exclude_none=exclude_none)] for an item of a
    [SearchResult]. *)
Definition item_to_dict (exclude_none : bool) (item : SearchResult.item)
  : mapping.t value :=
  match item with
  | SearchResult.Case c => to_dict exclude_none (CaseInfo_fields c)
  | SearchResult.Judgment j => to_dict exclude_none (JudgmentResult_fields j)
  | SearchResult.CauseList e => to_dict exclude_none (CauseListEntry_fields e)
  end.

(** [SearchResult.to_dict] *)
Definition SearchResult_to_dict (exclude_none : bool) (self : SearchResult.t)
  : mapping.t value :=
  [(lit "total_count", VInt (SearchResult.total_count self));
   (lit "page", VInt (SearchResult.page self));
   (lit "page_size", VInt (SearchResult.page_size self));
   (lit "has_next", VBool (SearchResult.has_next self));
   (lit "total_pages", VInt (SearchResult.total_pages self));
   (lit "items",
    VList (map (fun item => VDict (item_to_dict exclude_none item))
               (SearchResult.items self)))].

(** [judgment.pdf_bytes = b] *)
Definition set_pdf_bytes (j : JudgmentResult.t) (b : option str) : JudgmentResult.t :=
  JudgmentResult.mk (JudgmentResult.title j) (JudgmentResult.court_name j)
    (JudgmentResult.case_number j) (JudgmentResult.judgment_date j)
    (JudgmentResult.judges j) (JudgmentResult.pdf_url j) b
    (JudgmentResult.citation j) (JudgmentResult.bench_type j)
    (JudgmentResult.source_url j) (JudgmentResult.source_id j)
    (JudgmentResult.metadata j).

End serializable.

(** [JudgmentSearchClient.download_pdf] (and [SCIClient.download_pdf],
    which has the same body). *)
Module downloads.
Import Py models http.

Section Client.
Variable E : env.
Variable cfg : config.BharatCourtsConfig.

Definition download_pdf (judgment : JudgmentResult.t) : io JudgmentResult.t :=
  match JudgmentResult.pdf_url judgment with
  | [] => ret judgment
  | _ :: _ =>
      b <- get_bytes E cfg (JudgmentResult.pdf_url judgment) no_kwargs ;;
      ret (serializable.set_pdf_bytes judgment (Some b))
  end.

End Client.
End downloads.

(* ================================================================== *)
(** ** [datetime.strptime] for the formats of the package *)
(* ================================================================== *)

Module strptime.
Import Py re datetime.

(** A format: directives and literal characters. *)
Inductive item : Type :=
| Day                 (* %d *)
| Month               (* %m *)
| Year                (* %Y *)
| Literal (c : N).

Definition format : Type := list item.

(** [%d-%m-%Y], [%d/%m/%Y], [%d.%m.%Y] and [%Y-%m-%d] *)
Definition DMY_DASH : format := [Day; Literal 45; Month; Literal 45; Year].
Definition DMY_SLASH : format := [Day; Literal 47; Month; Literal 47; Year].
Definition DMY_DOT : format := [Day; Literal 46; Month; Literal 46; Year].
Definition YMD_DASH : format := [Year; Literal 45; Month; Literal 45; Day].

(** The pattern [_strptime] compiles a format to: each directive is a
    group, each other character stands for itself. *)
Fixpoint pattern (fmt : format) : regex :=
  match fmt with
  | [] => Eps
  | it :: rest =>
      Cat match it with
          | Day => DIRECTIVE_d
          | Month => DIRECTIVE_m
          | Year => DIRECTIVE_Y
          | Literal c => Chr c
          end
          (pattern rest)
  end.

(** The numbers of the groups, each under the name of its directive;
    [int] takes the space a day may start with. *)
Fixpoint assign (fmt : format) (groups : list str) (y m d : Z) : option (Z * Z * Z) :=
  match fmt, groups with
  | [], [] => Some (y, m, d)
  | Literal _ :: rest, _ => assign rest groups y m d
  | Day :: rest, g :: gs => assign rest gs y m (digits_value (strip g))
  | Month :: rest, g :: gs => assign rest gs y (digits_value g) d
  | Year :: rest, g :: gs => assign rest gs (digits_value g) m d
  | _, _ => None
  end.

(** [datetime.strptime(text, fmt).date()]: the pattern must match at the
    start and leave nothing unconverted; what the format does not give is
    1900, 1 and 1; the numbers must name a day of the calendar. *)
Definition strptime (fmt : format) (text : str) : outcome date :=
  match match_all true (pattern fmt) text with
  | Some groups =>
      match assign fmt groups 1900 1 1 with
      | Some (y, m, d) => make_date y m d
      | None => Raise ValueError
      end
  | None => Raise ValueError
  end.

(** [d.strftime(fmt)]; the year is written without padding. *)
Fixpoint strftime (fmt : format) (d : date) : str :=
  match fmt with
  | [] => []
  | it :: rest =>
      match it with
      | Day => pad 2 (str_of_int (day d))
      | Month => pad 2 (str_of_int (month d))
      | Year => str_of_int (year d)
      | Literal c => [c]
      end ++ strftime rest d
  end.

End strptime.

(* ================================================================== *)
(** ** [sci/parser.py] *)
(* ================================================================== *)

Module sci_parser.
Import Py models.

(** The formats [_parse_date] tries, in this order. *)
Definition formats (fmt : strptime.format) : list strptime.format :=
  [fmt; strptime.DMY_SLASH; strptime.DMY_DOT; strptime.YMD_DASH].

Fixpoint first_parsed (text : str) (fmts : list strptime.format)
  : option datetime.date :=
  match fmts with
  | [] => None
  | f :: rest =>
      match strptime.strptime f text with
      | Return d => Some d
      | Raise _ => first_parsed text rest
      end
  end.

(** [_parse_date] *)
Definition _parse_date (text : str) (fmt : strptime.format) : option datetime.date :=
  let text := strip text in
  match text with
  | [] => None
  | _ :: _ => first_parsed text (formats fmt)
  end.

(** [_clean_text] *)
Definition _clean_text (text : str) : str :=
  match text with
  | [] => []
  | _ :: _ => re.sub false re.WHITESPACE_RUN (lit " ") (strip text)
  end.

Definition len {A} (l : list A) : Z := Z.of_nat (length l).

(** The pattern of a PDF link: a full stop and pdf. *)
Definition DOT_PDF : re.regex := re.Lit (lit ".pdf").

(** [href=re.compile(...)]: the tag has the attribute and the pattern is
    found in it. *)
Definition href_matches (ignorecase : bool) (r : re.regex) (n : bs4.Node) : bool :=
  match bs4.get n (lit "href") with
  | Some v => match re.search ignorecase r v with Some _ => true | None => false end
  | None => false
  end.

(** [pdf_link['href']], on a tag that [find] chose for its [href]. *)
Definition href_of (link : bs4.Node) : str :=
  match bs4.get link (lit "href") with Some v => v | None => [] end.

(** The loop over the texts of the cells: the first that parses as a date
    is the date, the next two the title and the case number. *)
Definition heuristic (state : option datetime.date * str * str) (text : str)
  : option datetime.date * str * str :=
  let '(judgment_date, title, case_number) := state in
  match judgment_date with
  | None => (_parse_date text strptime.DMY_DASH, title, case_number)
  | Some _ =>
      match title with
      | [] => (judgment_date, text, case_number)
      | _ :: _ =>
          match case_number with
          | [] => (judgment_date, title, text)
          | _ :: _ => state
          end
      end
  end.

(** [x or y] on strings. *)
Definition or_str (x y : str) : str := match x with [] => y | _ :: _ => x end.

(** The body of the inner loop of [parse_judgment_list]. *)
Definition judgment_list_row (base_url : str) (results : list JudgmentResult.t)
    (row : bs4.Node) : list JudgmentResult.t :=
  let cols := bs4.find_all (lit "td") bs4.any row in
  if (len cols <? 3)%Z then results
  else
    match bs4.find (lit "a") (href_matches true DOT_PDF) row with
    | None => results
    | Some pdf_link =>
        let href := href_of pdf_link in
        let pdf_url :=
          if startswith (lit "/") href then base_url ++ href
          else if negb (startswith (lit "http") href) then base_url ++ lit "/" ++ href
          else href in
        let texts := map (fun col => _clean_text (bs4.get_text col)) cols in
        let '(judgment_date, title, case_number) :=
          fold_left heuristic texts (None, [], []) in
        let title :=
          match title with
          | [] => or_str (_clean_text (bs4.get_text pdf_link))
                         (last (split (lit "/") pdf_url) [])
          | _ :: _ => title
          end in
        results ++
        [JudgmentResult.mk title (lit "Supreme Court of India") case_number
           judgment_date [] pdf_url None [] [] pdf_url href []]
    end.

Section WithLibraries.
Variable L : libs.

(** [parse_judgment_list] *)
Definition parse_judgment_list (html base_url : str) : list JudgmentResult.t :=
  let soup := BeautifulSoup L html in
  let tables := bs4.find_all (lit "table") bs4.any soup in
  fold_left
    (fun results table =>
       fold_left (judgment_list_row base_url)
                 (bs4.find_all (lit "tr") bs4.any table) results)
    tables [].

End WithLibraries.
End sci_parser.

(* ================================================================== *)
(** ** [sci/client.py] *)
(* ================================================================== *)

Module sci_client.
Import Py models http.

Definition SCI_BASE : str := lit "https://main.sci.gov.in".
Definition SCI_JUDGMENTS_URL : str := SCI_BASE ++ lit "/judgments".

(** [f'{n:02d}']: at least two characters, zeros after the sign. *)
Definition format_02d (n : Z) : str :=
  if (n <? 0)%Z then 45 :: datetime.pad 1 (str_of_int (- n))
  else datetime.pad 2 (str_of_int n).

(** The dates of [search_by_year]; a month that is [None] or 0 counts as
    not given. *)
Definition from_date (year : Z) (month : option Z) : str :=
  match month with
  | Some m =>
      if (m =? 0)%Z then lit "01-01-" ++ str_of_int year
      else lit "01-" ++ format_02d m ++ lit "-" ++ str_of_int year
  | None => lit "01-01-" ++ str_of_int year
  end.

Definition to_date (year : Z) (month : option Z) : str :=
  match month with
  | Some m =>
      if (m =? 0)%Z then lit "31-12-" ++ str_of_int year
      else lit "28-" ++ format_02d m ++ lit "-" ++ str_of_int year
  | None => lit "31-12-" ++ str_of_int year
  end.

Section Client.
Variable L : libs.
Variable E : env.
Variable cfg : config.BharatCourtsConfig.

(** [search_by_year] *)
Definition search_by_year (year : Z) (month : option Z)
  : io (list JudgmentResult.t) :=
  let form_data :=
    [(lit "JBJfrom", from_date year month);
     (lit "JBJto", to_date year month);
     (lit "joession", [])] in
  resp <- post E cfg SCI_JUDGMENTS_URL (mkKwargs [] (Some form_data) None None) ;;
  ret (sci_parser.parse_judgment_list L (text resp) SCI_BASE).

(** [search_by_party] *)
Definition search_by_party (party_name : str) : io (list JudgmentResult.t) :=
  let form_data :=
    [(lit "JBJfrom", []);
     (lit "JBJto", []);
     (lit "joession", []);
     (lit "party_name", party_name)] in
  resp <- post E cfg SCI_JUDGMENTS_URL (mkKwargs [] (Some form_data) None None) ;;
  ret (sci_parser.parse_judgment_list L (text resp) SCI_BASE).

End Client.
End sci_client.

(* ================================================================== *)
(** * More vocabulary *)
(* ================================================================== *)

(** ** Keys and serialised values *)

Module shape.
Import Py serializable.

(** The strings of a list are pairwise different. *)
Fixpoint distinct (l : list str) : bool :=
  match l with
  | [] => true
  | x :: rest => negb (existsb (eqb x) rest) && distinct rest
  end.

(** A value that [json.dumps] takes: no [date], no member of an [Enum]
    and no [bytes] is left anywhere in it. *)
Fixpoint json_safe (v : value) : bool :=
  match v with
  | VDate _ | VEnum _ | VBytes _ => false
  | VList items => forallb json_safe items
  | VDict members => forallb (fun kv => json_safe (snd kv)) members
  | _ => true
  end.

(** A field as [to_dict] writes it. *)
Definition serialized (f : str * value) : str * value :=
  (fst f, _serialize_value (snd f)).

Definition not_None (f : str * value) : bool := negb (is_None (snd f)).

(** What [to_dict] makes of the fields of a record: every field in its
    place when nothing is excluded, and the same without the fields whose
    value is [None] otherwise. *)
Definition written_in_full (fields : list (str * value)) : Prop :=
  to_dict false fields = map serialized fields
  /\ to_dict true fields = filter not_None (map serialized fields).

End shape.

(** ** Events of the transport *)

Module transport.
Import Py http.

(** An event of a call of [_request] for [method], [url] and [kw]: a sleep,
    or that very request. *)
Definition of_request (method : Method) (url : str) (kw : kwargs) (ev : event)
  : Prop :=
  match ev with
  | Slept _ => True
  | Requested m u k _ => m = method /\ u = url /\ k = kw
  | Solved _ _ => False
  end.

End transport.

(** ** Portals that accept *)

Module accepting.
Import Py http.

(** HC Services: no answer to a submitted form carries the rejection
    marker. *)
Definition accepts_every_submission (E : env) : Prop :=
  forall h u kw r,
    send E h POST u kw = Return r -> hcservices_client.rejected (text r) = false.

(** Judgment search: the answer to a check is an object whose
    [captcha_status] is Y. *)
Definition check_passes (r : Response) (data : dict) : Prop :=
  json_body r = Some (Dict data)
  /\ Py.get data (lit "captcha_status") None_ = Str (lit "Y").

Definition passes_every_check (E : env) : Prop :=
  forall h u kw r, send E h POST u kw = Return r -> exists data, check_passes r data.

(** The solver reads some text in every challenge. *)
Definition solver_reads (E : env) : Prop :=
  forall h image, exists c s, solve E h image = Return (c :: s).

(** The keyword arguments of the requests of the two protocols. *)
Definition submission (form : hcservices_endpoints.form) : kwargs :=
  mkKwargs [(lit "Referer", hcservices_endpoints.MAIN_PAGE_URL)] (Some form) None None.

Definition check (form_body : str) : kwargs :=
  mkKwargs [(lit "Content-Type", lit "application/x-www-form-urlencoded");
            (lit "X-Requested-With", lit "XMLHttpRequest")]
           None (Some form_body) None.

Definition query (params : dict) : kwargs := mkKwargs [] None None (Some params).

(** What a round of HC Services leaves in the trace before the form is
    built: the main page, the challenge image, and the answer of the
    solver to the bytes of that image. *)
Definition opening (cfg : config.BharatCourtsConfig) (page image : Response)
    (captcha : str) : trace :=
  [Slept (Float (config.request_delay cfg));
   Requested GET hcservices_endpoints.MAIN_PAGE_URL
     (hcservices_client.referer (hcservices_endpoints.BASE_URL ++ lit "/"))
     (Return page);
   Slept (Float (config.request_delay cfg));
   Requested GET hcservices_endpoints.CAPTCHA_IMAGE_URL
     (hcservices_client.referer hcservices_endpoints.MAIN_PAGE_URL)
     (Return image);
   Solved (content image) (Return captcha)].

End accepting.

(** ** Patterns and texts *)

Module pattern.
Import Py re.

(** A pattern that can match the empty text. *)
Fixpoint nullable (r : regex) : bool :=
  match r with
  | Eps | Boundary | Opt _ | Star _ => true
  | Chr _ | Cls _ | Plus _ => false
  | Cat r1 r2 => nullable r1 && nullable r2
  | Alt r1 r2 => nullable r1 || nullable r2
  | Group r1 => nullable r1
  end.

(** The longest prefix whose characters are all of class [p]
    ([lstrip_with p] is the rest). *)
Fixpoint leading (p : N -> bool) (s : str) : str :=
  match s with
  | c :: s' => if p c then c :: leading p s' else []
  | [] => []
  end.

(** A character that is not white space. *)
Definition nonspace (c : N) : bool := negb (isspace c).

(** No character of the text is of class [p]. *)
Definition free_of (p : N -> bool) (s : str) : Prop :=
  forall c, In c s -> p c = false.

Definition is_comma (c : N) : bool := c =? 44.

(** A text without white space at either end. *)
Definition trimmed (s : str) : Prop :=
  match s with
  | [] => True
  | c :: _ => isspace c = false
  end
  /\ match rev s with
     | [] => True
     | c :: _ => isspace c = false
     end.

(** A text of ASCII characters. *)
Definition ascii_text (s : str) : Prop := Forall (fun c => c < 128) s.

(** [text.split()]: the words between the runs of white space. *)
Definition words (text : str) : list str := bs4.tokens text.

End pattern.

(** ** Tables and records *)

Module tables.
Import Py.

(** The rows [parse_cause_list] reads: those of the cause-list table, the
    header row apart. *)
Definition cause_list_rows (soup : bs4.Node) : list bs4.Node :=
  match bs4.or_else
          (bs4.find (lit "table") (bs4.has_class (lit "causelistTbl")) soup)
          (bs4.find (lit "table") bs4.any soup) with
  | None => []
  | Some table => tl (bs4.find_all (lit "tr") bs4.any table)
  end.

(** A row with [n] cells at least. *)
Definition wide (n : Z) (row : bs4.Node) : bool :=
  (n <=? hcservices_parser.len (bs4.find_all (lit "td") bs4.any row))%Z.

(** A link of a cause list: none, one with a scheme, or one under the
    query directory of the portal. *)
Definition absolute (base_url url : str) : Prop :=
  url = []
  \/ startswith (lit "http") url = true
  \/ startswith (base_url ++ lit "/cases_qry/") url = true.

End tables.

Module records.
Import Py.

(** A field of a decoded record, as [rec.get(name, '')] reads it. *)
Definition field (name : str) (record : obj) : obj :=
  match record with
  | Dict rec => get rec name (Str [])
  | _ => Str []
  end.

(** A record [parse_case_status] can read: an object whose [reg_date], if
    it has one, is a string. *)
Definition well_formed (record : obj) : Prop :=
  exists rec t, record = Dict rec /\ get rec (lit "reg_date") (Str []) = Str t.

(** [a or b or ...], the last being the default. *)
Definition first_true (candidates : list obj) (default : obj) : obj :=
  fold_right or_ default candidates.

End records.

(** ** Dates *)

Module calendar.
Import Py datetime.

(** A day of the calendar. *)
Definition valid (d : date) : Prop := make_date (year d) (month d) (day d) = Return d.

(** A number as two digits: [f'{n:02d}'] for a day or a month. *)
Definition two_digits (n : Z) : str := pad 2 (str_of_int n).

(** The text of [n] is four digits that read as [n]. *)
Definition reads_as_year (n : Z) : bool :=
  match str_of_int n with
  | [a; b; c; e] =>
      isdigit a && isdigit b && isdigit c && isdigit e
      && (digits_value [a; b; c; e] =? n)%Z
  | _ => false
  end.

(** The text of [n] on two digits reads as [n], and has no white space. *)
Definition reads_as_two (n : Z) : bool :=
  match two_digits n with
  | [a; b] =>
      isdigit a && isdigit b && (digits_value [a; b] =? n)%Z
      && eqb (strip [a; b]) [a; b]
  | _ => false
  end.

(** The numbers from [lo], [len] of them. *)
Definition numbers (lo len : Z) : list Z :=
  map (fun i => (lo + Z.of_nat i)%Z) (seq 0 (Z.to_nat len)).

(** The date of a judgment, if it has one, is a day of the calendar. *)
Definition dated (r : models.JudgmentResult.t) : Prop :=
  match models.JudgmentResult.judgment_date r with
  | Some d => valid d
  | None => True
  end.

(** The value a form gives a field. *)
Definition form_value (form : hcservices_endpoints.form) (name : str) : option str :=
  mapping.get form name.

End calendar.

(** ** The list of the Supreme Court *)

Module supreme.
Import Py models sci_parser.

(** The rows [parse_judgment_list] goes through: those of every table of
    the page, table after table. *)
Definition rows (soup : bs4.Node) : list bs4.Node :=
  flat_map (bs4.find_all (lit "tr") bs4.any) (bs4.find_all (lit "table") bs4.any soup).

(** A row with three cells at least and a link to a PDF. *)
Definition listed (row : bs4.Node) : bool :=
  (3 <=? len (bs4.find_all (lit "td") bs4.any row))%Z
  && match bs4.find (lit "a") (href_matches true DOT_PDF) row with
     | Some _ => true
     | None => false
     end.

(** An address made of [href]: it ends with it, and it is under
    [base_url] or starts with http. *)
Definition resolves (base_url href url : str) : Prop :=
  (exists prefix, url = prefix ++ href)
  /\ (startswith base_url url = true \/ startswith (lit "http") url = true).

(** The link of a row: its first [a] whose [href] holds .pdf, in any
    case. *)
Definition pdf_link (row : bs4.Node) : option bs4.Node :=
  bs4.find (lit "a") (href_matches true DOT_PDF) row.

(** The judgment [r] is made of the row: of its link, whose [href] is the
    [source_id] of [r] and resolves to its [pdf_url]. *)
Definition made_of (base_url : str) (row : bs4.Node) (r : JudgmentResult.t)
  : Prop :=
  exists link,
    pdf_link row = Some link
    /\ bs4.get link (lit "href") = Some (JudgmentResult.source_id r)
    /\ JudgmentResult.source_id r <> []
    /\ re.search true DOT_PDF (JudgmentResult.source_id r) <> None
    /\ resolves base_url (JudgmentResult.source_id r) (JudgmentResult.pdf_url r)
    /\ JudgmentResult.pdf_url r <> []
    /\ JudgmentResult.source_url r = JudgmentResult.pdf_url r
    /\ JudgmentResult.court_name r = lit "Supreme Court of India"
    /\ JudgmentResult.pdf_bytes r = None
    /\ calendar.dated r.

(** The two ends of a search, as the portal's format reads them. *)
Definition period (year : Z) (month : option Z)
  : outcome datetime.date * outcome datetime.date :=
  (strptime.strptime strptime.DMY_DASH (sci_client.from_date year month),
   strptime.strptime strptime.DMY_DASH (sci_client.to_date year month)).

End supreme.

(** ** Listings as the portal writes them *)

Module written.
Import Py http.

(** White space or the byte-order mark: what the loops of [list_benches]
    and [list_case_types] strip from the ends of a code and of a name. *)
Definition edge (c : N) : bool := isspace c || (c =? BOM).

(** The first and the last character of the text are not of class [p]. *)
Definition ends_free (p : N -> bool) (s : str) : Prop :=
  match s with
  | [] => True
  | c :: _ => p c = false
  end
  /\ match rev s with
     | [] => True
     | c :: _ => p c = false
     end.

Definition is_hash (c : N) : bool := c =? 35.
Definition is_tilde (c : N) : bool := c =? 126.

(** A code or a name: not empty, without #, and with nothing to strip at
    either end. *)
Definition label (s : str) : Prop :=
  s <> [] /\ pattern.free_of is_hash s /\ ends_free edge s.

(** An entry the loops keep as it is: a code without ~ that is not the
    zero sentinel, and a name that does not mention select. *)
Definition kept (p : str * str) : Prop :=
  label (fst p) /\ label (snd p)
  /\ pattern.free_of is_tilde (fst p)
  /\ fst p <> lit "0"
  /\ contains (lit "select") (lower (snd p)) = false.

(** The entries of a listing, code~name, and the two ways of writing
    them down: with # between two entries, or with # after each. *)
Definition entries (pairs : list (str * str)) : list str :=
  map (fun p => fst p ++ lit "~" ++ snd p) pairs.

Definition lists (pairs : list (str * str)) (text : str) : Prop :=
  text = join (lit "#") (entries pairs)
  \/ text = concat (map (fun entry => entry ++ lit "#") (entries pairs)).

(** The portal answers every form with a listing of [pairs]. *)
Definition answers_with (E : env) (pairs : list (str * str)) : Prop :=
  forall h u kw r, send E h POST u kw = Return r -> lists pairs (text r).

(** The mapping of the pairs, in their order. *)
Definition as_dict (pairs : list (str * str)) : dict :=
  map (fun p => (fst p, Str (snd p))) pairs.

End written.

(** ** Pages of judgments and the form of the check *)

Module results.
Import Py models.

(** The rows [parse_judgment_search] reads: those of the results table,
    the header row apart. *)
Definition judgment_rows (soup : bs4.Node) : list bs4.Node :=
  match judgments_parser.result_table soup with
  | None => []
  | Some table => tl (bs4.find_all (lit "tr") bs4.any table)
  end.

(** A row with [n] cells at least. *)
Definition wide (n : Z) (row : bs4.Node) : bool :=
  (n <=? judgments_parser.len (bs4.find_all (lit "td") bs4.any row))%Z.

(** The bench a number of judges makes. *)
Definition bench_of (judges : list str) : str :=
  match judges with
  | [] => []
  | [_] => lit "Single Bench"
  | [_; _] => lit "Division Bench"
  | _ => lit "Full Bench"
  end.

(** The judgment an item of a page is. *)
Definition judgment_of (item : SearchResult.item) : option JudgmentResult.t :=
  match item with
  | SearchResult.Judgment j => Some j
  | _ => None
  end.

Definition is_amp (c : N) : bool := c =? 38.

(** The number of characters of class [p] in a text. *)
Definition count (p : N -> bool) (s : str) : nat := length (filter p s).

(** The eight fields of the body of a check. *)
Definition check_fields (captcha search_text search_opt : str) : list str :=
  [lit "captcha=" ++ captcha;
   lit "search_text=" ++ search_text;
   lit "search_opt=" ++ search_opt;
   lit "escr_flag=";
   lit "proximity=";
   lit "sel_lang=";
   lit "ajax_req=true";
   lit "app_token="].

End results.

(** ** More tactics *)

(** Evaluate the tests of the matcher on the characters that are known. *)
Ltac evaluate_classes :=
  repeat match goal with
         | |- context [re.chr_eq ?i ?c ?x] =>
             let v := eval vm_compute in (re.chr_eq i c x) in
             change (re.chr_eq i c x) with v
         | |- context [datetime.range ?a ?b ?x] =>
             let v := eval vm_compute in (datetime.range a b x) in
             change (datetime.range a b x) with v
         | |- context [Py.isdigit ?x] =>
             let v := eval vm_compute in (Py.isdigit x) in
             change (Py.isdigit x) with v
         end;
  cbv iota.

(** Case analysis on the tests that are left. *)
Ltac split_tests :=
  repeat match goal with
         | |- context [if ?c then _ else _] => destruct c
         end.

(** ** More scenarios *)

Module cases.
Import Py models http scenario.

(** A judgment of the search portal, its document not yet fetched. *)
Definition a_judgment : JudgmentResult.t :=
  JudgmentResult.mk (lit "State vs XYZ Enterprises") (lit "Delhi High Court")
    (lit "CRL.A. 567/2023") (Some a_day) [lit "Justice A"]
    (lit "https://example.com/judgment.pdf") None [] (lit "Single Bench")
    (lit "https://example.com/judgment.pdf") [] [].

(** A server that answers every request with a document. *)
Definition document_server : env :=
  mkEnv (fun _ _ _ _ => Return (mkResponse 200 [] (lit "%PDF-1.4") None))
        auto_solver (fun _ => a_day).

(** A server that refuses the connection with an error other than the
    three the transport retries. *)
Definition refusing : env :=
  mkEnv (fun _ _ _ _ => Raise (OtherError (lit "SSLError")))
        auto_solver (fun _ => a_day).

(** A portal that accepts every challenge: every answer is a 200 whose
    text is the envelope of two records and whose JSON is the passed check
    of the judgment search. *)
Definition acceptance : Response :=
  mkResponse 200 two_records (lit "fake_captcha_image")
    (Some (Dict [(lit "captcha_status", Str (lit "Y"));
                 (lit "app_token", Str (lit "tok123"))])).

Definition accepting_portal : env :=
  mkEnv (fun _ _ _ _ => Return acceptance) auto_solver (fun _ => a_day).

(** The form of a case-status search for W.P.(C) 12345 of 2024 in Delhi. *)
Definition a_case_form (captcha : str) : io hcservices_endpoints.form :=
  ret (hcservices_endpoints.case_status_form (lit "26") (lit "1") (lit "134")
         (lit "12345") (lit "2024") captcha).

(** What [_parse_json_envelope] reads in a body (nothing when it raises). *)
Definition decoded (raw : str) : list obj * Z :=
  match hcservices_parser._parse_json_envelope raw with
  | Return x => x
  | Raise _ => ([], 0%Z)
  end.

(** An envelope of two records, the second with a null registration date. *)
Definition null_date : str :=
  q ("{'con':['[{\'cino\':\'DLHC010582482024\',\'reg_date\':\'15-02-2024\'},"
     ++ "{\'cino\':\'DLHC010400092024\',\'reg_date\':null}]'],"
     ++ "'totRecords':2,'Error':''}")%string.

(** An envelope of one record whose [totRecords] is no number. *)
Definition unread_total : str :=
  q ("{'con':['[{\'cino\':\'DLHC010582482024\',\'reg_date\':\'15-02-2024\'}]'],"
     ++ "'totRecords':'abc','Error':''}")%string.

(** Two benches, and a portal that answers every request with their
    listing. *)
Definition two_benches : list (str * str) :=
  [(lit "1", lit "Principal Bench at Delhi"); (lit "2", lit "Lucknow Bench")].

Definition benches_portal : env :=
  mkEnv (fun _ _ _ _ =>
           Return (mkResponse 200 (lit "1~Principal Bench at Delhi#2~Lucknow Bench#")
                              [] None))
        auto_solver (fun _ => a_day).

End cases.
(* ================================================================== *)
(** * Properties *)
(* ================================================================== *)

(** ** The transport: retries and back-off ([RateLimitedClient._request]) *)

Section TransportRetry.
Import Py http run.
Local Open Scope Z_scope.

Variable E : env.
Variable cfg : config.BharatCourtsConfig.
Variables (method : Method) (url : str) (kw : kwargs).

Local Abbreviation max_retries := (config.max_retries cfg).
Local Abbreviation attempt_event h := (Requested method url kw (send E h method url kw)).

Lemma request_log_app (t1 t2 : trace) :
  request_log (t1 ++ t2) = request_log t1 ++ request_log t2.
Proof. unfold request_log. apply flat_map_app. Qed.

(** One iteration of the loop of [_request] whose attempt succeeds. *)
Lemma request_loop_success todo attempt last_error h r :
  send E h method url kw = Return r -> is_success r = true ->
  _request_loop E cfg (S todo) attempt last_error method url kw h
  = (h ++ [attempt_event h], Return r).
Proof.
  intros Ha Hs. simpl. unfold try_except, io_bind, request, lift, raise_for_status.
  rewrite Ha, Hs. reflexivity.
Qed.

(** One iteration whose attempt fails with an exception the loop catches:
    on the last attempt the exception is raised again, otherwise the loop
    sleeps [(attempt + 1) * 2] seconds and goes on. *)
Lemma request_loop_caught todo attempt last_error h e :
  failure (send E h method url kw) = Some e -> caught e = true ->
  _request_loop E cfg (S todo) attempt last_error method url kw h
  = if attempt =? max_retries - 1
    then (h ++ [attempt_event h], Raise e)
    else _request_loop E cfg todo (attempt + 1) (Some e) method url kw
           (h ++ [attempt_event h; Slept (Int ((attempt + 1) * 2))]).
Proof.
  intros Hf Hc. simpl. unfold try_except, io_bind, request, lift.
  unfold failure, bind in Hf.
  destruct (send E h method url kw) as [r|e'].
  - destruct (raise_for_status r) as [r'|e'] eqn:Hr; [discriminate|].
    injection Hf as ->. rewrite Hc.
    destruct (attempt =? max_retries - 1); [reflexivity|].
    unfold sleep. rewrite <- app_assoc. reflexivity.
  - injection Hf as ->. rewrite Hc.
    destruct (attempt =? max_retries - 1); [reflexivity|].
    unfold sleep. rewrite <- app_assoc. reflexivity.
Qed.

(** An iteration whose attempt fails with any other exception. *)
Lemma request_loop_uncaught todo attempt last_error h e :
  failure (send E h method url kw) = Some e -> caught e = false ->
  _request_loop E cfg (S todo) attempt last_error method url kw h
  = (h ++ [attempt_event h], Raise e).
Proof.
  intros Hf Hc. simpl. unfold try_except, io_bind, request, lift.
  unfold failure, bind in Hf.
  destruct (send E h method url kw) as [r|e'].
  - destruct (raise_for_status r) as [r'|e'] eqn:Hr; [discriminate|].
    injection Hf as ->. rewrite Hc. reflexivity.
  - injection Hf as ->. rewrite Hc. reflexivity.
Qed.

Lemma request_loop_all_fail :
  (forall h', transient (send E h' method url kw)) ->
  forall todo attempt last_error h,
    attempt + Z.of_nat (S todo) = max_retries ->
    exists evs a e,
      _request_loop E cfg (S todo) attempt last_error method url kw h
      = (h ++ evs, Raise e)
      /\ length (answers evs) = S todo
      /\ last_of (answers evs) = Some a
      /\ failure a = Some e /\ caught e = true.
Proof.
  intros Hall. induction todo as [|todo IH]; intros attempt last_error h Hn.
  - destruct (Hall h) as (e & Hf & Hc).
    rewrite (request_loop_caught _ _ _ _ Hf Hc).
    replace (attempt =? max_retries - 1) with true by (symmetry; apply Z.eqb_eq; lia).
    exists [attempt_event h], (send E h method url kw), e. repeat split; auto.
  - destruct (Hall h) as (e & Hf & Hc).
    rewrite (request_loop_caught _ _ _ _ Hf Hc).
    replace (attempt =? max_retries - 1) with false by (symmetry; apply Z.eqb_neq; lia).
    destruct (IH (attempt + 1) (Some e)
                (h ++ [attempt_event h; Slept (Int ((attempt + 1) * 2))]))
      as (evs & a & e' & Hrun & Hlen & Hlast & Hf' & Hc'); [lia|].
    exists ([attempt_event h; Slept (Int ((attempt + 1) * 2))] ++ evs), a, e'.
    rewrite Hrun. repeat split; auto.
    + rewrite <- app_assoc. reflexivity.
    + simpl. rewrite Hlen. reflexivity.
    + simpl. unfold last_of in *. simpl. 
      destruct (rev (answers evs)) eqn:Hr; [discriminate|]. simpl. exact Hlast.
Qed.

(** C3, as the code has it.  When every attempt of a request fails with a
    transient failure and [max_retries] is at least 1, [_request] (so
    [get] and [post]) makes exactly [max_retries] attempts and then raises
    the exception of the last attempt itself: no response is returned, and
    the exception is not wrapped in another one. *)
Theorem request_reraises_last_failure (h : trace) :
  1 <= max_retries ->
  (forall h', transient (send E h' method url kw)) ->
  exists evs a e,
    _request E cfg method url kw h = (h ++ evs, Raise e)
    /\ length (answers evs) = Z.to_nat max_retries
    /\ last_of (answers evs) = Some a
    /\ failure a = Some e
    /\ caught e = true
    /\ (forall cause, ~ wraps e cause).
Proof.
  intros Hn Hall. unfold _request, io_bind, sleep.
  destruct (Z.to_nat max_retries) as [|todo] eqn:Htodo; [lia|].
  destruct (request_loop_all_fail Hall todo 0 None
              (h ++ [Slept (Float (config.request_delay cfg))]))
    as (evs & a & e & Hrun & Hlen & Hlast & Hf & Hc); [lia|].
  exists (Slept (Float (config.request_delay cfg)) :: evs), a, e.
  rewrite Hrun. repeat split; auto.
  - rewrite <- app_assoc. reflexivity.
  - intros cause (msg & Hw). subst e. discriminate Hc.
Qed.


(** Without an attempt to make ([max_retries <= 0]) the loop is not
    entered: [_request] raises the [RuntimeError] after it, which has no
    cause then. *)
Lemma request_without_attempts (h : trace) :
  max_retries <= 0 ->
  _request E cfg method url kw h
  = (h ++ [Slept (Float (config.request_delay cfg))],
     Raise (RuntimeError (lit "Request failed after " ++ str_of_int max_retries
                          ++ lit " retries") None)).
Proof.
  intros Hn. unfold _request, io_bind, sleep.
  replace (Z.to_nat max_retries) with 0%nat by lia. reflexivity.
Qed.

(** A run of the loop only adds events. *)
Lemma request_loop_extends todo :
  forall attempt last_error h,
  exists evs r,
    _request_loop E cfg todo attempt last_error method url kw h = (h ++ evs, r).
Proof.
  induction todo as [|todo IH]; intros attempt last_error h.
  - simpl. unfold raise. eexists [], _. rewrite app_nil_r. reflexivity.
  - destruct (failure (send E h method url kw)) as [e|] eqn:Hf.
    + destruct (caught e) eqn:Hc.
      * rewrite (request_loop_caught _ _ _ _ Hf Hc).
        destruct (attempt =? max_retries - 1).
        -- eexists _, _. reflexivity.
        -- destruct (IH (attempt + 1) (Some e)
                       (h ++ [attempt_event h; Slept (Int ((attempt + 1) * 2))]))
             as (evs & r & Hrun).
           rewrite Hrun. eexists _, _. rewrite <- app_assoc. reflexivity.
      * rewrite (request_loop_uncaught _ _ _ _ Hf Hc). eexists _, _. reflexivity.
    + unfold failure, bind in Hf.
      destruct (send E h method url kw) as [r|e] eqn:Ha; [|discriminate].
      unfold raise_for_status in Hf.
      destruct (is_success r) eqn:Hs; [|discriminate].
      rewrite (request_loop_success _ _ _ _ Ha Hs). eexists _, _. reflexivity.
Qed.

(** With an iteration left, the first event of the loop is an attempt. *)
Lemma request_loop_starts todo attempt last_error h :
  exists evs r,
    _request_loop E cfg (S todo) attempt last_error method url kw h
    = (h ++ attempt_event h :: evs, r).
Proof.
  destruct (failure (send E h method url kw)) as [e|] eqn:Hf.
  - destruct (caught e) eqn:Hc.
    + rewrite (request_loop_caught _ _ _ _ Hf Hc).
      destruct (attempt =? max_retries - 1).
      * eexists _, _. reflexivity.
      * destruct (request_loop_extends todo (attempt + 1) (Some e)
                    (h ++ [attempt_event h; Slept (Int ((attempt + 1) * 2))]))
          as (evs & r & Hrun).
        rewrite Hrun. eexists _, _. rewrite <- app_assoc. reflexivity.
    + rewrite (request_loop_uncaught _ _ _ _ Hf Hc). eexists _, _. reflexivity.
  - unfold failure, bind in Hf.
    destruct (send E h method url kw) as [r|e] eqn:Ha; [|discriminate].
    unfold raise_for_status in Hf.
    destruct (is_success r) eqn:Hs; [|discriminate].
    rewrite (request_loop_success _ _ _ _ Ha Hs). rewrite Ha.
    eexists _, _. reflexivity.
Qed.

Lemma transient_failure a e :
  transient a -> failure a = Some e -> caught e = true.
Proof. intros (e' & Hf & Hc) He. congruence. Qed.

Lemma request_loop_backoff todo :
  forall attempt last_error h evs r,
    attempt + Z.of_nat todo = max_retries ->
    _request_loop E cfg todo attempt last_error method url kw h = (h ++ evs, r) ->
    forall pre m u k a post,
      evs = pre ++ Requested m u k a :: post ->
      transient a ->
      attempt + Z.of_nat (length (answers pre)) + 1 < max_retries ->
      exists a' post',
        post = Slept (Int ((attempt + Z.of_nat (length (answers pre)) + 1) * 2))
               :: Requested method url kw a' :: post'.
Proof.
  induction todo as [|todo IH]; intros attempt last_error h evs r Hn Hrun
    pre m u k a post Hevs Ha Hlt.
  - simpl in Hrun. unfold raise in Hrun. injection Hrun as Hh _.
    rewrite <- (app_nil_r h) in Hh at 1. apply app_inv_head in Hh. rewrite Hevs in Hh.
    destruct pre; discriminate.
  - destruct (failure (send E h method url kw)) as [e|] eqn:Hf.
    + destruct (caught e) eqn:Hc.
      * rewrite (request_loop_caught _ _ _ _ Hf Hc) in Hrun.
        destruct (Z.eqb_spec attempt (max_retries - 1)) as [Heq|Hne].
        -- injection Hrun as Hh _. apply app_inv_head in Hh. rewrite Hevs in Hh.
           destruct pre as [|ev pre]; [|destruct pre; discriminate].
           simpl in Hlt. lia.
        -- destruct todo as [|todo]; [lia|].
           destruct (request_loop_starts todo (attempt + 1) (Some e)
                       (h ++ [attempt_event h; Slept (Int ((attempt + 1) * 2))]))
             as (evs1 & r1 & Hrun1).
           pose proof Hrun as Hrun'. rewrite Hrun1 in Hrun'.
           injection Hrun' as Hh Hr. rewrite <- app_assoc in Hh.
           apply app_inv_head in Hh. simpl in Hh. rewrite Hevs in Hh.
           clear Hevs. subst r1. symmetry in Hh.
           destruct pre as [|ev pre].
           ++ simpl in Hh. injection Hh as _ _ _ _ Hpost. subst post.
              simpl. rewrite Z.add_0_r. eexists _, _. reflexivity.
           ++ simpl in Hh. injection Hh as Hev Hh. subst ev.
              destruct pre as [|ev pre]; [discriminate|].
              simpl in Hh. injection Hh as Hev Hh. subst ev.
              assert (Hrun2 :
                _request_loop E cfg (S todo) (attempt + 1) (Some e) method url kw
                  (h ++ [attempt_event h; Slept (Int ((attempt + 1) * 2))])
                = ((h ++ [attempt_event h; Slept (Int ((attempt + 1) * 2))])
                   ++ (pre ++ Requested m u k a :: post), r)).
              { rewrite Hrun1. rewrite Hh. reflexivity. }
              destruct (IH (attempt + 1) (Some e) _ _ _ ltac:(lia) Hrun2
                          pre m u k a post eq_refl Ha) as (a' & post' & Hpost).
              { simpl in Hlt. lia. }
              exists a', post'. rewrite Hpost. simpl.
              match goal with
              | |- Slept (Int ?x) :: _ = Slept (Int ?y) :: _ =>
                  replace y with x by lia
              end.
              reflexivity.
      * rewrite (request_loop_uncaught _ _ _ _ Hf Hc) in Hrun.
        injection Hrun as Hh _. apply app_inv_head in Hh. rewrite Hevs in Hh.
        destruct pre as [|ev pre]; [|destruct pre; discriminate].
        injection Hh as _ _ _ Hans. subst a.
        pose proof (transient_failure Ha Hf). congruence.
    + exfalso. unfold failure, bind in Hf.
      destruct (send E h method url kw) as [r0|e] eqn:Hsend; [|discriminate].
      unfold raise_for_status in Hf.
      destruct (is_success r0) eqn:Hs; [|discriminate].
      rewrite (request_loop_success _ _ _ _ Hsend Hs) in Hrun.
      injection Hrun as Hh _. apply app_inv_head in Hh. rewrite Hevs in Hh.
      destruct pre as [|ev pre]; [|destruct pre; discriminate].
      injection Hh as _ _ _ Hans. subst a.
      destruct Ha as (e' & Hf' & _). rewrite ?Hsend in Hf'.
      unfold failure, bind, raise_for_status in Hf'.
      rewrite Hs in Hf'. discriminate.
Qed.

(** C9.  In any run of [_request], when the attempt number [i] (counted
    from 1: [i - 1] attempts were made before it) fails with a transient
    failure and [i < max_retries], the next thing the transport does is to
    sleep [i * 2] seconds, and the next attempt follows that sleep. *)
Theorem backoff_is_twice_the_attempt_number (h evs : trace) (r : outcome Response)
    (pre : trace) (m : Method) (u : str) (k : kwargs) (a : outcome Response)
    (post : trace) :
  _request E cfg method url kw h = (h ++ evs, r) ->
  evs = pre ++ Requested m u k a :: post ->
  transient a ->
  Z.of_nat (length (answers pre)) + 1 < max_retries ->
  exists a' post',
    post = Slept (Int ((Z.of_nat (length (answers pre)) + 1) * 2))
           :: Requested method url kw a' :: post'.
Proof.
  intros Hrun Hevs Ha Hlt.
  unfold _request, io_bind, sleep in Hrun.
  destruct (request_loop_extends (Z.to_nat max_retries) 0 None
              (h ++ [Slept (Float (config.request_delay cfg))]))
    as (evs1 & r1 & Hrun1).
  pose proof Hrun as Hrun'. rewrite Hrun1 in Hrun'.
  injection Hrun' as Hh Hr. rewrite <- app_assoc in Hh.
  apply app_inv_head in Hh. simpl in Hh. rewrite Hevs in Hh. clear Hevs.
  subst r1. symmetry in Hh.
  destruct pre as [|ev pre]; [discriminate|].
  injection Hh as Hev Hh. subst ev. simpl in Hlt.
  apply (@request_loop_backoff (Z.to_nat max_retries) 0 None _ _ _
           ltac:(lia) Hrun1 pre m u k a post (eq_sym Hh) Ha).
  lia.
Qed.

End TransportRetry.

Section TransportScenarios.
Import Py http run scenario.
Local Open Scope Z_scope.

(** C3, as the specification states it, fails on the always-500 endpoint of the
    test suite: after two attempts [get] raises the [HTTPStatusError] of the
    last response, which is not an exception raised from a cause. *)
Lemma exhausted_retries_raise_the_cause_itself :
  snd (http.get always_500 (fast_config 2) some_url no_kwargs [])
  = Raise (HTTPStatusError response_500)
  /\ length (answers (fst (http.get always_500 (fast_config 2) some_url no_kwargs [])))
     = 2%nat
  /\ (forall cause, ~ wraps (HTTPStatusError response_500) cause).
Proof.
  split; [reflexivity|]. split; [reflexivity|].
  intros cause (msg & H). discriminate H.
Qed.

Lemma always_500_is_transient (h : trace) (m : Method) (u : str) (k : kwargs) :
  transient (send always_500 h m u k).
Proof. exists (HTTPStatusError response_500). split; reflexivity. Qed.

Lemma request_reraises_last_failure_witness :
  exists evs a e,
    _request always_500 (fast_config 2) GET some_url no_kwargs [] = ([] ++ evs, Raise e)
    /\ length (answers evs) = Z.to_nat (config.max_retries (fast_config 2))
    /\ last_of (answers evs) = Some a
    /\ failure a = Some e
    /\ caught e = true
    /\ (forall cause, ~ wraps e cause).
Proof.
  apply (request_reraises_last_failure always_500 (fast_config 2) GET some_url
           no_kwargs []).
  - simpl. lia.
  - intros h'. apply always_500_is_transient.
Defined.

(** With three attempts allowed, the second failure is followed by a sleep
    of 4 seconds and the third attempt. *)
Lemma backoff_is_twice_the_attempt_number_witness :
  exists a' post',
    [Slept (Int 4); Requested GET some_url no_kwargs (Return response_500)]
    = Slept (Int ((Z.of_nat 1 + 1) * 2)) :: Requested GET some_url no_kwargs a' :: post'.
Proof.
  apply (@backoff_is_twice_the_attempt_number always_500 (fast_config 3) GET
           some_url no_kwargs []
           [Slept (Float (Qmake 0 1));
            Requested GET some_url no_kwargs (Return response_500);
            Slept (Int 2);
            Requested GET some_url no_kwargs (Return response_500);
            Slept (Int 4);
            Requested GET some_url no_kwargs (Return response_500)]
           (Raise (HTTPStatusError response_500))
           [Slept (Float (Qmake 0 1));
            Requested GET some_url no_kwargs (Return response_500);
            Slept (Int 2)]
           GET some_url no_kwargs (Return response_500)
           [Slept (Int 4); Requested GET some_url no_kwargs (Return response_500)]).
  - reflexivity.
  - reflexivity.
  - apply (always_500_is_transient [] GET some_url no_kwargs).
  - simpl. lia.
Defined.

(** The flaky endpoint of the test suite: one 500, a sleep of 2 seconds,
    then the 200 whose text is returned. *)
Example flaky_endpoint_recovers :
  http.get flaky (fast_config 2) some_url no_kwargs []
  = ([Slept (Float (Qmake 0 1));
      Requested GET some_url no_kwargs (Return response_500);
      Slept (Int 2);
      Requested GET some_url no_kwargs (Return recovered)],
     Return recovered).
Proof. reflexivity. Qed.

End TransportScenarios.

(** ** The session protocols: a rejected challenge *)

Section IoLaws.
Import Py http.

Lemma io_bind_return {A B} {m : io A} (k : A -> io B) {h h' a} :
  m h = (h', Return a) -> io_bind m k h = k a h'.
Proof. intros H. unfold io_bind. rewrite H. reflexivity. Qed.

Lemma io_bind_raise {A B} {m : io A} (k : A -> io B) {h h' e} :
  m h = (h', Raise e) -> io_bind m k h = (h', Raise e).
Proof. intros H. unfold io_bind. rewrite H. reflexivity. Qed.

End IoLaws.

Section Protocols.
Import Py http run portal.
Local Open Scope Z_scope.

Variable L : libs.
Variable E : env.
Variable cfg : config.BharatCourtsConfig.
Hypothesis retries : 1 <= config.max_retries cfg.
Hypothesis Hresp : responsive E.
Hypothesis Hsolver : solver_answers E.

Local Abbreviation delay := (Slept (Float (config.request_delay cfg))).

(** A request to a responsive portal: one sleep, one attempt. *)
Lemma request_answered (m : Method) (u : str) (kw : kwargs) (h : trace) :
  exists r,
    send E (h ++ [delay]) m u kw = Return r /\ is_success r = true
    /\ _request E cfg m u kw h
       = (h ++ [delay; Requested m u kw (Return r)], Return r).
Proof.
  destruct (Hresp (h ++ [delay]) m u kw) as (r & Ha & Hs).
  exists r. split; [assumption|]. split; [assumption|].
  unfold _request, io_bind, sleep.
  destruct (Z.to_nat (config.max_retries cfg)) as [|todo] eqn:Htodo; [lia|].
  rewrite (@request_loop_success E cfg m u kw todo 0 None _ _ Ha Hs).
  rewrite Ha, <- app_assoc. reflexivity.
Qed.


(** *** HC Services *)

Section HCServices.
Import hcservices_client hcservices_endpoints.

Lemma init_session_run (h : trace) :
  exists evs,
    hcservices_client._init_session E cfg h = (h ++ evs, Return tt)
    /\ request_log evs = [(GET, MAIN_PAGE_URL)].
Proof.
  destruct (request_answered GET MAIN_PAGE_URL (referer (BASE_URL ++ lit "/")) h)
    as (r & _ & _ & Hrun).
  eexists. split.
  - unfold hcservices_client._init_session, get.
    rewrite (io_bind_return _ Hrun). reflexivity.
  - reflexivity.
Qed.

Lemma solve_captcha_run (h : trace) :
  exists evs s,
    hcservices_client._solve_captcha E cfg h = (h ++ evs, Return s)
    /\ request_log evs = [(GET, CAPTCHA_IMAGE_URL)].
Proof.
  destruct (request_answered GET CAPTCHA_IMAGE_URL (referer MAIN_PAGE_URL) h)
    as (r & _ & _ & Hrun).
  destruct (Hsolver (h ++ [delay; Requested GET CAPTCHA_IMAGE_URL
                                    (referer MAIN_PAGE_URL) (Return r)]) (content r))
    as (s & Hs).
  eexists _, s. split.
  - unfold hcservices_client._solve_captcha, get.
    rewrite (io_bind_return _ Hrun). unfold solve_captcha. rewrite Hs.
    rewrite <- app_assoc. reflexivity.
  - reflexivity.
Qed.

Hypothesis Hrej : rejects_every_submission E.

(** One rejected round: a new session, a new challenge, a submission, and
    the loop goes on. *)
Lemma rejected_round (todo : nat) (url : str) (fb : str -> io form) (n : Z)
    (h : trace) :
  builds fb ->
  exists evs,
    _post_with_captcha_retry_loop E cfg (S todo) url fb n h
    = _post_with_captcha_retry_loop E cfg todo url fb n (h ++ evs)
    /\ request_log evs = round url.
Proof.
  intros Hfb.
  destruct (init_session_run h) as (evs1 & Hinit & Hlog1).
  destruct (solve_captcha_run (h ++ evs1)) as (evs2 & s & Hsolve & Hlog2).
  destruct (Hfb s ((h ++ evs1) ++ evs2)) as (f & Hform).
  destruct (request_answered POST url
              (mkKwargs [(lit "Referer", MAIN_PAGE_URL)] (Some f) None None)
              ((h ++ evs1) ++ evs2)) as (r & Ha & _ & Hpost).
  exists (evs1 ++ evs2 ++ [delay; Requested POST url
                             (mkKwargs [(lit "Referer", MAIN_PAGE_URL)] (Some f) None None)
                             (Return r)]).
  split.
  - cbn [_post_with_captcha_retry_loop].
    rewrite (io_bind_return _ Hinit).
    rewrite (io_bind_return _ Hsolve).
    rewrite (io_bind_return _ Hform).
    unfold post. rewrite (io_bind_return _ Hpost).
    rewrite (Hrej _ _ _ Ha). rewrite <- !app_assoc. reflexivity.
  - rewrite !request_log_app, Hlog1, Hlog2. reflexivity.
Qed.

Lemma rejected_rounds (url : str) (fb : str -> io form) (n : Z) :
  builds fb ->
  forall todo h,
  exists evs,
    _post_with_captcha_retry_loop E cfg todo url fb n h
    = (h ++ evs, Raise (CaptchaError (failed_after n)))
    /\ request_log evs = concat (repeat (round url) todo).
Proof.
  intros Hfb. induction todo as [|todo IH]; intros h.
  - exists []. rewrite app_nil_r. split; reflexivity.
  - destruct (rejected_round todo url n h Hfb) as (evs1 & Hstep & Hlog1).
    destruct (IH (h ++ evs1)) as (evs2 & Hrun & Hlog2).
    exists (evs1 ++ evs2). split.
    + rewrite Hstep, Hrun, <- app_assoc. reflexivity.
    + rewrite request_log_app, Hlog1, Hlog2. reflexivity.
Qed.

Lemma post_with_captcha_retry_gives_up (url : str) (fb : str -> io form) (n : Z)
    (h : trace) :
  builds fb -> gives_up (_post_with_captcha_retry E cfg url fb n h) h url n.
Proof.
  intros Hfb. unfold gives_up, _post_with_captcha_retry.
  apply rejected_rounds; assumption.
Qed.

Lemma gives_up_bind {A B} (m : io A) (k : A -> io B) h url n :
  gives_up (m h) h url n -> gives_up (io_bind m k h) h url n.
Proof.
  intros (evs & Hrun & Hlog). exists evs. split; [|assumption].
  apply io_bind_raise. assumption.
Qed.

Lemma builds_ret (f : str -> form) : builds (fun captcha => ret (f captcha)).
Proof. intros c h. exists (f c). reflexivity. Qed.


Lemma case_status_gives_up court case_type case_number year bench_code h :
  gives_up (case_status L E cfg court case_type case_number year bench_code h)
           h SHOW_RECORDS_URL 3.
Proof.
  unfold case_status. apply gives_up_bind.
  apply post_with_captcha_retry_gives_up. apply builds_ret.
Qed.

Lemma case_status_by_party_gives_up court party_name year bench_code status_filter h :
  gives_up (case_status_by_party L E cfg court party_name year bench_code
                                 status_filter h)
           h SHOW_RECORDS_URL 3.
Proof.
  unfold case_status_by_party. apply gives_up_bind.
  apply post_with_captcha_retry_gives_up. apply builds_ret.
Qed.

Lemma court_orders_gives_up court case_type case_number year bench_code h :
  gives_up (court_orders L E cfg court case_type case_number year bench_code h)
           h SHOW_RECORDS_URL 3.
Proof.
  unfold court_orders. apply gives_up_bind.
  apply post_with_captcha_retry_gives_up. apply builds_ret.
Qed.

Lemma cause_list_gives_up court civil bench_code causelist_date h :
  gives_up (cause_list L E cfg court civil bench_code causelist_date h)
           h INDEX_QRY_URL 3.
Proof.
  unfold cause_list.
  match goal with
  | |- gives_up (io_bind ?m ?k h) _ _ _ =>
      assert (Hsel : exists x, m h = (h, Return x))
  end.
  { destruct causelist_date as [|c d]; [eexists; reflexivity|].
    destruct (datetime.strptime_dmy (c :: d)); eexists; reflexivity. }
  destruct Hsel as (x & Hsel). rewrite (io_bind_return _ Hsel).
  apply gives_up_bind. apply post_with_captcha_retry_gives_up.
  intros captcha h'. eexists. reflexivity.
Qed.

End HCServices.

(** *** Judgment search *)

Section JudgmentSearch.
Import judgments_client judgments_endpoints.

Hypothesis Hfail : fails_every_check E.

Lemma judgments_init_session_run (h : trace) :
  exists evs,
    judgments_client._init_session E cfg h = (h ++ evs, Return tt)
    /\ request_log evs = [(GET, MAIN_PAGE_URL)].
Proof.
  destruct (request_answered GET MAIN_PAGE_URL no_kwargs h) as (r & _ & _ & Hrun).
  eexists. split.
  - unfold judgments_client._init_session, get.
    rewrite (io_bind_return _ Hrun). reflexivity.
  - reflexivity.
Qed.

Lemma judgments_solve_captcha_run (h : trace) :
  exists evs s,
    judgments_client._solve_captcha E cfg h = (h ++ evs, Return s)
    /\ request_log evs = [(GET, CAPTCHA_IMAGE_URL)].
Proof.
  destruct (request_answered GET CAPTCHA_IMAGE_URL no_kwargs h) as (r & _ & _ & Hrun).
  destruct (Hsolver (h ++ [delay; Requested GET CAPTCHA_IMAGE_URL no_kwargs (Return r)])
                    (content r)) as (s & Hs).
  eexists _, s. split.
  - unfold judgments_client._solve_captcha, get.
    rewrite (io_bind_return _ Hrun). unfold solve_captcha. rewrite Hs.
    rewrite <- app_assoc. reflexivity.
  - reflexivity.
Qed.

Lemma validate_captcha_fails (token : obj) (captcha search_text : str) (h : trace) :
  exists evs token',
    _validate_captcha E cfg token captcha search_text h
    = (h ++ evs, Return (false, token'))
    /\ request_log evs = [(POST, CHECK_CAPTCHA_URL)].
Proof.
  unfold _validate_captcha, post.
  match goal with
  | |- context [_request E cfg POST ?u ?kw] =>
      destruct (request_answered POST u kw h) as (r & Ha & _ & Hrun)
  end.
  pose proof (Hfail _ _ _ Ha) as Hcheck. unfold check_fails in Hcheck.
  rewrite (io_bind_return _ Hrun).
  destruct (json_body r) as [[| | | | | | | |d]|]; try contradiction.
  - rewrite Hcheck. simpl. eexists _, _. split; reflexivity.
  - eexists _, _. split; reflexivity.
Qed.

Lemma captcha_loop_runs_out (search_text : str) :
  forall todo token h,
  exists evs token',
    captcha_loop E cfg todo token search_text h = (h ++ evs, Return (None, token'))
    /\ Forall in_session (request_log evs)
    /\ fetches CAPTCHA_IMAGE_URL (request_log evs) = todo.
Proof.
  induction todo as [|todo IH]; intros token h.
  - exists [], token. rewrite app_nil_r. repeat split. constructor.
  - destruct (judgments_solve_captcha_run h) as (evs1 & s & Hsolve & Hlog1).
    cbn [captcha_loop]. rewrite (io_bind_return _ Hsolve).
    destruct s as [|c s].
    + destruct (IH token (h ++ evs1)) as (evs2 & token' & Hrun & Hall & Hn).
      exists (evs1 ++ evs2), token'. rewrite Hrun, <- app_assoc.
      rewrite request_log_app, Hlog1. repeat split.
      * constructor; [left; reflexivity|assumption].
      * unfold fetches in *. simpl. rewrite Hn. reflexivity.
    + destruct (validate_captcha_fails token (c :: s) search_text (h ++ evs1))
        as (evs2 & token1 & Hval & Hlog2).
      rewrite (io_bind_return _ Hval).
      destruct (IH token1 ((h ++ evs1) ++ evs2)) as (evs3 & token' & Hrun & Hall & Hn).
      exists (evs1 ++ evs2 ++ evs3), token'. rewrite Hrun, <- !app_assoc.
      rewrite !request_log_app, Hlog1, Hlog2. repeat split.
      * constructor; [left; reflexivity|].
        constructor; [right; reflexivity|assumption].
      * unfold fetches in *. simpl. rewrite Hn. reflexivity.
Qed.

Lemma search_returns_empty (token : obj) (search_text search_opt court_type : str)
    (n : Z) (h : trace) :
  exists evs token' rest,
    search L E cfg token search_text search_opt court_type n h
    = (h ++ evs, Return (models.SearchResult.default, token'))
    /\ request_log evs = (GET, MAIN_PAGE_URL) :: rest
    /\ Forall in_session rest
    /\ fetches CAPTCHA_IMAGE_URL rest = Z.to_nat n.
Proof.
  destruct (judgments_init_session_run h) as (evs1 & Hinit & Hlog1).
  destruct (captcha_loop_runs_out search_text (Z.to_nat n) token (h ++ evs1))
    as (evs2 & token' & Hloop & Hall & Hn).
  exists (evs1 ++ evs2), token', (request_log evs2).
  unfold search. rewrite (io_bind_return _ Hinit), (io_bind_return _ Hloop).
  rewrite <- app_assoc, request_log_app, Hlog1. repeat split; assumption.
Qed.

End JudgmentSearch.

End Protocols.

Section RejectedChallenges.
Import Py http run portal.
Local Open Scope Z_scope.

(** C1, as the code has it.  Let the portal answer every request and the
    solver every challenge, and let the transport be allowed at least one
    attempt.

    HC Services ([_post_with_captcha_retry] and the four operations built
    on it): when every submission is rejected, each of the [n] rounds
    starts a new session, fetches a new challenge and submits once; after
    [n] rounds ([n = 3] for the operations) the operation raises
    [CaptchaError] and returns nothing.

    Judgment search ([search]): when every check fails, the session is
    opened once; each of the [n] attempts fetches a challenge in that same
    session; after [n] attempts [search] returns the empty [SearchResult]. *)
Theorem rejected_challenges_end_the_operation (L : libs) (E : env)
    (cfg : config.BharatCourtsConfig) :
  1 <= config.max_retries cfg ->
  responsive E ->
  solver_answers E ->
  (rejects_every_submission E ->
     (forall url fb n h,
        builds fb ->
        gives_up (hcservices_client._post_with_captcha_retry E cfg url fb n h) h url n)
     /\ (forall court case_type case_number year bench_code h,
           gives_up (hcservices_client.case_status L E cfg court case_type
                       case_number year bench_code h)
                    h hcservices_endpoints.SHOW_RECORDS_URL 3)
     /\ (forall court party_name year bench_code status_filter h,
           gives_up (hcservices_client.case_status_by_party L E cfg court
                       party_name year bench_code status_filter h)
                    h hcservices_endpoints.SHOW_RECORDS_URL 3)
     /\ (forall court case_type case_number year bench_code h,
           gives_up (hcservices_client.court_orders L E cfg court case_type
                       case_number year bench_code h)
                    h hcservices_endpoints.SHOW_RECORDS_URL 3)
     /\ (forall court civil bench_code causelist_date h,
           gives_up (hcservices_client.cause_list L E cfg court civil bench_code
                       causelist_date h)
                    h hcservices_endpoints.INDEX_QRY_URL 3))
  /\ (fails_every_check E ->
      forall token search_text search_opt court_type n h,
      exists evs token' rest,
        judgments_client.search L E cfg token search_text search_opt court_type n h
        = (h ++ evs, Return (models.SearchResult.default, token'))
        /\ request_log evs = (GET, judgments_endpoints.MAIN_PAGE_URL) :: rest
        /\ Forall in_session rest
        /\ fetches judgments_endpoints.CAPTCHA_IMAGE_URL rest = Z.to_nat n).
Proof.
  intros Hn Hresp Hsolver. split.
  - intros Hrej. repeat split; intros.
    + apply post_with_captcha_retry_gives_up; assumption.
    + apply case_status_gives_up; assumption.
    + apply case_status_by_party_gives_up; assumption.
    + apply court_orders_gives_up; assumption.
    + apply cause_list_gives_up; assumption.
  - intros Hfail token search_text search_opt court_type n h.
    apply search_returns_empty; assumption.
Qed.

End RejectedChallenges.

Section RejectingPortal.
Import Py http run portal scenario.
Local Open Scope Z_scope.

Lemma rejecting_portal_responsive : responsive rejecting_portal.
Proof. intros h m u kw. exists rejection. split; reflexivity. Qed.

Lemma rejecting_portal_solver : solver_answers rejecting_portal.
Proof. intros h image. exists (lit "test123"). reflexivity. Qed.

Lemma rejecting_portal_rejects : rejects_every_submission rejecting_portal.
Proof. intros h u kw r H. injection H as <-. reflexivity. Qed.

Lemma rejecting_portal_fails_checks : fails_every_check rejecting_portal.
Proof. intros h u kw r H. injection H as <-. reflexivity. Qed.

(** C1, as the specification states it, fails for the judgment search: against a
    portal that fails every check, [search] with three attempts returns the
    empty result instead of raising, and opens the session only once (one
    GET of the main page, then three fetches of a challenge, each followed
    by a check). *)
Lemma judgment_search_returns_empty_instead_of_raising :
  snd (judgments_client.search plain_libs rejecting_portal (fast_config 1) (Str [])
         (lit "constitution") (lit "PHRASE") (lit "2") 3 [])
  = Return (models.SearchResult.default, Str [])
  /\ request_log
       (fst (judgments_client.search plain_libs rejecting_portal (fast_config 1)
               (Str []) (lit "constitution") (lit "PHRASE") (lit "2") 3 []))
     = [(GET, judgments_endpoints.MAIN_PAGE_URL);
        (GET, judgments_endpoints.CAPTCHA_IMAGE_URL);
        (POST, judgments_endpoints.CHECK_CAPTCHA_URL);
        (GET, judgments_endpoints.CAPTCHA_IMAGE_URL);
        (POST, judgments_endpoints.CHECK_CAPTCHA_URL);
        (GET, judgments_endpoints.CAPTCHA_IMAGE_URL);
        (POST, judgments_endpoints.CHECK_CAPTCHA_URL)]
  /\ (forall msg,
        Return (models.SearchResult.default, Str []) <> Raise (CaptchaError msg)).
Proof.
  split; [vm_compute; reflexivity|]. split; [vm_compute; reflexivity|].
  intros msg H. discriminate H.
Qed.

(** Against the same portal [case_status] gives up after three rounds, and
    [search] returns the empty result. *)
Lemma rejected_challenges_end_the_operation_witness :
  gives_up (hcservices_client.case_status plain_libs rejecting_portal (fast_config 1)
              delhi (lit "134") (lit "12345") (lit "2024") (lit "1") [])
           [] hcservices_endpoints.SHOW_RECORDS_URL 3
  /\ exists evs token' rest,
       judgments_client.search plain_libs rejecting_portal (fast_config 1) (Str [])
         (lit "constitution") (lit "PHRASE") (lit "2") 3 []
       = ([] ++ evs, Return (models.SearchResult.default, token'))
       /\ request_log evs = (GET, judgments_endpoints.MAIN_PAGE_URL) :: rest
       /\ Forall in_session rest
       /\ fetches judgments_endpoints.CAPTCHA_IMAGE_URL rest = Z.to_nat 3.
Proof.
  destruct (@rejected_challenges_end_the_operation plain_libs rejecting_portal
              (fast_config 1) ltac:(simpl; lia) rejecting_portal_responsive
              rejecting_portal_solver) as [Hhc Hjs].
  split.
  - apply (proj1 (proj2 (Hhc rejecting_portal_rejects))).
  - apply (Hjs rejecting_portal_fails_checks).
Defined.

(** The retry scenario: the first submission is rejected, the protocol
    starts a second round, and the two records of the second answer come
    back with the name of the court filled in. *)
Example one_rejection_then_two_records :
  exists results,
    snd (hcservices_client.case_status plain_libs second_time_lucky (fast_config 1)
           delhi (lit "3") (lit "3") (lit "2024") (lit "1") [])
    = Return results
    /\ map models.CaseInfo.cnr_number results
       = [Str (lit "DLHC010582482024"); Str (lit "DLHC010400092024")]
    /\ map models.CaseInfo.status results
       = [Str (lit "Pending"); Str (lit "Disposed")]
    /\ map models.CaseInfo.court_name results
       = [lit "Delhi High Court"; lit "Delhi High Court"]
    /\ request_log
         (fst (hcservices_client.case_status plain_libs second_time_lucky
                 (fast_config 1) delhi (lit "3") (lit "3") (lit "2024") (lit "1") []))
       = round hcservices_endpoints.SHOW_RECORDS_URL
         ++ round hcservices_endpoints.SHOW_RECORDS_URL.
Proof.
  eexists. split; [vm_compute; reflexivity|].
  repeat split; vm_compute; reflexivity.
Qed.

End RejectingPortal.

(** ** The parsers *)

Section Envelope.
Import Py body hcservices_parser.
Local Open Scope N_scope.

Lemma truthy_ne_empty (o : obj) : truthy o = true -> ne_str o [] = true.
Proof.
  destruct o as [| | | | | |s| |]; try reflexivity.
  destruct s; [discriminate|]. intros _. reflexivity.
Qed.

Lemma envelope_error_field (raw : str) (data : dict) :
  startswith (lit "{") (envelope_text raw) = true ->
  decodes_to (envelope_text raw) (Dict data) ->
  not_a_rejection data ->
  truthy (get data (lit "Error") (Str [])) = true ->
  _parse_json_envelope raw = Raise (ServerError (get data (lit "Error") (Str []))).
Proof.
  intros Hstart Hdec Hcon Herr.
  unfold _parse_json_envelope. fold (envelope_text raw). rewrite Hstart.
  assert (Hdata :
    match json.loads true (envelope_text raw) with
    | Raise JSONDecodeError => json.loads false (envelope_text raw)
    | r => r
    end = Return (Dict data)).
  { destruct Hdec as [H|[H1 H2]]; [rewrite H|rewrite H1]; auto. }
  rewrite Hdata. cbn [bind].
  assert (Hc : is_str (get data (lit "con") None_)
               && contains (lit "captcha")
                    match get data (lit "con") None_ with
                    | Str c => lower c
                    | _ => []
                    end = false).
  { destruct (get data (lit "con") None_) eqn:Hg; try reflexivity.
    simpl. apply Hcon. exact Hg. }
  rewrite Hc, Herr, (truthy_ne_empty _ Herr). reflexivity.
Qed.

(** C2.  [parse_case_status] raises [CaptchaError] on the rejection
    envelope and returns no record on the empty envelope; and whenever an
    envelope decodes to an object whose [con] is not a string that mentions
    a captcha and whose [Error] field is true (a non-empty string, in
    particular), [_parse_json_envelope] and [parse_case_status] raise
    [ServerError] with that field, which is no [CaptchaError]. *)
Theorem envelope_rejection_empty_and_error (L : libs) :
  parse_case_status L (q "{'con':'Invalid Captcha'}")
  = Raise (CaptchaError (lit "Invalid Captcha"))
  /\ parse_case_status L (q "{'con':[],'totRecords':'0','Error':''}") = Return []
  /\ (forall raw data,
        startswith (lit "{") (envelope_text raw) = true ->
        decodes_to (envelope_text raw) (Dict data) ->
        not_a_rejection data ->
        truthy (get data (lit "Error") (Str [])) = true ->
        _parse_json_envelope raw
        = Raise (ServerError (get data (lit "Error") (Str [])))
        /\ (contains (lit "<table") (lower raw) = false ->
            parse_case_status L raw
            = Raise (ServerError (get data (lit "Error") (Str []))))
        /\ forall msg, ServerError (get data (lit "Error") (Str [])) <> CaptchaError msg).
Proof.
  split; [vm_compute; reflexivity|]. split; [vm_compute; reflexivity|].
  intros raw data Hstart Hdec Hcon Herr.
  pose proof (envelope_error_field raw Hstart Hdec Hcon Herr) as Henv.
  split; [exact Henv|]. split.
  - intros Hraw. unfold parse_case_status. rewrite Hraw, Henv. reflexivity.
  - intros msg H. discriminate H.
Qed.

End Envelope.

Section EnvelopeScenario.
Import Py body scenario.

(** The envelope the portal sends when a mandatory field is missing. *)
Lemma envelope_rejection_empty_and_error_witness :
  hcservices_parser.parse_case_status plain_libs
    (q "{'con':[],'totRecords':'0','Error':'ERROR_VAL'}")
  = Raise (ServerError (Str (lit "ERROR_VAL"))).
Proof.
  apply (proj1 (proj2
           (proj2 (proj2 (envelope_rejection_empty_and_error plain_libs))
              (q "{'con':[],'totRecords':'0','Error':'ERROR_VAL'}")
              [(lit "con", List_ []); (lit "totRecords", Str (lit "0"));
               (lit "Error", Str (lit "ERROR_VAL"))]
              ltac:(vm_compute; reflexivity)
              ltac:(left; vm_compute; reflexivity)
              ltac:(intros c H; vm_compute in H; discriminate H)
              ltac:(vm_compute; reflexivity)))).
  vm_compute. reflexivity.
Defined.

End EnvelopeScenario.

Section Tables.
Import Py models body.
Local Open Scope N_scope.

(** Nothing is found under a stronger filter when nothing is found under
    the name alone. *)
Lemma find_none_any (name : str) (extra : bs4.Node -> bool) (soup : bs4.Node) :
  bs4.find name bs4.any soup = None -> bs4.find name extra soup = None.
Proof.
  unfold bs4.find, bs4.find_all. induction (bs4.descendants soup) as [|d ds IH].
  - reflexivity.
  - simpl. unfold bs4.any at 1. rewrite andb_true_r.
    destruct (bs4.has_name name d); [discriminate|]. simpl. exact IH.
Qed.

Lemma or_else_none (name : str) (extra : bs4.Node -> bool) (soup : bs4.Node) :
  bs4.find name bs4.any soup = None ->
  bs4.or_else (bs4.find name extra soup) (bs4.find name bs4.any soup) = None.
Proof. intros H. rewrite (@find_none_any name extra soup H), H. reflexivity. Qed.

(** C5.  When the page has no table, the legacy case-status parser, the
    orders parser and the cause-list parser return the empty list and the
    judgment-search parser returns the empty [SearchResult]; and
    [parse_case_status] returns the empty list for a body that has neither
    a table nor the opening brace of an envelope.  None of them raises. *)
Theorem parsers_return_empty_without_a_table (L : libs) :
  (forall html base_url page,
     no_table (BeautifulSoup L html) ->
     hcservices_parser._parse_case_status_html L html = []
     /\ hcservices_parser.parse_orders L html base_url = []
     /\ hcservices_parser.parse_cause_list L html base_url = []
     /\ judgments_parser.parse_judgment_search L html base_url page
        = SearchResult.default
     /\ SearchResult.items SearchResult.default = [])
  /\ (forall raw,
        contains (lit "<table") (lower raw) = false ->
        startswith (lit "{") (envelope_text raw) = false ->
        hcservices_parser.parse_case_status L raw = Return []).
Proof.
  split.
  - intros html base_url page H. unfold no_table in H. repeat split.
    + unfold hcservices_parser._parse_case_status_html. rewrite H. reflexivity.
    + unfold hcservices_parser.parse_orders. rewrite (@or_else_none _ _ _ H). reflexivity.
    + unfold hcservices_parser.parse_cause_list. rewrite (@or_else_none _ _ _ H). reflexivity.
    + unfold judgments_parser.parse_judgment_search, judgments_parser.result_table.
      rewrite (@or_else_none _ _ _ H). reflexivity.
  - intros raw Hraw Hstart.
    unfold hcservices_parser.parse_case_status, hcservices_parser._parse_json_envelope.
    fold (envelope_text raw). rewrite Hraw, Hstart. reflexivity.
Qed.

(** *** Orders *)

Lemma fold_left_rows {A R} (body : list R -> A -> list R) (f : A -> list R) :
  (forall results row, body results row = results ++ f row) ->
  forall rows results, fold_left body rows results = results ++ flat_map f rows.
Proof.
  intros Hbody. induction rows as [|row rows IH]; intros results; simpl.
  - rewrite app_nil_r. reflexivity.
  - rewrite IH, Hbody, <- app_assoc. reflexivity.
Qed.

Lemma orders_row_appends (base_url : str) (results : list CaseOrder.t)
    (row : bs4.Node) :
  hcservices_parser.orders_row base_url results row
  = results ++ hcservices_parser.orders_row base_url [] row.
Proof.
  unfold hcservices_parser.orders_row.
  destruct (hcservices_parser.len _ <? 5)%Z; [rewrite app_nil_r; reflexivity|].
  destruct (hcservices_parser._parse_date _);
    [reflexivity|rewrite app_nil_r; reflexivity].
Qed.

Lemma orders_row_date (base_url : str) (row : bs4.Node) :
  map CaseOrder.order_date (hcservices_parser.orders_row base_url [] row)
  = match row_date row with Some d => [d] | None => [] end.
Proof.
  unfold hcservices_parser.orders_row, row_date.
  destruct (hcservices_parser.len _ <? 5)%Z; [reflexivity|].
  destruct (hcservices_parser._parse_date _); reflexivity.
Qed.

Lemma parse_orders_rows (L : libs) (html base_url : str) :
  hcservices_parser.parse_orders L html base_url
  = flat_map (hcservices_parser.orders_row base_url [])
             (order_rows (BeautifulSoup L html)).
Proof.
  unfold hcservices_parser.parse_orders, order_rows.
  destruct (bs4.or_else _ _); [|reflexivity].
  apply (fold_left_rows (hcservices_parser.orders_row base_url)
           (hcservices_parser.orders_row base_url [])).
  intros. apply orders_row_appends.
Qed.

Lemma parse_date_strptime (cell : str) (d : datetime.date) :
  hcservices_parser._parse_date cell = Some d
  <-> datetime.strptime_dmy (strip cell) = Return d.
Proof.
  unfold hcservices_parser._parse_date. destruct (strip cell) as [|c s] eqn:Hs.
  - split; [discriminate|]. vm_compute. discriminate.
  - destruct (datetime.strptime_dmy (c :: s)) as [d'|e]; split; congruence.
Qed.

Lemma flat_map_map {A B C} (f : A -> list B) (g : B -> C) (l : list A) :
  map g (flat_map f l) = flat_map (fun x => map g (f x)) l.
Proof.
  induction l as [|x l IH]; simpl; [reflexivity|].
  rewrite map_app, IH. reflexivity.
Qed.

(** C7.  [_parse_date] gives a date exactly when [strptime] accepts the
    stripped text in the format DD-MM-YYYY.  The dates of the orders
    [parse_orders] returns are, in order, the dates of the rows whose date
    cell parses: a row whose date is missing or does not parse gives no
    order, and every order carries the parsed date of its row. *)
Theorem parse_orders_keeps_dated_rows (L : libs) (html base_url : str) :
  (forall cell d,
     hcservices_parser._parse_date cell = Some d
     <-> datetime.strptime_dmy (strip cell) = Return d)
  /\ map CaseOrder.order_date (hcservices_parser.parse_orders L html base_url)
     = flat_map (fun row => match row_date row with Some d => [d] | None => [] end)
                (order_rows (BeautifulSoup L html))
  /\ (forall o,
        In o (hcservices_parser.parse_orders L html base_url) ->
        exists row,
          In row (order_rows (BeautifulSoup L html))
          /\ row_date row = Some (CaseOrder.order_date o)).
Proof.
  split; [apply parse_date_strptime|]. split.
  - rewrite parse_orders_rows, flat_map_map.
    apply flat_map_ext. intros row. apply orders_row_date.
  - intros o Ho. rewrite parse_orders_rows in Ho.
    apply in_flat_map in Ho. destruct Ho as (row & Hrow & Ho).
    exists row. split; [assumption|].
    pose proof (orders_row_date base_url row) as Hd.
    destruct (row_date row) as [d|].
    + destruct (hcservices_parser.orders_row base_url [] row) as [|o1 [|o2 os]];
        try discriminate.
      destruct Ho as [<-|[]]. simpl in Hd. congruence.
    + destruct (hcservices_parser.orders_row base_url [] row); [contradiction|discriminate].
Qed.

(** *** Judgment search: the counts *)


Lemma no_total_count (soup : bs4.Node) :
  no_total soup -> judgments_parser._parse_total_count soup = 0%Z.
Proof.
  unfold no_total, judgments_parser._parse_total_count.
  destruct (judgments_parser.pagination soup); [|reflexivity].
  intros ->. reflexivity.
Qed.

Lemma judgment_row_appends (base_url : str) (judgments : list JudgmentResult.t)
    (row : bs4.Node) :
  judgments_parser.judgment_row base_url judgments row
  = judgments ++ judgments_parser.judgment_row base_url [] row.
Proof.
  unfold judgments_parser.judgment_row.
  destruct (judgments_parser.len _ <? 7)%Z; [rewrite app_nil_r; reflexivity|].
  destruct (judgments_parser._extract_title_and_case _) as [title number].
  reflexivity.
Qed.

Lemma judgment_search_rows (L : libs) (html base_url : str) (page : Z) :
  SearchResult.items (judgments_parser.parse_judgment_search L html base_url page)
  = map SearchResult.Judgment
        (flat_map (judgments_parser.judgment_row base_url [])
                  (results.judgment_rows (BeautifulSoup L html))).
Proof.
  unfold judgments_parser.parse_judgment_search, results.judgment_rows.
  destruct (judgments_parser.result_table (BeautifulSoup L html)) as [table|];
    [|reflexivity].
  cbn [SearchResult.items].
  rewrite (fold_left_rows (judgments_parser.judgment_row base_url)
                          (judgments_parser.judgment_row base_url []))
    by (intros; apply judgment_row_appends).
  reflexivity.
Qed.


Lemma length_flat_map_filter {A B} (f : A -> list B) (keep : A -> bool) (l : list A) :
  (forall x, length (f x) = if keep x then 1%nat else 0%nat) ->
  length (flat_map f l) = length (filter keep l).
Proof.
  intros Hf. induction l as [|x l IH]; [reflexivity|].
  cbn [flat_map filter]. rewrite length_app, Hf, IH.
  destruct (keep x); reflexivity.
Qed.


End Tables.

Section TableScenarios.
Import Py models body scenario.
Local Open Scope Z_scope.

(** The page of the test suite without results. *)
Lemma parsers_return_empty_without_a_table_witness :
  hcservices_parser._parse_case_status_html plain_libs (lit "<html></html>") = []
  /\ hcservices_parser.parse_orders plain_libs (lit "<html></html>") [] = []
  /\ hcservices_parser.parse_cause_list plain_libs (lit "<html></html>") [] = []
  /\ judgments_parser.parse_judgment_search plain_libs (lit "<html></html>") [] 1
     = SearchResult.default
  /\ SearchResult.items SearchResult.default = [].
Proof.
  apply (proj1 (parsers_return_empty_without_a_table plain_libs)
           (lit "<html></html>") [] 1).
  reflexivity.
Defined.


(** Of the three rows of the orders page only the first has its five
    cells and a date that parses. *)
Lemma parse_orders_keeps_dated_rows_witness :
  map CaseOrder.order_date
      (hcservices_parser.parse_orders (page_libs orders_page) [] [])
  = [datetime.mkDate 2024 2 15].
Proof.
  rewrite (proj1 (proj2 (parse_orders_keeps_dated_rows (page_libs orders_page) [] []))).
  vm_compute. reflexivity.
Defined.

End TableScenarios.

(** ** The listings of benches and case types *)

Section Listings.
Import Py http listing hcservices_client.
Local Open Scope N_scope.

Lemma eqb_eq (a b : str) : eqb a b = true <-> a = b.
Proof.
  unfold eqb. destruct (list_eq_dec N.eq_dec a b); split; congruence.
Qed.

Lemma dict_get_set (d : dict) (k k' : str) (v : obj) :
  dict_get (dict_set d k v) k' = if eqb k k' then Some v else dict_get d k'.
Proof.
  induction d as [|[k0 v0] d IH]; simpl.
  - reflexivity.
  - destruct (eqb k0 k) eqn:H0.
    + apply eqb_eq in H0. subst k0. simpl.
      destruct (eqb k k'); reflexivity.
    + simpl. destruct (eqb k0 k') eqn:H1.
      * apply eqb_eq in H1. subst k0.
        destruct (eqb k k') eqn:H2; [|reflexivity].
        apply eqb_eq in H2. subst k'.
        rewrite (proj2 (eqb_eq k k) eq_refl) in H0. discriminate.
      * exact IH.
Qed.

Lemma excludes_empty : excludes_placeholders [].
Proof. intros k v H. discriminate H. Qed.

Lemma excludes_set (d : dict) (code name : str) :
  excludes_placeholders d ->
  eqb code (lit "0") = false ->
  contains (lit "select") (lower name) = false ->
  excludes_placeholders (dict_set d code (Str name)).
Proof.
  intros Hd Hcode Hname k v H. rewrite dict_get_set in H.
  destruct (eqb code k) eqn:Hk.
  - apply eqb_eq in Hk. subst k. injection H as <-. split.
    + intros ->. vm_compute in Hcode. discriminate.
    + exists name. split; [reflexivity|assumption].
  - apply (Hd k v H).
Qed.

(** After the last split allowed, the rest of the text is one piece. *)
Lemma split_go_done (sep : str) :
  forall s cur, split_go sep (Some 0%nat) 0 cur s = [rev cur ++ s].
Proof.
  induction s as [|c s IH]; intros cur; simpl.
  - rewrite app_nil_r. reflexivity.
  - rewrite IH. simpl. rewrite <- app_assoc. reflexivity.
Qed.

(** A text that holds the one-character separator splits in two. *)
Lemma split_max_two (c : N) :
  forall s cur,
    contains [c] s = true ->
    exists a b, split_go [c] (Some 1%nat) 0 cur s = [a; b].
Proof.
  induction s as [|x s IH]; intros cur H.
  - discriminate H.
  - cbn [split_go]. cbn [contains] in H.
    destruct (startswith [c] (x :: s)) eqn:Hs.
    + cbn [option_map Nat.pred length]. rewrite split_go_done.
      eexists _, _. reflexivity.
    + simpl in H. apply IH. exact H.
Qed.

Lemma bench_entry_keeps (d : dict) (entry : str) :
  excludes_placeholders d ->
  exists d', bench_entry d entry = Return d' /\ excludes_placeholders d'.
Proof.
  intros Hd. unfold bench_entry.
  destruct (contains (lit "~") (strip entry)) eqn:Hc; [|exists d; auto].
  destruct (split_max_two 126 (strip entry) [] Hc) as (a & b & Hsplit).
  unfold split_max. change (lit "~") with [126]. rewrite Hsplit.
  destruct (truthy (Str (strip_chars [BOM] (strip a)))); [|exists d; auto].
  cbn [andb].
  destruct (eqb (strip_chars [BOM] (strip a)) (lit "0")) eqn:H0; [exists d; auto|].
  cbn [negb andb].
  destruct (truthy (Str (strip_chars [BOM] (strip b)))); [|exists d; auto].
  cbn [andb].
  destruct (contains (lit "select") (lower (strip_chars [BOM] (strip b)))) eqn:Hsel;
    [exists d; auto|].
  eexists. split; [reflexivity|]. apply excludes_set; assumption.
Qed.

Lemma case_type_entry_keeps (d : dict) (entry : str) :
  excludes_placeholders d ->
  exists d', case_type_entry d entry = Return d' /\ excludes_placeholders d'.
Proof.
  intros Hd. unfold case_type_entry.
  destruct (contains (lit "~") (strip_chars [BOM] (strip entry))) eqn:Hc;
    [|exists d; auto].
  destruct (split_max_two 126 (strip_chars [BOM] (strip entry)) [] Hc)
    as (a & b & Hsplit).
  unfold split_max. change (lit "~") with [126]. rewrite Hsplit.
  destruct (truthy (Str (strip a))); [|exists d; auto].
  cbn [andb].
  destruct (eqb (strip a) (lit "0")) eqn:H0; [exists d; auto|].
  cbn [negb andb].
  destruct (truthy (Str (strip b))); [|exists d; auto].
  cbn [andb].
  destruct (contains (lit "select") (lower (strip b))) eqn:Hsel; [exists d; auto|].
  eexists. split; [reflexivity|]. apply excludes_set; assumption.
Qed.

Lemma for_each_keeps (body : dict -> str -> outcome dict) :
  (forall d entry, excludes_placeholders d ->
     exists d', body d entry = Return d' /\ excludes_placeholders d') ->
  forall entries d,
    excludes_placeholders d ->
    exists d', for_each body entries d = Return d' /\ excludes_placeholders d'.
Proof.
  intros Hbody. induction entries as [|entry entries IH]; intros d Hd.
  - exists d. split; [reflexivity|assumption].
  - destruct (Hbody d entry Hd) as (d1 & H1 & Hd1).
    destruct (IH d1 Hd1) as (d' & H' & Hd').
    exists d'. simpl. rewrite H1. simpl. auto.
Qed.

Lemma listing_result {A} (prelude : io A) (entries : A -> list str)
    (body : dict -> str -> outcome dict) (h h' : trace) (d : dict) :
  (forall d entry, excludes_placeholders d ->
     exists d', body d entry = Return d' /\ excludes_placeholders d') ->
  io_bind prelude (fun a => lift (for_each body (entries a) [])) h = (h', Return d) ->
  excludes_placeholders d.
Proof.
  intros Hbody Hrun. unfold io_bind, lift in Hrun.
  destruct (prelude h) as [h1 [a|e]]; [|discriminate].
  destruct (@for_each_keeps body Hbody (entries a) [] excludes_empty) as (d' & Hd' & Hex).
  rewrite Hd' in Hrun. injection Hrun as _ <-. exact Hex.
Qed.

(** C6.  Whatever the listing, the loops of [list_benches] and
    [list_case_types] over its entries end with a mapping that has no key
    0 and no value that mentions select in any case; so does every mapping
    the two operations return. *)
Theorem listings_exclude_placeholders :
  (forall text, exists d,
     for_each bench_entry (split (lit "#") text) [] = Return d
     /\ excludes_placeholders d)
  /\ (forall text, exists d,
        for_each case_type_entry (split (lit "#") text) [] = Return d
        /\ excludes_placeholders d)
  /\ (forall E cfg court h h' d,
        list_benches E cfg court h = (h', Return d) -> excludes_placeholders d)
  /\ (forall E cfg court bench_code h h' d,
        list_case_types E cfg court bench_code h = (h', Return d) ->
        excludes_placeholders d).
Proof.
  split; [|split; [|split]].
  - intros text. apply (@for_each_keeps bench_entry bench_entry_keeps). apply excludes_empty.
  - intros text. apply (@for_each_keeps case_type_entry case_type_entry_keeps). apply excludes_empty.
  - intros E cfg court h h' d Hrun. unfold list_benches in Hrun.
    unfold io_bind at 1 in Hrun.
    destruct (_init_session E cfg h) as [h1 [[]|e]]; [|discriminate].
    apply (@listing_result _ _ (fun resp => split (lit "#") (text resp))
             bench_entry h1 h' d bench_entry_keeps Hrun).
  - intros E cfg court bench_code h h' d Hrun. unfold list_case_types in Hrun.
    unfold io_bind at 1 in Hrun.
    destruct (_init_session E cfg h) as [h1 [[]|e]]; [|discriminate].
    apply (@listing_result _ _ (fun resp => split (lit "#") (text resp))
             case_type_entry h1 h' d case_type_entry_keeps Hrun).
Qed.

End Listings.

Section ListingScenario.
Import Py http listing scenario.

(** A listing with a placeholder, a byte-order mark and an entry that
    mentions select: two benches remain. *)
Lemma listings_exclude_placeholders_witness :
  snd (hcservices_client.list_benches listing_portal (fast_config 1) delhi [])
  = Return [(lit "1", Str (lit "Principal Bench at Delhi"));
            (lit "2", Str (lit "Lucknow Bench"))]
  /\ excludes_placeholders [(lit "1", Str (lit "Principal Bench at Delhi"));
                            (lit "2", Str (lit "Lucknow Bench"))].
Proof.
  split; [vm_compute; reflexivity|].
  apply (proj1 (proj2 (proj2 listings_exclude_placeholders))
           listing_portal (fast_config 1) delhi []
           (fst (hcservices_client.list_benches listing_portal (fast_config 1) delhi []))).
  vm_compute. reflexivity.
Defined.

End ListingScenario.

(** ** The parties of a case ([_extract_parties]) *)

Section Parties.
Import Py re run parties.
Local Open Scope N_scope.

Lemma chr_eq_v (x : N) : chr_eq true 118 x = is_v x.
Proof.
  unfold chr_eq, is_v. change (lower_char 118) with 118.
  change (mem x (folds 118)) with false. rewrite orb_false_r.
  unfold lower_char, isupper.
  destruct (N.leb_spec 65 x); destruct (N.leb_spec x 90); cbn [andb];
    decide_code_points.
Qed.

Lemma chr_eq_s (x : N) : chr_eq true 115 x = is_s x.
Proof.
  unfold chr_eq, is_s. change (lower_char 115) with 115.
  change (mem x (folds 115)) with ((x =? 0x17F) || false).
  rewrite orb_false_r.
  destruct (x =? 0x17F); [rewrite !orb_true_r; reflexivity|].
  rewrite !orb_false_r.
  unfold lower_char, isupper.
  destruct (N.leb_spec 65 x); destruct (N.leb_spec x 90); cbn [andb];
    decide_code_points.
Qed.

Lemma is_v_word (x : N) : is_v x = true -> isword x = true.
Proof.
  unfold is_v. intros H. apply orb_true_iff in H.
  destruct H as [H|H]; apply N.eqb_eq in H; subst x; vm_compute; reflexivity.
Qed.

Lemma is_s_word (x : N) : is_s x = true -> isword x = true.
Proof.
  unfold is_s. intros H. apply orb_true_iff in H. destruct H as [H|H].
  - apply orb_true_iff in H.
    destruct H as [H|H]; apply N.eqb_eq in H; subst x; vm_compute; reflexivity.
  - apply N.eqb_eq in H. subst x. vm_compute. reflexivity.
Qed.


Lemma firstn_consumed {A} (a b : list A) :
  firstn (length (a ++ b) - length b) (a ++ b) = a.
Proof.
  rewrite length_app. replace (length a + length b - length b)%nat with (length a) by lia.
  rewrite firstn_app, firstn_all, Nat.sub_diag. simpl. apply app_nil_r.
Qed.

(** The matcher on the pattern of the separator does what [vs_here] says. *)
Lemma match_here_VS (prev : option N) (pre s : str) :
  match_here true VS prev pre s
  = match vs_here prev s with
    | Some (sep, post) => Some (mkMatch pre sep post [])
    | None => None
    end.
Proof.
  unfold match_here, VS. cbn [run]. unfold vs_here.
  destruct s as [|x s1].
  - cbn [hd_error isword_at]. destruct (xorb _ _); reflexivity.
  - cbn [hd_error]. rewrite chr_eq_v.
    destruct (is_v x) eqn:Hv.
    2:{ destruct (xorb _ _); reflexivity. }
    cbn [isword_at andb]. rewrite (is_v_word _ Hv).
    rewrite xorb_true_r. destruct (negb (isword_at prev)); [|reflexivity].
    destruct s1 as [|y s2].
    + cbn [hd_error isword_at xorb].
      change [x] with ([x] ++ []) at 1 2. rewrite firstn_consumed. reflexivity.
    + rewrite chr_eq_s. cbn [hd_error isword_at].
      destruct (is_s y) eqn:Hs.
      * rewrite (is_s_word _ Hs).
        change (x :: y :: s2) with ([x; y] ++ s2) at 1 2.
        rewrite firstn_consumed.
        destruct (isword_at (hd_error s2)); reflexivity.
      * change (x :: y :: s2) with ([x] ++ y :: s2) at 1 2.
        rewrite firstn_consumed.
        destruct (isword y); reflexivity.
Qed.

(** A separator that stands as a word at the start of [s] is what the
    pattern matches there ... *)
Lemma vs_here_complete (prev : option N) (sep post : str) :
  vs_word sep ->
  isword_at prev = false ->
  isword_at (hd_error post) = false ->
  vs_here prev (sep ++ post) = Some (sep, post).
Proof.
  intros (v & Hv & [->|(s & Hs & ->)]) Hprev Hpost; cbn [app vs_here].
  - rewrite Hv, Hprev. cbn [negb andb].
    destruct post as [|y s2]; [reflexivity|].
    cbn [hd_error isword_at] in Hpost.
    destruct (is_s y) eqn:Hy.
    + rewrite (is_s_word _ Hy) in Hpost. discriminate.
    + rewrite Hpost. reflexivity.
  - rewrite Hv, Hprev, Hs, Hpost. reflexivity.
Qed.

(** ... and the pattern matches nothing else. *)
Lemma vs_here_sound (prev : option N) (s sep post : str) :
  vs_here prev s = Some (sep, post) ->
  s = sep ++ post /\ vs_word sep
  /\ isword_at prev = false /\ isword_at (hd_error post) = false.
Proof.
  unfold vs_here. destruct s as [|x s1]; [discriminate|].
  destruct (is_v x) eqn:Hv; [|discriminate].
  destruct (isword_at prev) eqn:Hprev; [discriminate|]. cbn [negb andb].
  destruct s1 as [|y s2].
  - intros H. injection H as <- <-. repeat split.
    exists x. split; [assumption|]. left. reflexivity.
  - destruct (is_s y) eqn:Hs.
    + destruct (isword_at (hd_error s2)) eqn:Hpost; [discriminate|].
      intros H. injection H as <- <-. repeat split; [|assumption].
      exists x. split; [assumption|]. right. exists y. split; [assumption|reflexivity].
    + destruct (isword y) eqn:Hy; [discriminate|].
      intros H. injection H as <- <-. repeat split; [|exact Hy].
      exists x. split; [assumption|]. left. reflexivity.
Qed.

Lemma last_of_rev (l : str) : last_of (rev l) = hd_error l.
Proof. unfold last_of. rewrite rev_involutive. reflexivity. Qed.

Lemma search_go_eq (ignorecase : bool) (r : regex) (prev : option N)
    (pre_rev s : str) :
  search_go ignorecase r prev pre_rev s
  = match match_here ignorecase r prev (rev pre_rev) s with
    | Some m => Some m
    | None =>
        match s with
        | [] => None
        | x :: s' => search_go ignorecase r (Some x) (x :: pre_rev) s'
        end
    end.
Proof. destruct s; reflexivity. Qed.

(** The search finds the leftmost separator ... *)
Lemma search_go_first :
  forall skipped s pre_rev sep post,
    s = skipped ++ sep ++ post ->
    vs_word sep ->
    standalone (rev pre_rev ++ skipped) sep post ->
    (forall skipped' sep' post',
       s = skipped' ++ sep' ++ post' -> vs_word sep' ->
       standalone (rev pre_rev ++ skipped') sep' post' ->
       (length skipped <= length skipped')%nat) ->
    search_go true VS (hd_error pre_rev) pre_rev s
    = Some (mkMatch (rev pre_rev ++ skipped) sep post []).
Proof.
  induction skipped as [|x skipped IH]; intros s pre_rev sep post Hs Hw Hst Hleft.
  - simpl in Hs. subst s. rewrite app_nil_r in *.
    destruct Hst as [Hprev Hpost]. rewrite last_of_rev in Hprev.
    rewrite search_go_eq, match_here_VS,
      (@vs_here_complete _ _ _ Hw Hprev Hpost). reflexivity.
  - simpl in Hs. subst s. cbn [search_go]. rewrite match_here_VS.
    destruct (vs_here (hd_error pre_rev) (x :: skipped ++ sep ++ post))
      as [[sep0 post0]|] eqn:Hhere.
    + exfalso. apply vs_here_sound in Hhere.
      destruct Hhere as (Hs0 & Hw0 & Hprev0 & Hpost0).
      assert (Hle : (length (x :: skipped) <= length (@nil N))%nat).
      { apply (Hleft [] sep0 post0); [exact Hs0|exact Hw0|].
        split; [rewrite app_nil_r, last_of_rev; exact Hprev0|exact Hpost0]. }
      simpl in Hle. lia.
    + replace (rev pre_rev ++ x :: skipped) with (rev (x :: pre_rev) ++ skipped)
        by (simpl; rewrite <- app_assoc; reflexivity).
      apply (IH (skipped ++ sep ++ post) (x :: pre_rev) sep post eq_refl Hw).
      * simpl. rewrite <- app_assoc. exact Hst.
      * intros skipped' sep' post' Hs' Hw' Hst'.
        assert (Hle : (length (x :: skipped) <= length (x :: skipped'))%nat).
        { apply (Hleft (x :: skipped') sep' post'); [|exact Hw'|].
          - simpl. rewrite Hs'. reflexivity.
          - simpl in Hst'. rewrite <- app_assoc in Hst'. exact Hst'. }
        simpl in Hle. lia.
Qed.

(** ... and finds none when there is none. *)
Lemma search_go_none :
  forall s pre_rev,
    (forall skipped sep post,
       s = skipped ++ sep ++ post -> vs_word sep ->
       ~ standalone (rev pre_rev ++ skipped) sep post) ->
    search_go true VS (hd_error pre_rev) pre_rev s = None.
Proof.
  induction s as [|x s IH]; intros pre_rev Hnone.
  - cbn [search_go]. rewrite match_here_VS. reflexivity.
  - cbn [search_go]. rewrite match_here_VS.
    destruct (vs_here (hd_error pre_rev) (x :: s)) as [[sep0 post0]|] eqn:Hhere.
    + exfalso. apply vs_here_sound in Hhere.
      destruct Hhere as (Hs0 & Hw0 & Hprev0 & Hpost0).
      apply (Hnone [] sep0 post0 Hs0 Hw0).
      split; [rewrite app_nil_r, last_of_rev; exact Hprev0|exact Hpost0].
    + apply (IH (x :: pre_rev)).
      intros skipped sep post Hs Hw Hst.
      apply (Hnone (x :: skipped) sep post); [simpl; rewrite Hs; reflexivity|exact Hw|].
      simpl in Hst. rewrite <- app_assoc in Hst. exact Hst.
Qed.

(** What the search finds is the leftmost separator. *)
Lemma search_go_sound :
  forall s pre_rev m,
    search_go true VS (hd_error pre_rev) pre_rev s = Some m ->
    exists skipped,
      m_pre m = rev pre_rev ++ skipped
      /\ s = skipped ++ m_text m ++ m_post m
      /\ vs_word (m_text m)
      /\ standalone (m_pre m) (m_text m) (m_post m)
      /\ forall skipped' sep' post',
           s = skipped' ++ sep' ++ post' -> vs_word sep' ->
           standalone (rev pre_rev ++ skipped') sep' post' ->
           (length skipped <= length skipped')%nat.
Proof.
  induction s as [|x s IH]; intros pre_rev m Hm;
    rewrite search_go_eq, match_here_VS in Hm.
  - discriminate Hm.
  - destruct (vs_here (hd_error pre_rev) (x :: s)) as [[sep0 post0]|] eqn:Hhere.
    + injection Hm as <-. apply vs_here_sound in Hhere.
      destruct Hhere as (Hs0 & Hw0 & Hprev0 & Hpost0).
      exists []. cbn [m_pre m_text m_post]. rewrite app_nil_r.
      repeat split; try assumption.
      * rewrite last_of_rev. exact Hprev0.
      * intros. apply Nat.le_0_l.
    + destruct (IH (x :: pre_rev) m Hm) as (skipped & Hpre & Hs & Hw & Hst & Hleft).
      exists (x :: skipped). repeat split; try assumption.
      * rewrite Hpre. simpl. rewrite <- app_assoc. reflexivity.
      * simpl. rewrite <- Hs. reflexivity.
      * apply Hst.
      * apply Hst.
      * intros skipped' sep' post' Hs' Hw' Hst'.
        destruct skipped' as [|x' skipped'].
        -- exfalso. simpl in Hs'. destruct Hst' as [Hprev' Hpost'].
           rewrite app_nil_r, last_of_rev in Hprev'.
           rewrite Hs', (@vs_here_complete _ _ _ Hw' Hprev' Hpost') in Hhere.
           discriminate.
        -- simpl in Hs'. injection Hs' as <- Hs'. simpl. apply le_n_S.
           apply (Hleft skipped' sep' post' Hs' Hw').
           simpl. rewrite <- app_assoc. exact Hst'.
Qed.

Lemma split1_sound (text pre post : str) :
  split1 true VS text = [pre; post] ->
  exists sep, first_split text pre sep post.
Proof.
  unfold split1, search. intros H.
  destruct (search_go true VS None [] text) as [m|] eqn:Hm; [|discriminate].
  injection H as <- <-.
  destruct (@search_go_sound text [] m Hm) as (skipped & Hpre & Hs & Hw & Hst & Hleft).
  cbn [rev app] in Hpre. exists (m_text m). split.
  - split; [rewrite Hpre; exact Hs|]. split; assumption.
  - intros pre' sep' post' (Ht' & Hw' & Hst'). rewrite Hpre.
    apply (Hleft pre' sep' post' Ht' Hw' Hst').
Qed.

Lemma split1_first (text pre sep post : str) :
  first_split text pre sep post -> split1 true VS text = [pre; post].
Proof.
  intros [(Ht & Hw & Hst) Hleft]. unfold split1, search.
  pose proof (@search_go_first pre text [] sep post Ht Hw Hst) as H.
  cbn [hd_error rev app] in H. rewrite H.
  - reflexivity.
  - intros pre' sep' post' Ht' Hw' Hst'.
    apply (Hleft pre' sep' post'). split; [|split]; assumption.
Qed.

Lemma split1_none (text : str) :
  (forall pre sep post, ~ splits_at text pre sep post) ->
  split1 true VS text = [text].
Proof.
  intros Hnone. unfold split1, search.
  pose proof (@search_go_none text []) as H.
  cbn [hd_error rev app] in H. rewrite H; [reflexivity|].
  intros pre sep post Ht Hw Hst. apply (Hnone pre sep post).
  split; [|split]; assumption.
Qed.

(** C8, as the code has it.  When the cell has at least two emphasised
    spans, the parties are the cleaned texts of the first two.  Otherwise
    the cleaned text of the cell is split at its leftmost separator, the
    word v or the word vs in any case (the long s counts as an s),
    standing between word boundaries, that is with no letter or number of
    Unicode and no underscore next to it: the petitioner is the text
    before it and the respondent the text after it, both stripped; a text
    without such a word is the petitioner, and the respondent is empty. *)
Theorem extract_parties_splits_on_v_or_vs (cell : bs4.Node) :
  (forall s0 s1 rest,
     bs4.find_all (lit "strong") bs4.any cell = s0 :: s1 :: rest ->
     hcservices_parser._extract_parties cell = (cell_text s0, cell_text s1))
  /\ ((length (bs4.find_all (lit "strong") bs4.any cell) < 2)%nat ->
      (forall pre sep post,
         first_split (cell_text cell) pre sep post ->
         hcservices_parser._extract_parties cell = (strip pre, strip post))
      /\ ((forall pre sep post, ~ splits_at (cell_text cell) pre sep post) ->
          hcservices_parser._extract_parties cell = (cell_text cell, []))).
Proof.
  unfold hcservices_parser._extract_parties. split.
  - intros s0 s1 rest ->.
    assert (Hmany : (hcservices_parser.len (s0 :: s1 :: rest) >=? 2)%Z = true).
    { unfold hcservices_parser.len. rewrite Z.geb_leb. apply Z.leb_le.
      cbn [length]. lia. }
    rewrite Hmany. reflexivity.
  - intros Hlen.
    assert (Hfew : (hcservices_parser.len (bs4.find_all (lit "strong") bs4.any cell)
                    >=? 2)%Z = false).
    { unfold hcservices_parser.len. rewrite Z.geb_leb. apply Z.leb_gt. lia. }
    rewrite Hfew. fold (cell_text cell). split.
    + intros pre sep post Hfirst. rewrite (split1_first Hfirst). reflexivity.
    + intros Hnone. rewrite (split1_none Hnone). reflexivity.
Qed.

End Parties.

Section PartyCells.
Import Py re run parties scenario.
Local Open Scope N_scope.

(** C8, as the specification states it, fails on a cell that holds the word v:
    the text has no vs in it, in any case, yet it is split, and the
    respondent is not empty. *)
Lemma a_lone_v_splits_the_parties :
  bs4.find_all (lit "strong") bs4.any cell_v = []
  /\ contains (lit "vs") (lower (cell_text cell_v)) = false
  /\ hcservices_parser._extract_parties cell_v = (lit "Ram", lit "Shyam")
  /\ (lit "Ram", lit "Shyam") <> (cell_text cell_v, []).
Proof.
  split; [reflexivity|]. split; [vm_compute; reflexivity|].
  split; [vm_compute; reflexivity|].
  intros H. vm_compute in H. discriminate H.
Qed.

Lemma extract_parties_splits_on_v_or_vs_witness :
  hcservices_parser._extract_parties cell_vs
  = (lit "ABC Industries Ltd", lit "Union of India").
Proof.
  destruct (@split1_sound (cell_text cell_vs) (lit "ABC Industries Ltd ")
              (lit " Union of India") ltac:(vm_compute; reflexivity))
    as (sep & Hfirst).
  rewrite (proj1 (proj2 (extract_parties_splits_on_v_or_vs cell_vs)
                    ltac:(simpl; lia)) _ _ _ Hfirst).
  vm_compute. reflexivity.
Defined.

(** A full stop after the separator is not part of it. *)
Example a_full_stop_stays_with_the_respondent :
  hcservices_parser._extract_parties cell_vs_dot
  = (lit "State of Delhi", lit ". XYZ Enterprises").
Proof. vm_compute. reflexivity. Qed.

(** A v inside a word is no separator, whatever the letters around it. *)
Example a_v_between_accents_does_not_split :
  hcservices_parser._extract_parties cell_accents = (cell_text cell_accents, []).
Proof. vm_compute. reflexivity. Qed.

(** IGNORECASE takes the long s for an s. *)
Example a_long_s_ends_the_separator :
  hcservices_parser._extract_parties cell_long_s = (lit "A", lit "B").
Proof. vm_compute. reflexivity. Qed.

End PartyCells.
(** ** Pagination ([SearchResult.total_pages]) *)

Section TotalPages.
Import models.
Local Open Scope Z_scope.

Lemma ceil_div_equation (a b : Z) :
  0 < b -> (a + b - 1) / b = - ((- a) / b).
Proof.
  intros Hb.
  assert (H : - ((a + b - 1) / b) = (- a) / b).
  { apply Z.div_unique_pos with (r := b - 1 - (a + b - 1) mod b).
    - pose proof (Z.mod_pos_bound (a + b - 1) b Hb). lia.
    - pose proof (Z.div_mod (a + b - 1) b). lia. }
  lia.
Qed.

Lemma Qceiling_quotient (a b : Z) :
  0 < b -> Qceiling (inject_Z a / inject_Z b) = - ((- a) / b).
Proof.
  intros Hb. destruct b as [|p|p]; try lia.
  unfold Qceiling, Qfloor, Qdiv, Qinv, Qmult, Qopp, inject_Z. simpl.
  rewrite Z.mul_1_r. reflexivity.
Qed.

(** C4.  For a [SearchResult] with a non-negative [total_count],
    [total_pages] is the ceiling of the rational [total_count / page_size]
    when [page_size] is positive, and 0 when [page_size] is 0. *)
Theorem total_pages_is_ceiling (r : SearchResult.t) :
  0 <= SearchResult.total_count r ->
  (0 < SearchResult.page_size r ->
   SearchResult.total_pages r =
   Qceiling (inject_Z (SearchResult.total_count r)
             / inject_Z (SearchResult.page_size r)))
  /\ (SearchResult.page_size r = 0 -> SearchResult.total_pages r = 0).
Proof.
  intros _. unfold SearchResult.total_pages. split.
  - intros Hp. rewrite Qceiling_quotient by assumption.
    destruct (Z.eqb_spec (SearchResult.page_size r) 0); [lia|].
    apply ceil_div_equation; assumption.
  - intros ->. reflexivity.
Qed.

(** 45 results in pages of 10 make 5 pages; a page size of 0 makes none. *)
Lemma total_pages_is_ceiling_witness :
  SearchResult.total_pages (SearchResult.mk [] 45 1 10 false) = 5
  /\ SearchResult.total_pages (SearchResult.mk [] 10 1 0 false) = 0.
Proof.
  split.
  - rewrite (proj1 (total_pages_is_ceiling (SearchResult.mk [] 45 1 10 false)
                      ltac:(simpl; lia)) ltac:(simpl; lia)).
    reflexivity.
  - apply (proj2 (total_pages_is_ceiling (SearchResult.mk [] 10 1 0 false)
                    ltac:(simpl; lia))).
    reflexivity.
Defined.

End TotalPages.

(* ================================================================== *)
(** * Further properties *)
(* ================================================================== *)

(** ** The registry of courts ([courts.py]) *)

Section Mappings.
Import Py.
Variable V : Type.

Lemma mapping_get_set (d : mapping.t V) (k k' : str) (v : V) :
  mapping.get (mapping.set d k v) k'
  = if eqb k k' then Some v else mapping.get d k'.
Proof.
  induction d as [|[k0 v0] d IH]; simpl.
  - reflexivity.
  - destruct (eqb k0 k) eqn:H0.
    + apply eqb_eq in H0. subst k0. simpl.
      destruct (eqb k k'); reflexivity.
    + simpl. destruct (eqb k0 k') eqn:H1.
      * apply eqb_eq in H1. subst k0.
        destruct (eqb k k') eqn:H2; [|reflexivity].
        apply eqb_eq in H2. subst k'.
        rewrite (proj2 (eqb_eq k k) eq_refl) in H0. discriminate.
      * exact IH.
Qed.

(** A new key goes to the end. *)
Lemma mapping_set_new (d : mapping.t V) (k : str) (v : V) :
  ~ In k (map fst d) -> mapping.set d k v = d ++ [(k, v)].
Proof.
  induction d as [|[k0 v0] d IH]; simpl; intros Hk.
  - reflexivity.
  - destruct (eqb k0 k) eqn:H0.
    + apply eqb_eq in H0. exfalso. apply Hk. left. assumption.
    + rewrite IH; [reflexivity|]. intros H. apply Hk. right. assumption.
Qed.

Lemma comprehension_snoc {A} (key : A -> str) (value : A -> V) (xs : list A) (x : A) :
  mapping.comprehension key value (xs ++ [x])
  = mapping.set (mapping.comprehension key value xs) (key x) (value x).
Proof. unfold mapping.comprehension. rewrite fold_left_app. reflexivity. Qed.

(** When the keys of the elements differ, the comprehension maps the key
    of each element to its value, and holds nothing else. *)
Lemma comprehension_get {A} (key : A -> str) (value : A -> V) (xs : list A) :
  NoDup (map key xs) ->
  forall k v,
    mapping.get (mapping.comprehension key value xs) k = Some v
    <-> exists x, In x xs /\ key x = k /\ value x = v.
Proof.
  induction xs as [|x xs IH] using rev_ind; intros Hnd k v.
  - split; [discriminate|]. intros (x & [] & _).
  - rewrite map_app in Hnd. cbn [map] in Hnd.
    assert (Hnd' : NoDup (map key xs)) by (apply NoDup_remove_1 in Hnd;
                                           rewrite app_nil_r in Hnd; exact Hnd).
    assert (Hnew : ~ In (key x) (map key xs)) by (apply NoDup_remove_2 in Hnd;
                                                  rewrite app_nil_r in Hnd; exact Hnd).
    rewrite comprehension_snoc, mapping_get_set.
    destruct (eqb (key x) k) eqn:Hk.
    + apply eqb_eq in Hk. split.
      * intros H. injection H as <-. exists x. split; [|auto].
        apply in_or_app. right. left. reflexivity.
      * intros (x' & Hin & Hkey & Hval). apply in_app_or in Hin.
        destruct Hin as [Hin|[<-|[]]]; [|congruence].
        exfalso. apply Hnew. rewrite Hk, <- Hkey. apply in_map. exact Hin.
    + rewrite (IH Hnd' k v). split.
      * intros (x' & Hin & Hrest). exists x'. split; [|exact Hrest].
        apply in_or_app. left. exact Hin.
      * intros (x' & Hin & Hkey & Hval). apply in_app_or in Hin.
        destruct Hin as [Hin|[<-|[]]].
        -- exists x'. auto.
        -- rewrite (proj2 (eqb_eq _ _) Hkey) in Hk. discriminate.
Qed.

End Mappings.

Section Registry.
Import Py models courts shape.

Lemma distinct_NoDup (l : list str) : distinct l = true -> NoDup l.
Proof.
  induction l as [|x l IH]; simpl; intros H.
  - constructor.
  - apply andb_prop in H. destruct H as [Hx Hl]. constructor; [|auto].
    intros Hin. apply negb_true_iff in Hx.
    assert (existsb (eqb x) l = true); [|congruence].
    apply existsb_exists. exists x. split; [exact Hin|].
    apply eqb_eq. reflexivity.
Qed.

(** The registry, looked up by code.  [get_court] finds a court exactly
    when the code given, in lower case, is the code of a court of the
    registry, and then it is that court: every court is found under its
    code however the code is capitalised, no court hides another, and an
    unknown code gives [None]. *)
Theorem get_court_finds_the_court_of_the_code (code : str) (c : Court.t) :
  get_court code = Some c
  <-> In c ALL_COURTS /\ Court.code c = lower code.
Proof.
  unfold get_court, _BY_CODE. rewrite comprehension_get.
  - split.
    + intros (x & Hin & Hk & <-). auto.
    + intros [Hin Hk]. exists c. auto.
  - apply distinct_NoDup. vm_compute. reflexivity.
Qed.

(** The registry, looked up by name.  [get_court_by_name] finds a court
    exactly when the name given and the name of a court of the registry
    are the same in lower case, and then it is that court. *)
Theorem get_court_by_name_finds_the_court_of_the_name (name : str) (c : Court.t) :
  get_court_by_name name = Some c
  <-> In c ALL_COURTS /\ lower (Court.name c) = lower name.
Proof.
  unfold get_court_by_name, _BY_NAME. rewrite comprehension_get.
  - split.
    + intros (x & Hin & Hk & <-). auto.
    + intros [Hin Hk]. exists c. auto.
  - apply distinct_NoDup. vm_compute. reflexivity.
Qed.

End Registry.

(** ** The methods of the records ([models.py]) *)

Section Slug.
Import Py models serializable.
Local Open Scope N_scope.

Lemma replace_space_by_hyphen (s : str) :
  replace (lit " ") (lit "-") s = map (fun c => if 32 =? c then 45 else c) s.
Proof.
  unfold replace. change (lit " ") with [32]. change (lit "-") with [45].
  induction s as [|c s IH]; [reflexivity|].
  cbn [replace_go startswith length Nat.pred map]. rewrite andb_true_r.
  destruct (32 =? c); rewrite IH; reflexivity.
Qed.

Lemma lower_char_not_upper (z : N) : isupper (lower_char z) = false.
Proof.
  unfold lower_char, isupper.
  destruct (N.leb_spec 65 z); destruct (N.leb_spec z 90); cbn [andb];
  repeat match goal with
         | |- context [N.leb ?a ?b] => destruct (N.leb_spec a b)
         end; cbn [andb]; try reflexivity; lia.
Qed.

(** [Court.slug] has no space and no capital of A..Z in it, whatever the
    code: [lower] leaves no such capital, and every space becomes a
    hyphen.  For a code of ASCII characters the slug has the length of
    the code (elsewhere [lower] may give two characters for one, as for
    U+0130).  The slug of a court of the registry is its code. *)
Theorem slug_has_no_space_and_no_capital (c : Court.t) :
  (forall x, In x (slug c) -> x <> 32 /\ isupper x = false)
  /\ (pattern.ascii_text (Court.code c) -> length (slug c) = length (Court.code c))
  /\ (In c courts.ALL_COURTS -> slug c = Court.code c).
Proof.
  unfold slug. rewrite replace_space_by_hyphen. split; [|split].
  - intros x Hx. apply in_map_iff in Hx. destruct Hx as (y & <- & Hy).
    unfold lower in Hy. apply in_map_iff in Hy. destruct Hy as (z & <- & _).
    split.
    + destruct (N.eqb_spec 32 (lower_char z)); [discriminate|congruence].
    + destruct (32 =? lower_char z); [reflexivity|apply lower_char_not_upper].
  - intros _. unfold lower. rewrite !length_map. reflexivity.
  - intros Hin. repeat (destruct Hin as [<-|Hin]; [vm_compute; reflexivity|]).
    destruct Hin.
Qed.

End Slug.

Section Serialisation.
Import Py models serializable shape.

Lemma value_induction (P : value -> Prop) :
  P VNone -> (forall b, P (VBool b)) -> (forall z, P (VInt z)) ->
  (forall x, P (VFloat x)) -> P VNaN -> (forall n, P (VInf n)) ->
  (forall s, P (VStr s)) -> (forall d, P (VDate d)) -> (forall e, P (VEnum e)) ->
  (forall b, P (VBytes b)) ->
  (forall items, Forall P items -> P (VList items)) ->
  (forall members, Forall (fun kv => P (snd kv)) members -> P (VDict members)) ->
  forall v, P v.
Proof.
  intros HNone HBool HInt HFloat HNaN HInf HStr HDate HEnum HBytes HList HDict.
  fix IH 1. intros [|b|z|x| |n|s|d|e|b|items|members].
  - exact HNone.
  - apply HBool.
  - apply HInt.
  - apply HFloat.
  - exact HNaN.
  - apply HInf.
  - apply HStr.
  - apply HDate.
  - apply HEnum.
  - apply HBytes.
  - apply HList. induction items as [|v items IHitems]; constructor.
    + apply IH.
    + exact IHitems.
  - apply HDict. induction members as [|[k v] members IHmembers]; constructor.
    + apply IH.
    + exact IHmembers.
Qed.

(** What [_serialize_value] returns is safe for [json.dumps]: no [date],
    no member of an [Enum] and no [bytes] is left in it, at any depth of
    the lists and dicts; and serialising it again changes nothing. *)
Theorem serialize_value_is_json_safe (v : value) :
  json_safe (_serialize_value v) = true
  /\ _serialize_value (_serialize_value v) = _serialize_value v.
Proof.
  induction v using value_induction; try (split; reflexivity).
  - cbn [_serialize_value json_safe]. split.
    + apply forallb_forall. intros x Hx. apply in_map_iff in Hx.
      destruct Hx as (y & <- & Hy).
      rewrite Forall_forall in H. apply (H y Hy).
    + f_equal. rewrite map_map. apply map_ext_in. intros y Hy.
      rewrite Forall_forall in H. apply (H y Hy).
  - cbn [_serialize_value json_safe]. split.
    + apply forallb_forall. intros x Hx. apply in_map_iff in Hx.
      destruct Hx as (y & <- & Hy).
      rewrite Forall_forall in H. apply (H y Hy).
    + f_equal. rewrite map_map. apply map_ext_in. intros y Hy.
      rewrite Forall_forall in H. cbn [fst snd]. f_equal. apply (H y Hy).
Qed.

(** [to_dict] on fields whose names differ. *)
Lemma to_dict_from (exclude_none : bool) :
  forall fields result,
    NoDup (map fst result ++ map fst fields) ->
    fold_left
      (fun result f =>
         let serialized := _serialize_value (snd f) in
         if exclude_none && is_None serialized then result
         else mapping.set result (fst f) serialized)
      fields result
    = result ++ (if exclude_none then filter not_None (map serialized fields)
                 else map serialized fields).
Proof.
  induction fields as [|[name v] fields IH]; intros result Hnd.
  - destruct exclude_none; simpl; rewrite app_nil_r; reflexivity.
  - cbn [fold_left fst snd map] in *.
    assert (Hnew : ~ In name (map fst result)).
    { apply NoDup_remove_2 in Hnd. intros H. apply Hnd. apply in_or_app. left. exact H. }
    destruct exclude_none; cbn [andb].
    + unfold serialized at 1, not_None at 1. cbn [filter fst snd].
      destruct (is_None (_serialize_value v)) eqn:Hn; cbn [negb].
      * apply IH. apply NoDup_remove_1 in Hnd. exact Hnd.
      * rewrite mapping_set_new by exact Hnew. rewrite IH.
        -- rewrite <- app_assoc. reflexivity.
        -- rewrite map_app. cbn [map fst]. rewrite <- app_assoc. exact Hnd.
    + rewrite mapping_set_new by exact Hnew. rewrite IH.
      * rewrite <- app_assoc. reflexivity.
      * rewrite map_app. cbn [map fst]. rewrite <- app_assoc. exact Hnd.
Qed.

Lemma to_dict_written_in_full (fields : list (str * value)) :
  distinct (map fst fields) = true -> written_in_full fields.
Proof.
  intros Hd. apply distinct_NoDup in Hd.
  split; unfold to_dict; rewrite to_dict_from by exact Hd; reflexivity.
Qed.

(** [to_dict] of each record of [models.py].  Without [exclude_none] the
    dict has every field of the record, in the order of the declaration,
    with its serialised value; with [exclude_none] it is the same dict
    without the fields whose serialised value is [None], and nothing else
    is left out. *)
Theorem to_dict_leaves_out_only_none :
  (forall c, written_in_full (Court_fields c))
  /\ (forall c, written_in_full (CaseInfo_fields c))
  /\ (forall o, written_in_full (CaseOrder_fields o))
  /\ (forall j, written_in_full (JudgmentResult_fields j))
  /\ (forall e, written_in_full (CauseListEntry_fields e))
  /\ (forall p, written_in_full (CauseListPDF_fields p)).
Proof.
  repeat split; intros; apply to_dict_written_in_full; reflexivity.
Qed.

Lemma mapping_get_absent {V} (d : mapping.t V) (k : str) :
  ~ In k (map fst d) -> mapping.get d k = None.
Proof.
  induction d as [|[k0 v0] d IH]; simpl; intros Hk; [reflexivity|].
  destruct (eqb k0 k) eqn:H0.
  - apply eqb_eq in H0. exfalso. apply Hk. left. exact H0.
  - apply IH. intros H. apply Hk. right. exact H.
Qed.

(** Without the fields that are [None], a key gives what it gave, unless
    it gave [None]. *)
Lemma mapping_get_filter (d : mapping.t value) (k : str) :
  NoDup (map fst d) ->
  mapping.get (filter not_None d) k
  = match mapping.get d k with
    | Some v => if is_None v then None else Some v
    | None => None
    end.
Proof.
  induction d as [|[k0 v0] d IH]; intros Hnd; [reflexivity|].
  cbn [map fst] in Hnd. inversion Hnd as [|? ? Hnew Hnd']; subst.
  cbn [filter mapping.get]. unfold not_None at 1. cbn [snd].
  destruct (eqb k0 k) eqn:H0.
  - apply eqb_eq in H0. subst k0.
    destruct (is_None v0); cbn [negb].
    + rewrite (IH Hnd'), (mapping_get_absent d k Hnew). reflexivity.
    + cbn [mapping.get]. rewrite (proj2 (eqb_eq k k) eq_refl). reflexivity.
  - destruct (is_None v0); cbn [negb].
    + apply (IH Hnd').
    + cbn [mapping.get]. rewrite H0. apply (IH Hnd').
Qed.

Lemma serialized_bytes (o : option str) : _serialize_value (opt_bytes o) = VNone.
Proof. destruct o; reflexivity. Qed.

Lemma to_dict_either (exclude_none : bool) (fields : list (str * value)) :
  written_in_full fields ->
  to_dict exclude_none fields
  = if exclude_none then filter not_None (map serialized fields)
    else map serialized fields.
Proof. intros [H0 H1]. destruct exclude_none; assumption. Qed.

(** The bytes of a document are never written: whatever [pdf_bytes]
    holds, [to_dict] gives [None] for it (and leaves the key out with
    [exclude_none]); and after [download_pdf] has fetched the document of
    a judgment, [to_dict] of the judgment is what it was before. *)
Theorem downloaded_bytes_are_not_serialised (E : http.env)
    (cfg : config.BharatCourtsConfig) (j j' : JudgmentResult.t)
    (h h' : http.trace) (exclude_none : bool) :
  downloads.download_pdf E cfg j h = (h', Return j') ->
  to_dict exclude_none (JudgmentResult_fields j')
  = to_dict exclude_none (JudgmentResult_fields j)
  /\ mapping.get (to_dict false (JudgmentResult_fields j')) (lit "pdf_bytes")
     = Some VNone
  /\ mapping.get (to_dict true (JudgmentResult_fields j')) (lit "pdf_bytes") = None.
Proof.
  intros Hrun.
  assert (Hj : exists b, j' = set_pdf_bytes j b).
  { unfold downloads.download_pdf in Hrun.
    destruct (JudgmentResult.pdf_url j) eqn:Hurl.
    - injection Hrun as _ <-. exists (JudgmentResult.pdf_bytes j).
      destruct j; reflexivity.
    - unfold http.io_bind in Hrun.
      destruct (http.get_bytes E cfg (n :: s) http.no_kwargs h) as [h1 [b|e]];
        [|discriminate].
      injection Hrun as _ <-. exists (Some b). reflexivity. }
  destruct Hj as (b & ->).
  assert (Hsame : map serialized (JudgmentResult_fields (set_pdf_bytes j b))
                  = map serialized (JudgmentResult_fields j)).
  { unfold JudgmentResult_fields, set_pdf_bytes. cbn [map]. unfold serialized.
    cbn [fst snd JudgmentResult.pdf_bytes JudgmentResult.title
         JudgmentResult.court_name JudgmentResult.case_number
         JudgmentResult.judgment_date JudgmentResult.judges JudgmentResult.pdf_url
         JudgmentResult.citation JudgmentResult.bench_type
         JudgmentResult.source_url JudgmentResult.source_id
         JudgmentResult.metadata].
    rewrite !serialized_bytes. reflexivity. }
  assert (Hfull : forall x, written_in_full (JudgmentResult_fields x))
    by (intros; apply to_dict_written_in_full; reflexivity).
  split; [|split].
  - rewrite !to_dict_either by apply Hfull. rewrite Hsame. reflexivity.
  - rewrite (proj1 (Hfull _)). unfold JudgmentResult_fields, serialized.
    cbn [map fst snd]. rewrite serialized_bytes.
    vm_compute. reflexivity.
  - rewrite (proj2 (Hfull _)), mapping_get_filter.
    + unfold JudgmentResult_fields, serialized.
      cbn [map fst snd]. rewrite serialized_bytes.
      vm_compute. reflexivity.
    + apply distinct_NoDup. reflexivity.
Qed.

End Serialisation.

Section SerialisationScenario.
Import Py models serializable scenario cases.

(** A judgment whose document is fetched from a server that answers 200. *)
Lemma downloaded_bytes_are_not_serialised_witness :
  to_dict false (JudgmentResult_fields (set_pdf_bytes a_judgment (Some (lit "%PDF-1.4"))))
  = to_dict false (JudgmentResult_fields a_judgment)
  /\ mapping.get
       (to_dict false
          (JudgmentResult_fields (set_pdf_bytes a_judgment (Some (lit "%PDF-1.4")))))
       (lit "pdf_bytes")
     = Some VNone
  /\ mapping.get
       (to_dict true
          (JudgmentResult_fields (set_pdf_bytes a_judgment (Some (lit "%PDF-1.4")))))
       (lit "pdf_bytes")
     = None.
Proof.
  apply (@downloaded_bytes_are_not_serialised document_server (fast_config 1)
           a_judgment (set_pdf_bytes a_judgment (Some (lit "%PDF-1.4")))
           [] (fst (downloads.download_pdf document_server (fast_config 1)
                      a_judgment [])) false).
  vm_compute. reflexivity.
Defined.

End SerialisationScenario.

(** ** The transport: bounds and endings ([RateLimitedClient._request]) *)

Section TransportBounds.
Import Py http run transport.
Local Open Scope Z_scope.

Variable E : env.
Variable cfg : config.BharatCourtsConfig.
Variables (method : Method) (url : str) (kw : kwargs).

Local Abbreviation max_retries := (config.max_retries cfg).
Local Abbreviation attempt_event h := (Requested method url kw (send E h method url kw)).
Local Abbreviation delay := (Slept (Float (config.request_delay cfg))).

Lemma request_loop_bounded todo :
  forall attempt last_error h,
  exists evs r,
    _request_loop E cfg todo attempt last_error method url kw h = (h ++ evs, r)
    /\ (length (answers evs) <= todo)%nat
    /\ Forall (of_request method url kw) evs.
Proof.
  induction todo as [|todo IH]; intros attempt last_error h.
  - simpl. unfold raise. eexists [], _. rewrite app_nil_r.
    split; [reflexivity|]. split; [simpl; lia|constructor].
  - assert (Hone : Forall (of_request method url kw) [attempt_event h]).
    { constructor; [|constructor]. simpl. auto. }
    destruct (failure (send E h method url kw)) as [e|] eqn:Hf.
    + destruct (caught e) eqn:Hc.
      * rewrite (request_loop_caught _ _ _ _ _ _ _ _ _ Hf Hc).
        destruct (attempt =? max_retries - 1).
        -- eexists _, _. split; [reflexivity|]. split; [simpl; lia|exact Hone].
        -- destruct (IH (attempt + 1) (Some e)
                       (h ++ [attempt_event h; Slept (Int ((attempt + 1) * 2))]))
             as (evs & r & Hrun & Hlen & Hall).
           rewrite Hrun. eexists _, _. rewrite <- app_assoc.
           split; [reflexivity|]. split.
           ++ simpl. lia.
           ++ simpl. constructor; [simpl; auto|]. constructor; [exact I|exact Hall].
      * rewrite (request_loop_uncaught _ _ _ _ _ _ _ _ _ Hf Hc).
        eexists _, _. split; [reflexivity|]. split; [simpl; lia|exact Hone].
    + unfold failure, bind in Hf.
      destruct (send E h method url kw) as [r|e] eqn:Ha; [|discriminate].
      unfold raise_for_status in Hf.
      destruct (is_success r) eqn:Hs; [|discriminate].
      rewrite (request_loop_success _ _ _ _ _ _ _ _ _ Ha Hs). rewrite Ha.
      eexists _, _. split; [reflexivity|]. split; [simpl; lia|].
      constructor; [simpl; auto|constructor].
Qed.

(** Whatever the world answers, a call of [_request] (so of [get] and of
    [post]) first sleeps [request_delay]; after that it only sleeps and
    sends the request it was called with, and it sends it [max_retries]
    times at most. *)
Theorem request_sleeps_first_and_sends_at_most_max_retries (h : trace) :
  exists evs r,
    _request E cfg method url kw h = (h ++ delay :: evs, r)
    /\ (length (answers evs) <= Z.to_nat max_retries)%nat
    /\ Forall (of_request method url kw) evs.
Proof.
  unfold _request, io_bind, sleep.
  destruct (request_loop_bounded (Z.to_nat max_retries) 0 None (h ++ [delay]))
    as (evs & r & Hrun & Hlen & Hall).
  exists evs, r. rewrite Hrun, <- app_assoc. auto.
Qed.

Lemma request_loop_returns todo :
  forall attempt last_error h h' r,
    _request_loop E cfg todo attempt last_error method url kw h = (h', Return r) ->
    is_success r = true
    /\ exists pre, h' = pre ++ [Requested method url kw (Return r)].
Proof.
  induction todo as [|todo IH]; intros attempt last_error h h' r Hrun.
  - discriminate Hrun.
  - destruct (failure (send E h method url kw)) as [e|] eqn:Hf.
    + destruct (caught e) eqn:Hc.
      * rewrite (request_loop_caught _ _ _ _ _ _ _ _ _ Hf Hc) in Hrun.
        destruct (attempt =? max_retries - 1); [discriminate|].
        apply (IH _ _ _ _ _ Hrun).
      * rewrite (request_loop_uncaught _ _ _ _ _ _ _ _ _ Hf Hc) in Hrun. discriminate.
    + unfold failure, bind in Hf.
      destruct (send E h method url kw) as [r0|e] eqn:Ha; [|discriminate].
      unfold raise_for_status in Hf.
      destruct (is_success r0) eqn:Hs; [|discriminate].
      rewrite (request_loop_success _ _ _ _ _ _ _ _ _ Ha Hs) in Hrun.
      injection Hrun as <- <-. split; [exact Hs|]. exists h. rewrite Ha. reflexivity.
Qed.

(** A response that [_request] returns has a status from 200 to 299, and
    it is the answer to the last request sent: a response with another
    status is never returned, and nothing happens after the attempt that
    succeeded. *)
Theorem request_returns_only_a_success (h h' : trace) (r : Response) :
  _request E cfg method url kw h = (h', Return r) ->
  is_success r = true
  /\ exists pre, h' = pre ++ [Requested method url kw (Return r)].
Proof.
  unfold _request, io_bind, sleep. apply request_loop_returns.
Qed.

Lemma request_loop_fatal todo :
  forall attempt last_error h evs r,
    _request_loop E cfg todo attempt last_error method url kw h = (h ++ evs, r) ->
    forall pre m u k a post e,
      evs = pre ++ Requested m u k a :: post ->
      failure a = Some e -> caught e = false ->
      post = [] /\ r = Raise e.
Proof.
  induction todo as [|todo IH]; intros attempt last_error h evs r Hrun
    pre m u k a post e Hevs Ha Hne.
  - simpl in Hrun. unfold raise in Hrun. injection Hrun as Hh _.
    rewrite <- (app_nil_r h) in Hh at 1. apply app_inv_head in Hh. rewrite Hevs in Hh.
    destruct pre; discriminate.
  - destruct (failure (send E h method url kw)) as [e0|] eqn:Hf.
    + destruct (caught e0) eqn:Hc.
      * rewrite (request_loop_caught _ _ _ _ _ _ _ _ _ Hf Hc) in Hrun.
        destruct (Z.eqb_spec attempt (max_retries - 1)) as [Heq|Hneq].
        -- injection Hrun as Hh _. apply app_inv_head in Hh. rewrite Hevs in Hh.
           destruct pre as [|ev pre]; [|destruct pre; discriminate].
           injection Hh as _ _ _ Hans. subst a. congruence.
        -- destruct (request_loop_extends E cfg method url kw todo (attempt + 1)
                       (Some e0)
                       (h ++ [attempt_event h; Slept (Int ((attempt + 1) * 2))]))
             as (evs1 & r1 & Hrun1).
           pose proof Hrun as Hrun'. rewrite Hrun1 in Hrun'.
           injection Hrun' as Hh Hr. rewrite <- app_assoc in Hh.
           apply app_inv_head in Hh. simpl in Hh. rewrite Hevs in Hh.
           subst r1. symmetry in Hh.
           destruct pre as [|ev pre].
           ++ simpl in Hh. injection Hh as _ _ _ Hans _. subst a. congruence.
           ++ simpl in Hh. injection Hh as _ Hh.
              destruct pre as [|ev' pre]; [discriminate|].
              simpl in Hh. injection Hh as _ Hh.
              apply (IH _ _ _ _ _ Hrun1 pre m u k a post e (eq_sym Hh) Ha Hne).
      * rewrite (request_loop_uncaught _ _ _ _ _ _ _ _ _ Hf Hc) in Hrun.
        injection Hrun as Hh Hr. apply app_inv_head in Hh. rewrite Hevs in Hh.
        destruct pre as [|ev pre]; [|destruct pre; discriminate].
        injection Hh as _ _ _ Hans Hpost. subst a post. split; congruence.
    + exfalso. unfold failure, bind in Hf.
      destruct (send E h method url kw) as [r0|e1] eqn:Hsend; [|discriminate].
      unfold raise_for_status in Hf.
      destruct (is_success r0) eqn:Hs; [|discriminate].
      rewrite (request_loop_success _ _ _ _ _ _ _ _ _ Hsend Hs) in Hrun.
      injection Hrun as Hh _. apply app_inv_head in Hh. rewrite Hevs in Hh.
      destruct pre as [|ev pre]; [|destruct pre; discriminate].
      injection Hh as _ _ _ Hans. subst a. rewrite ?Hsend in Ha.
      unfold failure, bind, raise_for_status in Ha. rewrite Hs in Ha. discriminate.
Qed.

(** An exception that [_request] does not catch is not retried.  In any
    run, when an attempt fails with an exception that is none of
    [HTTPStatusError], [ConnectError] and [ReadTimeout], that attempt is
    the last thing the transport does, and the call raises that very
    exception. *)
Theorem request_does_not_retry_other_exceptions (h evs : trace)
    (r : outcome Response) (pre : trace) (m : Method) (u : str) (k : kwargs)
    (a : outcome Response) (post : trace) (e : exn) :
  _request E cfg method url kw h = (h ++ evs, r) ->
  evs = pre ++ Requested m u k a :: post ->
  failure a = Some e ->
  caught e = false ->
  post = [] /\ r = Raise e.
Proof.
  intros Hrun Hevs Ha Hne.
  unfold _request, io_bind, sleep in Hrun.
  destruct (request_loop_extends E cfg method url kw (Z.to_nat max_retries) 0 None
              (h ++ [delay])) as (evs1 & r1 & Hrun1).
  pose proof Hrun as Hrun'. rewrite Hrun1 in Hrun'.
  injection Hrun' as Hh Hr. rewrite <- app_assoc in Hh.
  apply app_inv_head in Hh. simpl in Hh. rewrite Hevs in Hh.
  subst r1. symmetry in Hh.
  destruct pre as [|ev pre]; [discriminate|].
  injection Hh as _ Hh.
  eapply request_loop_fatal; [exact Hrun1|symmetry; exact Hh|exact Ha|exact Hne].
Qed.

End TransportBounds.

Section TransportBoundsScenarios.
Import Py http run scenario cases.
Local Open Scope Z_scope.

(** [RateLimitedClient(config)] with [max_retries=0]: nothing is sent. *)
Lemma request_without_attempts_witness :
  _request always_500 (fast_config 0) GET some_url no_kwargs []
  = ([] ++ [Slept (Float (config.request_delay (fast_config 0)))],
     Raise (RuntimeError (lit "Request failed after "
                          ++ str_of_int (config.max_retries (fast_config 0))
                          ++ lit " retries") None)).
Proof.
  apply (@request_without_attempts always_500 (fast_config 0) GET some_url
           no_kwargs []).
  simpl. lia.
Defined.

(** The flaky endpoint: the response returned is the 200 that came last. *)
Lemma request_returns_only_a_success_witness :
  is_success recovered = true
  /\ exists pre,
       [Slept (Float (Qmake 0 1));
        Requested GET some_url no_kwargs (Return response_500);
        Slept (Int 2);
        Requested GET some_url no_kwargs (Return recovered)]
       = pre ++ [Requested GET some_url no_kwargs (Return recovered)].
Proof.
  apply (@request_returns_only_a_success flaky (fast_config 2) GET some_url
           no_kwargs [] _ recovered).
  reflexivity.
Defined.

(** A server whose certificate is refused: the first attempt is the only
    one, although three are allowed. *)
Lemma request_does_not_retry_other_exceptions_witness :
  @nil event = []
  /\ @Raise Response (OtherError (lit "SSLError")) = Raise (OtherError (lit "SSLError")).
Proof.
  apply (@request_does_not_retry_other_exceptions refusing (fast_config 3) GET
           some_url no_kwargs []
           [Slept (Float (Qmake 0 1));
            Requested GET some_url no_kwargs (Raise (OtherError (lit "SSLError")))]
           (Raise (OtherError (lit "SSLError")))
           [Slept (Float (Qmake 0 1))]
           GET some_url no_kwargs (Raise (OtherError (lit "SSLError"))) []
           (OtherError (lit "SSLError"))).
  - reflexivity.
  - reflexivity.
  - reflexivity.
  - reflexivity.
Defined.

End TransportBoundsScenarios.

(** ** The session protocols: an accepted challenge *)

Section CaptchaRetry.
Import Py models http run portal accepting hcservices_client hcservices_endpoints.
Local Open Scope Z_scope.

Variable L : libs.
Variable E : env.
Variable cfg : config.BharatCourtsConfig.

Lemma captcha_retry_loop_returns (url : str) (fb : str -> io form) (n : Z) :
  forall todo h h' resp,
    _post_with_captcha_retry_loop E cfg todo url fb n h = (h', Return resp) ->
    rejected (text resp) = false.
Proof.
  induction todo as [|todo IH]; intros h h' resp Hrun.
  - discriminate Hrun.
  - cbn [_post_with_captcha_retry_loop] in Hrun. unfold io_bind in Hrun.
    destruct (_init_session E cfg h) as [h1 [[]|e]]; [|discriminate].
    destruct (_solve_captcha E cfg h1) as [h2 [captcha|e]]; [|discriminate].
    destruct (fb captcha h2) as [h3 [f|e]]; [|discriminate].
    destruct (post E cfg url _ h3) as [h4 [r|e]]; [|discriminate].
    destruct (rejected (text r)) eqn:Hr.
    + apply (IH _ _ _ Hrun).
    + injection Hrun as _ <-. exact Hr.
Qed.

(** [_post_with_captcha_retry] never hands a rejected submission to its
    caller: the text of a response it returns carries no rejection marker
    (the words Invalid Captcha between double quotes), whatever the portal
    and the solver do. *)
Theorem captcha_retry_never_returns_a_rejection (url : str) (fb : str -> io form)
    (n : Z) (h h' : trace) (resp : Response) :
  _post_with_captcha_retry E cfg url fb n h = (h', Return resp) ->
  rejected (text resp) = false.
Proof. apply captcha_retry_loop_returns. Qed.

(** The cases [case_status] and [case_status_by_party] return carry the
    name of the court they were asked for, whatever the response named. *)
Theorem case_status_names_the_court (court : Court.t) :
  (forall case_type case_number year bench_code h h' results,
     case_status L E cfg court case_type case_number year bench_code h
     = (h', Return results) ->
     Forall (fun r => CaseInfo.court_name r = Court.name court) results)
  /\ (forall party_name year bench_code status_filter h h' results,
        case_status_by_party L E cfg court party_name year bench_code
                             status_filter h
        = (h', Return results) ->
        Forall (fun r => CaseInfo.court_name r = Court.name court) results).
Proof.
  assert (Hmap : forall parsed : list CaseInfo.t,
             Forall (fun r => CaseInfo.court_name r = Court.name court)
                    (map (fun r => CaseInfo.set_court_name r (Court.name court))
                         parsed)).
  { intros parsed. apply Forall_forall. intros r Hr. apply in_map_iff in Hr.
    destruct Hr as (r0 & <- & _). reflexivity. }
  split.
  - intros case_type case_number year bench_code h h' results Hrun.
    unfold case_status, io_bind, lift, ret in Hrun.
    destruct (_post_with_captcha_retry E cfg _ _ _ h) as [h1 [resp|e]];
      [|discriminate].
    destruct (hcservices_parser.parse_case_status L (text resp)) as [parsed|e];
      [|discriminate].
    injection Hrun as _ <-. apply Hmap.
  - intros party_name year bench_code status_filter h h' results Hrun.
    unfold case_status_by_party, io_bind, lift, ret in Hrun.
    destruct (_post_with_captcha_retry E cfg _ _ _ h) as [h1 [resp|e]];
      [|discriminate].
    destruct (hcservices_parser.parse_case_status L (text resp)) as [parsed|e];
      [|discriminate].
    injection Hrun as _ <-. apply Hmap.
Qed.

Hypothesis retries : 1 <= config.max_retries cfg.
Hypothesis Hresp : responsive E.

Local Abbreviation delay := (Slept (Float (config.request_delay cfg))).

(** A request to a responsive portal, with the trace it leaves. *)
Lemma request_run (m : Method) (u : str) (kw : kwargs) (h : trace) :
  exists r,
    send E (h ++ [delay]) m u kw = Return r
    /\ _request E cfg m u kw h = (h ++ [delay; Requested m u kw (Return r)], Return r).
Proof.
  destruct (@request_answered E cfg retries Hresp m u kw h) as (r & Ha & _ & Hrun).
  exists r. auto.
Qed.

(** One round of HC Services that the portal accepts.  Let the portal
    answer every request, the solver every challenge, and let no answer to
    a submission carry the rejection marker.  Then
    [_post_with_captcha_retry], allowed one round at least, makes exactly
    one: it loads the main page, fetches the challenge, gives the image to
    the solver, submits the form built from the solver's answer, and
    returns the answer to that submission. *)
Theorem accepted_submission_takes_one_round (url : str) (fb : str -> io form)
    (n : Z) (h : trace) :
  solver_answers E ->
  accepts_every_submission E ->
  builds fb ->
  1 <= n ->
  exists page image captcha f resp,
    _post_with_captcha_retry E cfg url fb n h
    = (h ++ [delay; Requested GET MAIN_PAGE_URL (referer (BASE_URL ++ lit "/"))
                              (Return page);
             delay; Requested GET CAPTCHA_IMAGE_URL (referer MAIN_PAGE_URL)
                              (Return image);
             Solved (content image) (Return captcha);
             delay; Requested POST url (submission f) (Return resp)],
       Return resp)
    /\ fb captcha (h ++ [delay; Requested GET MAIN_PAGE_URL
                                  (referer (BASE_URL ++ lit "/")) (Return page);
                         delay; Requested GET CAPTCHA_IMAGE_URL
                                  (referer MAIN_PAGE_URL) (Return image);
                         Solved (content image) (Return captcha)])
       = (h ++ [delay; Requested GET MAIN_PAGE_URL
                         (referer (BASE_URL ++ lit "/")) (Return page);
                delay; Requested GET CAPTCHA_IMAGE_URL
                         (referer MAIN_PAGE_URL) (Return image);
                Solved (content image) (Return captcha)],
          Return f).
Proof.
  intros Hsolver Hacc Hfb Hn.
  unfold _post_with_captcha_retry.
  destruct (Z.to_nat n) as [|todo] eqn:Htodo; [lia|].
  cbn [_post_with_captcha_retry_loop].
  destruct (request_run GET MAIN_PAGE_URL (referer (BASE_URL ++ lit "/")) h)
    as (page & _ & Hinit).
  set (h1 := h ++ [delay; Requested GET MAIN_PAGE_URL (referer (BASE_URL ++ lit "/"))
                            (Return page)]) in *.
  destruct (request_run GET CAPTCHA_IMAGE_URL (referer MAIN_PAGE_URL) h1)
    as (image & _ & Hfetch).
  set (h2 := h1 ++ [delay; Requested GET CAPTCHA_IMAGE_URL (referer MAIN_PAGE_URL)
                             (Return image)]) in *.
  destruct (Hsolver h2 (content image)) as (captcha & Hsolve).
  set (h3 := h2 ++ [Solved (content image) (Return captcha)]).
  destruct (Hfb captcha h3) as (f & Hform).
  destruct (request_run POST url (submission f) h3) as (resp & Hsend & Hpost).
  exists page, image, captcha, f, resp.
  assert (Hh3 : h3 = h ++ [delay; Requested GET MAIN_PAGE_URL
                              (referer (BASE_URL ++ lit "/")) (Return page);
                           delay; Requested GET CAPTCHA_IMAGE_URL
                              (referer MAIN_PAGE_URL) (Return image);
                           Solved (content image) (Return captcha)]).
  { unfold h3, h2, h1. rewrite <- !app_assoc. reflexivity. }
  split.
  - assert (Hses : _init_session E cfg h = (h1, Return tt)).
    { unfold _init_session, get. rewrite (io_bind_return _ Hinit). reflexivity. }
    rewrite (io_bind_return _ Hses).
    assert (Hcap : _solve_captcha E cfg h1 = (h3, Return captcha)).
    { unfold _solve_captcha, get. rewrite (io_bind_return _ Hfetch).
      unfold solve_captcha. fold h2. rewrite Hsolve. reflexivity. }
    rewrite (io_bind_return _ Hcap).
    rewrite (io_bind_return _ Hform).
    unfold post. fold (submission f). rewrite (io_bind_return _ Hpost).
    rewrite (Hacc _ _ _ _ Hsend). unfold ret. rewrite Hh3, <- app_assoc.
    reflexivity.
  - rewrite <- Hh3. exact Hform.
Qed.

End CaptchaRetry.

Section JudgmentSearchAccepted.
Import Py models http run portal accepting judgments_client judgments_endpoints.
Local Open Scope Z_scope.

Variable L : libs.
Variable E : env.
Variable cfg : config.BharatCourtsConfig.

Local Abbreviation delay := (Slept (Float (config.request_delay cfg))).

(** A search whose first check the portal accepts.  Let the portal answer
    every request, the solver read some text in every challenge, and every
    check come back with [captcha_status] Y.  Then [search], allowed one
    attempt at least, makes four requests: the main page, the challenge,
    the check of the solver's text (always with the option PHRASE), and the
    results page, asked with the search text, the accepted text, the
    option and court type of the caller and the token of the check.  It
    returns what [parse_judgment_search] reads in that page, and keeps the
    token. *)
Theorem accepted_check_leads_to_the_results (token : obj)
    (search_text search_opt court_type : str) (n : Z) (h : trace) :
  1 <= config.max_retries cfg ->
  responsive E ->
  solver_reads E ->
  passes_every_check E ->
  1 <= n ->
  exists page image captcha checked data results,
    check_passes checked data
    /\ captcha <> []
    /\ search L E cfg token search_text search_opt court_type n h
       = (h ++ [delay; Requested GET MAIN_PAGE_URL no_kwargs (Return page);
                delay; Requested GET CAPTCHA_IMAGE_URL no_kwargs (Return image);
                Solved (content image) (Return captcha);
                delay; Requested POST CHECK_CAPTCHA_URL
                         (check (check_captcha_form captcha search_text (lit "PHRASE")))
                         (Return checked);
                delay; Requested GET SEARCH_RESULTS_URL
                         (query (search_results_params search_text captcha search_opt
                                   court_type
                                   (Py.get data (lit "app_token") (Str [])) []))
                         (Return results)],
          Return (judgments_parser.parse_judgment_search L (text results) BASE_URL 1,
                  Py.get data (lit "app_token") (Str []))).
Proof.
  intros retries Hresp Hsolver Hpass Hn.
  destruct (@request_run E cfg retries Hresp GET MAIN_PAGE_URL no_kwargs h)
    as (page & _ & Hinit).
  set (h1 := h ++ [delay; Requested GET MAIN_PAGE_URL no_kwargs (Return page)]) in *.
  destruct (@request_run E cfg retries Hresp GET CAPTCHA_IMAGE_URL no_kwargs h1)
    as (image & _ & Hfetch).
  set (h2 := h1 ++ [delay; Requested GET CAPTCHA_IMAGE_URL no_kwargs (Return image)])
    in *.
  destruct (Hsolver h2 (content image)) as (c & s & Hsolve).
  set (captcha := c :: s) in *.
  set (h3 := h2 ++ [Solved (content image) (Return captcha)]).
  destruct (@request_run E cfg retries Hresp POST CHECK_CAPTCHA_URL
              (check (check_captcha_form captcha search_text (lit "PHRASE"))) h3)
    as (checked & Hsend & Hcheck).
  destruct (Hpass _ _ _ _ Hsend) as (data & Hjson & Hstatus).
  set (h4 := h3 ++ [delay; Requested POST CHECK_CAPTCHA_URL
                             (check (check_captcha_form captcha search_text
                                       (lit "PHRASE")))
                             (Return checked)]) in *.
  set (tok := Py.get data (lit "app_token") (Str [])).
  destruct (@request_run E cfg retries Hresp GET SEARCH_RESULTS_URL
              (query (search_results_params search_text captcha search_opt court_type
                        tok [])) h4)
    as (results & _ & Hget).
  exists page, image, captcha, checked, data, results.
  split; [split; assumption|]. split; [discriminate|].
  unfold search.
  assert (Hses : _init_session E cfg h = (h1, Return tt)).
  { unfold _init_session, get. rewrite (io_bind_return _ Hinit). reflexivity. }
  rewrite (io_bind_return _ Hses).
  destruct (Z.to_nat n) as [|todo] eqn:Htodo; [lia|].
  assert (Hcap : _solve_captcha E cfg h1 = (h3, Return captcha)).
  { unfold _solve_captcha, get. rewrite (io_bind_return _ Hfetch).
    unfold solve_captcha. fold h2. rewrite Hsolve. reflexivity. }
  assert (Hval : _validate_captcha E cfg token captcha search_text h3
                 = (h4, Return (true, tok))).
  { unfold _validate_captcha, post.
    fold (check (check_captcha_form captcha search_text (lit "PHRASE"))).
    rewrite (io_bind_return _ Hcheck). rewrite Hjson. fold tok.
    rewrite Hstatus. reflexivity. }
  assert (Hloop : captcha_loop E cfg (S todo) token search_text h1
                  = (h4, Return (Some captcha, tok))).
  { cbn [captcha_loop]. rewrite (io_bind_return _ Hcap).
    unfold captcha at 1. fold captcha.
    rewrite (io_bind_return _ Hval). reflexivity. }
  rewrite (io_bind_return _ Hloop).
  fold (query (search_results_params search_text captcha search_opt court_type tok [])).
  unfold get. rewrite (io_bind_return _ Hget).
  unfold ret, h4, h3, h2, h1. rewrite <- !app_assoc. reflexivity.
Qed.

End JudgmentSearchAccepted.

Section AcceptingPortal.
Import Py models http run portal accepting scenario cases.
Local Open Scope Z_scope.

Lemma accepting_portal_responsive : responsive accepting_portal.
Proof. intros h m u kw. exists acceptance. split; reflexivity. Qed.

Lemma accepting_portal_solver : solver_answers accepting_portal.
Proof. intros h image. exists (lit "test123"). reflexivity. Qed.

Lemma accepting_portal_reads : solver_reads accepting_portal.
Proof. intros h image. eexists _, _. reflexivity. Qed.

Lemma accepting_portal_accepts : accepts_every_submission accepting_portal.
Proof. intros h u kw r H. injection H as <-. vm_compute. reflexivity. Qed.

Lemma accepting_portal_passes : passes_every_check accepting_portal.
Proof.
  intros h u kw r H. injection H as <-. eexists. split; reflexivity.
Qed.

(** The retry scenario: the response returned after one rejection is the
    envelope of the two records. *)
Lemma captcha_retry_never_returns_a_rejection_witness :
  hcservices_client.rejected (text (mkResponse 200 two_records [] None)) = false.
Proof.
  apply (@captcha_retry_never_returns_a_rejection second_time_lucky (fast_config 1)
           hcservices_endpoints.SHOW_RECORDS_URL a_case_form 3 []
           (fst (hcservices_client._post_with_captcha_retry second_time_lucky
                   (fast_config 1) hcservices_endpoints.SHOW_RECORDS_URL
                   a_case_form 3 []))
           (mkResponse 200 two_records [] None)).
  vm_compute. reflexivity.
Defined.

Lemma accepted_submission_takes_one_round_witness :
  exists page image captcha f resp,
    hcservices_client._post_with_captcha_retry accepting_portal (fast_config 1)
      hcservices_endpoints.SHOW_RECORDS_URL a_case_form 3 []
    = ([] ++ [Slept (Float (config.request_delay (fast_config 1)));
              Requested GET hcservices_endpoints.MAIN_PAGE_URL
                (hcservices_client.referer (hcservices_endpoints.BASE_URL ++ lit "/"))
                (Return page);
              Slept (Float (config.request_delay (fast_config 1)));
              Requested GET hcservices_endpoints.CAPTCHA_IMAGE_URL
                (hcservices_client.referer hcservices_endpoints.MAIN_PAGE_URL)
                (Return image);
              Solved (content image) (Return captcha);
              Slept (Float (config.request_delay (fast_config 1)));
              Requested POST hcservices_endpoints.SHOW_RECORDS_URL (submission f)
                (Return resp)],
       Return resp)
    /\ a_case_form captcha
         ([] ++ [Slept (Float (config.request_delay (fast_config 1)));
                 Requested GET hcservices_endpoints.MAIN_PAGE_URL
                   (hcservices_client.referer (hcservices_endpoints.BASE_URL ++ lit "/"))
                   (Return page);
                 Slept (Float (config.request_delay (fast_config 1)));
                 Requested GET hcservices_endpoints.CAPTCHA_IMAGE_URL
                   (hcservices_client.referer hcservices_endpoints.MAIN_PAGE_URL)
                   (Return image);
                 Solved (content image) (Return captcha)])
       = ([] ++ [Slept (Float (config.request_delay (fast_config 1)));
                 Requested GET hcservices_endpoints.MAIN_PAGE_URL
                   (hcservices_client.referer (hcservices_endpoints.BASE_URL ++ lit "/"))
                   (Return page);
                 Slept (Float (config.request_delay (fast_config 1)));
                 Requested GET hcservices_endpoints.CAPTCHA_IMAGE_URL
                   (hcservices_client.referer hcservices_endpoints.MAIN_PAGE_URL)
                   (Return image);
                 Solved (content image) (Return captcha)],
          Return f).
Proof.
  apply (@accepted_submission_takes_one_round accepting_portal (fast_config 1)
           ltac:(simpl; lia) accepting_portal_responsive
           hcservices_endpoints.SHOW_RECORDS_URL a_case_form 3 []
           accepting_portal_solver accepting_portal_accepts).
  - intros captcha h. eexists. reflexivity.
  - lia.
Defined.

Lemma accepted_check_leads_to_the_results_witness :
  exists page image captcha checked data results,
    check_passes checked data
    /\ captcha <> []
    /\ judgments_client.search plain_libs accepting_portal (fast_config 1) (Str [])
         (lit "constitution") (lit "ANY") (lit "2") 3 []
       = ([] ++ [Slept (Float (config.request_delay (fast_config 1)));
                 Requested GET judgments_endpoints.MAIN_PAGE_URL no_kwargs (Return page);
                 Slept (Float (config.request_delay (fast_config 1)));
                 Requested GET judgments_endpoints.CAPTCHA_IMAGE_URL no_kwargs
                   (Return image);
                 Solved (content image) (Return captcha);
                 Slept (Float (config.request_delay (fast_config 1)));
                 Requested POST judgments_endpoints.CHECK_CAPTCHA_URL
                   (check (judgments_endpoints.check_captcha_form captcha
                             (lit "constitution") (lit "PHRASE")))
                   (Return checked);
                 Slept (Float (config.request_delay (fast_config 1)));
                 Requested GET judgments_endpoints.SEARCH_RESULTS_URL
                   (query (judgments_endpoints.search_results_params
                             (lit "constitution") captcha (lit "ANY") (lit "2")
                             (Py.get data (lit "app_token") (Str [])) []))
                   (Return results)],
          Return (judgments_parser.parse_judgment_search plain_libs (text results)
                    judgments_endpoints.BASE_URL 1,
                  Py.get data (lit "app_token") (Str []))).
Proof.
  apply (@accepted_check_leads_to_the_results plain_libs accepting_portal
           (fast_config 1) (Str []) (lit "constitution") (lit "ANY") (lit "2") 3 []
           ltac:(simpl; lia) accepting_portal_responsive accepting_portal_reads
           accepting_portal_passes ltac:(lia)).
Defined.

End AcceptingPortal.

(** ** Texts and patterns: what the matcher does *)

Section Strips.
Import Py pattern.
Local Open Scope N_scope.

Variable p : N -> bool.

Lemma leading_lstrip (s : str) : s = leading p s ++ lstrip_with p s.
Proof.
  induction s as [|c s IH]; [reflexivity|]. simpl.
  destruct (p c); [simpl; f_equal; exact IH|reflexivity].
Qed.

Lemma lstrip_head (s : str) :
  match lstrip_with p s with
  | [] => True
  | c :: _ => p c = false
  end.
Proof.
  induction s as [|c s IH]; [exact I|]. simpl.
  destruct (p c) eqn:Hc; [exact IH|exact Hc].
Qed.

Lemma lstrip_id (c : N) (s : str) : p c = false -> lstrip_with p (c :: s) = c :: s.
Proof. intros H. simpl. rewrite H. reflexivity. Qed.

Lemma lstrip_app (a b : str) (x : N) :
  p x = false -> lstrip_with p (a ++ x :: b) = lstrip_with p a ++ x :: b.
Proof.
  intros Hx. induction a as [|c a IH]; simpl.
  - rewrite Hx. reflexivity.
  - destruct (p c); [exact IH|reflexivity].
Qed.

Lemma lstrip_all (a : str) : forallb p a = true -> lstrip_with p a = [].
Proof.
  induction a as [|c a IH]; [reflexivity|]. simpl. intros H.
  apply andb_prop in H. destruct H as [Hc Ha]. rewrite Hc. auto.
Qed.

Lemma lstrip_skip (a b : str) :
  forallb p a = true -> lstrip_with p (a ++ b) = lstrip_with p b.
Proof.
  induction a as [|c a IH]; [reflexivity|]. simpl. intros H.
  apply andb_prop in H. destruct H as [Hc Ha]. rewrite Hc. auto.
Qed.

Lemma lstrip_incl (s : str) (c : N) : In c (lstrip_with p s) -> In c s.
Proof.
  induction s as [|x s IH]; [auto|]. simpl.
  destruct (p x); [intros H; right; auto|auto].
Qed.

Lemma rstrip_app (a b : str) (x : N) :
  p x = false -> rstrip_with p (a ++ x :: b) = a ++ x :: rstrip_with p b.
Proof.
  intros Hx. unfold rstrip_with. rewrite rev_app_distr. cbn [rev].
  rewrite <- app_assoc. cbn [app]. rewrite lstrip_app by exact Hx.
  rewrite rev_app_distr. cbn [rev]. rewrite rev_involutive, <- app_assoc.
  reflexivity.
Qed.

Lemma rstrip_all (a : str) : forallb p a = true -> rstrip_with p a = [].
Proof.
  intros H. unfold rstrip_with. rewrite lstrip_all; [reflexivity|].
  rewrite forallb_forall in *. intros x Hx. apply H. apply in_rev. exact Hx.
Qed.

Lemma rstrip_last (s : str) :
  match rev (rstrip_with p s) with
  | [] => True
  | c :: _ => p c = false
  end.
Proof. unfold rstrip_with. rewrite rev_involutive. apply lstrip_head. Qed.

Lemma rstrip_incl (s : str) (c : N) : In c (rstrip_with p s) -> In c s.
Proof.
  unfold rstrip_with. intros H. apply in_rev in H. apply lstrip_incl in H.
  apply in_rev. exact H.
Qed.

Lemma rstrip_id (s : str) :
  match rev s with
  | [] => True
  | c :: _ => p c = false
  end ->
  rstrip_with p s = s.
Proof.
  unfold rstrip_with. destruct (rev s) as [|c t] eqn:Hr; intros H.
  - apply (f_equal (@rev N)) in Hr. rewrite rev_involutive in Hr. subst s. reflexivity.
  - rewrite lstrip_id by exact H. rewrite <- Hr. apply rev_involutive.
Qed.

End Strips.

Section Strip.
Import Py pattern.
Local Open Scope N_scope.

Lemma strip_trimmed (s : str) : trimmed (strip s).
Proof.
  unfold trimmed, strip. split; [|apply rstrip_last].
  pose proof (lstrip_head isspace s) as H.
  destruct (lstrip_with isspace s) as [|c t]; [exact I|].
  change (c :: t) with ([] ++ c :: t). rewrite rstrip_app by exact H. exact H.
Qed.

Lemma trimmed_strip (s : str) : trimmed s -> strip s = s.
Proof.
  intros [Hhd Hlast]. unfold strip. destruct s as [|c t]; [reflexivity|].
  rewrite lstrip_id by exact Hhd. apply rstrip_id. exact Hlast.
Qed.

Lemma strip_idempotent (s : str) : strip (strip s) = strip s.
Proof. apply trimmed_strip. apply strip_trimmed. Qed.

Lemma strip_incl (s : str) (c : N) : In c (strip s) -> In c s.
Proof.
  unfold strip. intros H. apply rstrip_incl in H. apply lstrip_incl in H. exact H.
Qed.

End Strip.

Section Matching.
Import Py re pattern.
Local Open Scope N_scope.

Variable A : Type.
Variable ignorecase : bool.

(** A repetition passes to its continuation what is left after some
    characters of the class. *)
Lemma star_spec (p : N -> bool) (k : option N -> str -> option A) :
  forall s prev a,
    star p prev s k = Some a ->
    exists n prev',
      (n <= length s)%nat /\ forallb p (firstn n s) = true
      /\ k prev' (skipn n s) = Some a.
Proof.
  induction s as [|x s IH]; intros prev a H; cbn [star] in H.
  - exists 0%nat, prev. split; [apply Nat.le_0_l|split; [reflexivity|exact H]].
  - destruct (p x) eqn:Hx.
    + destruct (star p (Some x) s k) as [a'|] eqn:Hs.
      * injection H as <-. destruct (IH _ _ Hs) as (n & prev' & Hn & Hall & Hk).
        exists (S n), prev'. cbn [length firstn skipn forallb]. rewrite Hx, Hall.
        split; [lia|split; [reflexivity|exact Hk]].
      * exists 0%nat, prev. split; [apply Nat.le_0_l|split; [reflexivity|exact H]].
    + exists 0%nat, prev. split; [apply Nat.le_0_l|split; [reflexivity|exact H]].
Qed.

(** Before a continuation that accepts whatever is left, the repetition
    takes the whole run. *)
Lemma star_max (p : N -> bool) (k : option N -> str -> option A) :
  (forall prev t, k prev t <> None) ->
  forall s prev, exists prev', star p prev s k = k prev' (lstrip_with p s).
Proof.
  intros Hk. induction s as [|x s IH]; intros prev; cbn [star lstrip_with].
  - exists prev. reflexivity.
  - destruct (p x).
    + destruct (IH (Some x)) as (prev' & Hs). exists prev'. rewrite Hs.
      destruct (k prev' (lstrip_with p s)) eqn:Hr; [reflexivity|].
      exfalso. apply (Hk _ _ Hr).
    + exists prev. reflexivity.
Qed.

(** The matcher passes to its continuation a suffix of the input, and a
    proper one when the pattern cannot match the empty text. *)
Lemma run_suffix (r : regex) :
  forall prev s caps (k : option N -> str -> list str -> option A) a,
    run ignorecase r prev s caps k = Some a ->
    exists u prev' s' caps',
      s = u ++ s' /\ (nullable r = false -> u <> [])
      /\ k prev' s' caps' = Some a.
Proof.
  induction r as [|c|p| |r1 IH1 r2 IH2|r1 IH1 r2 IH2|r1 IH1|p|p|r1 IH1];
    intros prev s caps k a H; cbn [run nullable] in *.
  - exists [], prev, s, caps. split; [reflexivity|]. split; [discriminate|exact H].
  - destruct s as [|x s]; [discriminate|].
    destruct (chr_eq ignorecase c x); [|discriminate].
    exists [x], (Some x), s, caps. split; [reflexivity|]. split; [discriminate|exact H].
  - destruct s as [|x s]; [discriminate|].
    destruct (p x); [|discriminate].
    exists [x], (Some x), s, caps. split; [reflexivity|]. split; [discriminate|exact H].
  - destruct (xorb _ _); [|discriminate].
    exists [], prev, s, caps. split; [reflexivity|]. split; [discriminate|exact H].
  - destruct (IH1 _ _ _ _ _ H) as (u1 & prev1 & s1 & caps1 & Hs1 & Hn1 & H1).
    destruct (IH2 _ _ _ _ _ H1) as (u2 & prev2 & s2 & caps2 & Hs2 & Hn2 & H2).
    exists (u1 ++ u2), prev2, s2, caps2. split; [|split; [|exact H2]].
    + rewrite Hs1, Hs2, app_assoc. reflexivity.
    + intros Hnull Hu. apply app_eq_nil in Hu. destruct Hu as [-> ->].
      apply andb_false_iff in Hnull.
      destruct Hnull as [Hnull|Hnull]; [apply (Hn1 Hnull)|apply (Hn2 Hnull)];
        reflexivity.
  - destruct (run ignorecase r1 prev s caps k) as [a'|] eqn:Hr1.
    + injection H as <-.
      destruct (IH1 _ _ _ _ _ Hr1) as (u & prev' & s' & caps' & Hs & Hn & Hk).
      exists u, prev', s', caps'. split; [exact Hs|]. split; [|exact Hk].
      intros Hnull. apply orb_false_iff in Hnull. apply Hn, Hnull.
    + destruct (IH2 _ _ _ _ _ H) as (u & prev' & s' & caps' & Hs & Hn & Hk).
      exists u, prev', s', caps'. split; [exact Hs|]. split; [|exact Hk].
      intros Hnull. apply orb_false_iff in Hnull. apply Hn, Hnull.
  - destruct (run ignorecase r1 prev s caps k) as [a'|] eqn:Hr1.
    + injection H as <-.
      destruct (IH1 _ _ _ _ _ Hr1) as (u & prev' & s' & caps' & Hs & _ & Hk).
      exists u, prev', s', caps'. split; [exact Hs|]. split; [discriminate|exact Hk].
    + exists [], prev, s, caps. split; [reflexivity|]. split; [discriminate|exact H].
  - destruct (star_spec _ _ _ _ H) as (n & prev' & Hn & _ & Hk).
    exists (firstn n s), prev', (skipn n s), caps.
    split; [symmetry; apply firstn_skipn|]. split; [discriminate|exact Hk].
  - destruct s as [|x s]; [discriminate|].
    destruct (p x); [|discriminate].
    destruct (star_spec _ _ _ _ H) as (n & prev' & Hn & _ & Hk).
    exists (x :: firstn n s), prev', (skipn n s), caps.
    split; [simpl; f_equal; symmetry; apply firstn_skipn|].
    split; [discriminate|exact Hk].
  - destruct (IH1 _ _ _ _ _ H) as (u & prev' & s' & caps' & Hs & Hn & Hk).
    exists u, prev', s', (caps' ++ [firstn (length s - length s') s]).
    split; [exact Hs|]. split; [exact Hn|exact Hk].
Qed.

End Matching.

Section Searching.
Import Py re pattern.
Local Open Scope N_scope.

Variable ignorecase : bool.
Variable r : regex.

(** A match at a position: it is a prefix of the input there. *)
Lemma match_here_sound (prev : option N) (pre s : str) (m : Match) :
  match_here ignorecase r prev pre s = Some m ->
  m_pre m = pre /\ s = m_text m ++ m_post m
  /\ (nullable r = false -> m_text m <> []).
Proof.
  unfold match_here. intros H.
  destruct (run_suffix _ _ _ _ _ _ H) as (u & prev' & s' & caps' & Hs & Hn & Hk).
  injection Hk as <-. cbn [m_pre m_text m_post]. subst s.
  rewrite firstn_consumed. auto.
Qed.

(** What the search finds: a match after some characters that were
    passed over, at none of which the pattern matches. *)
Lemma search_go_found :
  forall s prev pre_rev m,
    search_go ignorecase r prev pre_rev s = Some m ->
    exists skipped,
      m_pre m = rev pre_rev ++ skipped
      /\ s = skipped ++ m_text m ++ m_post m
      /\ (nullable r = false -> m_text m <> [])
      /\ forall a x b, skipped = a ++ x :: b ->
           exists prev' pre',
             match_here ignorecase r prev' pre' (x :: b ++ m_text m ++ m_post m) = None.
Proof.
  induction s as [|x s IH]; intros prev pre_rev m Hm; rewrite search_go_eq in Hm.
  - destruct (match_here ignorecase r prev (rev pre_rev) []) as [m'|] eqn:Hh;
      [|discriminate].
    injection Hm as <-. destruct (match_here_sound _ _ _ Hh) as (Hpre & Hs & Hn).
    exists []. rewrite app_nil_r. repeat split; auto.
    intros a x b Hab. destruct a; discriminate.
  - destruct (match_here ignorecase r prev (rev pre_rev) (x :: s)) as [m'|] eqn:Hh.
    + injection Hm as <-. destruct (match_here_sound _ _ _ Hh) as (Hpre & Hs & Hn).
      exists []. rewrite app_nil_r. repeat split; auto.
      intros a y b Hab. destruct a; discriminate.
    + destruct (IH _ _ _ Hm) as (skipped & Hpre & Hs & Hn & Hskip).
      exists (x :: skipped). split; [|split; [|split]].
      * rewrite Hpre. simpl. rewrite <- app_assoc. reflexivity.
      * simpl. rewrite <- Hs. reflexivity.
      * exact Hn.
      * intros a y b Hab. destruct a as [|z a].
        -- injection Hab as <- <-. exists prev, (rev pre_rev).
           rewrite <- Hs. exact Hh.
        -- injection Hab as _ Hab. apply (Hskip _ _ _ Hab).
Qed.

(** When the search finds nothing, the pattern matches nowhere. *)
Lemma search_go_nothing :
  forall s prev pre_rev,
    search_go ignorecase r prev pre_rev s = None ->
    forall a x b, s = a ++ x :: b ->
      exists prev' pre', match_here ignorecase r prev' pre' (x :: b) = None.
Proof.
  induction s as [|x s IH]; intros prev pre_rev Hm a y b Hab;
    rewrite search_go_eq in Hm.
  - destruct a; discriminate.
  - destruct (match_here ignorecase r prev (rev pre_rev) (x :: s)) as [m'|] eqn:Hh;
      [discriminate|].
    destruct a as [|z a].
    + injection Hab as <- <-. exists prev, (rev pre_rev). exact Hh.
    + injection Hab as _ Hab. apply (IH _ _ Hm _ _ _ Hab).
Qed.

Variable starts : N -> bool.
Hypothesis always_matches :
  forall prev pre x s,
    starts x = true -> match_here ignorecase r prev pre (x :: s) <> None.
Hypothesis consumes : nullable r = false.

(** The pieces between the matches of a pattern that matches at every
    character of the class [starts]: no such character is in them. *)
Lemma pieces_free :
  forall fuel s prev ps last,
    (length s <= fuel)%nat ->
    pieces fuel ignorecase r prev s = (ps, last) ->
    Forall (free_of starts) ps /\ free_of starts last.
Proof.
  induction fuel as [|fuel IH]; intros s prev ps last Hlen Hp; cbn [pieces] in Hp.
  - injection Hp as <- <-. destruct s; [|simpl in Hlen; lia].
    split; [constructor|]. intros c [].
  - destruct (search_go ignorecase r prev [] s) as [m|] eqn:Hm.
    + destruct (search_go_found _ _ _ Hm) as (skipped & Hpre & Hs & Hn & Hskip).
      cbn [rev app] in Hpre.
      destruct (m_text m) as [|t0 text] eqn:Ht; [exfalso; apply (Hn consumes); reflexivity|].
      destruct (pieces fuel ignorecase r (hd_error (rev (t0 :: text))) (m_post m))
        as [ps' last'] eqn:Hrest.
      injection Hp as <- <-.
      assert (Hshort : (length (m_post m) <= fuel)%nat).
      { rewrite Hs in Hlen. rewrite !length_app in Hlen. simpl in Hlen. lia. }
      destruct (IH _ _ _ _ Hshort Hrest) as [Hps Hlast].
      split; [|exact Hlast]. constructor; [|exact Hps].
      rewrite Hpre. intros c Hc. apply in_split in Hc. destruct Hc as (a & b & Hab).
      destruct (Hskip _ _ _ Hab) as (prev' & pre' & Hnone).
      destruct (starts c) eqn:Hsc; [|reflexivity].
      exfalso. apply (@always_matches _ _ _ _ Hsc Hnone).
    + injection Hp as <- <-. split; [constructor|].
      intros c Hc. apply in_split in Hc. destruct Hc as (a & b & Hab).
      destruct (@search_go_nothing _ _ _ Hm _ _ _ Hab) as (prev' & pre' & Hnone).
      destruct (starts c) eqn:Hsc; [|reflexivity].
      exfalso. apply (@always_matches _ _ _ _ Hsc Hnone).
Qed.

Lemma split_free (s : str) : Forall (free_of starts) (re.split ignorecase r s).
Proof.
  unfold re.split.
  destruct (pieces (length s) ignorecase r None s) as [ps last] eqn:Hp.
  destruct (@pieces_free _ _ _ _ _ (le_n _) Hp) as [Hps Hlast].
  apply Forall_app. split; [exact Hps|]. constructor; [exact Hlast|constructor].
Qed.

End Searching.

(** ** [_clean_text]: the words of a text *)

Section CleanText.
Import Py re pattern.
Local Open Scope N_scope.

Lemma firstn_run (p : N -> bool) (x : N) (s : str) :
  firstn (length (x :: s) - length (lstrip_with p s)) (x :: s) = x :: leading p s.
Proof.
  pose proof (leading_lstrip p s) as E.
  transitivity (firstn (length ((x :: leading p s) ++ lstrip_with p s)
                        - length (lstrip_with p s))
                       ((x :: leading p s) ++ lstrip_with p s)).
  - cbn [app]. rewrite <- E. reflexivity.
  - apply firstn_consumed.
Qed.

Lemma match_here_ws (ic : bool) (prev : option N) (pre s : str) :
  match_here ic WHITESPACE_RUN prev pre s
  = match s with
    | x :: s' =>
        if isspace x
        then Some (mkMatch pre (x :: leading isspace s') (lstrip_with isspace s') [])
        else None
    | [] => None
    end.
Proof.
  unfold match_here, WHITESPACE_RUN. cbn [run]. destruct s as [|x s]; [reflexivity|].
  destruct (isspace x); [|reflexivity].
  destruct (@star_max Match isspace
              (fun prev' s'0 =>
                 Some (mkMatch pre (firstn (length (x :: s) - length s'0) (x :: s)) s'0 []))
              ltac:(discriminate) s (Some x)) as (prev' & Hs).
  rewrite Hs. rewrite firstn_run. reflexivity.
Qed.

Lemma search_go_ws (ic : bool) :
  forall s prev pre_rev,
    search_go ic WHITESPACE_RUN prev pre_rev s
    = match lstrip_with nonspace s with
      | [] => None
      | x :: t =>
          Some (mkMatch (rev pre_rev ++ leading nonspace s) (x :: leading isspace t)
                        (lstrip_with isspace t) [])
      end.
Proof.
  induction s as [|x s IH]; intros prev pre_rev; rewrite search_go_eq, match_here_ws.
  - reflexivity.
  - cbn [lstrip_with leading]. unfold nonspace at 1 3. destruct (isspace x); cbn [negb].
    + rewrite app_nil_r. reflexivity.
    + rewrite IH. destruct (lstrip_with nonspace s); [reflexivity|].
      cbn [rev]. rewrite <- app_assoc. reflexivity.
Qed.

(** The words of a text, run by run. *)
Lemma tokens_go_word (w : str) :
  forallb nonspace w = true ->
  forall cur rest, bs4.tokens_go cur (w ++ rest) = bs4.tokens_go (rev w ++ cur) rest.
Proof.
  induction w as [|c w IH]; intros Hw cur rest; [reflexivity|].
  cbn [forallb] in Hw. apply andb_prop in Hw. destruct Hw as [Hc Hw].
  unfold nonspace in Hc. apply negb_true_iff in Hc.
  cbn [app bs4.tokens_go]. rewrite Hc, (IH Hw). cbn [rev]. rewrite <- app_assoc.
  reflexivity.
Qed.

Lemma tokens_go_spaces (a : str) :
  forallb isspace a = true ->
  forall rest, bs4.tokens_go [] (a ++ rest) = bs4.tokens_go [] rest.
Proof.
  induction a as [|c a IH]; intros Ha rest; [reflexivity|].
  cbn [forallb] in Ha. apply andb_prop in Ha. destruct Ha as [Hc Ha].
  cbn [app bs4.tokens_go]. rewrite Hc. apply (IH Ha).
Qed.

Lemma tokens_go_close (c : N) (cur : str) (a : str) :
  forallb isspace a = true ->
  bs4.tokens_go (c :: cur) a = [rev (c :: cur)].
Proof.
  destruct a as [|x a]; intros Ha; [reflexivity|].
  cbn [forallb] in Ha. apply andb_prop in Ha. destruct Ha as [Hx Ha].
  cbn [bs4.tokens_go]. rewrite Hx. f_equal.
  rewrite <- (app_nil_r a). rewrite (tokens_go_spaces _ Ha). reflexivity.
Qed.

Lemma tokens_go_some (s : str) : forall c cur, bs4.tokens_go (c :: cur) s <> [].
Proof.
  induction s as [|x s IH]; intros c cur; cbn [bs4.tokens_go]; [discriminate|].
  destruct (isspace x); [discriminate|apply IH].
Qed.

Lemma leading_all (p : N -> bool) (s : str) : forallb p (leading p s) = true.
Proof.
  induction s as [|c s IH]; [reflexivity|]. simpl.
  destruct (p c) eqn:Hc; [simpl; rewrite Hc; exact IH|reflexivity].
Qed.

Lemma leading_app (p : N -> bool) (a : str) (z : N) (b : str) :
  forallb p a = true -> p z = false -> leading p (a ++ z :: b) = a.
Proof.
  intros Ha Hz. induction a as [|c a IH]; simpl.
  - rewrite Hz. reflexivity.
  - simpl in Ha. apply andb_prop in Ha. destruct Ha as [Hc Ha].
    rewrite Hc, (IH Ha). reflexivity.
Qed.

Lemma lstrip_none (p : N -> bool) (a : str) :
  forallb (fun c => negb (p c)) a = true -> lstrip_with p a = a.
Proof.
  destruct a as [|c a]; [reflexivity|]. simpl. intros H.
  apply andb_prop in H. destruct H as [Hc _]. apply negb_true_iff in Hc.
  rewrite Hc. reflexivity.
Qed.

Lemma rstrip_keep (p : N -> bool) (w rest : str) :
  forallb (fun c => negb (p c)) w = true -> forallb p rest = true ->
  rstrip_with p (w ++ rest) = w.
Proof.
  intros Hw Hrest. unfold rstrip_with. rewrite rev_app_distr.
  rewrite lstrip_skip.
  - rewrite lstrip_none; [apply rev_involutive|].
    rewrite forallb_forall in *. intros x Hx. apply Hw. apply in_rev. exact Hx.
  - rewrite forallb_forall in *. intros x Hx. apply Hrest. apply in_rev. exact Hx.
Qed.

(** [re.sub] of the runs of white space by one space, on a text that
    starts with a word, its trailing white space apart. *)
Lemma clean_go :
  forall n s,
    (length s <= n)%nat ->
    match s with [] => True | c :: _ => isspace c = false end ->
    forall fuel prev,
      (length (rstrip_with isspace s) <= fuel)%nat ->
      (let '(ps, last) :=
         pieces fuel false WHITESPACE_RUN prev (rstrip_with isspace s) in
       concat (map (fun p => p ++ lit " ") ps) ++ last)
      = join (lit " ") (bs4.tokens_go [] s).
Proof.
  induction n as [|n IH]; intros s Hlen Hhd fuel prev Hfuel.
  - destruct s; [|simpl in Hlen; lia].
    destruct fuel; cbn [pieces]; [reflexivity|].
    change (rstrip_with isspace []) with (@nil N). rewrite search_go_ws. reflexivity.
  - destruct s as [|c s0].
    { destruct fuel; cbn [pieces]; [reflexivity|].
      change (rstrip_with isspace []) with (@nil N). rewrite search_go_ws. reflexivity. }
    set (s := c :: s0) in *.
    pose proof (leading_lstrip nonspace s) as Hs.
    pose proof (leading_all nonspace s) as Hw.
    pose proof (lstrip_head nonspace s) as Hrest.
    assert (Hw1 : exists c' cur, rev (leading nonspace s) = c' :: cur).
    { unfold s. cbn [leading]. unfold nonspace at 1. rewrite Hhd. cbn [negb rev].
      destruct (rev (leading nonspace s0)); eexists _, _; reflexivity. }
    assert (Hwlen : (1 <= length (leading nonspace s))%nat).
    { unfold s. cbn [leading]. unfold nonspace at 1. rewrite Hhd. simpl. lia. }
    set (w := leading nonspace s) in *. set (rest := lstrip_with nonspace s) in *.
    destruct Hw1 as (c' & cur & Hrev).
    destruct (forallb isspace rest) eqn:Hall.
    + (* the last word *)
      rewrite Hs in Hfuel |- *. rewrite (rstrip_keep isspace w rest Hw Hall) in *.
      destruct fuel as [|fuel]; [lia|]. cbn [pieces]. rewrite search_go_ws.
      rewrite (lstrip_all nonspace w Hw).
      rewrite (tokens_go_word w Hw), app_nil_r, Hrev.
      rewrite (tokens_go_close c' cur rest Hall), <- Hrev, rev_involutive.
      reflexivity.
    + (* a word, a run of white space, and more *)
      destruct rest as [|y t] eqn:Hr; [discriminate|].
      unfold nonspace in Hrest. apply negb_false_iff in Hrest.
      cbn [forallb] in Hall. rewrite Hrest in Hall. cbn [andb] in Hall.
      pose proof (leading_lstrip isspace t) as Ht.
      pose proof (leading_all isspace t) as Ha.
      pose proof (lstrip_head isspace t) as Hz.
      set (a := leading isspace t) in *. set (s' := lstrip_with isspace t) in *.
      destruct s' as [|z s''] eqn:Hs'.
      { rewrite app_nil_r in Ht. rewrite Ht, Ha in Hall. discriminate. }
      assert (Hstrip : rstrip_with isspace (w ++ y :: t)
                       = w ++ y :: a ++ rstrip_with isspace (z :: s'')).
      { rewrite Ht. change (z :: s'') with ([] ++ z :: s'') at 2.
        rewrite (rstrip_app isspace [] s'' z Hz). cbn [app].
        replace (w ++ y :: a ++ z :: s'') with ((w ++ y :: a) ++ z :: s'')
          by (rewrite <- app_assoc; reflexivity).
        rewrite (rstrip_app isspace _ s'' z Hz), <- app_assoc. reflexivity. }
      rewrite Hs in Hfuel |- *. rewrite Hstrip in *.
      change (z :: s'') with ([] ++ z :: s'') in Hfuel |- * at 1.
      rewrite (rstrip_app isspace [] s'' z Hz) in Hfuel |- *. cbn [app] in Hfuel |- *.
      destruct fuel as [|fuel]; [rewrite length_app in Hfuel; simpl in Hfuel; lia|].
      cbn [pieces]. rewrite search_go_ws.
      assert (Hy : nonspace y = false) by (unfold nonspace; rewrite Hrest; reflexivity).
      rewrite (lstrip_app nonspace w (a ++ z :: rstrip_with isspace s'') y Hy).
      rewrite (lstrip_all nonspace w Hw). cbn [app rev].
      rewrite (leading_app nonspace w y (a ++ z :: rstrip_with isspace s'') Hw Hy).
      rewrite (leading_app isspace a z (rstrip_with isspace s'') Ha Hz).
      rewrite (lstrip_skip isspace a (z :: rstrip_with isspace s'') Ha).
      rewrite (lstrip_id isspace z (rstrip_with isspace s'') Hz).
      cbn [m_text m_pre m_post].
      assert (Hlen' : (length (z :: s'') <= n)%nat).
      { rewrite Hs, Ht in Hlen. rewrite !length_app in Hlen. simpl in Hlen.
        rewrite length_app in Hlen. simpl in *. lia. }
      assert (Hfuel' : (length (rstrip_with isspace (z :: s'')) <= fuel)%nat).
      { change (z :: s'') with ([] ++ z :: s'').
        rewrite (rstrip_app isspace [] s'' z Hz). cbn [app].
        rewrite !length_app in Hfuel. simpl in Hfuel. rewrite length_app in Hfuel.
        simpl in *. lia. }
      pose proof (IH (z :: s'') Hlen' Hz fuel (hd_error (rev (y :: a))) Hfuel') as Hrec.
      change (z :: s'') with ([] ++ z :: s'') in Hrec at 1.
      rewrite (rstrip_app isspace [] s'' z Hz) in Hrec. cbn [app] in Hrec.
      destruct (pieces fuel false WHITESPACE_RUN (hd_error (rev (y :: a)))
                  (z :: rstrip_with isspace s'')) as [ps' last'].
      cbn [map concat]. rewrite <- !app_assoc. rewrite Hrec.
      rewrite (tokens_go_word w Hw), app_nil_r, Hrev.
      cbn [bs4.tokens_go]. rewrite Hrest, <- Hrev, rev_involutive.
      rewrite Ht, (tokens_go_spaces a Ha).
      cbn [bs4.tokens_go]. rewrite Hz.
      pose proof (tokens_go_some s'' z []) as Hsome.
      destruct (bs4.tokens_go [z] s''); [contradiction|]. reflexivity.
Qed.

Lemma tokens_go_words :
  forall s cur,
    free_of isspace cur ->
    Forall (fun w => w <> [] /\ free_of isspace w) (bs4.tokens_go cur s).
Proof.
  induction s as [|x s IH]; intros cur Hcur; cbn [bs4.tokens_go].
  - destruct cur as [|c cur]; [constructor|]. constructor; [|constructor]. split.
    + intros H. apply (f_equal (@length N)) in H. rewrite length_rev in H.
      discriminate H.
    + intros y Hy. apply Hcur. apply in_rev. exact Hy.
  - destruct (isspace x) eqn:Hx.
    + assert (Hnil : free_of isspace []) by (intros y []).
      destruct cur as [|c cur]; [apply (IH [] Hnil)|].
      constructor; [|apply (IH [] Hnil)]. split.
      * intros H. apply (f_equal (@length N)) in H. rewrite length_rev in H.
        discriminate H.
      * intros y Hy. apply Hcur. apply in_rev. exact Hy.
    + apply IH. intros y [<-|Hy]; [exact Hx|apply Hcur; exact Hy].
Qed.

Lemma clean_text_words (text : str) :
  match text with
  | [] => []
  | _ :: _ => re.sub false WHITESPACE_RUN (lit " ") (strip text)
  end
  = join (lit " ") (words text).
Proof.
  destruct text as [|c t]; [reflexivity|].
  unfold re.sub, strip, words, bs4.tokens.
  set (text := c :: t).
  pose proof (leading_lstrip isspace text) as Ht.
  pose proof (leading_all isspace text) as Ha.
  pose proof (lstrip_head isspace text) as Hhd.
  rewrite Ht at 3. rewrite (tokens_go_spaces _ Ha).
  apply (@clean_go (length (lstrip_with isspace text)) (lstrip_with isspace text)
            (le_n _) Hhd _ None (le_n _)).
Qed.

(** [_clean_text], in each of the three parsers, is
    [' '.join(text.split())]: what it returns is the words of the text, in
    order, with one space between two of them.  (A word is a longest run
    of characters that are not white space: it is not empty and no white
    space is in it.) *)
Theorem clean_text_joins_the_words (text : str) :
  hcservices_parser._clean_text text = join (lit " ") (words text)
  /\ judgments_parser._clean_text text = join (lit " ") (words text)
  /\ sci_parser._clean_text text = join (lit " ") (words text)
  /\ Forall (fun w => w <> [] /\ free_of isspace w) (words text).
Proof.
  split; [apply clean_text_words|]. split; [apply clean_text_words|].
  split; [apply clean_text_words|].
  apply tokens_go_words. intros y [].
Qed.

End CleanText.

(** ** The parsers: names, counts, links and records *)

Section Judges.
Import Py re pattern.
Local Open Scope N_scope.

Lemma comma_always_matches (prev : option N) (pre : str) (x : N) (s : str) :
  is_comma x = true -> match_here true COMMA_OR_AND prev pre (x :: s) <> None.
Proof.
  unfold is_comma. intros Hx. apply N.eqb_eq in Hx. subst x.
  unfold match_here, COMMA_OR_AND. cbn [run].
  change (chr_eq true 44 44) with true. cbv iota.
  match goal with
  | |- context [star ?p ?pv ?t ?k] =>
      destruct (@star_max Match p k ltac:(discriminate) t pv) as (prev' & Hs)
  end.
  rewrite Hs. discriminate.
Qed.

(** The names [_parse_judges] returns: none is empty, none has white space
    at either end, and none holds a comma. *)
Theorem parse_judges_gives_clean_names (text : str) :
  Forall (fun name => name <> [] /\ trimmed name /\ ~ In 44 name)
         (judgments_parser._parse_judges text).
Proof.
  unfold judgments_parser._parse_judges. apply Forall_forall. intros name Hin.
  apply in_map_iff in Hin. destruct Hin as (part & <- & Hpart).
  apply filter_In in Hpart. destruct Hpart as [Hpart Hne].
  split; [|split].
  - intros H. rewrite H in Hne. discriminate Hne.
  - apply strip_trimmed.
  - intros Hc. apply strip_incl in Hc.
    pose proof (@split_free true COMMA_OR_AND is_comma comma_always_matches
                  eq_refl
                  (sub true HONBLE [] (judgments_parser._clean_text text))) as Hfree.
    rewrite Forall_forall in Hfree. specialize (Hfree part Hpart 44 Hc).
    discriminate Hfree.
Qed.

End Judges.

Section Counts.
Import Py re models body.
Local Open Scope Z_scope.

Lemma search_go_is_a_match (ic : bool) (r : regex) :
  forall s prev pre_rev m,
    search_go ic r prev pre_rev s = Some m ->
    exists prev' pre' s', match_here ic r prev' pre' s' = Some m.
Proof.
  induction s as [|x s IH]; intros prev pre_rev m Hm; rewrite search_go_eq in Hm.
  - destruct (match_here ic r prev (rev pre_rev) []) eqn:Hh; [|discriminate].
    injection Hm as <-. eexists _, _, _. exact Hh.
  - destruct (match_here ic r prev (rev pre_rev) (x :: s)) eqn:Hh.
    + injection Hm as <-. eexists _, _, _. exact Hh.
    + apply (IH _ _ _ Hm).
Qed.

(** The group of the pattern of the total holds digits. *)
Lemma total_is_digits (prev : option N) (pre s : str) (m : Match) :
  match_here false OF_N prev pre s = Some m ->
  exists ds, m_groups m = [ds] /\ forallb isdigit ds = true.
Proof.
  unfold match_here, OF_N. change (Lit (lit "of")) with (Cat (Chr 111) (Chr 102)).
  cbn [run]. intros H.
  destruct s as [|x1 s]; [discriminate|].
  destruct (chr_eq false 111 x1); [|discriminate].
  destruct s as [|x2 s]; [discriminate|].
  destruct (chr_eq false 102 x2); [|discriminate].
  destruct s as [|x3 s]; [discriminate|].
  destruct (isspace x3); [|discriminate].
  apply star_spec in H. destruct H as (n & prev' & _ & _ & H).
  destruct (skipn n s) as [|y t1]; [discriminate|].
  destruct (isdigit y) eqn:Hy; [|discriminate].
  apply star_spec in H. destruct H as (n2 & prev'' & Hn2 & Hall & H).
  injection H as <-. cbn [m_groups app].
  exists (y :: firstn n2 t1). split.
  - f_equal. rewrite length_skipn.
    match goal with
    | |- firstn ?k _ = _ =>
        change k with (S (length t1) - (length t1 - n2))%nat
    end.
    replace (S (length t1) - (length t1 - n2))%nat with (S n2) by lia.
    reflexivity.
  - cbn [forallb]. rewrite Hy, Hall. reflexivity.
Qed.

Lemma digits_value_nonneg (ds : str) :
  forallb isdigit ds = true -> 0 <= digits_value ds.
Proof.
  unfold digits_value. assert (H : forall acc, 0 <= acc ->
    forallb isdigit ds = true ->
    0 <= fold_left (fun acc d => 10 * acc + (Z.of_N d - 48)) ds acc).
  { induction ds as [|d ds IH]; intros acc Hacc Hds; [exact Hacc|].
    cbn [forallb] in Hds. apply andb_prop in Hds. destruct Hds as [Hd Hds].
    cbn [fold_left]. apply IH; [|exact Hds].
    unfold isdigit in Hd. apply andb_prop in Hd. destruct Hd as [Hlo _].
    apply N.leb_le in Hlo. lia. }
  apply H. lia.
Qed.

Lemma parse_total_count_nonneg (soup : bs4.Node) :
  0 <= judgments_parser._parse_total_count soup.
Proof.
  unfold judgments_parser._parse_total_count.
  destruct (judgments_parser.pagination soup) as [p|]; [|lia].
  unfold re.search.
  destruct (search_go false OF_N None [] (bs4.get_text p)) as [m|] eqn:Hm; [|lia].
  apply search_go_is_a_match in Hm. destruct Hm as (prev' & pre' & s' & Hm).
  apply total_is_digits in Hm. destruct Hm as (ds & -> & Hds).
  apply digits_value_nonneg. exact Hds.
Qed.

(** The counts of a parsed page of judgments are never negative, and
    neither is the number of pages [total_pages] makes of them (no page
    without a row divides by zero).  When the pagination gives no total,
    the result is one page if a judgment was read and none otherwise. *)
Theorem judgment_search_pages (L : libs) (html base_url : str) (page : Z) :
  0 <= SearchResult.total_count
         (judgments_parser.parse_judgment_search L html base_url page)
  /\ 0 <= SearchResult.page_size
            (judgments_parser.parse_judgment_search L html base_url page)
  /\ 0 <= SearchResult.total_pages
            (judgments_parser.parse_judgment_search L html base_url page)
  /\ (no_total (BeautifulSoup L html) ->
      SearchResult.total_pages
        (judgments_parser.parse_judgment_search L html base_url page)
      = match SearchResult.items
                (judgments_parser.parse_judgment_search L html base_url page) with
        | [] => 0
        | _ :: _ => 1
        end).
Proof.
  unfold judgments_parser.parse_judgment_search.
  destruct (judgments_parser.result_table (BeautifulSoup L html)) as [table|].
  2:{ cbn. repeat split; try lia. }
  set (judgments := fold_left (judgments_parser.judgment_row base_url) _ []).
  pose proof (parse_total_count_nonneg (BeautifulSoup L html)) as Htotal.
  set (total := judgments_parser._parse_total_count (BeautifulSoup L html)) in *.
  assert (Hlen : 0 <= judgments_parser.len judgments)
    by (unfold judgments_parser.len; lia).
  unfold SearchResult.total_pages.
  cbn [SearchResult.total_count SearchResult.page_size SearchResult.items].
  assert (Hcount : 0 <= (if total =? 0 then judgments_parser.len judgments else total))
    by (destruct (total =? 0); assumption).
  split; [exact Hcount|]. split; [exact Hlen|]. split.
  - destruct (Z.eqb_spec (judgments_parser.len judgments) 0); [lia|].
    apply Z.div_pos; lia.
  - intros Hno. unfold total. rewrite (no_total_count _ Hno). cbn [Z.eqb].
    unfold judgments_parser.len in *.
    destruct judgments as [|j js]; [reflexivity|]. cbn [map length].
    destruct (Z.eqb_spec (Z.of_nat (S (length js))) 0); [lia|].
    symmetry. apply Z.div_unique with (r := Z.of_nat (S (length js)) - 1); lia.
Qed.

End Counts.

Section CauseList.
Import Py models tables.
Local Open Scope N_scope.

Lemma startswith_app (a b : str) : startswith a (a ++ b) = true.
Proof.
  induction a as [|c a IH]; [reflexivity|]. simpl. rewrite N.eqb_refl. exact IH.
Qed.

Lemma cause_list_row_appends (base_url : str) (results : list CauseListPDF.t)
    (row : bs4.Node) :
  hcservices_parser.cause_list_row base_url results row
  = results ++ hcservices_parser.cause_list_row base_url [] row.
Proof.
  unfold hcservices_parser.cause_list_row.
  destruct (hcservices_parser.len _ <? 4)%Z; [rewrite app_nil_r|]; reflexivity.
Qed.

Lemma parse_cause_list_rows (L : libs) (html base_url : str) :
  hcservices_parser.parse_cause_list L html base_url
  = flat_map (hcservices_parser.cause_list_row base_url [])
             (cause_list_rows (BeautifulSoup L html)).
Proof.
  unfold hcservices_parser.parse_cause_list, cause_list_rows.
  destruct (bs4.or_else _ _); [|reflexivity].
  apply (fold_left_rows (hcservices_parser.cause_list_row base_url)
           (hcservices_parser.cause_list_row base_url [])).
  intros. apply cause_list_row_appends.
Qed.

(** The cause list.  [parse_cause_list] gives one entry for each row of
    the table (the header apart) that has four cells at least, whatever
    its cells hold: a serial number that is no number does not lose the
    row.  And when a base address is given, no link is left relative:
    each is empty, or starts with http, or is under the query directory of
    the base address. *)
Theorem cause_list_rows_and_links (L : libs) (html base_url : str) :
  length (hcservices_parser.parse_cause_list L html base_url)
  = length (filter (wide 4) (cause_list_rows (BeautifulSoup L html)))
  /\ (base_url <> [] ->
      Forall (fun entry => absolute base_url (CauseListPDF.pdf_url entry))
             (hcservices_parser.parse_cause_list L html base_url)).
Proof.
  rewrite parse_cause_list_rows. split.
  - apply length_flat_map_filter. intros row.
    unfold hcservices_parser.cause_list_row, wide.
    destruct (Z.ltb_spec (hcservices_parser.len (bs4.find_all (lit "td") bs4.any row)) 4);
      destruct (Z.leb_spec 4 (hcservices_parser.len (bs4.find_all (lit "td") bs4.any row)));
      try lia; reflexivity.
  - intros Hbase. apply Forall_forall. intros entry Hin.
    apply in_flat_map in Hin. destruct Hin as (row & _ & Hin).
    unfold hcservices_parser.cause_list_row in Hin.
    destruct (hcservices_parser.len _ <? 4)%Z; [destruct Hin|].
    destruct Hin as [<-|[]]. cbn [CauseListPDF.pdf_url]. unfold absolute.
    destruct (bs4.find (lit "a") bs4.any _) as [link|]; [|left; reflexivity].
    destruct (bs4.get link (lit "href")) as [[|c raw_href]|]; try (left; reflexivity).
    destruct (startswith (lit "http") (strip (c :: raw_href))) eqn:Hhttp.
    + right. left. exact Hhttp.
    + destruct base_url as [|b base]; [contradiction|].
      right. right. rewrite app_assoc. apply startswith_app.
Qed.

End CauseList.

Section Records.
Import Py models records.
Local Open Scope N_scope.

Variable L : libs.

Lemma case_status_record_read (record : obj) :
  well_formed record ->
  exists c,
    hcservices_parser.case_status_record L record = Return c
    /\ CaseInfo.cnr_number c = field (lit "cino") record
    /\ CaseInfo.filing_number c = field (lit "case_no") record
    /\ CaseInfo.petitioner c = first_true [field (lit "pet_name") record] (Str [])
    /\ CaseInfo.respondent c = first_true [field (lit "res_name") record] (Str []).
Proof.
  intros (rec & t & -> & Hdate). unfold hcservices_parser.case_status_record.
  rewrite Hdate. cbn [bind]. eexists. split; [reflexivity|].
  cbn [CaseInfo.cnr_number CaseInfo.filing_number CaseInfo.petitioner
       CaseInfo.respondent field first_true fold_right].
  unfold get. repeat split.
  - destruct (dict_get rec (lit "pet_name")) as [v|]; [reflexivity|].
    reflexivity.
  - destruct (dict_get rec (lit "res_name")) as [v|]; [reflexivity|].
    reflexivity.
Qed.

Lemma case_status_record_unread (record : obj) :
  ~ well_formed record ->
  hcservices_parser.case_status_record L record = Raise AttributeError.
Proof.
  intros Hbad. unfold hcservices_parser.case_status_record.
  destruct record as [| | | | | | | |rec]; try reflexivity.
  destruct (get rec (lit "reg_date") (Str [])) as [| | | | | |t| |] eqn:Hdate;
    try reflexivity.
  exfalso. apply Hbad. exists rec, t. auto.
Qed.

Lemma case_status_records_read :
  forall records results,
    Forall well_formed records ->
    exists cases,
      hcservices_parser.case_status_records L records results
      = Return (results ++ cases)
      /\ map CaseInfo.cnr_number cases = map (field (lit "cino")) records
      /\ map CaseInfo.filing_number cases = map (field (lit "case_no")) records
      /\ map CaseInfo.petitioner cases
         = map (fun r => first_true [field (lit "pet_name") r] (Str [])) records
      /\ map CaseInfo.respondent cases
         = map (fun r => first_true [field (lit "res_name") r] (Str [])) records.
Proof.
  induction records as [|record records IH]; intros results Hall.
  - exists []. rewrite app_nil_r. repeat split.
  - inversion Hall as [|? ? Hrec Hrest]; subst.
    destruct (case_status_record_read Hrec) as (c & Hc & H1 & H2 & H3 & H4).
    destruct (IH (results ++ [c]) Hrest) as (cases & Hrun & G1 & G2 & G3 & G4).
    exists (c :: cases). cbn [hcservices_parser.case_status_records].
    rewrite Hc. cbn [bind]. rewrite Hrun, <- app_assoc. cbn [map app].
    rewrite H1, H2, H3, H4, G1, G2, G3, G4. repeat split.
Qed.

Lemma case_status_records_unread :
  forall records results,
    Exists (fun record => ~ well_formed record) records ->
    hcservices_parser.case_status_records L records results = Raise AttributeError.
Proof.
  induction records as [|record records IH]; intros results Hex.
  - inversion Hex.
  - cbn [hcservices_parser.case_status_records].
    destruct (hcservices_parser.case_status_record L record) as [c|e] eqn:Hc.
    + cbn [bind]. apply IH. inversion Hex as [? ? Hbad|? ? Hrest]; subst; [|exact Hrest].
      rewrite (case_status_record_unread Hbad) in Hc. discriminate.
    + cbn [bind]. f_equal.
      unfold hcservices_parser.case_status_record in Hc.
      destruct record as [| | | | | | | |rec]; try (injection Hc as <-; reflexivity).
      destruct (get rec (lit "reg_date") (Str [])); cbn [bind] in Hc;
        try (injection Hc as <-; reflexivity); discriminate.
Qed.

(** The cases of an envelope.  [parse_case_status], on a body that is no
    table, returns cases only when [_parse_json_envelope] has returned the
    records (which asks, among other things, that [int] takes what
    [totRecords] holds): what the envelope raises, [parse_case_status]
    raises, and no case is returned.  When the envelope is read and its
    records are objects whose [reg_date] is a string or missing, there is
    one case for each record, in the order of the records and whatever
    number [totRecords] gave: its number, filing number and parties are
    the fields [cino], [case_no], [pet_name] and [res_name] of the record
    (an empty string for a field that is missing, and for a party that is
    null or empty). *)
Theorem parse_case_status_reads_every_record (raw : str) :
  contains (lit "<table") (lower raw) = false ->
  (forall records total,
     hcservices_parser._parse_json_envelope raw = Return (records, total) ->
     Forall well_formed records ->
     exists cases,
       hcservices_parser.parse_case_status L raw = Return cases
       /\ length cases = length records
       /\ map CaseInfo.cnr_number cases = map (field (lit "cino")) records
       /\ map CaseInfo.filing_number cases = map (field (lit "case_no")) records
       /\ map CaseInfo.petitioner cases
          = map (fun r => first_true [field (lit "pet_name") r] (Str [])) records
       /\ map CaseInfo.respondent cases
          = map (fun r => first_true [field (lit "res_name") r] (Str [])) records)
  /\ (forall e,
        hcservices_parser._parse_json_envelope raw = Raise e ->
        hcservices_parser.parse_case_status L raw = Raise e).
Proof.
  intros Hraw. unfold hcservices_parser.parse_case_status. rewrite Hraw. split.
  - intros records total Henv Hall. rewrite Henv. cbn [bind].
    destruct (case_status_records_read [] Hall) as (cases & Hrun & H1 & H2 & H3 & H4).
    exists cases. split; [exact Hrun|]. split; [|auto].
    rewrite <- (length_map CaseInfo.cnr_number cases), H1. apply length_map.
  - intros e Henv. rewrite Henv. reflexivity.
Qed.

(** One record that cannot be read loses them all.  When a record of the
    envelope is no object, or is an object whose [reg_date] is not a
    string (null, say), [parse_case_status] raises [AttributeError] and
    returns no case at all, not even those of the records before it. *)
Theorem parse_case_status_fails_on_one_bad_record (raw : str) (records : list obj)
    (total : Z) :
  contains (lit "<table") (lower raw) = false ->
  hcservices_parser._parse_json_envelope raw = Return (records, total) ->
  Exists (fun record => ~ well_formed record) records ->
  hcservices_parser.parse_case_status L raw = Raise AttributeError.
Proof.
  intros Hraw Henv Hex. unfold hcservices_parser.parse_case_status.
  rewrite Hraw, Henv. cbn [bind]. apply case_status_records_unread. exact Hex.
Qed.

End Records.

Section RecordScenarios.
Import Py models records scenario cases.

(** The envelope of the two records of the test suite; and an envelope
    whose [totRecords] is the text abc, of which no case is returned. *)
Lemma parse_case_status_reads_every_record_witness :
  (exists cases,
     hcservices_parser.parse_case_status plain_libs two_records = Return cases
     /\ length cases = length (fst (decoded two_records))
     /\ map CaseInfo.cnr_number cases
        = map (field (lit "cino")) (fst (decoded two_records))
     /\ map CaseInfo.filing_number cases
        = map (field (lit "case_no")) (fst (decoded two_records))
     /\ map CaseInfo.petitioner cases
        = map (fun r => first_true [field (lit "pet_name") r] (Str []))
              (fst (decoded two_records))
     /\ map CaseInfo.respondent cases
        = map (fun r => first_true [field (lit "res_name") r] (Str []))
              (fst (decoded two_records)))
  /\ hcservices_parser.parse_case_status plain_libs unread_total = Raise ValueError.
Proof.
  split.
  - apply (proj1 (@parse_case_status_reads_every_record plain_libs two_records
                    ltac:(vm_compute; reflexivity))
             (fst (decoded two_records)) (snd (decoded two_records))).
    + vm_compute. reflexivity.
    + constructor; [eexists _, _; split; vm_compute; reflexivity|].
      constructor; [eexists _, _; split; vm_compute; reflexivity|].
      constructor.
  - apply (proj2 (@parse_case_status_reads_every_record plain_libs unread_total
                    ltac:(vm_compute; reflexivity))).
    vm_compute. reflexivity.
Defined.

(** The null registration date of the second record loses the first too. *)
Lemma parse_case_status_fails_on_one_bad_record_witness :
  hcservices_parser.parse_case_status plain_libs null_date = Raise AttributeError.
Proof.
  apply (@parse_case_status_fails_on_one_bad_record plain_libs null_date
           (fst (decoded null_date)) (snd (decoded null_date))).
  - vm_compute. reflexivity.
  - vm_compute. reflexivity.
  - right. left. intros (rec & t & Hrec & Hdate).
    vm_compute in Hrec. injection Hrec as <-. vm_compute in Hdate. discriminate Hdate.
Defined.

End RecordScenarios.

(** ** Dates: what is written is read back *)

Section Directives.
Import Py re datetime calendar.
Local Open Scope Z_scope.

Lemma in_numbers (lo len n : Z) :
  lo <= n < lo + len -> In n (numbers lo len).
Proof.
  intros H. unfold numbers.
  replace n with (lo + Z.of_nat (Z.to_nat (n - lo))) by lia.
  apply (in_map (fun i => lo + Z.of_nat i)). apply in_seq. lia.
Qed.

Lemma years_read (n : Z) : 1000 <= n <= 9999 -> reads_as_year n = true.
Proof.
  intros H.
  assert (Hall : forallb reads_as_year (numbers 1000 9000) = true)
    by (vm_compute; reflexivity).
  rewrite forallb_forall in Hall. apply Hall. apply in_numbers. lia.
Qed.

Lemma two_digits_read (n : Z) : 1 <= n <= 31 -> reads_as_two n = true.
Proof.
  intros H.
  assert (Hall : forallb reads_as_two (numbers 1 31) = true)
    by (vm_compute; reflexivity).
  rewrite forallb_forall in Hall. apply Hall. apply in_numbers. lia.
Qed.

Variable A : Type.
Variable k : option N -> str -> list str -> option A.

Lemma run_year (a b c e : N) (prev : option N) (rest : str) (caps : list str) :
  isdigit a = true -> isdigit b = true -> isdigit c = true -> isdigit e = true ->
  run true DIRECTIVE_Y prev (a :: b :: c :: e :: rest) caps k
  = k (Some e) rest (caps ++ [[a; b; c; e]]).
Proof.
  intros Ha Hb Hc He. unfold DIRECTIVE_Y. cbn [run]. rewrite Ha, Hb, Hc, He.
  change (a :: b :: c :: e :: rest) with ([a; b; c; e] ++ rest).
  rewrite firstn_consumed. reflexivity.
Qed.

Lemma run_day (n : Z) (prev : option N) (rest : str) (caps : list str) (x : A) :
  1 <= n <= 31 ->
  (forall p, k p rest (caps ++ [two_digits n]) = Some x) ->
  run true DIRECTIVE_d prev (two_digits n ++ rest) caps k = Some x.
Proof.
  intros Hn. assert (Hin : In n (numbers 1 31)) by (apply in_numbers; lia).
  intros Hk.
  vm_compute in Hin.
  repeat (destruct Hin as [<-|Hin];
    [ match goal with
      | |- context [two_digits ?z] =>
          let v := eval vm_compute in (two_digits z) in
          change (two_digits z) with v in *
      end;
      unfold DIRECTIVE_d; cbn [run app]; evaluate_classes;
      match goal with
      | |- context [firstn _ (?a :: ?b :: rest)] =>
          change (a :: b :: rest) with ([a; b] ++ rest)
      end;
      rewrite firstn_consumed, Hk; reflexivity
    | ]).
  destruct Hin.
Qed.

Lemma run_month (n : Z) (prev : option N) (rest : str) (caps : list str) (x : A) :
  1 <= n <= 12 ->
  (forall p, k p rest (caps ++ [two_digits n]) = Some x) ->
  run true DIRECTIVE_m prev (two_digits n ++ rest) caps k = Some x.
Proof.
  intros Hn. assert (Hin : In n (numbers 1 12)) by (apply in_numbers; lia).
  intros Hk.
  vm_compute in Hin.
  repeat (destruct Hin as [<-|Hin];
    [ match goal with
      | |- context [two_digits ?z] =>
          let v := eval vm_compute in (two_digits z) in
          change (two_digits z) with v in *
      end;
      unfold DIRECTIVE_m; cbn [run app]; evaluate_classes;
      match goal with
      | |- context [firstn _ (?a :: ?b :: rest)] =>
          change (a :: b :: rest) with ([a; b] ++ rest)
      end;
      rewrite firstn_consumed, Hk; reflexivity
    | ]).
  destruct Hin.
Qed.

End Directives.

Section RoundTrips.
Import Py re datetime calendar strptime.
Local Open Scope Z_scope.

Lemma chr_eq_same (c : N) : chr_eq true c c = true.
Proof. unfold chr_eq. rewrite N.eqb_refl. reflexivity. Qed.

Lemma firstn_whole {X} (l : list X) : firstn (length l - length (@nil X)) l = l.
Proof. cbn [length]. rewrite Nat.sub_0_r. apply firstn_all. Qed.

(** A day, a month and a year written in the order day, month, year with
    a separator: the pattern of that format reads the three texts. *)
Lemma match_all_dmy (sep : N) (dd mm : Z) (a b c e : N) :
  1 <= dd <= 31 -> 1 <= mm <= 12 ->
  isdigit a = true -> isdigit b = true -> isdigit c = true -> isdigit e = true ->
  match_all true (pattern [Day; Literal sep; Month; Literal sep; Year])
            (two_digits dd ++ sep :: two_digits mm ++ sep :: [a; b; c; e])
  = Some [two_digits dd; two_digits mm; [a; b; c; e]].
Proof.
  intros Hd Hm Ha Hb Hc He. unfold match_all.
  set (text := two_digits dd ++ sep :: two_digits mm ++ sep :: [a; b; c; e]).
  assert (Hrun : match_here true (pattern [Day; Literal sep; Month; Literal sep; Year])
                            None [] text
                 = Some (mkMatch [] text []
                           [two_digits dd; two_digits mm; [a; b; c; e]])).
  { unfold match_here. cbn [pattern]. cbn [run]. unfold text at 1.
    apply run_day; [exact Hd|]. intros p. cbn [run]. rewrite chr_eq_same.
    apply run_month; [exact Hm|]. intros p'. cbn [run]. rewrite chr_eq_same.
    rewrite run_year by assumption. cbn [run app]. rewrite firstn_whole. reflexivity. }
  rewrite Hrun. reflexivity.
Qed.

(** ... and so in the order year, month, day. *)
Lemma match_all_ymd (dd mm : Z) (a b c e : N) :
  1 <= dd <= 31 -> 1 <= mm <= 12 ->
  isdigit a = true -> isdigit b = true -> isdigit c = true -> isdigit e = true ->
  match_all true (pattern YMD_DASH)
            ([a; b; c; e] ++ 45%N :: two_digits mm ++ 45%N :: two_digits dd)
  = Some [[a; b; c; e]; two_digits mm; two_digits dd].
Proof.
  intros Hd Hm Ha Hb Hc He. unfold match_all.
  set (text := [a; b; c; e] ++ 45%N :: two_digits mm ++ 45%N :: two_digits dd).
  assert (Hrun : match_here true (pattern YMD_DASH) None [] text
                 = Some (mkMatch [] text []
                           [[a; b; c; e]; two_digits mm; two_digits dd])).
  { unfold match_here, YMD_DASH. cbn [pattern]. cbn [run]. unfold text at 1.
    cbn [app]. rewrite run_year by assumption. cbn [run]. rewrite chr_eq_same.
    apply run_month; [exact Hm|]. intros p. cbn [run]. rewrite chr_eq_same.
    rewrite <- (app_nil_r (two_digits dd)) at 1.
    apply run_day; [exact Hd|]. intros p'.
    cbn [run app]. rewrite firstn_whole. reflexivity. }
  rewrite Hrun. reflexivity.
Qed.

Lemma strptime_dmy_is_strptime (text : str) :
  strptime_dmy text = strptime DMY_DASH text.
Proof.
  unfold strptime_dmy, strptime.
  change (match_all true (pattern DMY_DASH) text) with (match_all true DMY text).
  destruct (match_all true DMY text) as [[|g1 [|g2 [|g3 [|g4 gs]]]]|]; reflexivity.
Qed.

Lemma days_in_month_bound (y m : Z) : days_in_month y m <= 31.
Proof.
  unfold days_in_month.
  destruct (m =? 2); [destruct (is_leap y); lia|].
  destruct ((m =? 4) || (m =? 6) || (m =? 9) || (m =? 11))%bool; lia.
Qed.

Lemma valid_bounds (d : date) :
  valid d -> 1 <= year d <= 9999 /\ 1 <= month d <= 12 /\ 1 <= day d <= 31.
Proof.
  unfold valid, make_date. intros H.
  destruct ((1 <=? year d) && (year d <=? 9999) && (1 <=? month d)
            && (month d <=? 12) && (1 <=? day d)
            && (day d <=? days_in_month (year d) (month d)))%bool eqn:Hb;
    [|discriminate].
  apply andb_prop in Hb. destruct Hb as [Hb H6].
  apply andb_prop in Hb. destruct Hb as [Hb H5].
  apply andb_prop in Hb. destruct Hb as [Hb H4].
  apply andb_prop in Hb. destruct Hb as [Hb H3].
  apply andb_prop in Hb. destruct Hb as [H1 H2].
  pose proof (days_in_month_bound (year d) (month d)).
  apply Z.leb_le in H1, H2, H3, H4, H5, H6. lia.
Qed.

Lemma year_text (n : Z) :
  1000 <= n <= 9999 ->
  exists a b c e,
    str_of_int n = [a; b; c; e]
    /\ isdigit a = true /\ isdigit b = true /\ isdigit c = true /\ isdigit e = true
    /\ digits_value [a; b; c; e] = n.
Proof.
  intros H. pose proof (years_read H) as Hr. unfold reads_as_year in Hr.
  destruct (str_of_int n) as [|a [|b [|c [|e [|f t]]]]]; try discriminate.
  apply andb_prop in Hr. destruct Hr as [Hr Hval].
  apply andb_prop in Hr. destruct Hr as [Hr He].
  apply andb_prop in Hr. destruct Hr as [Hr Hc].
  apply andb_prop in Hr. destruct Hr as [Ha Hb].
  exists a, b, c, e. apply Z.eqb_eq in Hval. auto 10.
Qed.

Lemma two_text (n : Z) :
  1 <= n <= 31 ->
  digits_value (two_digits n) = n /\ strip (two_digits n) = two_digits n.
Proof.
  intros H. pose proof (two_digits_read H) as Hr. unfold reads_as_two in Hr.
  destruct (two_digits n) as [|a [|b [|c t]]]; try discriminate.
  apply andb_prop in Hr. destruct Hr as [Hr Hs].
  apply andb_prop in Hr. destruct Hr as [_ Hval].
  split; [apply Z.eqb_eq; assumption|]. apply eqb_eq. assumption.
Qed.

(** Each of the four formats reads what it writes, for a day of the
    calendar whose year has four digits. *)
Lemma strptime_strftime (fmt : format) (d : date) :
  valid d -> 1000 <= year d ->
  In fmt [DMY_DASH; DMY_SLASH; DMY_DOT; YMD_DASH] ->
  strptime fmt (strftime fmt d) = Return d.
Proof.
  intros Hv Hy Hfmt. destruct (valid_bounds Hv) as (Hyear & Hmonth & Hday).
  destruct (year_text (n := year d) ltac:(lia))
    as (a & b & c & e & Htext & Ha & Hb & Hc & He & Hval).
  destruct (two_text (n := day d) ltac:(lia)) as [Hdv Hds].
  destruct (two_text (n := month d) ltac:(lia)) as [Hmv _].
  unfold strptime.
  destruct Hfmt as [<-|[<-|[<-|[<-|[]]]]];
    unfold DMY_DASH, DMY_SLASH, DMY_DOT, YMD_DASH.
  - cbn [strftime app]. fold (two_digits (day d)). fold (two_digits (month d)).
    rewrite Htext, app_nil_r.
    change (two_digits (day d) ++ 45%N :: two_digits (month d) ++ [45%N; a; b; c; e])
      with (two_digits (day d) ++ 45%N :: two_digits (month d) ++ 45%N :: [a; b; c; e]).
    rewrite match_all_dmy by (assumption || lia).
    cbn [assign]. rewrite Hds, Hdv, Hmv, Hval. exact Hv.
  - cbn [strftime app]. fold (two_digits (day d)). fold (two_digits (month d)).
    rewrite Htext, app_nil_r.
    change (two_digits (day d) ++ 47%N :: two_digits (month d) ++ [47%N; a; b; c; e])
      with (two_digits (day d) ++ 47%N :: two_digits (month d) ++ 47%N :: [a; b; c; e]).
    rewrite match_all_dmy by (assumption || lia).
    cbn [assign]. rewrite Hds, Hdv, Hmv, Hval. exact Hv.
  - cbn [strftime app]. fold (two_digits (day d)). fold (two_digits (month d)).
    rewrite Htext, app_nil_r.
    change (two_digits (day d) ++ 46%N :: two_digits (month d) ++ [46%N; a; b; c; e])
      with (two_digits (day d) ++ 46%N :: two_digits (month d) ++ 46%N :: [a; b; c; e]).
    rewrite match_all_dmy by (assumption || lia).
    cbn [assign]. rewrite Hds, Hdv, Hmv, Hval. exact Hv.
  - cbn [strftime app]. fold (two_digits (day d)). fold (two_digits (month d)).
    rewrite Htext, app_nil_r. cbn [app].
    change (a :: b :: c :: e :: 45%N :: two_digits (month d) ++ 45%N :: two_digits (day d))
      with ([a; b; c; e] ++ 45%N :: two_digits (month d) ++ 45%N :: two_digits (day d)).
    fold YMD_DASH. rewrite match_all_ymd by (assumption || lia).
    unfold YMD_DASH. cbn [assign]. rewrite Hds, Hdv, Hmv, Hval. exact Hv.
Qed.

End RoundTrips.

Section OtherFormats.
Import Py re datetime calendar strptime pattern.
Local Open Scope Z_scope.

Lemma digit_is_no_separator (sep x : N) :
  In sep [45%N; 47%N; 46%N] -> isdigit x = true -> chr_eq true sep x = false.
Proof.
  intros Hsep Hx. unfold isdigit in Hx. apply andb_prop in Hx. destruct Hx as [H1 H2].
  apply N.leb_le in H1, H2.
  assert (Hlow : lower_char x = x).
  { unfold lower_char, isupper. destruct (N.leb_spec 65 x); [lia|reflexivity]. }
  unfold chr_eq. rewrite Hlow.
  destruct Hsep as [<-|[<-|[<-|[]]]];
    match goal with
    | |- orb (N.eqb (lower_char ?c) _) (mem _ (folds (lower_char ?c))) = false =>
        change (lower_char c) with c; change (folds c) with (@nil N)
    end;
    cbn [mem existsb]; rewrite orb_false_r; apply N.eqb_neq; lia.
Qed.

Lemma digit_is_no_space (x : N) : isdigit x = true -> isspace x = false.
Proof.
  intros Hx. unfold isdigit in Hx. apply andb_prop in Hx. destruct Hx as [H1 H2].
  apply N.leb_le in H1, H2. unfold isspace.
  repeat match goal with
         | |- context [N.leb ?a ?b] => destruct (N.leb_spec a b); try lia
         | |- context [N.eqb ?a ?b] => destruct (N.eqb_spec a b); try lia
         end; reflexivity.
Qed.

(** A day and another separator than that of the format: no match. *)
Lemma dmy_rejects_other_separator (sep sep' : N) (dd : Z) (rest : str) :
  In (sep, sep') [(45%N, 47%N); (45%N, 46%N); (47%N, 46%N)] ->
  1 <= dd <= 31 ->
  match_all true (pattern [Day; Literal sep; Month; Literal sep; Year])
            (two_digits dd ++ sep' :: rest) = None.
Proof.
  intros Hsep Hn. assert (Hin : In dd (numbers 1 31)) by (apply in_numbers; lia).
  vm_compute in Hin.
  destruct Hsep as [Hs|[Hs|[Hs|[]]]]; injection Hs as <- <-;
    repeat (destruct Hin as [<-|Hin]; [vm_compute; reflexivity|]);
    destruct Hin.
Qed.

(** A year first: no match for a format that starts with the day. *)
Lemma dmy_rejects_year_first (sep : N) (a b c : N) (rest : str) :
  In sep [45%N; 47%N; 46%N] ->
  isdigit b = true -> isdigit c = true ->
  match_all true (pattern [Day; Literal sep; Month; Literal sep; Year])
            (a :: b :: c :: rest) = None.
Proof.
  intros Hsep Hb Hc. unfold match_all, match_here. cbn [pattern].
  unfold DIRECTIVE_d. cbn [run].
  rewrite (@digit_is_no_separator _ _ Hsep Hb), (@digit_is_no_separator _ _ Hsep Hc).
  split_tests; reflexivity.
Qed.

End OtherFormats.

Section DatesReadBack.
Import Py re datetime calendar strptime pattern.
Local Open Scope Z_scope.

Lemma two_chars (n : Z) :
  1 <= n <= 31 ->
  exists x y, two_digits n = [x; y] /\ isdigit x = true /\ isdigit y = true.
Proof.
  intros H. pose proof (two_digits_read H) as Hr. unfold reads_as_two in Hr.
  destruct (two_digits n) as [|a [|b [|c t]]]; try discriminate.
  apply andb_prop in Hr. destruct Hr as [Hr _].
  apply andb_prop in Hr. destruct Hr as [Hr _].
  apply andb_prop in Hr. destruct Hr as [Ha Hb].
  exists a, b. auto.
Qed.

(** The text of a date in one of the four formats: ten characters, of
    which the first and the last are digits. *)
Lemma strftime_text (fmt : format) (d : date) :
  valid d -> 1000 <= year d ->
  In fmt [DMY_DASH; DMY_SLASH; DMY_DOT; YMD_DASH] ->
  exists x1 x2 x3 x4 x5 x6 x7 x8 x9 x10,
    strftime fmt d = [x1; x2; x3; x4; x5; x6; x7; x8; x9; x10]
    /\ isdigit x1 = true /\ isdigit x2 = true /\ isdigit x10 = true
    /\ (fmt = YMD_DASH -> isdigit x3 = true).
Proof.
  intros Hv Hy Hfmt. destruct (valid_bounds Hv) as (Hyear & Hmonth & Hday).
  destruct (year_text (n := year d) ltac:(lia))
    as (a & b & c & e & Htext & Ha & Hb & Hc & He & _).
  destruct (two_chars (n := day d) ltac:(lia)) as (d1 & d2 & Hd & Hd1 & Hd2).
  destruct (two_chars (n := month d) ltac:(lia)) as (m1 & m2 & Hm & Hm1 & Hm2).
  unfold two_digits in Hd, Hm.
  destruct Hfmt as [<-|[<-|[<-|[<-|[]]]]];
    unfold DMY_DASH, DMY_SLASH, DMY_DOT, YMD_DASH; cbn [strftime];
    rewrite Htext, Hd, Hm; cbn [app];
    do 10 eexists; (split; [reflexivity|]);
    repeat (split; [assumption|]); first [discriminate|intros _; assumption].
Qed.

Lemma strftime_strip (fmt : format) (d : date) :
  valid d -> 1000 <= year d ->
  In fmt [DMY_DASH; DMY_SLASH; DMY_DOT; YMD_DASH] ->
  strip (strftime fmt d) = strftime fmt d.
Proof.
  intros Hv Hy Hfmt.
  destruct (strftime_text Hv Hy Hfmt)
    as (x1 & x2 & x3 & x4 & x5 & x6 & x7 & x8 & x9 & x10 & -> & H1 & _ & H10 & _).
  apply trimmed_strip. split; cbn [rev app]; apply digit_is_no_space; assumption.
Qed.

Lemma strftime_dmy_is_strftime (d : date) :
  hcservices_endpoints.strftime_dmy d = strftime DMY_DASH d.
Proof.
  unfold hcservices_endpoints.strftime_dmy, DMY_DASH. cbn [strftime].
  rewrite app_nil_r. reflexivity.
Qed.

Lemma isoformat_is_strftime (d : date) :
  valid d -> 1000 <= year d -> isoformat d = strftime YMD_DASH d.
Proof.
  intros Hv Hy. destruct (valid_bounds Hv) as (Hyear & _ & _).
  destruct (year_text (n := year d) ltac:(lia)) as (a & b & c & e & Htext & _).
  unfold isoformat, YMD_DASH. cbn [strftime]. rewrite Htext, app_nil_r. reflexivity.
Qed.

(** A date in the format of the portal is not one the other way round. *)
Lemma dash_rejects_iso (d : date) :
  valid d -> 1000 <= year d ->
  strptime DMY_DASH (strftime YMD_DASH d) = Raise ValueError.
Proof.
  intros Hv Hy.
  destruct (@strftime_text YMD_DASH d Hv Hy ltac:(simpl; auto))
    as (x1 & x2 & x3 & x4 & x5 & x6 & x7 & x8 & x9 & x10 & -> & H1 & H2 & H10 & H3).
  specialize (H3 eq_refl).
  unfold strptime, DMY_DASH.
  rewrite (@dmy_rejects_year_first 45%N x1 x2 x3 _ ltac:(simpl; auto) H2 H3).
  reflexivity.
Qed.

(** The dates of the portals.  For a day of the calendar whose year has
    four digits, the text [strftime('%d-%m-%Y')] writes (which is what
    [cause_list_form] puts in the form when the caller gives no date) is
    read back as that day by [strptime] with the same format, and so by
    the [_parse_date] of both parsers; the text [isoformat] writes, which
    [to_dict] gives, is not read by them. *)
Theorem portal_dates_are_read_back (d : date) :
  valid d ->
  1000 <= year d ->
  strptime_dmy (hcservices_endpoints.strftime_dmy d) = Return d
  /\ hcservices_parser._parse_date (hcservices_endpoints.strftime_dmy d) = Some d
  /\ judgments_parser._parse_date (hcservices_endpoints.strftime_dmy d) = Some d
  /\ (forall state_code court_code captcha flag selprevdays,
        form_value (hcservices_endpoints.cause_list_form d state_code court_code
                      captcha [] flag selprevdays)
                   (lit "causelist_date")
        = Some (hcservices_endpoints.strftime_dmy d))
  /\ hcservices_parser._parse_date (isoformat d) = None
  /\ judgments_parser._parse_date (isoformat d) = None.
Proof.
  intros Hv Hy.
  assert (Hform : forall state_code court_code captcha flag selprevdays,
             form_value (hcservices_endpoints.cause_list_form d state_code
                           court_code captcha [] flag selprevdays)
                        (lit "causelist_date")
             = Some (hcservices_endpoints.strftime_dmy d))
    by (intros; reflexivity).
  assert (Hdash : In DMY_DASH [DMY_DASH; DMY_SLASH; DMY_DOT; YMD_DASH])
    by (simpl; auto).
  assert (Hiso : In YMD_DASH [DMY_DASH; DMY_SLASH; DMY_DOT; YMD_DASH])
    by (simpl; auto).
  pose proof (strptime_strftime Hv Hy Hdash) as Hread.
  pose proof (strftime_strip Hv Hy Hdash) as Hstrip.
  pose proof (strftime_strip Hv Hy Hiso) as Hstrip'.
  pose proof (dash_rejects_iso Hv Hy) as Hno.
  destruct (strftime_text Hv Hy Hdash)
    as (x1 & x2 & x3 & x4 & x5 & x6 & x7 & x8 & x9 & x10 & Htext & _).
  destruct (strftime_text Hv Hy Hiso)
    as (y1 & y2 & y3 & y4 & y5 & y6 & y7 & y8 & y9 & y10 & Htext' & _).
  split; [|split; [|split; [|split; [exact Hform|]]]]; clear Hform;
    rewrite ?(isoformat_is_strftime Hv Hy), ?strftime_dmy_is_strftime;
    unfold hcservices_parser._parse_date, judgments_parser._parse_date;
    rewrite ?Hstrip, ?Hstrip', ?strptime_dmy_is_strptime, ?Hread, ?Hno;
    rewrite ?Htext, ?Htext'; repeat split.
Qed.

(** The dates of the Supreme Court.  [_parse_date] of [sci/parser.py]
    reads each of its four formats: for a day of the calendar whose year
    has four digits, the texts DD-MM-YYYY, DD/MM/YYYY, DD.MM.YYYY and
    YYYY-MM-DD all give that day; and so does the text [isoformat]
    writes. *)
Theorem sci_dates_are_read_in_four_formats (d : date) (fmt : format) :
  valid d ->
  1000 <= year d ->
  In fmt [DMY_DASH; DMY_SLASH; DMY_DOT; YMD_DASH] ->
  sci_parser._parse_date (strftime fmt d) DMY_DASH = Some d
  /\ sci_parser._parse_date (isoformat d) DMY_DASH = Some d.
Proof.
  intros Hv Hy Hfmt.
  assert (Hiso : In YMD_DASH [DMY_DASH; DMY_SLASH; DMY_DOT; YMD_DASH])
    by (simpl; auto).
  destruct (valid_bounds Hv) as (Hyear & Hmonth & Hday).
  assert (Hall : forall f, In f [DMY_DASH; DMY_SLASH; DMY_DOT; YMD_DASH] ->
                 sci_parser._parse_date (strftime f d) DMY_DASH = Some d).
  { intros f Hf. unfold sci_parser._parse_date.
    rewrite (strftime_strip Hv Hy Hf).
    pose proof (strptime_strftime Hv Hy Hf) as Hread.
    destruct (strftime_text Hv Hy Hf)
      as (x1 & x2 & x3 & x4 & x5 & x6 & x7 & x8 & x9 & x10 & Htext & H1 & H2 & _ & H3).
    rewrite Htext at 1. unfold sci_parser.formats. cbn [sci_parser.first_parsed].
    destruct Hf as [<-|[<-|[<-|[<-|[]]]]].
    - rewrite Hread. reflexivity.
    - assert (Hno : strptime DMY_DASH (strftime DMY_SLASH d) = Raise ValueError).
      { unfold strptime, DMY_DASH, DMY_SLASH. cbn [strftime]. fold (two_digits (day d)).
        cbn [app].
        rewrite (@dmy_rejects_other_separator 45%N 47%N (day d) _
                   ltac:(simpl; auto) Hday).
        reflexivity. }
      rewrite Hno, Hread. reflexivity.
    - assert (Hno : strptime DMY_DASH (strftime DMY_DOT d) = Raise ValueError).
      { unfold strptime, DMY_DASH, DMY_DOT. cbn [strftime]. fold (two_digits (day d)).
        cbn [app].
        rewrite (@dmy_rejects_other_separator 45%N 46%N (day d) _
                   ltac:(simpl; auto) Hday).
        reflexivity. }
      assert (Hno' : strptime DMY_SLASH (strftime DMY_DOT d) = Raise ValueError).
      { unfold strptime, DMY_SLASH, DMY_DOT. cbn [strftime]. fold (two_digits (day d)).
        cbn [app].
        rewrite (@dmy_rejects_other_separator 47%N 46%N (day d) _
                   ltac:(simpl; auto) Hday).
        reflexivity. }
      rewrite Hno, Hno', Hread. reflexivity.
    - assert (Hno : forall sep, In sep [45%N; 47%N; 46%N] ->
                strptime [Day; Literal sep; Month; Literal sep; Year]
                         (strftime YMD_DASH d) = Raise ValueError).
      { intros sep Hsep. specialize (H3 eq_refl). unfold strptime. rewrite Htext.
        rewrite (@dmy_rejects_year_first sep x1 x2 x3 _ Hsep H2 H3). reflexivity. }
      unfold DMY_DASH, DMY_SLASH, DMY_DOT.
      rewrite !Hno by (simpl; auto). rewrite Hread. reflexivity. }
  split; [apply Hall; exact Hfmt|].
  rewrite (isoformat_is_strftime Hv Hy). apply Hall. exact Hiso.
Qed.

Lemma portal_dates_are_read_back_witness :
  hcservices_parser._parse_date (lit "15-02-2024") = Some scenario.a_day
  /\ hcservices_parser._parse_date (lit "2024-02-15") = None.
Proof.
  destruct (@portal_dates_are_read_back scenario.a_day)
    as (_ & Hread & _ & _ & Hiso & _).
  - reflexivity.
  - vm_compute. discriminate.
  - split; [exact Hread|exact Hiso].
Defined.

Lemma sci_dates_are_read_in_four_formats_witness :
  sci_parser._parse_date (lit "15.02.2024") DMY_DASH = Some scenario.a_day
  /\ sci_parser._parse_date (lit "2024-02-15") DMY_DASH = Some scenario.a_day.
Proof.
  apply (@sci_dates_are_read_in_four_formats scenario.a_day DMY_DOT).
  - reflexivity.
  - vm_compute. discriminate.
  - simpl. auto.
Defined.

End DatesReadBack.

(** ** The Supreme Court: the list of judgments and the searches *)

Section JudgmentList.
Import Py re models datetime calendar strptime supreme.
Local Open Scope N_scope.

(** What [find] returns passes the filter it was given. *)
Lemma find_passes (name : str) (extra : bs4.Node -> bool) (n x : bs4.Node) :
  bs4.find name extra n = Some x -> extra x = true.
Proof.
  unfold bs4.find, bs4.find_all. intros H.
  assert (Hin : In x (filter (fun d => bs4.has_name name d && extra d)
                             (bs4.descendants n))).
  { destruct (filter _ _) as [|y l]; [discriminate|].
    injection H as ->. left. reflexivity. }
  apply filter_In in Hin. destruct Hin as [_ Hin].
  apply andb_prop in Hin. apply Hin.
Qed.

(** A link [find] chose for its [href] has one, in which the pattern is
    found. *)
Lemma pdf_link_href (row link : bs4.Node) :
  bs4.find (lit "a") (sci_parser.href_matches true sci_parser.DOT_PDF) row = Some link ->
  search true sci_parser.DOT_PDF (sci_parser.href_of link) <> None
  /\ sci_parser.href_of link <> [].
Proof.
  intros H. apply find_passes in H.
  unfold sci_parser.href_matches, sci_parser.href_of in *.
  destruct (bs4.get link (lit "href")) as [v|]; [|discriminate].
  destruct (search true sci_parser.DOT_PDF v) eqn:Hs; [|discriminate].
  split; [discriminate|]. intros ->. vm_compute in Hs. discriminate.
Qed.

Lemma made_date_valid (y m dd : Z) (d : date) : make_date y m dd = Return d -> valid d.
Proof.
  unfold valid. intros H. pose proof H as H'. unfold make_date in H'.
  destruct (_ && _)%bool in H'; [|discriminate].
  injection H' as <-. exact H.
Qed.

Lemma strptime_valid (fmt : format) (text : str) (d : date) :
  strptime fmt text = Return d -> valid d.
Proof.
  unfold strptime. intros H.
  destruct (match_all true (pattern fmt) text) as [groups|]; [|discriminate].
  destruct (assign fmt groups 1900 1 1) as [[[y m] dd]|]; [|discriminate].
  exact (made_date_valid _ _ _ H).
Qed.

Lemma sci_parse_date_valid (text : str) (fmt : format) (d : date) :
  sci_parser._parse_date text fmt = Some d -> valid d.
Proof.
  unfold sci_parser._parse_date. destruct (strip text) as [|c t]; [discriminate|].
  generalize (sci_parser.formats fmt). intros fmts.
  induction fmts as [|f fmts IH]; [discriminate|].
  cbn [sci_parser.first_parsed].
  destruct (strptime f (c :: t)) as [x|e] eqn:Hf; [|exact IH].
  intros H. injection H as <-. exact (strptime_valid _ _ Hf).
Qed.

(** The loop over the cells keeps a date that is a day of the calendar. *)
Lemma heuristic_dated (texts : list str) (state : option date * str * str) :
  match fst (fst state) with Some d => valid d | None => True end ->
  match fst (fst (fold_left sci_parser.heuristic texts state)) with
  | Some d => valid d
  | None => True
  end.
Proof.
  revert state. induction texts as [|text texts IH]; intros state H; [exact H|].
  cbn [fold_left]. apply IH. destruct state as [[[d|] title] number].
  - unfold sci_parser.heuristic. destruct title; [exact H|].
    destruct number; exact H.
  - unfold sci_parser.heuristic. cbn [fst].
    destruct (sci_parser._parse_date text DMY_DASH) as [d|] eqn:Hd; [|exact I].
    exact (sci_parse_date_valid _ _ Hd).
Qed.

Lemma judgment_list_row_appends (base_url : str) (results : list JudgmentResult.t)
    (row : bs4.Node) :
  sci_parser.judgment_list_row base_url results row
  = results ++ sci_parser.judgment_list_row base_url [] row.
Proof.
  unfold sci_parser.judgment_list_row.
  destruct (sci_parser.len _ <? 3)%Z; [rewrite app_nil_r; reflexivity|].
  destruct (bs4.find _ _ row) as [link|]; [|rewrite app_nil_r; reflexivity].
  destruct (fold_left _ _ _) as [[d title] number]. reflexivity.
Qed.

Lemma flat_map_flat_map {A B C} (f : B -> list C) (g : A -> list B) (l : list A) :
  flat_map f (flat_map g l) = flat_map (fun x => flat_map f (g x)) l.
Proof.
  induction l as [|x l IH]; [reflexivity|].
  cbn [flat_map]. rewrite flat_map_app, IH. reflexivity.
Qed.

Lemma parse_judgment_list_rows (L : libs) (html base_url : str) :
  sci_parser.parse_judgment_list L html base_url
  = flat_map (sci_parser.judgment_list_row base_url []) (rows (BeautifulSoup L html)).
Proof.
  unfold sci_parser.parse_judgment_list, rows. rewrite flat_map_flat_map.
  rewrite (fold_left_rows
             (fun results table =>
                fold_left (sci_parser.judgment_list_row base_url)
                          (bs4.find_all (lit "tr") bs4.any table) results)
             (fun table =>
                flat_map (sci_parser.judgment_list_row base_url [])
                         (bs4.find_all (lit "tr") bs4.any table))).
  - reflexivity.
  - intros results table.
    apply (fold_left_rows (sci_parser.judgment_list_row base_url)).
    intros. apply judgment_list_row_appends.
Qed.

Lemma Forall2_flat_map_filter {A B} (P : A -> B -> Prop) (f : A -> list B)
    (keep : A -> bool) (l : list A) :
  (forall x, if keep x then exists y, f x = [y] /\ P x y else f x = []) ->
  Forall2 P (filter keep l) (flat_map f l).
Proof.
  intros Hf. induction l as [|x l IH]; [constructor|].
  cbn [filter flat_map]. specialize (Hf x). destruct (keep x).
  - destruct Hf as (y & -> & Hy). constructor; assumption.
  - rewrite Hf. exact IH.
Qed.

(** The list of judgments of the Supreme Court.  [parse_judgment_list]
    goes through the rows of every table of the page (a row of a table
    inside another table is met once for each) and gives, in their order,
    one judgment for each row that has three cells at least and a link
    whose address holds .pdf in any case.  The judgment of a row is made
    of that link: its [source_id] is the [href] of the link as the page
    has it, and its [pdf_url], which is also its [source_url], is never
    empty, ends with that address and starts with the base address or with
    http.  It is of the Supreme Court of India, no bytes are loaded, and
    its date, if it has one, is a day of the calendar. *)
Theorem sci_judgment_list_entries (L : libs) (html base_url : str) :
  length (sci_parser.parse_judgment_list L html base_url)
  = length (filter listed (rows (BeautifulSoup L html)))
  /\ Forall2 (made_of base_url)
             (filter listed (rows (BeautifulSoup L html)))
             (sci_parser.parse_judgment_list L html base_url).
Proof.
  assert (Hrows : Forall2 (made_of base_url)
                    (filter listed (rows (BeautifulSoup L html)))
                    (sci_parser.parse_judgment_list L html base_url)).
  { rewrite parse_judgment_list_rows. apply Forall2_flat_map_filter. intros row.
    unfold sci_parser.judgment_list_row, listed.
    destruct (Z.ltb_spec (sci_parser.len (bs4.find_all (lit "td") bs4.any row)) 3);
      destruct (Z.leb_spec 3 (sci_parser.len (bs4.find_all (lit "td") bs4.any row)));
      try lia; [reflexivity|].
    cbn [andb].
    destruct (bs4.find (lit "a") _ row) as [link|] eqn:Hlink; [|reflexivity].
    destruct (pdf_link_href _ Hlink) as [Hpdf Hhref].
    pose proof (heuristic_dated
                  (map (fun col => sci_parser._clean_text (bs4.get_text col))
                       (bs4.find_all (lit "td") bs4.any row))
                  (None, [], []) I) as Hdate.
    destruct (fold_left _ _ _) as [[d title] number].
    eexists. split; [reflexivity|].
    exists link. unfold dated.
    cbn [JudgmentResult.court_name JudgmentResult.source_url
         JudgmentResult.pdf_url JudgmentResult.source_id
         JudgmentResult.pdf_bytes JudgmentResult.judgment_date].
    split; [exact Hlink|].
    assert (Hget : bs4.get link (lit "href") = Some (sci_parser.href_of link)).
    { apply find_passes in Hlink. unfold sci_parser.href_matches in Hlink.
      unfold sci_parser.href_of.
      destruct (bs4.get link (lit "href")); [reflexivity|discriminate]. }
    split; [exact Hget|]. split; [exact Hhref|]. split; [exact Hpdf|].
    set (href := sci_parser.href_of link) in *.
    match goal with
    | |- resolves _ _ ?u /\ _ => assert (Hurl : resolves base_url href u)
    end.
    { unfold resolves. destruct (startswith (lit "/") href).
      - split; [exists base_url; reflexivity|]. left. apply startswith_app.
      - destruct (startswith (lit "http") href) eqn:Hhttp; cbn [negb].
        + split; [exists []; reflexivity|]. right. exact Hhttp.
        + split; [exists (base_url ++ lit "/"); rewrite <- app_assoc; reflexivity|].
          left. apply startswith_app. }
    revert Hurl.
    match goal with
    | |- resolves _ _ ?u -> _ => generalize u
    end.
    intros url Hurl.
    split; [exact Hurl|].
    split; [|split; [reflexivity|split; [reflexivity|split; [reflexivity|exact Hdate]]]].
    destruct Hurl as [(prefix & ->) _]. intros Hnil.
    apply app_eq_nil in Hnil. destruct Hnil as [_ Hnil]. exact (Hhref Hnil). }
  split; [|exact Hrows].
  symmetry. exact (Forall2_length Hrows).
Qed.

End JudgmentList.

Section Searches.
Import Py re datetime calendar strptime supreme.
Local Open Scope Z_scope.

Lemma february_has_28_days (y m : Z) : 1 <= m <= 12 -> 28 <= days_in_month y m.
Proof.
  intros _. unfold days_in_month.
  destruct (m =? 2); [destruct (is_leap y); lia|].
  destruct ((m =? 4) || (m =? 6) || (m =? 9) || (m =? 11))%bool; lia.
Qed.

Lemma day_of_month_valid (y m dd : Z) :
  1 <= y <= 9999 -> 1 <= m <= 12 -> 1 <= dd <= 28 -> valid (mkDate y m dd).
Proof.
  intros Hy Hm Hd. pose proof (february_has_28_days y Hm) as H28.
  unfold valid, make_date. cbn [year month day].
  replace (1 <=? y) with true by (symmetry; apply Z.leb_le; lia).
  replace (y <=? 9999) with true by (symmetry; apply Z.leb_le; lia).
  replace (1 <=? m) with true by (symmetry; apply Z.leb_le; lia).
  replace (m <=? 12) with true by (symmetry; apply Z.leb_le; lia).
  replace (1 <=? dd) with true by (symmetry; apply Z.leb_le; lia).
  replace (dd <=? days_in_month y m) with true by (symmetry; apply Z.leb_le; lia).
  reflexivity.
Qed.

Lemma last_day_valid (y : Z) : 1 <= y <= 9999 -> valid (mkDate y 12 31).
Proof.
  intros Hy. unfold valid, make_date. cbn [year month day].
  replace (1 <=? y) with true by (symmetry; apply Z.leb_le; lia).
  replace (y <=? 9999) with true by (symmetry; apply Z.leb_le; lia).
  reflexivity.
Qed.

(** The searches of the Supreme Court by year.  For a year of four
    digits, the two dates [search_by_year] puts in the form read, in the
    format of the portal, as the first and the 28th day of the month when
    a month from 1 to 12 is given (so that no day after the 28th is asked
    for), and as the first of January and the 31st of December when no
    month is given; a month 0 counts as none. *)
Theorem search_by_year_period (year m : Z) :
  1000 <= year <= 9999 ->
  1 <= m <= 12 ->
  period year (Some m) = (Return (mkDate year m 1), Return (mkDate year m 28))
  /\ period year None = (Return (mkDate year 1 1), Return (mkDate year 12 31))
  /\ period year (Some 0) = period year None.
Proof.
  intros Hy Hm.
  assert (Hdash : In DMY_DASH [DMY_DASH; DMY_SLASH; DMY_DOT; YMD_DASH])
    by (simpl; auto).
  assert (Hread : forall d, valid d -> datetime.year d = year ->
            strptime DMY_DASH (strftime DMY_DASH d) = Return d).
  { intros d Hv Hyd. apply strptime_strftime; [exact Hv|lia|exact Hdash]. }
  assert (Hmonth : sci_client.format_02d m = pad 2 (str_of_int m)).
  { unfold sci_client.format_02d.
    destruct (Z.ltb_spec m 0); [lia|reflexivity]. }
  unfold period, sci_client.from_date, sci_client.to_date.
  destruct (Z.eqb_spec m 0) as [H0|_]; [lia|]. rewrite Hmonth.
  change (0 =? 0) with true. cbv iota.
  split; [|split; [|reflexivity]]; f_equal.
  - rewrite <- (Hread (mkDate year m 1)); [|apply day_of_month_valid; lia|reflexivity].
    unfold DMY_DASH. cbn [strftime datetime.year datetime.month datetime.day]. rewrite app_nil_r. reflexivity.
  - rewrite <- (Hread (mkDate year m 28)); [|apply day_of_month_valid; lia|reflexivity].
    unfold DMY_DASH. cbn [strftime datetime.year datetime.month datetime.day]. rewrite app_nil_r. reflexivity.
  - rewrite <- (Hread (mkDate year 1 1)); [|apply day_of_month_valid; lia|reflexivity].
    unfold DMY_DASH. cbn [strftime datetime.year datetime.month datetime.day]. rewrite app_nil_r. reflexivity.
  - rewrite <- (Hread (mkDate year 12 31)); [|apply last_day_valid; lia|reflexivity].
    unfold DMY_DASH. cbn [strftime datetime.year datetime.month datetime.day]. rewrite app_nil_r. reflexivity.
Qed.

Lemma search_by_year_period_witness :
  period 2024 (Some 2)
  = (Return (mkDate 2024 2 1), Return (mkDate 2024 2 28)).
Proof.
  apply (@search_by_year_period 2024 2); lia.
Defined.

End Searches.

(** ** Listings: what the portal writes is read back *)

Section Splitting.
Import Py pattern written.
Local Open Scope N_scope.

Variable c : N.

Local Abbreviation is_sep := (fun x => x =? c).

Lemma startswith_sep (x : N) (s : str) : startswith [c] (x :: s) = (c =? x).
Proof. cbn [startswith]. apply andb_true_r. Qed.

(** A piece that is free of the separator, and the rest after it. *)
Lemma split_go_piece (a rest : str) :
  free_of is_sep a ->
  forall cur,
    split_go [c] None 0 cur (a ++ c :: rest)
    = (rev cur ++ a) :: split_go [c] None 0 [] rest.
Proof.
  induction a as [|x a IH]; intros Hfree cur.
  - cbn [app split_go]. rewrite startswith_sep, N.eqb_refl, app_nil_r. reflexivity.
  - cbn [app split_go]. rewrite startswith_sep.
    assert (Hx : (c =? x) = false).
    { rewrite N.eqb_sym. apply (Hfree x). left. reflexivity. }
    rewrite Hx, IH by (intros y Hy; apply Hfree; right; exact Hy).
    cbn [rev]. rewrite <- app_assoc. reflexivity.
Qed.

Lemma split_go_last (a : str) :
  free_of is_sep a ->
  forall cur, split_go [c] None 0 cur a = [rev cur ++ a].
Proof.
  induction a as [|x a IH]; intros Hfree cur.
  - cbn [split_go]. rewrite app_nil_r. reflexivity.
  - cbn [split_go]. rewrite startswith_sep.
    assert (Hx : (c =? x) = false).
    { rewrite N.eqb_sym. apply (Hfree x). left. reflexivity. }
    rewrite Hx, IH by (intros y Hy; apply Hfree; right; exact Hy).
    cbn [rev]. rewrite <- app_assoc. reflexivity.
Qed.

(** [sep.join(pieces).split(sep)] gives the pieces back, and one empty
    piece more after a separator that ends the text. *)
Lemma split_join (pieces : list str) :
  pieces <> [] ->
  Forall (free_of is_sep) pieces ->
  split [c] (join [c] pieces) = pieces.
Proof.
  intros Hne Hfree. unfold split.
  induction pieces as [|a pieces IH]; [contradiction|].
  inversion Hfree as [|? ? Ha Hrest]; subst.
  destruct pieces as [|b pieces].
  - cbn [join]. rewrite (split_go_last Ha). reflexivity.
  - change (join [c] (a :: b :: pieces)) with (a ++ c :: join [c] (b :: pieces)).
    rewrite (split_go_piece _ Ha). rewrite IH by (discriminate || assumption).
    reflexivity.
Qed.

Lemma split_closed (pieces : list str) :
  Forall (free_of is_sep) pieces ->
  split [c] (concat (map (fun piece => piece ++ [c]) pieces)) = pieces ++ [[]].
Proof.
  intros Hfree. unfold split.
  induction pieces as [|a pieces IH]; [reflexivity|].
  inversion Hfree as [|? ? Ha Hrest]; subst.
  cbn [map concat]. rewrite <- app_assoc. cbn [app].
  rewrite (split_go_piece _ Ha), (IH Hrest). reflexivity.
Qed.

(** [(a + sep + b).split(sep, 1)] when [a] is free of the separator. *)
Lemma split_max_once (a b : str) :
  free_of is_sep a -> split_max [c] 1 (a ++ c :: b) = [a; b].
Proof.
  unfold split_max. intros Hfree.
  assert (H : forall cur, split_go [c] (Some 1%nat) 0 cur (a ++ c :: b)
                          = [rev cur ++ a; b]).
  { induction a as [|x a IH]; intros cur.
    - cbn [app split_go]. rewrite startswith_sep, N.eqb_refl, app_nil_r.
      cbn [option_map Nat.pred length]. rewrite split_go_done. reflexivity.
    - cbn [app split_go]. rewrite startswith_sep.
      assert (Hx : (c =? x) = false).
      { rewrite N.eqb_sym. apply (Hfree x). left. reflexivity. }
      rewrite Hx, IH by (intros y Hy; apply Hfree; right; exact Hy).
      cbn [rev]. rewrite <- app_assoc. reflexivity. }
  apply (H []).
Qed.

Lemma contains_sep (a b : str) : contains [c] (a ++ c :: b) = true.
Proof.
  induction a as [|x a IH].
  - cbn [app contains]. rewrite startswith_sep, N.eqb_refl. reflexivity.
  - cbn [app contains]. rewrite IH. apply orb_true_r.
Qed.

End Splitting.

Section Ends.
Import Py pattern written.
Local Open Scope N_scope.

Lemma strip_with_id (p : N -> bool) (s : str) :
  ends_free p s -> rstrip_with p (lstrip_with p s) = s.
Proof.
  intros [Hhd Hlast]. destruct s as [|x t]; [reflexivity|].
  rewrite lstrip_id by exact Hhd. apply rstrip_id. exact Hlast.
Qed.

Lemma ends_free_weaken (p p' : N -> bool) (s : str) :
  (forall x, p x = false -> p' x = false) -> ends_free p s -> ends_free p' s.
Proof.
  intros Hp [Hhd Hlast]. split.
  - destruct s; [exact I|apply Hp, Hhd].
  - destruct (rev s); [exact I|apply Hp, Hlast].
Qed.

(** The ends of a text made of two that are not empty. *)
Lemma ends_free_app (p : N -> bool) (a m b : str) :
  a <> [] -> b <> [] -> ends_free p a -> ends_free p b -> ends_free p (a ++ m ++ b).
Proof.
  intros Ha Hb [Hhd _] [_ Hlast]. split.
  - destruct a as [|x a]; [contradiction|exact Hhd].
  - rewrite !rev_app_distr.
    destruct (rev b) as [|y t] eqn:Hr.
    + apply (f_equal (@rev N)) in Hr. rewrite rev_involutive in Hr. contradiction.
    + exact Hlast.
Qed.

Lemma edge_space (x : N) : edge x = false -> isspace x = false.
Proof. unfold edge. intros H. apply orb_false_elim in H. apply H. Qed.

Lemma edge_mark (x : N) : edge x = false -> mem x [BOM] = false.
Proof.
  unfold edge. intros H. apply orb_false_elim in H. destruct H as [_ H].
  cbn [mem existsb]. rewrite H. reflexivity.
Qed.

Lemma label_strip (s : str) :
  ends_free edge s -> strip s = s /\ strip_chars [BOM] s = s.
Proof.
  intros H. split.
  - apply (strip_with_id (p := isspace)). exact (@ends_free_weaken _ _ _ edge_space H).
  - apply (strip_with_id (p := fun x => mem x [BOM])).
    exact (@ends_free_weaken _ (fun x => mem x [BOM]) _ edge_mark H).
Qed.

End Ends.

Section Entries.
Import Py http pattern written hcservices_client.
Local Open Scope N_scope.

Lemma entry_tests (p : str * str) :
  kept p ->
  (truthy (Str (fst p)) && negb (eqb (fst p) (lit "0")) && truthy (Str (snd p))
   && negb (contains (lit "select") (lower (snd p))))%bool = true.
Proof.
  intros ((Hc & _) & (Hn & _) & _ & H0 & Hsel).
  rewrite Hsel. destruct (eqb (fst p) (lit "0")) eqn:Heq.
  - apply eqb_eq in Heq. contradiction.
  - destruct (fst p); [contradiction|]. destruct (snd p); [contradiction|].
    reflexivity.
Qed.

Lemma entry_ends (p : str * str) :
  kept p -> ends_free edge (fst p ++ lit "~" ++ snd p).
Proof.
  intros ((Hc & _ & Hce) & (Hn & _ & Hne) & _). apply ends_free_app; assumption.
Qed.

(** An entry that is kept is read as its code and its name. *)
Lemma bench_entry_kept (d : dict) (p : str * str) :
  kept p ->
  bench_entry d (fst p ++ lit "~" ++ snd p)
  = Return (dict_set d (fst p) (Str (snd p))).
Proof.
  intros Hp. pose proof (entry_tests Hp) as Htests.
  pose proof (entry_ends Hp) as Hends.
  destruct Hp as ((Hc & _ & Hce) & (Hn & _ & Hne) & Htilde & _).
  unfold bench_entry.
  rewrite (proj1 (label_strip Hends)).
  change (lit "~" ++ snd p) with (126 :: snd p).
  change (lit "~") with [126].
  rewrite contains_sep, (@split_max_once 126 _ _ Htilde).
  rewrite (proj1 (label_strip Hce)), (proj2 (label_strip Hce)).
  rewrite (proj1 (label_strip Hne)), (proj2 (label_strip Hne)).
  rewrite Htests. reflexivity.
Qed.

Lemma case_type_entry_kept (d : dict) (p : str * str) :
  kept p ->
  case_type_entry d (fst p ++ lit "~" ++ snd p)
  = Return (dict_set d (fst p) (Str (snd p))).
Proof.
  intros Hp. pose proof (entry_tests Hp) as Htests.
  pose proof (entry_ends Hp) as Hends.
  destruct Hp as ((Hc & _ & Hce) & (Hn & _ & Hne) & Htilde & _).
  unfold case_type_entry.
  rewrite (proj1 (label_strip Hends)), (proj2 (label_strip Hends)).
  change (lit "~" ++ snd p) with (126 :: snd p).
  change (lit "~") with [126].
  rewrite contains_sep, (@split_max_once 126 _ _ Htilde).
  rewrite (proj1 (label_strip Hce)), (proj1 (label_strip Hne)).
  rewrite Htests. reflexivity.
Qed.

(** A key that is new goes to the end. *)
Lemma dict_set_new (d : dict) (k : str) (v : obj) :
  ~ In k (map fst d) -> dict_set d k v = d ++ [(k, v)].
Proof.
  induction d as [|[k' v'] d IH]; intros Hk; [reflexivity|].
  cbn [dict_set app]. destruct (eqb k' k) eqn:Heq.
  - apply eqb_eq in Heq. exfalso. apply Hk. left. exact Heq.
  - rewrite IH; [reflexivity|]. intros Hin. apply Hk. right. exact Hin.
Qed.

Section Loop.
Variable body : dict -> str -> outcome dict.
Hypothesis body_kept :
  forall d p, kept p -> body d (fst p ++ lit "~" ++ snd p)
                        = Return (dict_set d (fst p) (Str (snd p))).

Lemma for_each_kept (pairs : list (str * str)) (rest : list str) :
  Forall kept pairs ->
  forall d,
    NoDup (map fst d ++ map fst pairs) ->
    for_each body (entries pairs ++ rest) d
    = for_each body rest (d ++ as_dict pairs).
Proof.
  induction pairs as [|p pairs IH]; intros Hkept d Hnd.
  - cbn [entries map app as_dict]. rewrite app_nil_r. reflexivity.
  - inversion Hkept as [|? ? Hp Hrest]; subst.
    unfold entries. cbn [map]. rewrite <- app_comm_cons. cbn [for_each].
    match goal with
    | |- bind ?x _ = _ =>
        replace x with (Return (dict_set d (fst p) (Str (snd p))))
          by (symmetry; apply body_kept; exact Hp)
    end.
    cbn [bind]. fold (entries pairs).
    assert (Hnew : ~ In (fst p) (map fst d)).
    { cbn [map] in Hnd. apply NoDup_remove_2 in Hnd. intros Hin. apply Hnd.
      apply in_or_app. left. exact Hin. }
    rewrite (@dict_set_new d (fst p) (Str (snd p)) Hnew), IH.
    + unfold as_dict. cbn [map]. rewrite <- app_assoc. reflexivity.
    + exact Hrest.
    + rewrite map_app. cbn [map]. rewrite <- app_assoc. exact Hnd.
Qed.

Hypothesis body_empty : forall d, body d [] = Return d.

(** The loop over the entries of a listing, written either way. *)
Lemma for_each_listing (pairs : list (str * str)) (text : str) :
  Forall kept pairs ->
  NoDup (map fst pairs) ->
  lists pairs text ->
  for_each body (split (lit "#") text) [] = Return (as_dict pairs).
Proof.
  intros Hkept Hnd Htext.
  assert (Hfree : Forall (free_of is_hash) (entries pairs)).
  { unfold entries. apply Forall_map. apply Forall_forall. intros p Hin.
    rewrite Forall_forall in Hkept.
    destruct (Hkept p Hin) as ((_ & Hc & _) & (_ & Hn & _) & _).
    intros x Hx. apply in_app_or in Hx. destruct Hx as [Hx|Hx]; [apply Hc, Hx|].
    apply in_app_or in Hx. destruct Hx as [Hx|Hx]; [|apply Hn, Hx].
    destruct Hx as [<-|[]]. reflexivity. }
  unfold lists in Htext. change (lit "#") with [35] in *.
  destruct Htext as [->| ->].
  - destruct pairs as [|p pairs].
    { change (for_each body [[]] [] = Return []). cbn [for_each].
      rewrite body_empty. reflexivity. }
    rewrite (@split_join 35 (entries (p :: pairs))); [|discriminate|exact Hfree].
    rewrite <- (app_nil_r (entries (p :: pairs))).
    rewrite for_each_kept; [reflexivity|exact Hkept|exact Hnd].
  - rewrite (@split_closed 35 _ Hfree).
    rewrite for_each_kept; [|exact Hkept|exact Hnd].
    cbn [for_each app]. rewrite body_empty. reflexivity.
Qed.

End Loop.

Section Client.
Import run portal hcservices_endpoints.
Local Open Scope Z_scope.

Variable E : env.
Variable cfg : config.BharatCourtsConfig.

(** The listings of HC Services.  Let the portal answer every request,
    and every form with a listing of codes and names, code~name, with #
    between two entries or after each.  If the codes differ from each
    other, and every entry is one the loops keep as it is (a code and a
    name that are not empty, have no #, and neither white space nor a
    byte-order mark at their ends; no ~ in the code; a code that is not 0
    and a name that does not mention select), then [list_benches] and
    [list_case_types] return the mapping of the codes to the names, in the
    order of the listing. *)
Theorem listings_are_read_back (pairs : list (str * str)) (court : models.Court.t)
    (bench_code : str) (h : trace) :
  1 <= config.max_retries cfg ->
  responsive E ->
  answers_with E pairs ->
  Forall kept pairs ->
  NoDup (map fst pairs) ->
  snd (list_benches E cfg court h) = Return (as_dict pairs)
  /\ snd (list_case_types E cfg court bench_code h) = Return (as_dict pairs).
Proof.
  intros retries Hresp Hlists Hkept Hnd.
  destruct (@request_answered E cfg retries Hresp GET MAIN_PAGE_URL
              (referer (BASE_URL ++ lit "/")) h) as (page & _ & _ & Hpage).
  assert (Hses : _init_session E cfg h
                 = (h ++ [Slept (Float (config.request_delay cfg));
                          Requested GET MAIN_PAGE_URL (referer (BASE_URL ++ lit "/"))
                                    (Return page)], Return tt)).
  { unfold _init_session, get. rewrite (io_bind_return _ Hpage). reflexivity. }
  split.
  - unfold list_benches. rewrite (io_bind_return _ Hses).
    match goal with
    | |- context [post E cfg ?u ?kw] =>
        destruct (@request_answered E cfg retries Hresp POST u kw
                    (h ++ [Slept (Float (config.request_delay cfg));
                           Requested GET MAIN_PAGE_URL
                                     (referer (BASE_URL ++ lit "/")) (Return page)]))
          as (r & Hsend & _ & Hrun)
    end.
    unfold post. rewrite (io_bind_return _ Hrun). unfold lift. cbn [snd].
    apply (@for_each_listing bench_entry bench_entry_kept (fun d => eq_refl) pairs (text r)
             Hkept Hnd (Hlists _ _ _ _ Hsend)).
  - unfold list_case_types. rewrite (io_bind_return _ Hses).
    match goal with
    | |- context [post E cfg ?u ?kw] =>
        destruct (@request_answered E cfg retries Hresp POST u kw
                    (h ++ [Slept (Float (config.request_delay cfg));
                           Requested GET MAIN_PAGE_URL
                                     (referer (BASE_URL ++ lit "/")) (Return page)]))
          as (r & Hsend & _ & Hrun)
    end.
    unfold post. rewrite (io_bind_return _ Hrun). unfold lift. cbn [snd].
    apply (@for_each_listing case_type_entry case_type_entry_kept (fun d => eq_refl) pairs (text r)
             Hkept Hnd (Hlists _ _ _ _ Hsend)).
Qed.

End Client.
End Entries.

Section ListingRead.
Import Py http pattern written scenario cases.

Lemma listings_are_read_back_witness :
  snd (hcservices_client.list_benches benches_portal (fast_config 1) delhi [])
  = Return (as_dict two_benches)
  /\ snd (hcservices_client.list_case_types benches_portal (fast_config 1) delhi
            (lit "1") [])
     = Return (as_dict two_benches).
Proof.
  apply (@listings_are_read_back benches_portal (fast_config 1) two_benches delhi
           (lit "1") []).
  - vm_compute. discriminate.
  - intros h m u kw. eexists. split; reflexivity.
  - intros h u kw r H. injection H as <-. right. reflexivity.
  - assert (Hfree : forall p s, forallb (fun x => negb (p x)) s = true -> free_of p s).
    { intros p s H x Hx. rewrite forallb_forall in H. specialize (H x Hx).
      destruct (p x); [discriminate|reflexivity]. }
    repeat constructor;
      try (apply Hfree; reflexivity); try discriminate; reflexivity.
  - repeat constructor; simpl; intuition discriminate.
Defined.

End ListingRead.

(** ** Pages of judgments, and the body of the check *)

Section Pages.
Import Py re models datetime calendar strptime results.
Local Open Scope Z_scope.

Lemma judgments_parse_date_valid (text : str) (d : date) :
  judgments_parser._parse_date text = Some d -> valid d.
Proof.
  unfold judgments_parser._parse_date. destruct (strip text) as [|c t]; [discriminate|].
  rewrite strptime_dmy_is_strptime.
  destruct (strptime DMY_DASH (c :: t)) as [x|e] eqn:Hx; [|discriminate].
  intros H. injection H as <-. exact (strptime_valid _ _ Hx).
Qed.

Lemma bench_of_judges (judges : list str) :
  (if judgments_parser.len judges >=? 3 then lit "Full Bench"
   else if judgments_parser.len judges =? 2 then lit "Division Bench"
   else if judgments_parser.len judges =? 1 then lit "Single Bench"
   else [])
  = bench_of judges.
Proof.
  destruct judges as [|a [|b [|c rest]]]; try reflexivity.
  unfold judgments_parser.len, bench_of. rewrite Z.geb_leb.
  destruct (Z.leb_spec 3 (Z.of_nat (length (a :: b :: c :: rest)))) as [_|H];
    [reflexivity|].
  cbn [length] in H. lia.
Qed.

(** The judgments of a page.  [parse_judgment_search] gives one judgment
    for each row of the results table, the header apart, that has seven
    cells at least, and nothing else.  The bench of each is the one its
    number of judges makes: none, Single Bench for one, Division Bench
    for two, Full Bench for more.  Its [source_url] is its [pdf_url], no
    bytes are loaded, and its date, if it has one, is a day of the
    calendar. *)
Theorem judgment_search_items (L : libs) (html base_url : str) (page : Z) :
  length (SearchResult.items
            (judgments_parser.parse_judgment_search L html base_url page))
  = length (filter (wide 7) (judgment_rows (BeautifulSoup L html)))
  /\ Forall (fun item =>
               exists j,
                 judgment_of item = Some j
                 /\ JudgmentResult.bench_type j = bench_of (JudgmentResult.judges j)
                 /\ JudgmentResult.source_url j = JudgmentResult.pdf_url j
                 /\ JudgmentResult.pdf_bytes j = None
                 /\ dated j)
            (SearchResult.items
               (judgments_parser.parse_judgment_search L html base_url page)).
Proof.
  rewrite judgment_search_rows. split.
  - rewrite length_map. apply length_flat_map_filter. intros row.
    unfold judgments_parser.judgment_row, wide.
    destruct (Z.ltb_spec (judgments_parser.len (bs4.find_all (lit "td") bs4.any row)) 7);
      destruct (Z.leb_spec 7 (judgments_parser.len (bs4.find_all (lit "td") bs4.any row)));
      try lia; [reflexivity|].
    destruct (judgments_parser._extract_title_and_case _) as [title number].
    reflexivity.
  - apply Forall_forall. intros item Hin.
    apply in_map_iff in Hin. destruct Hin as (j & <- & Hin).
    exists j. split; [reflexivity|].
    apply in_flat_map in Hin. destruct Hin as (row & _ & Hin).
    unfold judgments_parser.judgment_row in Hin.
    destruct (judgments_parser.len _ <? 7); [destruct Hin|].
    destruct (judgments_parser._extract_title_and_case _) as [title number].
    cbn [app] in Hin. destruct Hin as [<-|[]].
    unfold dated.
    cbn [JudgmentResult.bench_type JudgmentResult.judges JudgmentResult.source_url
         JudgmentResult.pdf_url JudgmentResult.pdf_bytes
         JudgmentResult.judgment_date].
    split; [apply bench_of_judges|]. split; [reflexivity|]. split; [reflexivity|].
    destruct (judgments_parser._parse_date _) as [d|] eqn:Hd; [|exact I].
    exact (judgments_parse_date_valid _ Hd).
Qed.

End Pages.

Section CheckForm.
Import Py pattern results judgments_endpoints.
Local Open Scope N_scope.

Lemma count_app (p : N -> bool) (a b : str) :
  count p (a ++ b) = (count p a + count p b)%nat.
Proof. unfold count. rewrite filter_app, length_app. reflexivity. Qed.

(** [s.split(sep)] has one piece more than [s] has separators. *)
Lemma split_pieces (c : N) (s : str) :
  length (split [c] s) = S (count (fun x => x =? c) s).
Proof.
  unfold split.
  assert (H : forall cur, length (split_go [c] None 0 cur s)
                          = S (count (fun x => x =? c) s)); [|apply H].
  induction s as [|x s IH]; intros cur; [reflexivity|].
  cbn [split_go]. rewrite startswith_sep, N.eqb_sym.
  unfold count. cbn [filter]. destruct (x =? c).
  - cbn [option_map Nat.pred length]. rewrite IH. reflexivity.
  - apply IH.
Qed.

Lemma check_form_joined (captcha search_text search_opt : str) :
  check_captcha_form captcha search_text search_opt
  = join (lit "&") (check_fields captcha search_text search_opt).
Proof.
  unfold check_captcha_form, check_fields. cbn [join].
  rewrite <- !app_assoc. reflexivity.
Qed.

Lemma free_count (p : N -> bool) (s : str) : free_of p s <-> count p s = 0%nat.
Proof.
  unfold count. split.
  - intros H. induction s as [|x s IH]; [reflexivity|].
    cbn [filter]. rewrite (H x) by (left; reflexivity).
    apply IH. intros y Hy. apply H. right. exact Hy.
  - intros H x Hx. destruct (p x) eqn:Hp; [|reflexivity].
    assert (Hin : In x (filter p s)) by (apply filter_In; auto).
    destruct (filter p s); [destruct Hin|discriminate].
Qed.

(** The body of the check.  [check_captcha_form] writes its arguments as
    they are, with & between the fields: the body has eight fields and one
    more for every & in the solved text, the search text and the option.
    So it is read back, field by field and unchanged, exactly when none of
    the three holds an &. *)
Theorem check_form_fields (captcha search_text search_opt : str) :
  length (split (lit "&") (check_captcha_form captcha search_text search_opt))
  = (8 + count is_amp captcha + count is_amp search_text
     + count is_amp search_opt)%nat
  /\ (split (lit "&") (check_captcha_form captcha search_text search_opt)
      = check_fields captcha search_text search_opt
      <-> free_of is_amp captcha /\ free_of is_amp search_text
          /\ free_of is_amp search_opt).
Proof.
  assert (Hlen : length (split (lit "&")
                           (check_captcha_form captcha search_text search_opt))
                 = (8 + count is_amp captcha + count is_amp search_text
                    + count is_amp search_opt)%nat).
  { change (lit "&") with [38]. rewrite split_pieces.
    fold is_amp. unfold check_captcha_form. rewrite !count_app.
    change (count is_amp (lit "captcha=")) with 0%nat.
    change (count is_amp (lit "&search_text=")) with 1%nat.
    change (count is_amp (lit "&search_opt=")) with 1%nat.
    change (count is_amp (lit "&escr_flag=")) with 1%nat.
    change (count is_amp (lit "&proximity=")) with 1%nat.
    change (count is_amp (lit "&sel_lang=")) with 1%nat.
    change (count is_amp (lit "&ajax_req=true")) with 1%nat.
    change (count is_amp (lit "&app_token=")) with 1%nat.
    lia. }
  split; [exact Hlen|]. split.
  - intros Heq. rewrite Heq in Hlen. cbn [check_fields length] in Hlen.
    rewrite !free_count. lia.
  - intros (Hc & Ht & Ho). rewrite check_form_joined.
    change (lit "&") with [38]. apply split_join; [discriminate|].
    assert (Hfield : forall name value,
               free_of is_amp name -> free_of is_amp value ->
               free_of (fun x => x =? 38) (name ++ value)).
    { intros name value Hn Hv x Hx. apply in_app_or in Hx.
      destruct Hx as [Hx|Hx]; [apply Hn, Hx|apply Hv, Hx]. }
    assert (Hname : forall name, count is_amp name = 0%nat -> free_of is_amp name).
    { intros name. apply free_count. }
    assert (Hnone : free_of is_amp []) by (intros x []).
    unfold check_fields.
    repeat (apply Forall_cons;
            [first [apply Hfield; [apply Hname; reflexivity|assumption]
                   |apply Hname; reflexivity]|]).
    apply Forall_nil.
Qed.

End CheckForm.

(** ** The cause list of a day *)

Section CauseListOfADay.
Import Py models http run portal accepting datetime calendar strptime.
Import hcservices_client hcservices_endpoints.
Local Open Scope Z_scope.

Variable L : libs.
Variable E : env.
Variable cfg : config.BharatCourtsConfig.
Hypothesis retries : 1 <= config.max_retries cfg.
Hypothesis Hresp : responsive E.
Hypothesis Hsolver : solver_answers E.
Hypothesis Haccepts : accepts_every_submission E.

Local Abbreviation delay := (Slept (Float (config.request_delay cfg))).

(** A round that the portal accepts: what comes before the submission
    leaves the form to build, and the answer to the submission is
    returned. *)
Lemma accepted_round (url : str) (fb : str -> io form) (n : Z) (h : trace) :
  builds fb ->
  1 <= n ->
  exists page image captcha f resp,
    _post_with_captcha_retry E cfg url fb n h
    = (h ++ opening cfg page image captcha
         ++ [delay; Requested POST url (submission f) (Return resp)],
       Return resp)
    /\ fb captcha (h ++ opening cfg page image captcha)
       = (h ++ opening cfg page image captcha, Return f).
Proof.
  intros Hfb Hn. unfold _post_with_captcha_retry.
  destruct (Z.to_nat n) as [|todo] eqn:Htodo; [lia|].
  cbn [_post_with_captcha_retry_loop].
  destruct (@request_run E cfg retries Hresp GET MAIN_PAGE_URL
              (referer (BASE_URL ++ lit "/")) h) as (page & _ & Hinit).
  set (h1 := h ++ [delay; Requested GET MAIN_PAGE_URL (referer (BASE_URL ++ lit "/"))
                            (Return page)]) in *.
  destruct (@request_run E cfg retries Hresp GET CAPTCHA_IMAGE_URL
              (referer MAIN_PAGE_URL) h1) as (image & _ & Hfetch).
  set (h2 := h1 ++ [delay; Requested GET CAPTCHA_IMAGE_URL (referer MAIN_PAGE_URL)
                             (Return image)]) in *.
  destruct (Hsolver h2 (content image)) as (captcha & Hsolve).
  set (h3 := h2 ++ [Solved (content image) (Return captcha)]).
  assert (Hh3 : h3 = h ++ [delay; Requested GET MAIN_PAGE_URL
                              (referer (BASE_URL ++ lit "/")) (Return page);
                           delay; Requested GET CAPTCHA_IMAGE_URL
                              (referer MAIN_PAGE_URL) (Return image);
                           Solved (content image) (Return captcha)]).
  { unfold h3, h2, h1. rewrite <- !app_assoc. reflexivity. }
  destruct (Hfb captcha h3) as (f & Hform).
  destruct (@request_run E cfg retries Hresp POST url (submission f) h3)
    as (resp & Hsend & Hpost).
  exists page, image, captcha, f, resp. unfold opening.
  rewrite app_assoc, <- Hh3. split; [|exact Hform].
  assert (Hses : _init_session E cfg h = (h1, Return tt)).
  { unfold _init_session, get. rewrite (io_bind_return _ Hinit). reflexivity. }
  rewrite (io_bind_return _ Hses).
  assert (Hcap : _solve_captcha E cfg h1 = (h3, Return captcha)).
  { unfold _solve_captcha, get. rewrite (io_bind_return _ Hfetch).
    unfold solve_captcha. fold h2. rewrite Hsolve. reflexivity. }
  rewrite (io_bind_return _ Hcap).
  rewrite (io_bind_return _ Hform).
  unfold post. fold (submission f). rewrite (io_bind_return _ Hpost).
  rewrite (Haccepts _ _ _ Hsend). reflexivity.
Qed.

Lemma dash_date_read_back (d : date) :
  valid d -> 1000 <= year d -> strptime_dmy (strftime_dmy d) = Return d.
Proof.
  intros Hv Hy. rewrite strftime_dmy_is_strftime, strptime_dmy_is_strptime.
  apply strptime_strftime; [exact Hv|exact Hy|left; reflexivity].
Qed.

Lemma dash_date_not_empty (d : date) :
  valid d -> 1000 <= year d -> strftime_dmy d <> [].
Proof.
  intros Hv Hy. rewrite strftime_dmy_is_strftime.
  destruct (@strftime_text DMY_DASH d Hv Hy ltac:(left; reflexivity))
    as (x1 & x2 & x3 & x4 & x5 & x6 & x7 & x8 & x9 & x10 & -> & _).
  discriminate.
Qed.

(** The cause list of a day.  Let the portal answer every request and
    accept every submission, and the solver answer every challenge.  Then
    [cause_list] makes one round and no more: it loads the main page,
    fetches the challenge, gives the image to the solver, and submits to
    the query address [cause_list_form] of the court, the bench, the
    solver's answer, the date as the caller gave it and the calendar as it
    stands when the form is built; it returns [parse_cause_list] of the
    answer to that form.  In the form [selprevdays] is 1 when the caller's
    date is a day before today, and 0 otherwise: for today or a later day,
    for no date, and for a text that is no date, which raises nothing and
    is sent as it is. *)
Theorem cause_list_asks_for_the_day (court : Court.t) (civil : bool)
    (bench_code causelist_date : str) (h : trace) :
  exists page image captcha selprevdays resp,
    cause_list L E cfg court civil bench_code causelist_date h
    = (h ++ [delay;
             Requested GET MAIN_PAGE_URL (referer (BASE_URL ++ lit "/"))
                       (Return page);
             delay;
             Requested GET CAPTCHA_IMAGE_URL (referer MAIN_PAGE_URL)
                       (Return image);
             Solved (content image) (Return captcha);
             delay;
             Requested POST INDEX_QRY_URL
               (submission
                  (cause_list_form
                     (today E (h ++ opening cfg page image captcha))
                     (Court.state_code court) bench_code captcha causelist_date
                     (if civil then lit "civ_t" else lit "cri_t") selprevdays))
               (Return resp)],
       Return (hcservices_parser.parse_cause_list L (text resp) BASE_URL))
    /\ (forall d, valid d -> 1000 <= year d -> causelist_date = strftime_dmy d ->
        selprevdays = if date_lt d (today E h) then lit "1" else lit "0")
    /\ (causelist_date = [] -> selprevdays = lit "0")
    /\ ((forall d, strptime_dmy causelist_date <> Return d) ->
        selprevdays = lit "0").
Proof.
  set (choice :=
         match causelist_date with
         | [] => ret (lit "0")
         | _ :: _ =>
             match strptime_dmy causelist_date with
             | Return sel =>
                 io_bind (date_today E)
                         (fun now => ret (if date_lt sel now then lit "1" else lit "0"))
             | Raise _ => ret (lit "0")
             end
         end).
  assert (Hsel : exists selprevdays,
             choice h = (h, Return selprevdays)
             /\ (forall d, valid d -> 1000 <= year d -> causelist_date = strftime_dmy d ->
                 selprevdays = if date_lt d (today E h) then lit "1" else lit "0")
             /\ (causelist_date = [] -> selprevdays = lit "0")
             /\ ((forall d, strptime_dmy causelist_date <> Return d) ->
                 selprevdays = lit "0")).
  { unfold choice. destruct causelist_date as [|c t] eqn:Htext.
    - exists (lit "0"). split; [reflexivity|].
      split; [|split; intros; reflexivity].
      intros d Hv Hy Hd. symmetry in Hd. destruct (dash_date_not_empty Hv Hy Hd).
    - destruct (strptime_dmy (c :: t)) as [sel|e] eqn:Hp.
      + exists (if date_lt sel (today E h) then lit "1" else lit "0").
        split; [reflexivity|]. split; [|split; [discriminate|]].
        * intros d Hv Hy Hd. rewrite Hd, (dash_date_read_back Hv Hy) in Hp.
          injection Hp as ->. reflexivity.
        * intros Hno. destruct (Hno sel eq_refl).
      + exists (lit "0"). split; [reflexivity|].
        split; [|split; intros; reflexivity].
        intros d Hv Hy Hd. rewrite Hd, (dash_date_read_back Hv Hy) in Hp.
        discriminate Hp. }
  destruct Hsel as (selprevdays & Hchoice & Hday & Hnone & Hbad).
  set (build_form := fun captcha : str =>
         io_bind (date_today E)
           (fun now => ret (cause_list_form now (Court.state_code court) bench_code
                              captcha causelist_date
                              (if civil then lit "civ_t" else lit "cri_t")
                              selprevdays))).
  assert (Hbuilds : builds build_form).
  { intros captcha h'. eexists. reflexivity. }
  destruct (accepted_round INDEX_QRY_URL h Hbuilds (n := 3) ltac:(lia))
    as (page & image & captcha & f & resp & Hrun & Hform).
  exists page, image, captcha, selprevdays, resp.
  split; [|split; [exact Hday|split; [exact Hnone|exact Hbad]]].
  unfold cause_list. fold choice. rewrite (io_bind_return _ Hchoice).
  fold build_form. rewrite (io_bind_return _ Hrun).
  unfold build_form, io_bind, date_today, ret in Hform.
  injection Hform as <-. reflexivity.
Qed.

End CauseListOfADay.

Section CauseListScenario.
Import Py models http run portal accepting datetime scenario cases.

(** The cause list of the day before [a_day], asked on [a_day]. *)
Lemma cause_list_asks_for_the_day_witness :
  exists page image captcha resp,
    hcservices_client.cause_list plain_libs accepting_portal (fast_config 1) delhi true
      (lit "1") (lit "14-02-2024") []
    = ([] ++ [Slept (Float (config.request_delay (fast_config 1)));
              Requested GET hcservices_endpoints.MAIN_PAGE_URL
                (hcservices_client.referer (hcservices_endpoints.BASE_URL ++ lit "/"))
                (Return page);
              Slept (Float (config.request_delay (fast_config 1)));
              Requested GET hcservices_endpoints.CAPTCHA_IMAGE_URL
                (hcservices_client.referer hcservices_endpoints.MAIN_PAGE_URL)
                (Return image);
              Solved (content image) (Return captcha);
              Slept (Float (config.request_delay (fast_config 1)));
              Requested POST hcservices_endpoints.INDEX_QRY_URL
                (submission
                   (hcservices_endpoints.cause_list_form a_day
                      (Court.state_code delhi) (lit "1") captcha (lit "14-02-2024")
                      (lit "civ_t") (lit "1")))
                (Return resp)],
        Return (hcservices_parser.parse_cause_list plain_libs (text resp)
                  hcservices_endpoints.BASE_URL)).
Proof.
  destruct (@cause_list_asks_for_the_day plain_libs accepting_portal (fast_config 1)
              ltac:(vm_compute; discriminate) accepting_portal_responsive
              accepting_portal_solver accepting_portal_accepts
              delhi true (lit "1") (lit "14-02-2024") [])
    as (page & image & captcha & selprevdays & resp & Hrun & Hday & _).
  exists page, image, captcha, resp. rewrite Hrun.
  rewrite (Hday (mkDate 2024 2 14)); [reflexivity|reflexivity|vm_compute; discriminate|reflexivity].
Defined.

End CauseListScenario.

(** ** What [to_json] is given *)

Section JsonSafe.
Import Py models serializable shape.

Lemma forallb_mapped {A B} (p : B -> bool) (f : A -> B) (l : list A) :
  forallb p (map f l) = forallb (fun x => p (f x)) l.
Proof.
  induction l as [|x l IH]; [reflexivity|]. cbn [map forallb]. rewrite IH. reflexivity.
Qed.

Lemma serialized_safe (v : value) : json_safe (_serialize_value v) = true.
Proof.
  induction v using value_induction; try reflexivity.
  - cbn [_serialize_value json_safe]. rewrite forallb_mapped.
    apply forallb_forall. intros x Hx. rewrite Forall_forall in H. apply (H x Hx).
  - cbn [_serialize_value json_safe]. rewrite forallb_mapped.
    apply forallb_forall. intros x Hx. rewrite Forall_forall in H. apply (H x Hx).
Qed.

Lemma set_safe (d : mapping.t value) (k : str) (v : value) :
  forallb (fun kv => json_safe (snd kv)) d = true ->
  json_safe v = true ->
  forallb (fun kv => json_safe (snd kv)) (mapping.set d k v) = true.
Proof.
  intros Hd Hv. induction d as [|[k' v'] d IH]; cbn [mapping.set forallb snd].
  - rewrite Hv. reflexivity.
  - cbn [forallb snd] in Hd. apply andb_prop in Hd. destruct Hd as [Hv' Hd].
    destruct (eqb k' k); cbn [forallb snd].
    + rewrite Hv, Hd. reflexivity.
    + rewrite Hv', (IH Hd). reflexivity.
Qed.

Lemma to_dict_safe (exclude_none : bool) (fields : list (str * value)) :
  json_safe (VDict (to_dict exclude_none fields)) = true.
Proof.
  cbn [json_safe]. unfold to_dict.
  assert (H : forall result,
             forallb (fun kv => json_safe (snd kv)) result = true ->
             forallb (fun kv => json_safe (snd kv))
               (fold_left
                  (fun result f =>
                     let serialized := _serialize_value (snd f) in
                     if exclude_none && is_None serialized then result
                     else mapping.set result (fst f) serialized)
                  fields result) = true); [|apply H; reflexivity].
  induction fields as [|f fields IH]; intros result Hr; [exact Hr|].
  cbn [fold_left]. apply IH. cbv zeta.
  destruct (exclude_none && is_None (_serialize_value (snd f))); [exact Hr|].
  apply set_safe; [exact Hr|apply serialized_safe].
Qed.

(** What [to_json] gives [json.dumps].  Whatever the fields of a record
    hold, at any depth of lists and dicts, the dict [to_dict] makes of
    them holds no [date], no member of an [Enum] and no [bytes]; and
    neither does the dict [SearchResult.to_dict] makes of a page, the
    dicts of its items included. *)
Theorem to_dict_is_json_safe (exclude_none : bool) :
  (forall fields, json_safe (VDict (to_dict exclude_none fields)) = true)
  /\ (forall item, json_safe (VDict (item_to_dict exclude_none item)) = true)
  /\ (forall page, json_safe (VDict (SearchResult_to_dict exclude_none page)) = true).
Proof.
  assert (Hitem : forall item,
             json_safe (VDict (item_to_dict exclude_none item)) = true).
  { intros [c|j|e]; apply to_dict_safe. }
  split; [apply to_dict_safe|]. split; [exact Hitem|].
  intros page. unfold SearchResult_to_dict.
  cbn [json_safe forallb snd andb]. rewrite andb_true_r, forallb_mapped.
  apply forallb_forall. intros item _. apply Hitem.
Qed.

End JsonSafe.
